(** * openGA: a shallow embedding of the genetic-algorithm engine

    The engine (openGA.hpp) and its dense matrix container (Matrix.hpp) are
    embedded function by function.  Numbers of C++ type [double] are kept
    abstract behind the class [Double]: the instance on [float] is IEEE
    binary64, what the compiled program computes, and is used to run the
    embedding on concrete inputs; the instance on [R] is the idealised
    arithmetic in which the general properties are stated.  [int] and
    [unsigned int] are [Z], the 32-bit wrap-around of unsigned arithmetic
    written out with [u32] where the source computes in [unsigned int]. *)

From Stdlib Require Import String.
From Stdlib Require Import ZArith List Bool Lia Permutation Sorted.
From Stdlib Require Import Reals Lra.
From Stdlib Require Floats.PrimFloat Floats.SpecFloat Floats.FloatOps.
From Stdlib Require Numbers.Cyclic.Int63.Uint63.
Import ListNotations.

Local Open Scope Z_scope.

(* ================================================================= *)
(** ** Numbers *)

(** The operations the engine performs on [double] values. *)
Class Double (F : Type) : Type := {
  d_of_int : Z -> F;            (* double(i) *)
  d_add : F -> F -> F;
  d_sub : F -> F -> F;
  d_mul : F -> F -> F;
  d_div : F -> F -> F;
  d_sqrt : F -> F;              (* sqrt *)
  d_abs : F -> F;               (* std::abs *)
  d_ltb : F -> F -> bool;       (* a < b *)
  d_leb : F -> F -> bool;       (* a <= b *)
  d_floor : F -> Z;             (* (unsigned int) std::floor(x) *)
  d_round : F -> Z              (* (unsigned int) std::round(x) *)
}.

(** [a > b] and [a >= b] are the swapped tests, as in C++. *)
Definition d_gtb {F} `{Double F} (a b : F) : bool := d_ltb b a.
Definition d_geb {F} `{Double F} (a b : F) : bool := d_leb b a.

(** The decimal constant [p/q] as the compiler reads it: the correctly
    rounded quotient in binary64, the exact one in [R]. *)
Definition ratio {F} `{Double F} (p q : Z) : F :=
  d_div (d_of_int p) (d_of_int q).

(** IEEE binary64. *)
Definition float : Set := PrimFloat.float.

Definition float_of_int (z : Z) : float :=
  FloatOps.SF2Prim
    (SpecFloat.binary_normalize FloatOps.prec FloatOps.emax z 0 false).

Definition float_floor (x : float) : Z :=
  match FloatOps.Prim2SF x with
  | SpecFloat.S754_finite s m e =>
      if 0 <=? e then (if s then - (Zpos m * 2 ^ e) else Zpos m * 2 ^ e)
      else if s then - ((Zpos m + 2 ^ (- e) - 1) / 2 ^ (- e))
           else Zpos m / 2 ^ (- e)
  | _ => 0
  end.

Definition float_round (x : float) : Z :=
  match FloatOps.Prim2SF x with
  | SpecFloat.S754_finite s m e =>
      let a := if 0 <=? e then Zpos m * 2 ^ e
               else (2 * Zpos m + 2 ^ (- e)) / 2 ^ (- e + 1) in
      if s then - a else a
  | _ => 0
  end.

#[export] Instance Double_float : Double float := {
  d_of_int := float_of_int;
  d_add := PrimFloat.add;
  d_sub := PrimFloat.sub;
  d_mul := PrimFloat.mul;
  d_div := PrimFloat.div;
  d_sqrt := PrimFloat.sqrt;
  d_abs := PrimFloat.abs;
  d_ltb := PrimFloat.ltb;
  d_leb := PrimFloat.leb;
  d_floor := float_floor;
  d_round := float_round
}.

(** [std::numeric_limits<double>::infinity()], which the reals lack. *)
Class Infinite (F : Type) : Type := d_infinity : F.

#[export] Instance Infinite_float : Infinite float := PrimFloat.infinity.

(** Idealised real arithmetic. *)
Definition R_ltb (a b : R) : bool := if Rlt_dec a b then true else false.
Definition R_leb (a b : R) : bool := if Rle_dec a b then true else false.
Definition R_round (x : R) : Z :=
  if Rle_dec 0 x then Int_part (x + / 2) else - Int_part (- x + / 2).

#[export] Instance Double_R : Double R := {
  d_of_int := IZR;
  d_add := Rplus;
  d_sub := Rminus;
  d_mul := Rmult;
  d_div := Rdiv;
  d_sqrt := sqrt;
  d_abs := Rabs;
  d_ltb := R_ltb;
  d_leb := R_leb;
  d_floor := Int_part;
  d_round := R_round
}.

(** [unsigned int] arithmetic wraps modulo 2^32. *)
Definition u32 (z : Z) : Z := z mod 2 ^ 32.

(* ================================================================= *)
(** ** Results of running a piece of the program *)

Inductive outcome (A : Type) : Type :=
| Ok (a : A)              (* normal return *)
| Throw (what : string)   (* throw runtime_error(what) *)
| Fault                   (* access outside a vector: undefined in C++ *)
| Timeout.                (* the iteration budget of the embedding ran out *)

Arguments Ok {A} a.
Arguments Throw {A} what.
Arguments Fault {A}.
Arguments Timeout {A}.

Definition bind {A B} (m : outcome A) (k : A -> outcome B) : outcome B :=
  match m with
  | Ok a => k a
  | Throw w => Throw w
  | Fault => Fault
  | Timeout => Timeout
  end.

Notation "x <- m ;; k" := (bind m (fun x => k))
  (at level 61, m at next level, right associativity).
Notation "' p <- m ;; k" := (bind m (fun x => let p := x in k))
  (at level 61, p pattern, m at next level, right associativity).

(** [v[i]] and [v[i] = x] on a [std::vector]. *)
Definition vget {A} (v : list A) (i : Z) : outcome A :=
  if i <? 0 then Fault
  else match nth_error v (Z.to_nat i) with
       | Some x => Ok x
       | None => Fault
       end.

Fixpoint replace_nth {A} (v : list A) (n : nat) (x : A) : list A :=
  match v, n with
  | [], _ => []
  | _ :: v', O => x :: v'
  | y :: v', S n' => y :: replace_nth v' n' x
  end.

Definition vset {A} (v : list A) (i : Z) (x : A) : outcome (list A) :=
  if (0 <=? i) && (i <? Z.of_nat (length v))
  then Ok (replace_nth v (Z.to_nat i) x)
  else Fault.

Definition vsize {A} (v : list A) : Z := Z.of_nat (length v).

(** [for (i = lo; i < hi; i++) body], for loops that neither break nor
    change their bounds; [n] is the number of iterations. *)
Fixpoint for_loop {St} (n : nat) (i : Z) (body : Z -> St -> outcome St) (s : St)
  : outcome St :=
  match n with
  | O => Ok s
  | S n' => s' <- body i s ;; for_loop n' (i + 1) body s'
  end.

Definition for_range {St} (lo hi : Z) (body : Z -> St -> outcome St) (s : St)
  : outcome St :=
  for_loop (Z.to_nat (hi - lo)) lo body s.

(** [for (x : v) body]. *)
Fixpoint for_each {A St} (v : list A) (body : A -> St -> outcome St) (s : St)
  : outcome St :=
  match v with
  | [] => Ok s
  | x :: v' => s' <- body x s ;; for_each v' body s'
  end.

(** [while (cond) body], with an iteration budget. *)
Fixpoint while_loop {St} (fuel : nat) (cond : St -> outcome bool)
  (body : St -> outcome St) (s : St) : outcome St :=
  match fuel with
  | O => Timeout
  | S fuel' =>
      b <- cond s ;;
      if b then s' <- body s ;; while_loop fuel' cond body s' else Ok s
  end.

(* ================================================================= *)
(** ** Matrix.hpp *)

Module Matrix.
Section Matrix.
Context {T : Type}.

Record t : Type := mk {
  n_rows : Z;          (* unsigned int *)
  n_cols : Z;          (* unsigned int *)
  data : list T
}.

(** What [print] sends to [cout]. *)
Inductive token : Type :=
| Tab
| Val (x : T)
| Endl.

Definition default : t := mk 0 0 [].

Definition sized (z : T) (rows cols : Z) : t :=
  mk rows cols (repeat z (Z.to_nat (u32 (rows * cols)))).

Definition zeros (z : T) (m : t) : t :=
  mk (n_rows m) (n_cols m) (map (fun _ => z) (data m)).

Definition zeros_sized (z : T) (rows cols : Z) : t :=
  mk rows cols (repeat z (Z.to_nat (u32 (rows * cols)))).

Definition empty (m : t) : bool :=
  match data m with
  | [] => true
  | _ :: _ => false
  end.

Definition get_n_rows (m : t) : Z := n_rows m.
Definition get_n_cols (m : t) : Z := n_cols m.

Definition clear (m : t) : t := mk 0 0 [].

(** [operator()(row, col)]: [data[row * n_cols + col]], the index computed
    in [unsigned int]. *)
Definition index (m : t) (row col : Z) : Z := u32 (row * n_cols m + col).

Definition at_ (m : t) (row col : Z) : outcome T :=
  vget (data m) (index m row col).

Definition set_at (m : t) (row col : Z) (x : T) : outcome t :=
  d <- vset (data m) (index m row col) x ;;
  Ok (mk (n_rows m) (n_cols m) d).

(** [row_vector.resize(n_cols)] followed by the copy loop. *)
Definition get_row (m : t) (row_idx : Z) : outcome (list T) :=
  for_range 0 (n_cols m)
    (fun i row_vector => x <- at_ m row_idx i ;; Ok (row_vector ++ [x])) [].

Definition get_col (m : t) (col_idx : Z) : outcome (list T) :=
  for_range 0 (n_rows m)
    (fun i col_vector => x <- at_ m i col_idx ;; Ok (col_vector ++ [x])) [].

Definition set_row (m : t) (row_idx : Z) (row_vector : list T) : outcome t :=
  for_range 0 (n_cols m)
    (fun i m' => x <- vget row_vector i ;; set_at m' row_idx i x) m.

Definition set_col (m : t) (col_idx : Z) (col_vector : list T) : outcome t :=
  for_range 0 (n_rows m)
    (fun i m' => x <- vget col_vector i ;; set_at m' i col_idx x) m.

(** [data.resize(n)]: keep the first [n] elements, pad with [z]. *)
Definition resize (z : T) (n : nat) (d : list T) : list T :=
  firstn n d ++ repeat z (n - length d).

(** [operator=(const vector<vector<T>>&)]; [z] is [T{}]. *)
Definition assign (z : T) (m : t) (A : list (list T)) : outcome t :=
  let A_rows := u32 (vsize A) in
  let A_cols := match A with
                | [] => 0
                | A0 :: _ => if 0 <? A_rows then u32 (vsize A0) else 0
                end in
  if (0 <? A_rows) && (0 <? A_cols) then
    let m0 := mk A_rows A_cols
                (resize z (Z.to_nat (u32 (A_rows * A_cols))) (data m)) in
    for_range 0 A_rows
      (fun i m1 =>
         Ai <- vget A i ;;
         for_range 0 A_cols
           (fun j m2 => Aij <- vget Ai j ;; set_at m2 i j Aij) m1) m0
  else Ok (mk A_rows A_cols []).

(** [print]: the tokens written, then [data.clear()]. *)
Definition print (m : t) : outcome (list token * t) :=
  out <- for_range 0 (n_rows m)
           (fun i out =>
              out' <- for_range 0 (n_cols m)
                        (fun j out => x <- at_ m i j ;; Ok (out ++ [Tab; Val x]))
                        out ;;
              Ok (out' ++ [Endl])) [] ;;
  Ok (out, mk (n_rows m) (n_cols m) []).

(** The class invariant the constructors establish. *)
Definition well_formed (m : t) : Prop :=
  0 <= n_rows m /\ 0 <= n_cols m /\ vsize (data m) = n_rows m * n_cols m.

End Matrix.
Arguments t : clear implicits.
Arguments token : clear implicits.
End Matrix.

(* ================================================================= *)
(** ** openGA.hpp: data *)

Inductive GaMode : Type := SOGA | IGA | NSGA_III.

Inductive StopReason : Type :=
| Undefined | MaxGenerations | StallAverage | StallBest | UserRequest.

Section Engine.
Context {F : Type} `{Double F}.
Context {GeneType MiddleCostType : Type}.

Record ChromosomeType : Type := mkChromosome {
  genes : GeneType;
  middle_costs : MiddleCostType;
  total_cost : F;            (* for single objective *)
  objectives : list F        (* for multi-objective *)
}.

(** [dominates(a, b)]. *)
Fixpoint any_exceeds (xs ys : list F) : bool :=
  match xs, ys with
  | x :: xs', y :: ys' => if d_gtb x y then true else any_exceeds xs' ys'
  | _, _ => false
  end.

Fixpoint any_below (xs ys : list F) : bool :=
  match xs, ys with
  | x :: xs', y :: ys' => if d_ltb x y then true else any_below xs' ys'
  | _, _ => false
  end.

Definition dominates (a b : ChromosomeType) : outcome bool :=
  if negb (length (objectives a) =? length (objectives b))%nat
  then Throw "vector size mismatch A73592753!"
  else if any_exceeds (objectives a) (objectives b) then Ok false
  else if any_below (objectives a) (objectives b) then Ok true
  else Ok false.

Record GenerationType : Type := mkGeneration {
  chromosomes : list ChromosomeType;
  best_total_cost : F;               (* for single objective *)
  average_cost : F;                  (* for single objective *)
  best_chromosome_index : Z;         (* for single objective *)
  sorted_indices : list Z;           (* for single objective *)
  fronts : list (list Z);            (* for multi-objective *)
  selection_chance_cumulative : list F
}.

Definition set_chromosomes (g : GenerationType) (cs : list ChromosomeType) :=
  mkGeneration cs (best_total_cost g) (average_cost g)
    (best_chromosome_index g) (sorted_indices g) (fronts g)
    (selection_chance_cumulative g).

Definition set_sorted_indices (g : GenerationType) (si : list Z) :=
  mkGeneration (chromosomes g) (best_total_cost g) (average_cost g)
    (best_chromosome_index g) si (fronts g) (selection_chance_cumulative g).

Definition set_selection_chance_cumulative (g : GenerationType)
  (table : list F) :=
  mkGeneration (chromosomes g) (best_total_cost g) (average_cost g)
    (best_chromosome_index g) (sorted_indices g) (fronts g) table.

Definition set_fronts (g : GenerationType) (x : list (list Z)) :=
  mkGeneration (chromosomes g) (best_total_cost g) (average_cost g)
    (best_chromosome_index g) (sorted_indices g) x
    (selection_chance_cumulative g).

Definition set_best (g : GenerationType) (best average : F) (index : Z) :=
  mkGeneration (chromosomes g) best average index (sorted_indices g)
    (fronts g) (selection_chance_cumulative g).

Definition set_total_cost (c : ChromosomeType) (x : F) : ChromosomeType :=
  mkChromosome (genes c) (middle_costs c) x (objectives c).

Definition set_objectives (c : ChromosomeType) (x : list F) : ChromosomeType :=
  mkChromosome (genes c) (middle_costs c) (total_cost c) x.

(** The random generator: [random01] hands out the next draw of a sequence
    fixed in advance (the seeded [mt19937_64] stream, seen from outside). *)
Record Rng : Type := mkRng {
  rng_draws : nat -> F;
  rng_next : nat
}.

Definition random01 (rng : Rng) : F * Rng :=
  (rng_draws rng (rng_next rng), mkRng (rng_draws rng) (S (rng_next rng))).

(** [generate_selection_chance(gen, rank)]; [population] is the engine's
    field.  The second loop divides in place, reading entry
    [population - 1] again at every step. *)
Definition generate_selection_chance (population : Z) (gen : GenerationType)
  (rank : list Z) : outcome GenerationType :=
  let N := u32 (vsize (chromosomes gen)) in
  '(_, table) <-
    for_range 0 N
      (fun i '(chance_cumulative, table) =>
         rank_i <- vget rank i ;;
         let chance_cumulative :=
           d_add chance_cumulative
             (d_div (d_of_int 1) (d_sqrt (d_of_int (rank_i + 1)))) in
         Ok (chance_cumulative, table ++ [chance_cumulative]))
      (d_of_int 0, []) ;;
  table <-
    for_range 0 N
      (fun i table =>
         x <- vget table i ;;
         y <- vget table (u32 (population - 1)) ;;
         vset table i (d_div x y))
      table ;;
  Ok (set_selection_chance_cumulative gen table).

(** [select_parent(g)]. *)
Definition select_parent (g : GenerationType) (rng : Rng)
  : outcome (Z * Rng) :=
  let N_max := vsize (chromosomes g) in
  let '(r, rng) := random01 rng in
  position <-
    while_loop (S (Z.to_nat N_max))
      (fun position =>
         if position <? N_max then
           c <- vget (selection_chance_cumulative g) position ;;
           Ok (d_ltb c r)
         else Ok false)
      (fun position => Ok (position + 1))
      0 ;;
  Ok (position, rng).

(** [gen.chromosomes[i].total_cost]. *)
Definition cost_at (gen : GenerationType) (i : Z) : outcome F :=
  c <- vget (chromosomes gen) i ;; Ok (total_cost c).

(** The three-statement exchange of [array_indices[a]] and
    [array_indices[b]]. *)
Definition swap_indices (array_indices : list Z) (a b : Z)
  : outcome (list Z) :=
  temp <- vget array_indices a ;;
  y <- vget array_indices b ;;
  array_indices <- vset array_indices a y ;;
  vset array_indices b temp.

(** [while ((gen.chromosomes[array_indices[l]].total_cost <= x) && (l < right)) l++;] *)
Definition scan_l (fuel : nat) (gen : GenerationType) (array_indices : list Z)
  (x : F) (right l : Z) : outcome Z :=
  while_loop fuel
    (fun l =>
       a <- vget array_indices l ;;
       c <- cost_at gen a ;;
       Ok (d_leb c x && (l <? right)))
    (fun l => Ok (l + 1)) l.

(** [while ((gen.chromosomes[array_indices[r]].total_cost > x) && (r >= left)) r--;] *)
Definition scan_r (fuel : nat) (gen : GenerationType) (array_indices : list Z)
  (x : F) (left r : Z) : outcome Z :=
  while_loop fuel
    (fun r =>
       a <- vget array_indices r ;;
       c <- cost_at gen a ;;
       Ok (d_gtb c x && (left <=? r)))
    (fun r => Ok (r - 1)) r.

(** The body of [while (l < r)]. *)
Definition partition_step (fuel : nat) (gen : GenerationType) (x : F)
  (left right : Z) (s : list Z * Z * Z) : outcome (list Z * Z * Z) :=
  let '(array_indices, l, r) := s in
  l <- scan_l fuel gen array_indices x right l ;;
  r <- scan_r fuel gen array_indices x left r ;;
  array_indices <-
    (if l <? r then swap_indices array_indices l r else Ok array_indices) ;;
  Ok (array_indices, l, r).

(** The partition phase of [quicksort_indices_SO], from the choice of the
    pivot [x] to the exchange that puts it at [middle]; it returns the array
    and [middle].  [fuel] bounds the iterations of each loop. *)
Definition quicksort_partition (fuel : nat) (gen : GenerationType)
  (array_indices : list Z) (left right : Z) : outcome (list Z * Z) :=
  a_left <- vget array_indices left ;;
  x <- cost_at gen a_left ;;
  '(array_indices, l, r) <-
    while_loop fuel
      (fun '(_, l, r) => Ok (l <? r))
      (partition_step fuel gen x left right)
      (array_indices, left, right) ;;
  let middle := r in
  array_indices <- swap_indices array_indices left middle ;;
  Ok (array_indices, middle).

(** [quicksort_indices_SO(array_indices, gen, left, right)].  [fuel] bounds
    the depth of the recursion as well. *)
Fixpoint quicksort_indices_SO (fuel : nat) (gen : GenerationType)
  (array_indices : list Z) (left right : Z) : outcome (list Z) :=
  if left <? right then
    match fuel with
    | O => Timeout
    | S fuel' =>
        '(array_indices, middle) <-
          quicksort_partition fuel gen array_indices left right ;;
        array_indices <-
          quicksort_indices_SO fuel' gen array_indices left (middle - 1) ;;
        quicksort_indices_SO fuel' gen array_indices (middle + 1) right
    end
  else Ok array_indices.

(** The library sort, [std::sort(first, last, comp)], is not part of the
    repository: it is a parameter, and the properties that depend on it
    assume its contract. *)
Variable std_sort : (Z -> Z -> bool) -> list Z -> list Z.

(** The comparator handed to [std::sort]; it is only ever applied to
    elements of [sorted_indices], which index [gen.chromosomes]. *)
Definition cost_less (gen : GenerationType) (a b : Z) : bool :=
  match cost_at gen a, cost_at gen b with
  | Ok ca, Ok cb => d_ltb ca cb
  | _, _ => false
  end.

(** [rank_population_SO(gen)]; [use_quick_sort] and [population] are the
    engine's fields. *)
Definition rank_population_SO (use_quick_sort : bool) (population : Z)
  (gen : GenerationType) : outcome GenerationType :=
  let N := vsize (chromosomes gen) in
  indices <- for_range 0 N (fun i indices => Ok (indices ++ [i])) [] ;;
  indices <-
    (if use_quick_sort
     then quicksort_indices_SO (S (length indices)) gen indices 0
            (vsize indices - 1)
     else Ok (std_sort (cost_less gen) indices)) ;;
  let gen := set_sorted_indices gen indices in
  ranks <-
    for_range 0 (vsize (chromosomes gen))
      (fun i ranks => s <- vget (sorted_indices gen) i ;; vset ranks s i)
      (repeat 0 (length (chromosomes gen))) ;;
  generate_selection_chance population gen ranks.

(** Arithmetic in [int]: signed overflow is undefined in C++, so a result
    outside the range of [int] is a fault. *)
Definition int_checked (z : Z) : outcome Z :=
  if (- 2 ^ 31 <=? z) && (z <? 2 ^ 31) then Ok z else Fault.

(** [fast_combination_count(N, r)], in [int] arithmetic: [r * 2], [N - r],
    [N - i + 1] and the product [nCr * (N - i + 1)] are each checked against
    the range of [int]; the division truncates. *)
Definition fast_combination_count (N r : Z) : outcome Z :=
  r2 <- int_checked (r * 2) ;;
  r <- (if N <? r2 then int_checked (N - r) else Ok r) ;;
  if r =? 0 then Ok 1
  else
    for_range 2 (r + 1)
      (fun i nCr =>
         d <- int_checked (N - i + 1) ;;
         p <- int_checked (nCr * d) ;;
         Ok (Z.quot p i))
      N.

(** [get_number_reference_vectors(N_objectives, N_divisions)]. *)
Definition get_number_reference_vectors (N_objectives N_divisions : Z)
  : outcome Z :=
  sum <- int_checked (N_objectives + N_divisions) ;;
  N <- int_checked (sum - 1) ;;
  fast_combination_count N N_divisions.

(** [generate_integerReferenceVectors(dept, N_division)]; the vector [v2]
    built element by element is [i] followed by [v1].  [fuel] bounds the
    depth of the recursion. *)
Fixpoint generate_integerReferenceVectors_rec (fuel : nat)
  (dept N_division : Z) : outcome (list (list F)) :=
  if dept <? 1 then Throw "wrong vector dept!"
  else if dept =? 1 then Ok [[d_of_int N_division]]
  else
    match fuel with
    | O => Timeout
    | S fuel' =>
        for_range 0 (N_division + 1)
          (fun i result =>
             tail <- generate_integerReferenceVectors_rec fuel' (dept - 1)
                       (N_division - i) ;;
             for_range 0 (vsize tail)
               (fun j result =>
                  v1 <- vget tail j ;;
                  let v2 := d_of_int i :: v1 in
                  Ok (result ++ [v2]))
               result)
          []
    end.

Definition generate_integerReferenceVectors (dept N_division : Z)
  : outcome (list (list F)) :=
  generate_integerReferenceVectors_rec (Z.to_nat dept) dept N_division.

(** [generate_referenceVectors(dept, N_division)]. *)
Definition generate_referenceVectors (dept N_division : Z)
  : outcome (Matrix.t F) :=
  vectors <- generate_integerReferenceVectors dept N_division ;;
  A <- Matrix.assign (d_of_int 0) Matrix.default vectors ;;
  for_range 0 (Matrix.get_n_rows A)
    (fun i A =>
       for_range 0 (Matrix.get_n_cols A)
         (fun j A =>
            x <- Matrix.at_ A i j ;;
            Matrix.set_at A i j (d_div x (d_of_int N_division)))
         A)
    A.

(* ----------------------------------------------------------------- *)
(** *** The engine: class [Genetic] *)

(** The public configuration fields and the callbacks, which the engine
    reads and never writes.  A callback left at [nullptr] is [None]; a
    callback that takes [rnd01] consumes draws of the generator.  The
    evaluation callbacks return the middle cost they wrote when they accept
    the genes, and [None] when they reject them. *)
Record Settings : Type := mkSettings {
  problem_mode : GaMode;
  population : Z;                      (* unsigned int *)
  crossover_fraction : F;
  mutation_rate : F;
  verbose : bool;
  elite_count : Z;
  generation_max : Z;
  tol_stall_average : F;
  average_stall_max : Z;
  tol_stall_best : F;
  best_stall_max : Z;
  enable_reference_vectors : bool;
  multi_threading : bool;
  dynamic_threading : bool;
  N_threads : Z;
  user_request_stop : bool;
  use_quick_sort : bool;
  user_initial_solutions : list GeneType;
  calculate_IGA_total_fitness : option (GenerationType -> GenerationType);
  calculate_SO_total_fitness : option (ChromosomeType -> F);
  calculate_MO_objectives : option (ChromosomeType -> list F);
  distribution_objective_reductions : option (list F -> list F);
  init_genes : option (GeneType -> Rng -> GeneType * Rng);
  eval_solution : option (GeneType -> MiddleCostType -> option MiddleCostType);
  eval_solution_IGA :
    option (GeneType -> MiddleCostType -> GenerationType -> option MiddleCostType);
  mutate : option (GeneType -> F -> Rng -> GeneType * Rng);
  crossover : option (GeneType -> GeneType -> Rng -> GeneType * Rng);
  SO_report_generation : option unit;
  MO_report_generation : option unit;
  get_shrink_scale : Z -> Rng -> F * Rng
}.

(** A call of a report callback: the generation step and the generation
    reported. *)
Record Report : Type := mkReport {
  report_step : Z;
  report_generation_ : GenerationType
}.

(** The fields the engine writes while it runs. *)
Record State : Type := mkState {
  rng : Rng;
  average_stall_count : Z;
  best_stall_count : Z;
  ideal_objectives : list F;
  extreme_objectives : Matrix.t F;
  scalarized_objectives_min : list F;
  reference_vectors : Matrix.t F;
  N_robj : Z;                              (* unsigned int *)
  generation_step : Z;
  reference_vector_divisions : Z;          (* unsigned int *)
  generations_so_abs : list (F * F);       (* best_total_cost, average_cost *)
  last_generation : GenerationType;
  reports : list Report                    (* the calls of the report callback *)
}.

Definition set_rng (s : State) (x : Rng) : State :=
  mkState x (average_stall_count s) (best_stall_count s) (ideal_objectives s)
    (extreme_objectives s) (scalarized_objectives_min s) (reference_vectors s)
    (N_robj s) (generation_step s) (reference_vector_divisions s)
    (generations_so_abs s) (last_generation s) (reports s).

Definition set_stall_counts (s : State) (average best : Z) : State :=
  mkState (rng s) average best (ideal_objectives s)
    (extreme_objectives s) (scalarized_objectives_min s) (reference_vectors s)
    (N_robj s) (generation_step s) (reference_vector_divisions s)
    (generations_so_abs s) (last_generation s) (reports s).

Definition set_generation_step (s : State) (x : Z) : State :=
  mkState (rng s) (average_stall_count s) (best_stall_count s)
    (ideal_objectives s) (extreme_objectives s) (scalarized_objectives_min s)
    (reference_vectors s) (N_robj s) x (reference_vector_divisions s)
    (generations_so_abs s) (last_generation s) (reports s).

Definition set_generations_so_abs (s : State) (x : list (F * F)) : State :=
  mkState (rng s) (average_stall_count s) (best_stall_count s)
    (ideal_objectives s) (extreme_objectives s) (scalarized_objectives_min s)
    (reference_vectors s) (N_robj s) (generation_step s)
    (reference_vector_divisions s) x (last_generation s) (reports s).

Definition set_last_generation (s : State) (x : GenerationType) : State :=
  mkState (rng s) (average_stall_count s) (best_stall_count s)
    (ideal_objectives s) (extreme_objectives s) (scalarized_objectives_min s)
    (reference_vectors s) (N_robj s) (generation_step s)
    (reference_vector_divisions s) (generations_so_abs s) x (reports s).

Definition set_reports (s : State) (x : list Report) : State :=
  mkState (rng s) (average_stall_count s) (best_stall_count s)
    (ideal_objectives s) (extreme_objectives s) (scalarized_objectives_min s)
    (reference_vectors s) (N_robj s) (generation_step s)
    (reference_vector_divisions s) (generations_so_abs s) (last_generation s) x.

Definition set_ideal_objectives (s : State) (x : list F) : State :=
  mkState (rng s) (average_stall_count s) (best_stall_count s) x
    (extreme_objectives s) (scalarized_objectives_min s) (reference_vectors s)
    (N_robj s) (generation_step s) (reference_vector_divisions s)
    (generations_so_abs s) (last_generation s) (reports s).

Definition set_extreme_objectives (s : State) (x : Matrix.t F) : State :=
  mkState (rng s) (average_stall_count s) (best_stall_count s)
    (ideal_objectives s) x (scalarized_objectives_min s) (reference_vectors s)
    (N_robj s) (generation_step s) (reference_vector_divisions s)
    (generations_so_abs s) (last_generation s) (reports s).

Definition set_scalarized_objectives_min (s : State) (x : list F) : State :=
  mkState (rng s) (average_stall_count s) (best_stall_count s)
    (ideal_objectives s) (extreme_objectives s) x (reference_vectors s)
    (N_robj s) (generation_step s) (reference_vector_divisions s)
    (generations_so_abs s) (last_generation s) (reports s).

Definition set_reference_vectors (s : State) (x : Matrix.t F) : State :=
  mkState (rng s) (average_stall_count s) (best_stall_count s)
    (ideal_objectives s) (extreme_objectives s) (scalarized_objectives_min s) x
    (N_robj s) (generation_step s) (reference_vector_divisions s)
    (generations_so_abs s) (last_generation s) (reports s).

Definition set_N_robj (s : State) (x : Z) : State :=
  mkState (rng s) (average_stall_count s) (best_stall_count s)
    (ideal_objectives s) (extreme_objectives s) (scalarized_objectives_min s)
    (reference_vectors s) x (generation_step s) (reference_vector_divisions s)
    (generations_so_abs s) (last_generation s) (reports s).

Definition set_reference_vector_divisions (s : State) (x : Z) : State :=
  mkState (rng s) (average_stall_count s) (best_stall_count s)
    (ideal_objectives s) (extreme_objectives s) (scalarized_objectives_min s)
    (reference_vectors s) (N_robj s) (generation_step s) x
    (generations_so_abs s) (last_generation s) (reports s).

(** A method of the engine: it runs on the object's state and leaves a
    state behind whether it returns or throws. *)
Definition Eng (A : Type) : Type := State -> State * outcome A.

Definition ret {A} (a : A) : Eng A := fun s => (s, Ok a).

Definition raise {A} (what : string) : Eng A := fun s => (s, Throw what).

Definition lift {A} (o : outcome A) : Eng A := fun s => (s, o).

Definition ebind {A B} (m : Eng A) (k : A -> Eng B) : Eng B :=
  fun s =>
    match m s with
    | (s', Ok a) => k a s'
    | (s', Throw w) => (s', Throw w)
    | (s', Fault) => (s', Fault)
    | (s', Timeout) => (s', Timeout)
    end.

Definition get_state : Eng State := fun s => (s, Ok s).

Definition update_state (f : State -> State) : Eng unit :=
  fun s => (f s, Ok tt).

(** Run a computation that consumes draws on the engine's generator. *)
Definition with_rng {A} (f : Rng -> outcome (A * Rng)) : Eng A :=
  fun s =>
    match f (rng s) with
    | Ok (a, rng') => (set_rng s rng', Ok a)
    | Throw w => (s, Throw w)
    | Fault => (s, Fault)
    | Timeout => (s, Timeout)
    end.

End Engine.

Arguments ChromosomeType : clear implicits.
Arguments GenerationType : clear implicits.
Arguments Rng : clear implicits.
Arguments Settings : clear implicits.
Arguments State : clear implicits.
Arguments Report : clear implicits.
Arguments Eng : clear implicits.

Notation "x <~ m ;; k" := (ebind m (fun x => k))
  (at level 61, m at next level, right associativity).
Notation "' p <~ m ;; k" := (ebind m (fun x => let p := x in k))
  (at level 61, p pattern, m at next level, right associativity).

Section Methods.
Context {F : Type} `{Double F} {Inf : Infinite F}.
Context {GeneType MiddleCostType : Type}.

(** The library sort (a parameter, as above) and the values of the default
    constructors [GeneType()] and [MiddleCostType()]. *)
Variable std_sort : (Z -> Z -> bool) -> list Z -> list Z.
Variable default_genes : GeneType.
Variable default_middle_costs : MiddleCostType.

Local Notation Chromosome := (ChromosomeType F GeneType MiddleCostType).
Local Notation Generation := (GenerationType F GeneType MiddleCostType).
Local Notation Config := (Settings F GeneType MiddleCostType).
Local Notation Method := (Eng F GeneType MiddleCostType).

(** [for (i = lo; i < hi; i++) body] where the body is a method. *)
Fixpoint efor_loop {St} (n : nat) (i : Z) (body : Z -> St -> Method St) (x : St)
  : Method St :=
  match n with
  | O => ret x
  | S n' => x' <~ body i x ;; efor_loop n' (i + 1) body x'
  end.

Definition efor_range {St} (lo hi : Z) (body : Z -> St -> Method St) (x : St)
  : Method St :=
  efor_loop (Z.to_nat (hi - lo)) lo body x.

Definition throw_if (b : bool) (what : string) : outcome unit :=
  if b then Throw what else Ok tt.

Definition is_null {A} (callback : option A) : bool :=
  match callback with
  | None => true
  | Some _ => false
  end.

Definition is_single_objective (cfg : Config) : bool :=
  match problem_mode cfg with
  | SOGA => true
  | IGA => true
  | NSGA_III => false
  end.

Definition is_interactive (cfg : Config) : bool :=
  match problem_mode cfg with
  | SOGA => false
  | IGA => true
  | NSGA_III => false
  end.

(** [check_settings()]. *)
Definition check_settings (cfg : Config) : outcome unit :=
  _ <- (if is_interactive cfg then
          _ <- throw_if (is_null (calculate_IGA_total_fitness cfg))
                 "calculate_IGA_total_fitness is null in interactive mode!" ;;
          _ <- throw_if (negb (is_null (calculate_SO_total_fitness cfg)))
                 "calculate_SO_total_fitness is not null in interactive mode!" ;;
          _ <- throw_if (negb (is_null (calculate_MO_objectives cfg)))
                 "calculate_MO_objectives is not null in interactive mode!" ;;
          _ <- throw_if (negb (is_null (distribution_objective_reductions cfg)))
                 "distribution_objective_reductions is not null in interactive mode!" ;;
          _ <- throw_if (negb (is_null (MO_report_generation cfg)))
                 "MO_report_generation is not null in interactive mode!" ;;
          _ <- throw_if (is_null (eval_solution_IGA cfg))
                 "eval_solution_IGA is null in interactive mode!" ;;
          throw_if (negb (is_null (eval_solution cfg)))
            "eval_solution is not null in interactive mode (use eval_solution_IGA instead)!"
        else
          _ <- throw_if (negb (is_null (calculate_IGA_total_fitness cfg)))
                 "calculate_IGA_total_fitness is not null in non-interactive mode!" ;;
          _ <- throw_if (negb (is_null (eval_solution_IGA cfg)))
                 "eval_solution_IGA is not null in non-interactive mode!" ;;
          _ <- throw_if (is_null (eval_solution cfg)) "eval_solution is null!" ;;
          if is_single_objective cfg then
            _ <- throw_if (is_null (calculate_SO_total_fitness cfg))
                   "calculate_SO_total_fitness is null in single objective mode!" ;;
            _ <- throw_if (negb (is_null (calculate_MO_objectives cfg)))
                   "calculate_MO_objectives is not null in single objective mode!" ;;
            _ <- throw_if (negb (is_null (distribution_objective_reductions cfg)))
                   "distribution_objective_reductions is not null in single objective mode!" ;;
            throw_if (negb (is_null (MO_report_generation cfg)))
              "MO_report_generation is not null in single objective mode!"
          else
            _ <- throw_if (negb (is_null (calculate_SO_total_fitness cfg)))
                   "calculate_SO_total_fitness is no null in multi-objective mode!" ;;
            _ <- throw_if (is_null (calculate_MO_objectives cfg))
                   "calculate_MO_objectives is null in multi-objective mode!" ;;
            throw_if (is_null (MO_report_generation cfg))
              "MO_report_generation is null in multi-objective mode!") ;;
  _ <- throw_if (is_null (init_genes cfg)) "init_genes is not adjusted." ;;
  _ <- throw_if (is_null (mutate cfg)) "mutate is not adjusted." ;;
  _ <- throw_if (is_null (crossover cfg)) "crossover is not adjusted." ;;
  _ <- throw_if (N_threads cfg <? 1) "Number of threads is below 1." ;;
  _ <- throw_if (population cfg <? 1) "population is below 1." ;;
  if is_single_objective cfg then
    _ <- throw_if (is_null (SO_report_generation cfg))
           "SO_report_generation is not adjusted while problem mode is single-objective" ;;
    throw_if (negb (is_null (MO_report_generation cfg)))
      "MO_report_generation is adjusted while problem mode is single-objective"
  else
    _ <- throw_if (negb (is_null (SO_report_generation cfg)))
           "SO_report_generation is adjusted while problem mode is multi-objective" ;;
    throw_if (is_null (MO_report_generation cfg))
      "MO_report_generation is not adjusted while problem mode is multi-objective".

(** [stop_critera()]. *)
Definition stop_critera (cfg : Config) : Method StopReason :=
  s <~ get_state ;;
  if (generation_step s <? 2) && negb (user_request_stop cfg) then ret Undefined
  else
    _ <~ (if is_single_objective cfg then
            let history := generations_so_abs s in
            g1 <~ lift (vget history (vsize history - 2)) ;;
            g2 <~ lift (vget history (vsize history - 1)) ;;
            let best :=
              if d_ltb (d_abs (d_sub (fst g1) (fst g2))) (tol_stall_best cfg)
              then best_stall_count s + 1 else 0 in
            let average :=
              if d_ltb (d_abs (d_sub (snd g1) (snd g2))) (tol_stall_average cfg)
              then average_stall_count s + 1 else 0 in
            update_state (fun s => set_stall_counts s average best)
          else ret tt) ;;
    s <~ get_state ;;
    if generation_max cfg <=? generation_step s then ret MaxGenerations
    else if average_stall_max cfg <=? average_stall_count s then ret StallAverage
    else if best_stall_max cfg <=? best_stall_count s then ret StallBest
    else if user_request_stop cfg then ret UserRequest
    else ret Undefined.

(** The [do ... while (!allowed)] loop of [select_population_SO]: draw a
    parent until one is drawn that [blocked] does not contain.  [fuel]
    bounds the number of draws. *)
Fixpoint select_unblocked (fuel : nat) (g : Generation) (blocked : list Z)
  : Method Z :=
  match fuel with
  | O => lift Timeout
  | S fuel' =>
      j <~ with_rng (select_parent g) ;;
      if existsb (fun b => b =? j) blocked
      then select_unblocked fuel' g blocked
      else ret j
  end.

(** [select_population_SO(g, g2)]. *)
Definition select_population_SO (cfg : Config) (fuel : nat)
  (g g2 : Generation) : Method Generation :=
  s <~ get_state ;;
  if generation_step s <=? 0 then ret g
  else
    '(g2, blocked) <~
      lift (for_range 0 (elite_count cfg)
              (fun i '(g2, blocked) =>
                 e <- vget (sorted_indices g) i ;;
                 c <- vget (chromosomes g) e ;;
                 Ok (set_chromosomes g2 (chromosomes g2 ++ [c]),
                     blocked ++ [e]))
              (g2, [])) ;;
    '(g2, blocked) <~
      efor_range 0 (population cfg - elite_count cfg)
        (fun i '(g2, blocked) =>
           j <~ select_unblocked fuel g blocked ;;
           c <~ lift (vget (chromosomes g) j) ;;
           e <~ lift (vget (sorted_indices g) j) ;;
           ret (set_chromosomes g2 (chromosomes g2 ++ [c]), blocked ++ [e]))
        (g2, blocked) ;;
    ret g2.

(* ----------------------------------------------------------------- *)
(** *** Helpers *)

(** Calling a [std::function]: an empty one throws. *)
Definition call {A} (callback : option A) : outcome A :=
  match callback with
  | Some f => Ok f
  | None => Throw "bad_function_call"
  end.

(** [std::max(a, b)] and [std::min(a, b)]. *)
Definition d_max (a b : F) : F := if d_ltb a b then b else a.
Definition d_min (a b : F) : F := if d_ltb b a then b else a.

(** [v.erase(v.begin() + i)]. *)
Definition erase {A} (v : list A) (i : Z) : list A :=
  firstn (Z.to_nat i) v ++ skipn (S (Z.to_nat i)) v.

(** A draw of the engine's generator. *)
Definition draw : Method F := with_rng (fun r => Ok (random01 r)).

(** [norm2(x_vec)]. *)
Definition norm2 (x_vec : list F) : F :=
  d_sqrt (fold_left (fun sum e => d_add sum (d_mul e e)) x_vec (d_of_int 0)).

(** [index_of_min(v)]: the position [std::min_element] returns, that of the
    first smallest element, and 0 on an empty vector. *)
Fixpoint min_element_from {T} (ltb : T -> T -> bool) (smallest : T)
  (position i : Z) (rest : list T) : Z :=
  match rest with
  | [] => position
  | x :: rest' =>
      if ltb x smallest then min_element_from ltb x i (i + 1) rest'
      else min_element_from ltb smallest position (i + 1) rest'
  end.

Definition index_of_min {T} (ltb : T -> T -> bool) (v : list T) : Z :=
  match v with
  | [] => 0
  | x :: rest => u32 (min_element_from ltb x 0 1 rest)
  end.

(** The objective vector after the optional reduction callback. *)
Definition reduce_objectives (cfg : Config) (objs : list F) : list F :=
  match distribution_objective_reductions cfg with
  | Some reduction => reduction objs
  | None => objs
  end.

(** The default-constructed [ThisChromosomeType]; its [total_cost] is
    indeterminate in C++ and never read before it is written. *)
Definition default_chromosome : Chromosome :=
  mkChromosome default_genes default_middle_costs (d_of_int 0) [].

(** The default-constructed [ThisGenerationType]. *)
Definition default_generation : Generation :=
  mkGeneration [] d_infinity (d_of_int 0) (-1) [] [] [].

Definition push_back_chromosome (g : Generation) (c : Chromosome) : Generation :=
  set_chromosomes g (chromosomes g ++ [c]).

(* ----------------------------------------------------------------- *)
(** *** Multi-objective ranking and selection *)

(** [calculate_N_robj(g)]. *)
Definition calculate_N_robj (cfg : Config) (g : Generation) : Method unit :=
  if vsize (chromosomes g) =? 0
  then raise "Code should not reach here. A87946516564"
  else
    c0 <~ lift (vget (chromosomes g) 0) ;;
    let n := u32 (vsize (reduce_objectives cfg (objectives c0))) in
    _ <~ update_state (fun s => set_N_robj s n) ;;
    if n =? 0 then raise "Number of the reduced objective is zero" else ret tt.

(** [update_ideal_objectives(g, reset)]. *)
Definition update_ideal_objectives (cfg : Config) (g : Generation)
  (reset : bool) : Method unit :=
  if user_request_stop cfg then ret tt
  else if is_single_objective cfg then raise "Wrong code A0812473247."
  else
    _ <~ (if reset then
            c0 <~ lift (vget (chromosomes g) 0) ;;
            update_state
              (fun s => set_ideal_objectives s
                          (reduce_objectives cfg (objectives c0)))
          else ret tt) ;;
    s <~ get_state ;;
    let N_r_objectives := u32 (vsize (ideal_objectives s)) in
    ideal <~
      lift (for_each (chromosomes g)
              (fun x ideal =>
                 let obj_reduced := reduce_objectives cfg (objectives x) in
                 for_range 0 N_r_objectives
                   (fun i ideal =>
                      o <- vget obj_reduced i ;;
                      best <- vget ideal i ;;
                      if d_ltb o best then vset ideal i o else Ok ideal)
                   ideal)
              (ideal_objectives s)) ;;
    update_state (fun s => set_ideal_objectives s ideal).

(** [scalarize_objectives(zb_objectives)]. *)
Definition scalarize_objectives (zb_objectives : Matrix.t F) : Method unit :=
  let N_objectives := Matrix.get_n_cols zb_objectives in
  s <~ get_state ;;
  _ <~ (if vsize (scalarized_objectives_min s) =? 0 then
          update_state
            (fun s =>
               set_scalarized_objectives_min
                 (set_extreme_objectives s
                    (Matrix.zeros_sized (d_of_int 0) N_objectives N_objectives))
                 (repeat d_infinity (Z.to_nat N_objectives)))
        else ret tt) ;;
  efor_range 0 N_objectives
    (fun i (_ : unit) =>
       w <~ lift (vset (repeat (ratio 1 (10 ^ 10)) (Z.to_nat N_objectives)) i
                    (d_of_int 1)) ;;
       let Nx := Matrix.get_n_rows zb_objectives in
       sc <~
         lift (for_range 0 Nx
                 (fun j sc =>
                    val_max <-
                      for_range 0 N_objectives
                        (fun k val_max =>
                           z <- Matrix.at_ zb_objectives j k ;;
                           wk <- vget w k ;;
                           Ok (d_max val_max (d_div z wk)))
                        (d_of_int (- (10 ^ 300))) ;;
                    vset sc j val_max)
                 (repeat (d_of_int 0) (Z.to_nat Nx))) ;;
       let min_sc_idx := index_of_min d_ltb sc in
       min_sc <~ lift (vget sc min_sc_idx) ;;
       s <~ get_state ;;
       smin_i <~ lift (vget (scalarized_objectives_min s) i) ;;
       if d_ltb min_sc smin_i then
         smin <~ lift (vset (scalarized_objectives_min s) i min_sc) ;;
         extreme <~
           lift (for_range 0 N_objectives
                   (fun j extreme =>
                      z <- Matrix.at_ zb_objectives min_sc_idx j ;;
                      Matrix.set_at extreme i j z)
                   (extreme_objectives s)) ;;
         update_state
           (fun s => set_extreme_objectives
                       (set_scalarized_objectives_min s smin) extreme)
       else ret tt)
    tt.

(** [build_hyperplane_intercepts(xinv)]: Doolittle LU of the extreme
    objectives, without pivoting; it returns [xinv]. *)
Definition build_hyperplane_intercepts (extreme : Matrix.t F)
  : outcome (list F) :=
  let n := Matrix.get_n_rows extreme in
  let zero := d_of_int 0 in
  let L := Matrix.zeros zero (Matrix.sized zero n n) in
  let U := Matrix.zeros zero (Matrix.sized zero n n) in
  '(L, U) <-
    for_range 0 n
      (fun i '(L, U) =>
         U <- for_range i n
                (fun k U =>
                   sum <- for_range 0 i
                            (fun j sum =>
                               l <- Matrix.at_ L i j ;;
                               u <- Matrix.at_ U j k ;;
                               Ok (d_add sum (d_mul l u)))
                            zero ;;
                   e <- Matrix.at_ extreme k i ;;
                   Matrix.set_at U i k (d_sub e sum))
                U ;;
         L <- for_range i n
                (fun k L =>
                   if i =? k then Matrix.set_at L i i (d_of_int 1)
                   else
                     sum <- for_range 0 i
                              (fun j sum =>
                                 l <- Matrix.at_ L k j ;;
                                 u <- Matrix.at_ U j i ;;
                                 Ok (d_add sum (d_mul l u)))
                              zero ;;
                     e <- Matrix.at_ extreme i k ;;
                     uii <- Matrix.at_ U i i ;;
                     Matrix.set_at L k i (d_div (d_sub e sum) uii))
                L ;;
         Ok (L, U))
      (L, U) ;;
  y <- for_range 0 n
         (fun i y =>
            sum <- for_range 0 i
                     (fun k sum =>
                        l <- Matrix.at_ L i k ;;
                        yk <- vget y k ;;
                        Ok (d_add sum (d_mul l yk)))
                     zero ;;
            lii <- Matrix.at_ L i i ;;
            vset y i (d_div (d_sub (d_of_int 1) sum) lii))
         (repeat zero (Z.to_nat n)) ;;
  x <- for_range 0 n
         (fun ii x =>
            let i := n - 1 - ii in
            sum <- for_range (i + 1) n
                     (fun k sum =>
                        u <- Matrix.at_ U i k ;;
                        xk <- vget x k ;;
                        Ok (d_add sum (d_mul u xk)))
                     zero ;;
            yi <- vget y i ;;
            uii <- Matrix.at_ U i i ;;
            vset x i (d_div (d_sub yi sum) uii))
         (repeat zero (Z.to_nat n)) ;;
  for_range 0 n
    (fun i xinv => xi <- vget x i ;; vset xinv i (d_div (d_of_int 1) xi))
    (repeat zero (Z.to_nat n)).

(** What [associate_to_references] writes through its reference
    parameters. *)
Record Association : Type := mkAssociation {
  associated_ref_vector : list Z;
  distance_ref_vector : list F;
  niche_count : list Z;                 (* vector<unsigned int> *)
  distances : Matrix.t F                (* row: pop, col: ref_vec *)
}.

(** [associate_to_references(gen, norm_objectives, ...)]. *)
Definition associate_to_references (reference : Matrix.t F) (gen : Generation)
  (norm_objectives : Matrix.t F) : outcome Association :=
  let N_ref := Matrix.get_n_rows reference in
  let N_x := u32 (vsize (chromosomes gen)) in
  let zero := d_of_int 0 in
  for_range 0 N_x
    (fun i a =>
       '(dist_min, dist_min_index, dists) <-
         for_range 0 N_ref
           (fun j '(dist_min, dist_min_index, dists) =>
              reference_vectors_row_j <- Matrix.get_row reference j ;;
              let ref_vec_j_norm2 := norm2 reference_vectors_row_j in
              let w := map (fun x => d_div x ref_vec_j_norm2)
                         reference_vectors_row_j in
              norm_obj <- Matrix.get_row norm_objectives i ;;
              scalar_wtnorm <-
                for_range 0 (vsize norm_obj)
                  (fun k acc =>
                     wk <- vget w k ;; nk <- vget norm_obj k ;;
                     Ok (d_add acc (d_mul wk nk)))
                  zero ;;
              dist2 <-
                for_range 0 (vsize norm_obj)
                  (fun k acc =>
                     wk <- vget w k ;; nk <- vget norm_obj k ;;
                     let dist_x := d_sub nk (d_mul scalar_wtnorm wk) in
                     Ok (d_add acc (d_mul dist_x dist_x)))
                  zero ;;
              let dist := d_sqrt dist2 in
              dists <- Matrix.set_at dists i j dist ;;
              if (j =? 0) || d_ltb dist dist_min
              then Ok (dist, j, dists)
              else Ok (dist_min, dist_min_index, dists))
           (zero, 0, distances a) ;;
       associated <- vset (associated_ref_vector a) i dist_min_index ;;
       distance <- vset (distance_ref_vector a) i dist_min ;;
       count <- vget (niche_count a) dist_min_index ;;
       niche <- vset (niche_count a) dist_min_index (u32 (count + 1)) ;;
       Ok (mkAssociation associated distance niche dists))
    (mkAssociation
       (repeat 0 (length (chromosomes gen)))
       (repeat zero (length (chromosomes gen)))
       (repeat 0 (Z.to_nat N_ref))
       (Matrix.zeros_sized zero N_x N_ref)).

(** One iteration of the [while] loop that fills the last front in
    [select_population_MO]; the loop state is [last_front], [to_add] and
    [niche_count]. *)
Definition niching_step (cfg : Config) (g : Generation)
  (associated : list Z) (dists : Matrix.t F)
  (st : list Z * list Z * list Z) : Method (list Z * list Z * list Z) :=
  let '(last_front, to_add, niche) := st in
  if negb (enable_reference_vectors cfg) then
    (* disabling reference points *)
    let msz := u32 (vsize last_front) in
    r <~ draw ;;
    let to_add_index := u32 (d_floor (d_mul (d_of_int msz) r)) in
    let to_add_index := if msz <=? to_add_index then 0 else to_add_index in
    e <~ lift (vget last_front to_add_index) ;;
    ret (erase last_front to_add_index, to_add ++ [e], niche)
  else
    let min_niche_index := index_of_min Z.ltb niche in
    min_vec_neighbors <~
      lift (for_each last_front
              (fun i neighbors =>
                 a <- vget associated i ;;
                 Ok (if a =? min_niche_index then neighbors ++ [i]
                     else neighbors))
              []) ;;
    if vsize min_vec_neighbors =? 0 then
      niche <~ lift (vset niche min_niche_index
                       (u32 (10 * vsize (chromosomes g)))) ;;  (* inf *)
      ret (last_front, to_add, niche)
    else
      count <~ lift (vget niche min_niche_index) ;;
      next_member_index <~
        (if count =? 0 then
           first <~ lift (vget min_vec_neighbors 0) ;;
           min_val <~ lift (Matrix.at_ dists first min_niche_index) ;;
           '(next_member_index, _) <~
             lift (for_each min_vec_neighbors
                     (fun i '(next_member_index, min_val) =>
                        d <- Matrix.at_ dists i min_niche_index ;;
                        if d_ltb d min_val then Ok (i, d)
                        else Ok (next_member_index, min_val))
                     (0, min_val)) ;;
           ret next_member_index
         else
           let msz := u32 (vsize min_vec_neighbors) in
           r <~ draw ;;
           let next_member_index := u32 (d_floor (d_mul (d_of_int msz) r)) in
           ret (if msz <=? next_member_index then 0 else next_member_index)) ;;
      to_add_index <~ lift (vget min_vec_neighbors next_member_index) ;;
      let to_add := to_add ++ [to_add_index] in
      to_del_front <~
        lift (for_range 0 (vsize last_front)
                (fun i to_del_front =>
                   e <- vget last_front i ;;
                   Ok (if e =? to_add_index then i else to_del_front))
                (-1)) ;;
      let last_front :=
        if 0 <=? to_del_front then erase last_front to_del_front
        else last_front in
      count <~ lift (vget niche min_niche_index) ;;
      niche <~ lift (vset niche min_niche_index (u32 (count + 1))) ;;
      ret (last_front, to_add, niche).

(** The loop [while (g2.chromosomes.size() + to_add.size() < population)]. *)
Fixpoint niching_loop (fuel : nat) (cfg : Config) (g : Generation)
  (selected : Z) (associated : list Z) (dists : Matrix.t F)
  (st : list Z * list Z * list Z) : Method (list Z * list Z * list Z) :=
  let '(_, to_add, _) := st in
  if selected + vsize to_add <? population cfg then
    match fuel with
    | O => lift Timeout
    | S fuel' =>
        st' <~ niching_step cfg g associated dists st ;;
        niching_loop fuel' cfg g selected associated dists st'
    end
  else ret st.

(** The loop that takes whole fronts as long as they fit. *)
Fixpoint take_fronts (fuel : nat) (cfg : Config) (g g2 : Generation)
  (last_front_index : Z) : outcome (Generation * Z) :=
  front <- vget (fronts g) last_front_index ;;
  if vsize (chromosomes g2) + vsize front <=? population cfg then
    match fuel with
    | O => Timeout
    | S fuel' =>
        g2 <- for_each front
                (fun i g2 =>
                   c <- vget (chromosomes g) i ;;
                   Ok (push_back_chromosome g2 c))
                g2 ;;
        take_fronts fuel' cfg g g2 (last_front_index + 1)
    end
  else Ok (g2, last_front_index).

(** [select_population_MO(g, g2)]. *)
Definition select_population_MO (cfg : Config) (fuel : nat)
  (g g2 : Generation) : Method Generation :=
  _ <~ update_ideal_objectives cfg g false ;;
  s <~ get_state ;;
  if generation_step s <=? 0 then ret g
  else
    let g2 := set_chromosomes g2 [] in
    if N_robj s =? 0
    then raise "Number of the reduced objectives is zero. A68756541321"
    else
      let N_chromosomes := u32 (vsize (chromosomes g)) in
      zb_objectives <~
        lift (for_range 0 N_chromosomes
                (fun i zb =>
                   c <- vget (chromosomes g) i ;;
                   let robj_x := reduce_objectives cfg (objectives c) in
                   for_range 0 (N_robj s)
                     (fun j zb =>
                        o <- vget robj_x j ;;
                        ideal <- vget (ideal_objectives s) j ;;
                        Matrix.set_at zb i j (d_sub o ideal))
                     zb)
                (Matrix.sized (d_of_int 0) N_chromosomes (N_robj s))) ;;
      _ <~ scalarize_objectives zb_objectives ;;
      s <~ get_state ;;
      intercepts <~ lift (build_hyperplane_intercepts (extreme_objectives s)) ;;
      norm_objectives <~
        lift (for_range 0 N_chromosomes
                (fun i norm =>
                   for_range 0 (N_robj s)
                     (fun j norm =>
                        z <- Matrix.at_ zb_objectives i j ;;
                        a <- vget intercepts j ;;
                        Matrix.set_at norm i j (d_div z a))
                     norm)
                (Matrix.sized (d_of_int 0) (u32 (vsize (chromosomes g)))
                   (u32 (vsize intercepts)))) ;;
      if vsize (chromosomes g) =? population cfg then ret g
      else
        _ <~ (if Matrix.empty (reference_vectors s) then
                c0 <~ lift (vget (chromosomes g) 0) ;;
                let obj_dept :=
                  u32 (vsize (reduce_objectives cfg (objectives c0))) in
                reference <~
                  lift (generate_referenceVectors obj_dept
                          (reference_vector_divisions s)) ;;
                update_state (fun s => set_reference_vectors s reference)
              else ret tt) ;;
        s <~ get_state ;;
        a <~ lift (associate_to_references (reference_vectors s) g
                     norm_objectives) ;;
        (* select from best fronts as long as they are accommodated *)
        '(g2, last_front_index) <~
          lift (take_fronts (length (fronts g)) cfg g g2 0) ;;
        last_front <~ lift (vget (fronts g) last_front_index) ;;
        (* select randomly from the next front *)
        '(_, to_add, _) <~
          niching_loop fuel cfg g (vsize (chromosomes g2))
            (associated_ref_vector a) (distances a)
            (last_front, [], niche_count a) ;;
        lift (for_each to_add
                (fun i g2 =>
                   c <- vget (chromosomes g) i ;;
                   Ok (push_back_chromosome g2 c))
                g2).

(** The [do ... while (!next_front.empty())] loop of [rank_population_MO]. *)
Fixpoint next_fronts (fuel : nat) (domination_set : list (list Z))
  (dominated_count : list Z) (all_fronts : list (list Z))
  : outcome (list (list Z)) :=
  match fuel with
  | O => Timeout
  | S fuel' =>
      last_front <- vget all_fronts (vsize all_fronts - 1) ;;
      '(dominated_count, next_front) <-
        for_each last_front
          (fun i st =>
             dominated <- vget domination_set i ;;
             for_each dominated
               (fun j '(dominated_count, next_front) =>
                  count <- vget dominated_count j ;;
                  dominated_count <- vset dominated_count j (count - 1) ;;
                  Ok (dominated_count,
                      if count - 1 =? 0 then next_front ++ [j] else next_front))
               st)
          (dominated_count, []) ;;
      match next_front with
      | [] => Ok all_fronts
      | _ :: _ =>
          next_fronts fuel' domination_set dominated_count
            (all_fronts ++ [next_front])
      end
  end.

(** [rank_population_MO(gen)]. *)
Definition rank_population_MO (cfg : Config) (gen : Generation)
  : outcome Generation :=
  let N := vsize (chromosomes gen) in
  '(domination_set, dominated_count, pareto_front) <-
    for_range 0 N
      (fun i st =>
         '(domination_set, dominated_count, pareto_front) <-
           for_range (i + 1) N
             (fun j '(domination_set, dominated_count, pareto_front) =>
                ci <- vget (chromosomes gen) i ;;
                cj <- vget (chromosomes gen) j ;;
                i_dominates <- dominates ci cj ;;
                '(domination_set, dominated_count) <-
                  (if i_dominates then
                     set_i <- vget domination_set i ;;
                     domination_set <- vset domination_set i (set_i ++ [j]) ;;
                     count_j <- vget dominated_count j ;;
                     dominated_count <- vset dominated_count j (count_j + 1) ;;
                     Ok (domination_set, dominated_count)
                   else Ok (domination_set, dominated_count)) ;;
                j_dominates <- dominates cj ci ;;
                '(domination_set, dominated_count) <-
                  (if j_dominates then
                     set_j <- vget domination_set j ;;
                     domination_set <- vset domination_set j (set_j ++ [i]) ;;
                     count_i <- vget dominated_count i ;;
                     dominated_count <- vset dominated_count i (count_i + 1) ;;
                     Ok (domination_set, dominated_count)
                   else Ok (domination_set, dominated_count)) ;;
                Ok (domination_set, dominated_count, pareto_front))
             st ;;
         count_i <- vget dominated_count i ;;
         Ok (domination_set, dominated_count,
             if count_i =? 0 then pareto_front ++ [i] else pareto_front))
      (repeat [] (length (chromosomes gen)),
       repeat 0 (length (chromosomes gen)), []) ;;
  all_fronts <-
    next_fronts (S (length (chromosomes gen))) domination_set dominated_count
      [pareto_front] ;;
  let gen := set_fronts gen all_fronts in
  ranks <-
    for_range 0 (vsize (fronts gen))
      (fun i ranks =>
         front <- vget (fronts gen) i ;;
         for_range 0 (vsize front)
           (fun j ranks => e <- vget front j ;; vset ranks e i)
           ranks)
      (repeat 0 (length (chromosomes gen))) ;;
  generate_selection_chance (population cfg) gen ranks.

(** [rank_population(gen)]. *)
Definition rank_population (cfg : Config) (gen : Generation)
  : outcome Generation :=
  if user_request_stop cfg then Ok gen
  else if is_single_objective cfg
       then rank_population_SO std_sort (use_quick_sort cfg) (population cfg) gen
       else rank_population_MO cfg gen.

(** [select_population(g, g2)]. *)
Definition select_population (cfg : Config) (fuel : nat) (g g2 : Generation)
  : Method Generation :=
  if user_request_stop cfg then ret g2
  else if is_single_objective cfg
       then select_population_SO cfg fuel g g2
       else select_population_MO cfg fuel g g2.

(* ----------------------------------------------------------------- *)
(** *** The generation loop *)

(** [finalize_objectives(g)]. *)
Definition finalize_objectives (cfg : Config) (g : Generation)
  : outcome Generation :=
  if user_request_stop cfg then Ok g
  else
    match problem_mode cfg with
    | SOGA =>
        for_range 0 (vsize (chromosomes g))
          (fun i g =>
             c <- vget (chromosomes g) i ;;
             fitness <- call (calculate_SO_total_fitness cfg) ;;
             cs <- vset (chromosomes g) i (set_total_cost c (fitness c)) ;;
             Ok (set_chromosomes g cs))
          g
    | IGA =>
        fitness <- call (calculate_IGA_total_fitness cfg) ;;
        Ok (fitness g)
    | NSGA_III =>
        for_range 0 (vsize (chromosomes g))
          (fun i g =>
             c <- vget (chromosomes g) i ;;
             objs <- call (calculate_MO_objectives cfg) ;;
             cs <- vset (chromosomes g) i (set_objectives c (objs c)) ;;
             Ok (set_chromosomes g cs))
          g
    end.

(** [finalize_generation(new_generation)]. *)
Definition finalize_generation (cfg : Config) (new_generation : Generation)
  : outcome Generation :=
  if user_request_stop cfg then Ok new_generation
  else if is_single_objective cfg then
    c0 <- vget (chromosomes new_generation) 0 ;;
    '(best, sum, index) <-
      for_range 0 (u32 (vsize (chromosomes new_generation)))
        (fun i '(best, sum, index) =>
           c <- vget (chromosomes new_generation) i ;;
           let current_cost := total_cost c in
           let sum := d_add sum current_cost in
           let '(index, best) :=
             if d_leb current_cost best then (i, current_cost)
             else (index, best) in
           Ok (d_min best current_cost, sum, index))
        (total_cost c0, d_of_int 0, 0) ;;
    Ok (set_best new_generation best
          (d_div sum (d_of_int (vsize (chromosomes new_generation)))) index)
  else Ok new_generation.

(** [report_generation(new_generation)]: the callback is entered in the
    trace [reports]. *)
Definition report_generation (cfg : Config) (new_generation : Generation)
  : Method unit :=
  s <~ get_state ;;
  _ <~ (if is_single_objective cfg then
          best <~ lift (vget (chromosomes new_generation)
                          (best_chromosome_index new_generation)) ;;
          lift (call (SO_report_generation cfg))
        else
          front0 <~ lift (vget (fronts new_generation) 0) ;;
          lift (call (MO_report_generation cfg))) ;;
  update_state
    (fun s => set_reports s
                (reports s ++ [mkReport (generation_step s) new_generation])).

(** [transfer(new_generation)]. *)
Definition transfer (cfg : Config) (new_generation : Generation)
  : Method Generation :=
  if user_request_stop cfg then ret new_generation
  else
    s <~ get_state ;;
    let last := last_generation s in
    if negb (is_interactive cfg) then
      (* add all members *)
      ret (set_chromosomes new_generation
             (chromosomes new_generation ++ chromosomes last))
    else
      lift (for_range 0 (elite_count cfg)
              (fun i g =>
                 e <- vget (sorted_indices last) i ;;
                 c <- vget (chromosomes last) e ;;
                 Ok (push_back_chromosome g c))
              new_generation).

(** Evaluate [X] and, when it is accepted, store it at [index], or append
    it when [index] is negative: the acceptance branches shared by
    [init_population_try] and [crossover_and_mutation_range]. *)
Definition evaluate_and_place (cfg : Config) (generation : Generation)
  (X : Chromosome) (index : Z) : outcome (bool * Generation) :=
  if is_interactive cfg then
    eval <- call (eval_solution_IGA cfg) ;;
    match eval (genes X) (middle_costs X) generation with
    | Some middle =>
        (* in IGA mode, code cannot run in parallel. *)
        Ok (true,
            push_back_chromosome generation
              (mkChromosome (genes X) middle (total_cost X) (objectives X)))
    | None => Ok (false, generation)
    end
  else
    eval <- call (eval_solution cfg) ;;
    match eval (genes X) (middle_costs X) with
    | Some middle =>
        let X := mkChromosome (genes X) middle (total_cost X) (objectives X) in
        if 0 <=? index then
          cs <- vset (chromosomes generation) index X ;;
          Ok (true, set_chromosomes generation cs)
        else Ok (true, push_back_chromosome generation X)
    | None => Ok (false, generation)
    end.

(** [init_population_try(generation0, X, index)]. *)
Definition init_population_try (cfg : Config) (generation0 : Generation)
  (X : Chromosome) (index : Z) : outcome (bool * Generation) :=
  evaluate_and_place cfg generation0 X index.

(** The loop [while (!accepted)] of [init_population_range]. *)
Fixpoint init_until_accepted (fuel : nat) (cfg : Config)
  (generation0 : Generation) (index : Z) : Method Generation :=
  match fuel with
  | O => lift Timeout
  | S fuel' =>
      init <~ lift (call (init_genes cfg)) ;;
      X_genes <~ with_rng (fun r => Ok (init default_genes r)) ;;
      let X := mkChromosome X_genes default_middle_costs (d_of_int 0) [] in
      '(accepted, generation0) <~
        lift (init_population_try cfg generation0 X index) ;;
      if accepted then ret generation0
      else init_until_accepted fuel' cfg generation0 index
  end.

(** [init_population_range(p_generation0, index_from, index_to, ...)]. *)
Definition init_population_range (fuel : nat) (cfg : Config)
  (generation0 : Generation) (index_from index_to : Z) : Method Generation :=
  efor_range index_from (index_to + 1)
    (fun index g => init_until_accepted fuel cfg g index)
    generation0.

(** [default_shrink_scale(n_generation, rnd01)]. *)
Definition default_shrink_scale (n_generation : Z) (r : Rng F) : F * Rng F :=
  let scale :=
    if n_generation <=? 5 then d_of_int 1
    else d_div (d_of_int 1) (d_sqrt (d_of_int (n_generation - 5 + 1))) in
  let '(p1, r) := random01 r in
  if d_ltb p1 (ratio 4 10) then (d_mul scale scale, r)
  else
    let '(p2, r) := random01 r in
    if d_ltb p2 (ratio 1 10) then (d_of_int 1, r) else (scale, r).

(** The loop [while (!successful)] of [crossover_and_mutation_range]. *)
Fixpoint vary_until_successful (fuel : nat) (cfg : Config)
  (new_generation : Generation) (index : Z) : Method Generation :=
  match fuel with
  | O => lift Timeout
  | S fuel' =>
      s <~ get_state ;;
      let last := last_generation s in
      pidx_c1 <~ with_rng (select_parent last) ;;
      pidx_c2 <~ with_rng (select_parent last) ;;
      if pidx_c1 =? pidx_c2
      then vary_until_successful fuel' cfg new_generation index
      else
        p1 <~ lift (vget (chromosomes last) pidx_c1) ;;
        p2 <~ lift (vget (chromosomes last) pidx_c2) ;;
        cross <~ lift (call (crossover cfg)) ;;
        X_genes <~ with_rng (fun r => Ok (cross (genes p1) (genes p2) r)) ;;
        r <~ draw ;;
        X_genes <~
          (if d_leb r (mutation_rate cfg) then
             shrink_scale <~
               with_rng (fun r => Ok (get_shrink_scale cfg (generation_step s) r)) ;;
             mut <~ lift (call (mutate cfg)) ;;
             with_rng (fun r => Ok (mut X_genes shrink_scale r))
           else ret X_genes) ;;
        let X := mkChromosome X_genes default_middle_costs (d_of_int 0) [] in
        '(successful, new_generation) <~
          lift (evaluate_and_place cfg new_generation X index) ;;
        if successful then ret new_generation
        else vary_until_successful fuel' cfg new_generation index
  end.

(** [crossover_and_mutation_range(p_new_generation, x_index_begin,
    x_index_end, ...)]. *)
Definition crossover_and_mutation_range (fuel : nat) (cfg : Config)
  (new_generation : Generation) (x_index_begin x_index_end : Z)
  : Method Generation :=
  efor_range x_index_begin (x_index_end + 1)
    (fun index g => vary_until_successful fuel cfg g index)
    new_generation.

(** [sequential_action<action>(generation, N_add, total_attempts)]. *)
Definition sequential_action (cfg : Config)
  (action : Generation -> Z -> Z -> Method Generation)
  (generation : Generation) (N_add : Z) : Method Generation :=
  if user_request_stop cfg then ret generation
  else efor_range 0 N_add (fun i g => action g (-1) (-1)) generation.

(** The slots the thread pools pre-fill with default chromosomes. *)
Definition prefill (generation : Generation) (N_add : Z) : Generation :=
  set_chromosomes generation
    (chromosomes generation ++ repeat default_chromosome (Z.to_nat N_add)).

(** [dynamic_thread_action<action>]: the pool hands the slots to its
    workers one at a time; the embedding runs the schedule in which each
    worker finishes its slot before the next slot is handed out. *)
Definition dynamic_thread_action (cfg : Config)
  (action : Generation -> Z -> Z -> Method Generation)
  (generation : Generation) (N_add : Z) : Method Generation :=
  let offset := u32 (vsize (chromosomes generation)) in
  let generation := prefill generation N_add in
  if user_request_stop cfg then ret generation
  else
    efor_range 0 N_add
      (fun x_index g => action g (offset + x_index) (offset + x_index))
      generation.

(** [static_thread_action<action>]: one chunk of slots per thread; the
    embedding runs the chunks one after the other. *)
Definition static_thread_action (cfg : Config)
  (action : Generation -> Z -> Z -> Method Generation)
  (generation : Generation) (N_add : Z) : Method Generation :=
  let offset := u32 (vsize (chromosomes generation)) in
  let generation := prefill generation N_add in
  let pop_chunk := Z.max (Z.quot N_add (N_threads cfg)) 1 in
  '(generation, _) <~
    efor_range 0 (N_threads cfg)
      (fun i '(g, x_index_start) =>
         let x_index_end :=
           if i + 1 =? N_threads cfg then vsize (chromosomes g) - 1
           else Z.min (x_index_start + pop_chunk - 1)
                      (vsize (chromosomes g) - 1) in
         g <~ (if x_index_start <=? x_index_end
               then action g x_index_start x_index_end
               else ret g) ;;
         ret (g, x_index_end + 1))
      (generation, offset) ;;
  ret generation.

(** The choice of the driver, shared by [init_population] and
    [crossover_and_mutation]. *)
Definition run_action (cfg : Config)
  (action : Generation -> Z -> Z -> Method Generation)
  (generation : Generation) (N_add : Z) : Method Generation :=
  if negb (multi_threading cfg) || (N_threads cfg =? 1) || is_interactive cfg
  then sequential_action cfg action generation N_add
  else if dynamic_threading cfg
       then dynamic_thread_action cfg action generation N_add
       else static_thread_action cfg action generation N_add.

(** The loop over [user_initial_solutions], with its [break]. *)
Fixpoint add_user_solutions (cfg : Config) (solutions : list GeneType)
  (generation0 : Generation) : outcome Generation :=
  match solutions with
  | [] => Ok generation0
  | solution :: rest =>
      let X := mkChromosome solution default_middle_costs (d_of_int 0) [] in
      '(_, generation0) <- init_population_try cfg generation0 X (-1) ;;
      if population cfg <=? vsize (chromosomes generation0)
      then Ok generation0
      else add_user_solutions cfg rest generation0
  end.

(** [init_population(generation0)]. *)
Definition init_population (fuel : nat) (cfg : Config)
  (generation0 : Generation) : Method Generation :=
  let generation0 := set_chromosomes generation0 [] in
  let new_solutions_offset := u32 (vsize (chromosomes generation0)) in
  let N_add := u32 (Z.max 0 (population cfg - new_solutions_offset)) in
  generation0 <~
    lift (add_user_solutions cfg (user_initial_solutions cfg) generation0) ;;
  run_action cfg
    (fun g from to => init_population_range fuel cfg g from to)
    generation0 N_add.

(** [crossover_and_mutation(new_generation)]. *)
Definition crossover_and_mutation (fuel : nat) (cfg : Config)
  (new_generation : Generation) : Method Generation :=
  if user_request_stop cfg then ret new_generation
  else if d_leb (crossover_fraction cfg) (d_of_int 0)
          || d_gtb (crossover_fraction cfg) (d_of_int 1)
  then raise "Wrong crossover fractoin"
  else if d_ltb (mutation_rate cfg) (d_of_int 0)
          || d_gtb (mutation_rate cfg) (d_of_int 1)
  then raise "Wrong mutation rate"
  else
    s <~ get_state ;;
    if generation_step s <=? 0 then ret new_generation
    else
      let N_add :=
        u32 (d_round (d_mul (d_of_int (population cfg))
                        (crossover_fraction cfg))) in
      if is_interactive cfg
         && negb (u32 (N_add + elite_count cfg) =? population cfg)
      then raise
             "In IGA mode, elite fraction + crossover fraction must be equal to 1.0 !"
      else
        run_action cfg
          (fun g from to => crossover_and_mutation_range fuel cfg g from to)
          new_generation N_add.

(** The loop that picks [reference_vector_divisions] in [solve_init]. *)
Fixpoint pick_divisions (fuel : nat) (cfg : Config) (N_robj divisions : Z)
  : outcome Z :=
  count <- get_number_reference_vectors N_robj (u32 (divisions + 1)) ;;
  if count <=? population cfg then
    match fuel with
    | O => Timeout
    | S fuel' => pick_divisions fuel' cfg N_robj (u32 (divisions + 1))
    end
  else Ok divisions.

(** [solve_init()]. *)
Definition solve_init (fuel : nat) (cfg : Config) : Method unit :=
  _ <~ lift (check_settings cfg) ;;
  _ <~ update_state
         (fun s => set_generation_step (set_stall_counts s 0 0) (-1)) ;;
  let generation0 := default_generation in
  generation0 <~ init_population fuel cfg generation0 ;;
  _ <~ update_state (fun s => set_generation_step s 0) ;;
  generation0 <~ lift (finalize_objectives cfg generation0) ;;
  _ <~ (if negb (is_single_objective cfg) then
          _ <~ calculate_N_robj cfg generation0 ;;
          s <~ get_state ;;
          if reference_vector_divisions s =? 0 then
            _ <~ update_state (fun s => set_reference_vector_divisions s 2) ;;
            if N_robj s =? 1
            then raise
                   "The length of objective vector is 1 in a multi-objective optimization"
            else
              divisions <~ lift (pick_divisions fuel cfg (N_robj s) 2) ;;
              update_state (fun s => set_reference_vector_divisions s divisions)
          else ret tt
        else ret tt) ;;
  (* used for ellite tranfre, crossover and mutation *)
  generation0 <~ lift (rank_population cfg generation0) ;;
  generation0 <~ lift (finalize_generation cfg generation0) ;;
  _ <~ (if negb (is_single_objective cfg) then
          _ <~ update_ideal_objectives cfg generation0 true ;;
          update_state
            (fun s => set_scalarized_objectives_min
                        (set_extreme_objectives s (Matrix.clear (extreme_objectives s)))
                        [])
        else ret tt) ;;
  _ <~ (if negb (user_request_stop cfg) then
          _ <~ update_state
                 (fun s => set_generations_so_abs s
                             (generations_so_abs s
                              ++ [(best_total_cost generation0,
                                   average_cost generation0)])) ;;
          report_generation cfg generation0
        else ret tt) ;;
  update_state (fun s => set_last_generation s generation0).

(** [solve_next_generation()]. *)
Definition solve_next_generation (fuel : nat) (cfg : Config)
  : Method StopReason :=
  _ <~ update_state (fun s => set_generation_step s (generation_step s + 1)) ;;
  let new_generation := default_generation in
  new_generation <~ transfer cfg new_generation ;;
  new_generation <~ crossover_and_mutation fuel cfg new_generation ;;
  new_generation <~ lift (finalize_objectives cfg new_generation) ;;
  (* used for selection *)
  new_generation <~ lift (rank_population cfg new_generation) ;;
  let selected_generation := default_generation in
  selected_generation <~
    select_population cfg fuel new_generation selected_generation ;;
  let new_generation := selected_generation in
  (* used for elite tranfre, crossover and mutation *)
  new_generation <~ lift (rank_population cfg new_generation) ;;
  new_generation <~ lift (finalize_generation cfg new_generation) ;;
  _ <~ (if negb (user_request_stop cfg) then
          _ <~ update_state
                 (fun s => set_generations_so_abs s
                             (generations_so_abs s
                              ++ [(best_total_cost new_generation,
                                   average_cost new_generation)])) ;;
          report_generation cfg new_generation
        else ret tt) ;;
  _ <~ update_state (fun s => set_last_generation s new_generation) ;;
  stop_critera cfg.

(** The loop of [solve()], after [solve_init()]. *)
Fixpoint solve_loop (fuel : nat) (cfg : Config) : Method StopReason :=
  match fuel with
  | O => lift Timeout
  | S fuel' =>
      stop <~ solve_next_generation fuel cfg ;;
      match stop with
      | Undefined => solve_loop fuel' cfg
      | _ => ret stop
      end
  end.

(** [solve()]. *)
Definition solve (fuel : nat) (cfg : Config) : Method StopReason :=
  _ <~ solve_init fuel cfg ;;
  solve_loop fuel cfg.

End Methods.

(* ================================================================= *)
(** ** Dominance, in the words of the specification *)

(** No component of [xs] strictly exceeds the corresponding one of [ys]. *)
Definition no_component_exceeds (xs ys : list R) : Prop :=
  forall i x y,
    nth_error xs i = Some x -> nth_error ys i = Some y -> ~ (x > y)%R.

(** At least one component of [xs] is strictly less than that of [ys]. *)
Definition some_component_below (xs ys : list R) : Prop :=
  exists i x y,
    nth_error xs i = Some x /\ nth_error ys i = Some y /\ (x < y)%R.

(* ================================================================= *)
(** ** Selection chances, in the words of the specification *)

(** The unnormalised chance of rank [k] and the running sum up to entry
    [i] of a rank vector. *)
Definition chance_term (k : Z) : R := (1 / sqrt (IZR (k + 1)))%R.

Definition raw_chance (rank : list Z) (i : Z) : R :=
  fold_left (fun acc k => (acc + chance_term k)%R)
    (firstn (Z.to_nat (i + 1)) rank) 0%R.

(* ================================================================= *)
(** ** A reference implementation of the library sort *)

(** Insertion sort with a strict comparator: one implementation that meets
    the contract assumed of [std::sort], used to run the embedding. *)
Fixpoint insert_sorted (comp : Z -> Z -> bool) (a : Z) (l : list Z) : list Z :=
  match l with
  | [] => [a]
  | b :: l' => if comp a b then a :: l else b :: insert_sorted comp a l'
  end.

Definition insertion_sort (comp : Z -> Z -> bool) (l : list Z) : list Z :=
  fold_right (insert_sorted comp) [] l.

(* ================================================================= *)
(** ** Ranking, in the words of the specification *)

(** The total cost of the chromosome an index refers to, over the reals. *)
Definition cost_of {G M} (gen : GenerationType R G M) (e : Z) : R :=
  match cost_at gen e with
  | Ok c => c
  | _ => 0%R
  end.

(** The element at position [k] of [v] exists and satisfies [P]. *)
Definition holds_at {A} (v : list A) (k : Z) (P : A -> Prop) : Prop :=
  exists e, vget v k = Ok e /\ P e.

(** The indices [0, 1, ..., n - 1]. *)
Definition iota (n : nat) : list Z := map Z.of_nat (seq 0 n).

(** The contract of the library sort: for a comparator that is a strict
    weak ordering of the elements handed to it, the result is a permutation
    of the input in which no element compares less than one before it. *)
Definition strict_weak_order_on (l : list Z) (comp : Z -> Z -> bool) : Prop :=
  (forall a, In a l -> comp a a = false) /\
  (forall a b c, In a l -> In b l -> In c l ->
                 comp a b = true -> comp b c = true -> comp a c = true) /\
  (forall a b c, In a l -> In b l -> In c l ->
                 comp a b = false -> comp b c = false -> comp a c = false).

Definition sort_contract (sort : (Z -> Z -> bool) -> list Z -> list Z) : Prop :=
  forall comp l,
    strict_weak_order_on l comp ->
    Permutation l (sort comp l) /\
    StronglySorted (fun a b => comp b a = false) (sort comp l).

(** The claim as the specification states it, for any number type:
    [rank_population_SO] returns and leaves in [sorted_indices] a
    permutation of the chromosome indices along which [total_cost] is
    non-decreasing. *)
Definition ranked_as_specified {F} `{Double F} {G M}
  (std_sort : (Z -> Z -> bool) -> list Z -> list Z) (use_quick_sort : bool)
  (population : Z) (gen : GenerationType F G M) : Prop :=
  exists gen',
    rank_population_SO std_sort use_quick_sort population gen = Ok gen' /\
    Permutation (iota (length (chromosomes gen))) (sorted_indices gen') /\
    forall i j a b ca cb,
      0 <= i <= j ->
      vget (sorted_indices gen') i = Ok a ->
      vget (sorted_indices gen') j = Ok b ->
      cost_at gen a = Ok ca -> cost_at gen b = Ok cb ->
      d_leb ca cb = true.

(** The invariant of the [while (l < r)] loop of the partition, for the
    array [arr0] at entry and the pivot element [a_left]. *)
Definition partition_invariant {G M} (gen : GenerationType R G M)
  (arr0 : list Z) (left right a_left : Z) (s : list Z * Z * Z) : Prop :=
  let '(arr, l, r) := s in
  let x := cost_of gen a_left in
  Permutation arr0 arr /\
  (forall k, k < left \/ right < k -> vget arr k = vget arr0 k) /\
  vget arr left = Ok a_left /\
  left <= l <= right /\ left <= r <= right /\
  (forall k, left <= k < l -> holds_at arr k (fun e => (cost_of gen e <= x)%R)) /\
  (forall k, r < k <= right -> holds_at arr k (fun e => (x < cost_of gen e)%R)) /\
  (l < r -> holds_at arr l (fun e => (cost_of gen e <= x)%R)) /\
  (r <= l -> holds_at arr r (fun e => (cost_of gen e <= x)%R)).

(* ================================================================= *)
(** ** The stop check, in the words of the specification *)

Section StopSpecification.
Context {F : Type} `{Double F} {G M : Type}.

(** [count++] when the change is below the tolerance, else [count ← 0]. *)
Definition stall_update (tol last current : F) (count : Z) : Z :=
  if d_ltb (d_abs (d_sub last current)) tol then count + 1 else 0.

(** The stall counters updated from the last two generation summaries when
    [update] is set, then the first applicable reason in the stated order. *)
Definition stop_check_as_specified (update : bool) (cfg : Settings F G M)
  (s : State F G M) (g1 g2 : F * F) : State F G M * outcome StopReason :=
  let best :=
    if update
    then stall_update (tol_stall_best cfg) (fst g1) (fst g2) (best_stall_count s)
    else best_stall_count s in
  let average :=
    if update
    then stall_update (tol_stall_average cfg) (snd g1) (snd g2)
           (average_stall_count s)
    else average_stall_count s in
  ((if update then set_stall_counts s average best else s),
   Ok (if generation_max cfg <=? generation_step s then MaxGenerations
       else if average_stall_max cfg <=? average then StallAverage
       else if best_stall_max cfg <=? best then StallBest
       else if user_request_stop cfg then UserRequest
       else Undefined)).

(** The claim as the specification states it: the update and the ordered
    checks at every generation step beyond the zeroth. *)
Definition stop_critera_as_specified (cfg : Settings F G M) (s : State F G M)
  : Prop :=
  forall hist g1 g2,
    generations_so_abs s = hist ++ [g1; g2] ->
    1 <= generation_step s ->
    stop_critera cfg s = stop_check_as_specified true cfg s g1 g2.

End StopSpecification.

(* ================================================================= *)
(** ** Concrete runs in binary64 *)

(** A chromosome whose genes are its index and whose total cost is [x]. *)
Definition chromosome_at (i x : Z) : ChromosomeType float Z unit :=
  mkChromosome i tt (d_of_int x) [].

Definition empty_generation : GenerationType float Z unit :=
  mkGeneration [] (d_of_int 0) (d_of_int 0) (-1) [] [] [].

(** Parents and offspring of a run with [population = 3] and
    [crossover_fraction = 0.7]: five chromosomes of costs 3, 4, 1, 0, 2,
    before ranking. *)
Definition combined_generation : GenerationType float Z unit :=
  mkGeneration
    [chromosome_at 0 3; chromosome_at 1 4; chromosome_at 2 1;
     chromosome_at 3 0; chromosome_at 4 2]
    (d_of_int 0) (d_of_int 0) (-1) [] [] [].

(** A single-objective configuration with the default tolerances, one
    elite, and the sequential driver; the callbacks play no part in the
    functions it is used with. *)
Definition settings_SO (population elite_count generation_max : Z)
  : Settings float Z unit :=
  mkSettings SOGA population (ratio 7 10) (ratio 1 10) false elite_count
    generation_max (ratio 1 10000) 10 (ratio 1 1000000) 10 true false false 1
    false true []
    None None None None None None None None None None None
    (fun _ r => (d_of_int 1, r)).

(** The state at generation step [step], every draw of the generator being
    [draw]. *)
Definition state_at (step : Z) (draw : float) (history : list (float * float))
  : State float Z unit :=
  mkState (mkRng (fun _ => draw) 0) 0 0 [] (Matrix.mk 0 0 []) []
    (Matrix.mk 0 0 []) 0 step 0 history empty_generation [].

(* ================================================================= *)
(** ** Reference vectors, in the words of the specification *)

(** The binomial coefficient [C(n, k)], by Pascal's rule. *)
Fixpoint binomial (n k : nat) : nat :=
  match n, k with
  | _, O => 1
  | O, S _ => 0
  | S n', S k' => binomial n' k' + binomial n' k
  end.

(** [C(m, 0) + C(m + 1, 1) + ... + C(m + x - 1, x - 1)]. *)
Fixpoint binomial_diagonal_sum (m x : nat) : nat :=
  match x with
  | O => 0
  | S x' => binomial_diagonal_sum m x' + binomial (m + x') x'
  end.

(** The sum of the components of a vector of reals. *)
Definition Rsum (v : list R) : R := fold_right Rplus 0%R v.

(** A point of the integer lattice of [dept] non-negative components that
    sum to [d]. *)
Definition lattice_point (dept d : Z) (v : list R) : Prop :=
  vsize v = dept /\ Forall (fun x => (0 <= x)%R) v /\ Rsum v = IZR d.


(** A matrix that satisfies the class invariant and whose element count
    fits [unsigned int], so that no index computation wraps. *)
Definition matrix_fits {T} (m : Matrix.t T) : Prop :=
  Matrix.well_formed m /\ Matrix.n_rows m * Matrix.n_cols m < 2 ^ 32.


(** The element [A[i][j]] of a vector of vectors, [z] where there is none. *)
Definition entry {T} (z : T) (A : list (list T)) (i j : Z) : T :=
  match vget A i with
  | Ok Ai => match vget Ai j with
             | Ok x => x
             | _ => z
             end
  | _ => z
  end.

(** The element [(i, j)] of a matrix, [z] where there is none. *)
Definition element {T} (z : T) (m : Matrix.t T) (i j : Z) : T :=
  match Matrix.at_ m i j with
  | Ok x => x
  | _ => z
  end.


(** An NSGA-III configuration with reference vectors enabled; the callbacks
    play no part in the functions it is used with. *)
Definition settings_MO (population : Z) : Settings float Z unit :=
  mkSettings NSGA_III population (ratio 7 10) (ratio 1 10) false 0 100
    (ratio 1 10000) 10 (ratio 1 1000000) 10 true false false 1 false true []
    None None None None None None None None None None None
    (fun _ r => (d_of_int 1, r)).

(** The niching loop over one reference vector and four chromosomes, all
    associated with it, at distances 9, 0.5, 0.25 and 0.375 from it. *)
Definition niching_generation : GenerationType float Z unit :=
  mkGeneration
    [chromosome_at 0 0; chromosome_at 1 0; chromosome_at 2 0; chromosome_at 3 0]
    (d_of_int 0) (d_of_int 0) (-1) [] [[0]; [1; 2; 3]] [].

Definition niching_distances : Matrix.t float :=
  Matrix.mk 4 1 [ratio 9 1; ratio 1 2; ratio 1 4; ratio 3 8].

(** The states the loop
    [while (g2.chromosomes.size() + to_add.size() < population)] goes
    through: [niching_visits ... x y] when the loop, entered with the loop
    state and the engine state [x], comes to test its condition in [y];
    [selected] is [g2.chromosomes.size()]. *)
Inductive niching_visits {F : Type} `{Double F} {G M : Type}
  (cfg : Settings F G M) (g : GenerationType F G M) (selected : Z)
  (associated : list Z) (dists : Matrix.t F)
  : (list Z * list Z * list Z) * State F G M ->
    (list Z * list Z * list Z) * State F G M -> Prop :=
| niching_visits_entry x :
    niching_visits cfg g selected associated dists x x
| niching_visits_step last_front to_add niche s st' s' y :
    selected + vsize to_add < population cfg ->
    niching_step cfg g associated dists (last_front, to_add, niche) s
    = (s', Ok st') ->
    niching_visits cfg g selected associated dists (st', s') y ->
    niching_visits cfg g selected associated dists
      ((last_front, to_add, niche), s) y.


(* ================================================================= *)
(** ** Configuration errors *)

Section ConfigurationErrors.
Context {F : Type} `{Double F} {G M : Type}.

(** The three checks [crossover_and_mutation] makes, in its order, and the
    message of the first that fails. *)
Definition crossover_fraction_out_of_range (cfg : Settings F G M) : bool :=
  d_leb (crossover_fraction cfg) (d_of_int 0)
  || d_gtb (crossover_fraction cfg) (d_of_int 1).

Definition mutation_rate_out_of_range (cfg : Settings F G M) : bool :=
  d_ltb (mutation_rate cfg) (d_of_int 0)
  || d_gtb (mutation_rate cfg) (d_of_int 1).

Definition interactive_fractions_mismatch (cfg : Settings F G M) : bool :=
  is_interactive cfg
  && negb (u32 (u32 (d_round (d_mul (d_of_int (population cfg))
                               (crossover_fraction cfg)))
                + elite_count cfg) =? population cfg).

Definition variation_error (cfg : Settings F G M) : option string :=
  if crossover_fraction_out_of_range cfg then Some "Wrong crossover fractoin"%string
  else if mutation_rate_out_of_range cfg then Some "Wrong mutation rate"%string
  else if interactive_fractions_mismatch cfg
  then Some
         "In IGA mode, elite fraction + crossover fraction must be equal to 1.0 !"%string
  else None.

(** Two states with the same history [generations_so_abs] and the same
    [generation_step]. *)
Definition same_progress (s s' : State F G M) : Prop :=
  generations_so_abs s' = generations_so_abs s /\
  generation_step s' = generation_step s.

(** A method that pushes no summary and leaves the step counter alone,
    whatever its outcome. *)
Definition keeps_progress {A} (m : Eng F G M A) : Prop :=
  forall s, same_progress s (fst (m s)).

End ConfigurationErrors.

(** The claim as the specification states it, for a whole run of [solve]
    from the state [s]: an error of the configuration ends the run with
    its exception and nothing was pushed to the history. *)
Definition raised_before_any_generation {F G M : Type} `{Double F}
  (run : Eng F G M StopReason) (cfg : Settings F G M) (s : State F G M)
  : Prop :=
  forall w, variation_error cfg = Some w ->
    exists s', run s = (s', Throw w) /\
               generations_so_abs s' = generations_so_abs s.

(** A runnable problem in binary64: minimise [x * x] for one gene [x] drawn
    from [-10, 10), with a blend crossover, a shift mutation, the sequential
    driver and one elite. *)
Definition settings_sphere (population : Z) (crossover_fraction : float)
  : Settings float float float :=
  mkSettings SOGA population crossover_fraction (ratio 1 10) false 1 100
    (ratio 1 10000) 10 (ratio 1 1000000) 10 true false true 1 false true []
    None (Some (fun c => middle_costs c)) None None
    (Some (fun _ r =>
             let '(x, r) := random01 r in
             (d_sub (d_mul (d_of_int 20) x) (d_of_int 10), r)))
    (Some (fun g _ => Some (d_mul g g)))
    None
    (Some (fun g shrink r =>
             let '(x, r) := random01 r in
             (d_add g (d_mul shrink (d_sub x (ratio 1 2))), r)))
    (Some (fun a b r =>
             let '(x, r) := random01 r in
             (d_add (d_mul x a) (d_mul (d_sub (d_of_int 1) x) b), r)))
    (Some tt) None default_shrink_scale.

(** The stream of draws [0.013, 0.932, 0.851, ...] of a small congruential
    recurrence. *)
Definition congruential_draws (n : nat) : float :=
  ratio ((Z.of_nat n * 7919 + 13) mod 1000) 1000.

(** The engine before [solve()]: no history, no last generation. *)
Definition sphere_start : State float float float :=
  mkState (mkRng congruential_draws 0) 0 0 [] (Matrix.mk 0 0 []) []
    (Matrix.mk 0 0 []) 0 (-1) 0 []
    (mkGeneration [] (d_of_int 0) (d_of_int 0) (-1) [] [] []) [].

(** [solve()] and its two parts on this problem, sorting by insertion. *)
Definition sphere_init (cfg : Settings float float float)
  : Eng float float float unit :=
  solve_init insertion_sort (d_of_int 0) (d_of_int 0) 50 cfg.

Definition sphere_next (cfg : Settings float float float)
  : Eng float float float StopReason :=
  solve_next_generation insertion_sort (d_of_int 0) (d_of_int 0) 50 cfg.

Definition sphere_solve (cfg : Settings float float float)
  : Eng float float float StopReason :=
  solve insertion_sort (d_of_int 0) (d_of_int 0) 50 cfg.


(* ================================================================= *)
(** ** What [print] writes *)

(** Row [i] of a matrix as [print] writes it: a tab before each element,
    then the end of the line. *)
Definition row_tokens {T} (z : T) (m : Matrix.t T) (i : Z)
  : list (Matrix.token T) :=
  flat_map (fun j => [Matrix.Tab; Matrix.Val (element z m i j)])
    (iota (Z.to_nat (Matrix.n_cols m)))
  ++ [Matrix.Endl].

Definition printed {T} (z : T) (m : Matrix.t T) : list (Matrix.token T) :=
  flat_map (row_tokens z m) (iota (Z.to_nat (Matrix.n_rows m))).


(* ================================================================= *)
(** ** The messages of the stop reasons *)

(** [stop_reason_to_string(stop)]; the [default] branch, "Unknown reason",
    is for values outside the enumeration. *)
Definition stop_reason_to_string (stop : StopReason) : string :=
  match stop with
  | Undefined => "No-stop"
  | MaxGenerations => "Maximum generation reached"
  | StallAverage => "Average stalled"
  | StallBest => "Best stalled"
  | UserRequest => "User request"
  end.

(** [show_stop_reason(stop)]: what it sends to [cout], item by item. *)
Definition show_stop_reason (verbose : bool) (stop : StopReason) : list string :=
  if verbose then
    ["Stop criteria: ";
     match stop with
     | Undefined => "There is a bug in this function"
     | _ => stop_reason_to_string stop
     end;
     "endl";
     "**************************************";
     "endl"]%string
  else [].

(* ================================================================= *)
(** ** The configurations check_settings accepts *)

Section AcceptedSettings.
Context {F : Type} {G M : Type}.

Definition is_set {A} (callback : option A) : Prop := is_null callback = false.
Definition is_unset {A} (callback : option A) : Prop := is_null callback = true.

(** What each mode needs of the callbacks, and the two sizes. *)
Definition settings_accepted (cfg : Settings F G M) : Prop :=
  match problem_mode cfg with
  | SOGA =>
      is_set (eval_solution cfg) /\ is_set (calculate_SO_total_fitness cfg) /\
      is_set (SO_report_generation cfg) /\
      is_unset (calculate_IGA_total_fitness cfg) /\
      is_unset (eval_solution_IGA cfg) /\
      is_unset (calculate_MO_objectives cfg) /\
      is_unset (distribution_objective_reductions cfg) /\
      is_unset (MO_report_generation cfg)
  | IGA =>
      is_set (eval_solution_IGA cfg) /\ is_set (calculate_IGA_total_fitness cfg) /\
      is_set (SO_report_generation cfg) /\
      is_unset (calculate_SO_total_fitness cfg) /\
      is_unset (eval_solution cfg) /\
      is_unset (calculate_MO_objectives cfg) /\
      is_unset (distribution_objective_reductions cfg) /\
      is_unset (MO_report_generation cfg)
  | NSGA_III =>
      is_set (eval_solution cfg) /\ is_set (calculate_MO_objectives cfg) /\
      is_set (MO_report_generation cfg) /\
      is_unset (calculate_IGA_total_fitness cfg) /\
      is_unset (eval_solution_IGA cfg) /\
      is_unset (calculate_SO_total_fitness cfg) /\
      is_unset (SO_report_generation cfg)
  end /\
  is_set (init_genes cfg) /\ is_set (mutate cfg) /\ is_set (crossover cfg) /\
  1 <= N_threads cfg /\ 1 <= population cfg.

End AcceptedSettings.


(* ================================================================= *)
(** ** The ideal point *)

(** The vector [update_ideal_objectives] starts from: the reduced
    objectives of the first chromosome on a reset, the ideal point so far
    otherwise. *)
Definition ideal_start {F G M} (cfg : Settings F G M) (g : GenerationType F G M)
  (reset : bool) (s : State F G M) : list F :=
  if reset then
    match chromosomes g with
    | c0 :: _ => reduce_objectives cfg (objectives c0)
    | [] => []
    end
  else ideal_objectives s.

(** Concrete inputs over the reals: an NSGA-III configuration without
    callbacks, an engine state at the start, and a generation of two
    chromosomes with the objective vectors (1, 3) and (2, 2). *)
Definition settings_MO_real : Settings R unit unit :=
  mkSettings NSGA_III 2 (7 / 10)%R (1 / 10)%R false 0 100 (1 / 10000)%R 10
    (1 / 1000000)%R 10 true false false 1 false true []
    None None None None None None None None None None None
    (fun _ r => (1%R, r)).

Definition state_real : State R unit unit :=
  mkState (mkRng (fun _ => (1 / 2)%R) 0) 0 0 [] (Matrix.mk 0 0 []) []
    (Matrix.mk 0 0 []) 0 0 0 []
    (mkGeneration [] 0%R 0%R (-1) [] [] []) [].

Definition two_objective_generation : GenerationType R unit unit :=
  mkGeneration
    [mkChromosome tt tt 0%R [1%R; 3%R]; mkChromosome tt tt 0%R [2%R; 2%R]]
    0%R 0%R (-1) [] [] [].

(** A single-objective configuration over the reals, and a generation of
    two chromosomes of total costs 2 and 1. *)
Definition settings_SO_real : Settings R unit unit :=
  mkSettings SOGA 2 (7 / 10)%R (1 / 10)%R false 0 100 (1 / 10000)%R 10
    (1 / 1000000)%R 10 true false false 1 false true []
    None None None None None None None None None None None
    (fun _ r => (1%R, r)).

Definition two_cost_generation : GenerationType R unit unit :=
  mkGeneration [mkChromosome tt tt 2%R []; mkChromosome tt tt 1%R []]
    0%R 0%R (-1) [] [] [].


(* ================================================================= *)
(** ** More concrete runs in binary64 *)

(** The sphere problem with four chromosomes and [crossover_fraction]
    0.7, after [solve_init()] and after one more generation. *)
Definition sphere_settings : Settings float float float :=
  settings_sphere 4 (ratio 7 10).

Definition sphere_after_init : State float float float :=
  fst (sphere_init sphere_settings sphere_start).

Notation sphere_first_generation :=
  (solve_next_generation insertion_sort (d_of_int 0) (d_of_int 0) 50
     sphere_settings sphere_after_init).

(** A single-objective configuration in which a stop has been requested;
    no callback is reached. *)
Definition settings_stop_requested : Settings float Z unit :=
  mkSettings SOGA 3 (ratio 7 10) (ratio 1 10) false 1 100 (ratio 1 10000) 10
    (ratio 1 1000000) 10 true false false 1 true true []
    None None None None None None None None None None None
    (fun _ r => (d_of_int 1, r)).

(** The initial population of the sphere problem, and the parents with
    their offspring at generation step 1. *)
Notation sphere_population0 :=
  (init_population (d_of_int 0) (d_of_int 0) 50 sphere_settings
     (mkGeneration [] (d_of_int 0) (d_of_int 0) (-1) [] [] []) sphere_start).

Notation sphere_offspring :=
  (crossover_and_mutation (d_of_int 0) (d_of_int 0) 50 sphere_settings
     (last_generation sphere_after_init)
     (set_generation_step sphere_after_init 1)).

Notation sphere_whole_run :=
  (solve insertion_sort (d_of_int 0) (d_of_int 0) 50 sphere_settings
     sphere_start).

(** The generation a run returned, the empty one if it returned none. *)
Definition returned {F G M} `{Double F}
  (run : State F G M * outcome (GenerationType F G M)) : GenerationType F G M :=
  match snd run with
  | Ok g => g
  | _ => mkGeneration [] (d_of_int 0) (d_of_int 0) (-1) [] [] []
  end.

(** The selection of the sphere problem's second generation out of its
    first one. *)
Notation sphere_selection :=
  (select_population_SO sphere_settings 50 (last_generation sphere_after_init)
     (mkGeneration [] (d_of_int 0) (d_of_int 0) (-1) [] [] [])
     (set_generation_step sphere_after_init 1)).

(** Four chromosomes with the objectives (1, 4), (2, 2), (3, 3) and (4, 1):
    the third is dominated by the second. *)
Definition pareto_generation : GenerationType float Z unit :=
  mkGeneration
    [mkChromosome 0 tt (d_of_int 0) [ratio 1 1; ratio 4 1];
     mkChromosome 1 tt (d_of_int 0) [ratio 2 1; ratio 2 1];
     mkChromosome 2 tt (d_of_int 0) [ratio 3 1; ratio 3 1];
     mkChromosome 3 tt (d_of_int 0) [ratio 4 1; ratio 1 1]]
    (d_of_int 0) (d_of_int 0) (-1) [] [] [].

(** The same generation after ranking, the engine state after
    [solve_init] on it (ideal objectives (1, 1), two reduced objectives,
    two divisions, step 1), reference vectors and normalised objectives
    for it. *)
Definition pareto_ranked : GenerationType float Z unit :=
  set_fronts pareto_generation [[0; 1; 3]; [2]].

Definition pareto_state : State float Z unit :=
  mkState (mkRng (fun _ => ratio 1 2) 0) 0 0 [ratio 1 1; ratio 1 1]
    (Matrix.mk 0 0 []) [] (Matrix.mk 0 0 []) 2 1 2 [] empty_generation [].

Notation pareto_selection :=
  (select_population_MO (settings_MO 2) 50 pareto_ranked empty_generation
     pareto_state).

Definition pareto_reference : Matrix.t float :=
  Matrix.mk 3 2
    [ratio 1 1; ratio 0 1; ratio 1 2; ratio 1 2; ratio 0 1; ratio 1 1].

Definition pareto_normalized : Matrix.t float :=
  Matrix.mk 4 2
    [ratio 0 1; ratio 1 1; ratio 1 3; ratio 1 3;
     ratio 2 3; ratio 2 3; ratio 1 1; ratio 0 1].

(** Two chromosomes of total costs NaN (the quotient 0 / 0) and 1. *)
Definition nan_generation : GenerationType float Z unit :=
  mkGeneration
    [mkChromosome 0 tt (d_div (d_of_int 0) (d_of_int 0)) [];
     mkChromosome 1 tt (d_of_int 1) []]
    (d_of_int 0) (d_of_int 0) (-1) [] [] [].

(** Normalised objectives that lie away from the first reference vector of
    [pareto_reference]: no chromosome is associated with it. *)
Definition sparse_normalized : Matrix.t float :=
  Matrix.mk 4 2
    [ratio 0 1; ratio 1 1; ratio 1 3; ratio 1 3;
     ratio 2 3; ratio 2 3; ratio 1 2; ratio 1 2].

(* ================================================================= *)
(** * Properties *)

Open Scope R_scope.

Lemma R_ltb_true (a b : R) : R_ltb a b = true <-> a < b.
Proof. unfold R_ltb. destruct (Rlt_dec a b); split; intros; try easy. Qed.

Lemma R_ltb_false (a b : R) : R_ltb a b = false <-> b <= a.
Proof.
  unfold R_ltb. destruct (Rlt_dec a b); split; intros; try easy; lra.
Qed.

Lemma R_leb_true (a b : R) : R_leb a b = true <-> a <= b.
Proof. unfold R_leb. destruct (Rle_dec a b); split; intros; try easy. Qed.

Lemma R_leb_false (a b : R) : R_leb a b = false <-> b < a.
Proof.
  unfold R_leb. destruct (Rle_dec a b); split; intros; try easy; lra.
Qed.

Close Scope R_scope.

(* ----------------------------------------------------------------- *)
(** ** Vectors and loops *)

Lemma vget_Ok {A} (v : list A) (i : Z) :
  0 <= i < vsize v -> exists x, vget v i = Ok x /\ nth_error v (Z.to_nat i) = Some x.
Proof.
  intros Hi. unfold vget, vsize in *.
  destruct (Z.ltb_spec i 0); [lia|].
  destruct (nth_error v (Z.to_nat i)) eqn:E.
  - eauto.
  - apply nth_error_None in E. lia.
Qed.

Lemma vget_inv {A} (v : list A) (i : Z) (x : A) :
  vget v i = Ok x -> 0 <= i < vsize v /\ nth_error v (Z.to_nat i) = Some x.
Proof.
  unfold vget, vsize. destruct (Z.ltb_spec i 0); [discriminate|].
  destruct (nth_error v (Z.to_nat i)) eqn:E; [|discriminate].
  intros [= ->]. split; [|reflexivity].
  assert (Z.to_nat i < length v)%nat by (apply nth_error_Some; congruence). lia.
Qed.

Lemma for_loop_invariant {St} (I : Z -> St -> Prop) (body : Z -> St -> outcome St)
  (n : nat) :
  forall (i : Z) (s : St),
    I i s ->
    (forall k s0, i <= k < i + Z.of_nat n -> I k s0 ->
                  exists s1, body k s0 = Ok s1 /\ I (k + 1) s1) ->
    exists s', for_loop n i body s = Ok s' /\ I (i + Z.of_nat n) s'.
Proof.
  induction n as [|n IH]; intros i s Hs Hbody; cbn [for_loop].
  - exists s. split; [reflexivity|]. now replace (i + Z.of_nat 0) with i by lia.
  - destruct (Hbody i s) as (s1 & E1 & H1); [lia|assumption|].
    rewrite E1. cbn [bind].
    destruct (IH (i + 1) s1 H1) as (s' & E' & H').
    + intros k s0 Hk. apply Hbody. lia.
    + exists s'. split; [assumption|].
      now replace (i + Z.of_nat (S n)) with (i + 1 + Z.of_nat n) by lia.
Qed.

Lemma for_range_invariant {St} (I : Z -> St -> Prop) (body : Z -> St -> outcome St)
  (lo hi : Z) (s : St) :
  lo <= hi ->
  I lo s ->
  (forall k s0, lo <= k < hi -> I k s0 ->
                exists s1, body k s0 = Ok s1 /\ I (k + 1) s1) ->
  exists s', for_range lo hi body s = Ok s' /\ I hi s'.
Proof.
  intros Hle Hs Hbody. unfold for_range.
  destruct (for_loop_invariant I body (Z.to_nat (hi - lo)) lo s Hs) as (s' & E & H').
  - intros k s0 Hk. apply Hbody. lia.
  - exists s'. split; [assumption|].
    now replace (lo + Z.of_nat (Z.to_nat (hi - lo))) with hi in H' by lia.
Qed.

(* ----------------------------------------------------------------- *)
(** ** Matrix *)

Lemma matrix_index_in_range {T} (m : Matrix.t T) (i j : Z) :
  Matrix.well_formed m ->
  0 <= i < Matrix.n_rows m -> 0 <= j < Matrix.n_cols m ->
  0 <= Matrix.index m i j < vsize (Matrix.data m) /\
  Matrix.index m i j <= i * Matrix.n_cols m + j.
Proof.
  intros (Hr & Hc & Hlen) Hi Hj. unfold Matrix.index, u32.
  assert (0 <= i * Matrix.n_cols m + j) by nia.
  assert (i * Matrix.n_cols m + j < Matrix.n_rows m * Matrix.n_cols m) by nia.
  assert ((i * Matrix.n_cols m + j) mod 2 ^ 32 <= i * Matrix.n_cols m + j)
    by (apply Z.mod_le; lia).
  assert (0 <= (i * Matrix.n_cols m + j) mod 2 ^ 32)
    by (apply Z.mod_pos_bound; lia).
  lia.
Qed.

Lemma matrix_at_Ok {T} (m : Matrix.t T) (i j : Z) :
  Matrix.well_formed m ->
  0 <= i < Matrix.n_rows m -> 0 <= j < Matrix.n_cols m ->
  exists x, Matrix.at_ m i j = Ok x.
Proof.
  intros Hwf Hi Hj. unfold Matrix.at_.
  destruct (matrix_index_in_range m i j Hwf Hi Hj) as [Hin _].
  destruct (vget_Ok (Matrix.data m) _ Hin) as (x & E & _). eauto.
Qed.

(** C10.  [print] writes the elements and then clears the element storage:
    on every matrix that satisfies the class invariant it returns, and
    afterwards [empty()] is true and the data is gone, while [get_n_rows()]
    and [get_n_cols()] still report the original dimensions; a matrix that
    held elements is therefore changed by being printed. *)
Theorem print_clears_storage {T} (m : Matrix.t T) :
  Matrix.well_formed m ->
  exists out m',
    Matrix.print m = Ok (out, m') /\
    Matrix.empty m' = true /\
    Matrix.data m' = [] /\
    Matrix.get_n_rows m' = Matrix.get_n_rows m /\
    Matrix.get_n_cols m' = Matrix.get_n_cols m /\
    (Matrix.empty m = false -> m' <> m).
Proof.
  intros Hwf. unfold Matrix.print.
  destruct (for_range_invariant (fun _ (_ : list (Matrix.token T)) => True)
              (fun i out =>
                 out' <- for_range 0 (Matrix.n_cols m)
                           (fun j out => x <- Matrix.at_ m i j ;;
                                         Ok (out ++ [Matrix.Tab; Matrix.Val x]))
                           out ;;
                 Ok (out' ++ [Matrix.Endl]))
              0 (Matrix.n_rows m) []) as (out & E & _).
  - apply Hwf.
  - exact I.
  - intros i out0 Hi _.
    destruct (for_range_invariant (fun _ (_ : list (Matrix.token T)) => True)
                (fun j out => x <- Matrix.at_ m i j ;;
                              Ok (out ++ [Matrix.Tab; Matrix.Val x]))
                0 (Matrix.n_cols m) out0) as (out1 & E1 & _).
    + apply Hwf.
    + exact I.
    + intros j out2 Hj _.
      destruct (matrix_at_Ok m i j Hwf Hi Hj) as (x & Ex).
      rewrite Ex. simpl. eauto.
    + rewrite E1. simpl. eauto.
  - rewrite E. simpl.
    exists out, (Matrix.mk (Matrix.n_rows m) (Matrix.n_cols m) []).
    repeat split.
    intros Hne Heq. rewrite <- Heq in Hne. discriminate.
Qed.

Lemma print_clears_storage_witness :
  exists out m',
    Matrix.print (Matrix.mk 2 2 [1; 2; 3; 4]) = Ok (out, m') /\
    Matrix.empty m' = true /\
    Matrix.data m' = [] /\
    Matrix.get_n_rows m' = 2 /\
    Matrix.get_n_cols m' = 2 /\
    (Matrix.empty (Matrix.mk 2 2 [1; 2; 3; 4]) = false ->
     m' <> Matrix.mk 2 2 [1; 2; 3; 4]).
Proof.
  apply (print_clears_storage (Matrix.mk 2 2 [1; 2; 3; 4])).
  unfold Matrix.well_formed, vsize. simpl. lia.
Defined.

(* ----------------------------------------------------------------- *)
(** ** Dominance *)

Lemma any_exceeds_false (xs ys : list R) :
  any_exceeds xs ys = false <-> no_component_exceeds xs ys.
Proof.
  unfold no_component_exceeds. revert ys.
  induction xs as [|x xs IH]; intros [|y ys]; simpl.
  - split; [intros _ [|i] ? ? E; discriminate E | reflexivity].
  - split; [intros _ [|i] ? ? E; discriminate E | reflexivity].
  - split; [intros _ [|i] ? ? _ E; discriminate E | reflexivity].
  - unfold d_gtb. simpl. destruct (R_ltb y x) eqn:E.
    + apply R_ltb_true in E. split; [discriminate|].
      intros Hall. exfalso. apply (Hall O x y eq_refl eq_refl). lra.
    + apply R_ltb_false in E. rewrite IH. split.
      * intros Hall [|i] x0 y0 Hx Hy; simpl in *.
        -- injection Hx as <-. injection Hy as <-. lra.
        -- eapply Hall; eassumption.
      * intros Hall i x0 y0 Hx Hy. apply (Hall (S i) x0 y0 Hx Hy).
Qed.

Lemma any_below_true (xs ys : list R) :
  any_below xs ys = true <-> some_component_below xs ys.
Proof.
  unfold some_component_below. revert ys.
  induction xs as [|x xs IH]; intros [|y ys]; simpl.
  - split; [discriminate | intros ([|i] & ? & ? & E & _); discriminate E].
  - split; [discriminate | intros ([|i] & ? & ? & E & _); discriminate E].
  - split; [discriminate | intros ([|i] & ? & ? & _ & E & _); discriminate E].
  - destruct (R_ltb x y) eqn:E.
    + apply R_ltb_true in E. split; [|reflexivity].
      intros _. exists O, x, y. auto.
    + apply R_ltb_false in E. rewrite IH. split.
      * intros (i & x0 & y0 & Hx & Hy & Hlt). exists (S i), x0, y0. auto.
      * intros ([|i] & x0 & y0 & Hx & Hy & Hlt); simpl in *.
        -- injection Hx as <-. injection Hy as <-. lra.
        -- exists i, x0, y0. auto.
Qed.

Lemma any_below_refl (xs : list R) : any_below xs xs = false.
Proof.
  induction xs as [|x xs IH]; simpl; [reflexivity|].
  destruct (R_ltb x x) eqn:E; [|assumption].
  apply R_ltb_true in E. lra.
Qed.

(** C7.  For chromosomes with objective vectors of equal length,
    [dominates a b] returns true exactly when no component of
    [a.objectives] strictly exceeds the corresponding component of
    [b.objectives] and at least one is strictly less; when the two vectors
    are equal componentwise, neither chromosome dominates the other. *)
Theorem dominates_iff {G M} (a b : ChromosomeType R G M) :
  length (objectives a) = length (objectives b) ->
  (exists d, dominates a b = Ok d /\
             (d = true <->
              no_component_exceeds (objectives a) (objectives b) /\
              some_component_below (objectives a) (objectives b))) /\
  (objectives a = objectives b ->
   dominates a b = Ok false /\ dominates b a = Ok false).
Proof.
  intros Hlen. unfold dominates. split.
  - rewrite Hlen, Nat.eqb_refl. simpl.
    destruct (any_exceeds (objectives a) (objectives b)) eqn:Eex.
    + exists false. split; [reflexivity|]. split; [discriminate|].
      intros [Hno _]. apply any_exceeds_false in Hno. congruence.
    + apply any_exceeds_false in Eex.
      destruct (any_below (objectives a) (objectives b)) eqn:Ebe.
      * exists true. split; [reflexivity|]. split; [|reflexivity].
        intros _. split; [assumption|]. now apply any_below_true.
      * exists false. split; [reflexivity|]. split; [discriminate|].
        intros [_ Hsome]. apply any_below_true in Hsome. congruence.
  - intros Heq. rewrite <- Heq, Nat.eqb_refl. simpl.
    assert (Hno : any_exceeds (objectives a) (objectives a) = false).
    { apply any_exceeds_false. intros i x y Hx Hy.
      rewrite Hx in Hy. injection Hy as <-. lra. }
    rewrite Hno, any_below_refl. split; reflexivity.
Qed.

Lemma dominates_iff_witness :
  (exists d,
      dominates (mkChromosome tt tt 0%R [1%R; 2%R])
                (mkChromosome tt tt 0%R [1%R; 3%R]) = Ok d /\
      (d = true <->
       no_component_exceeds [1%R; 2%R] [1%R; 3%R] /\
       some_component_below [1%R; 2%R] [1%R; 3%R])) /\
  ([1%R; 2%R] = [1%R; 3%R] ->
   dominates (mkChromosome tt tt 0%R [1%R; 2%R])
             (mkChromosome tt tt 0%R [1%R; 3%R]) = Ok false /\
   dominates (mkChromosome tt tt 0%R [1%R; 3%R])
             (mkChromosome tt tt 0%R [1%R; 2%R]) = Ok false).
Proof.
  apply (dominates_iff (mkChromosome tt tt 0%R [1%R; 2%R])
                       (mkChromosome tt tt 0%R [1%R; 3%R])).
  reflexivity.
Defined.

(* ----------------------------------------------------------------- *)
(** ** More on vectors and loops *)

Lemma length_replace_nth {A} (v : list A) (n : nat) (x : A) :
  length (replace_nth v n x) = length v.
Proof.
  revert n. induction v as [|y v IH]; intros [|n]; simpl; auto.
Qed.

Lemma nth_error_replace_nth_eq {A} (v : list A) (n : nat) (x : A) :
  (n < length v)%nat -> nth_error (replace_nth v n x) n = Some x.
Proof.
  revert n. induction v as [|y v IH]; intros [|n] Hn; simpl in *;
    try lia; auto. apply IH. lia.
Qed.

Lemma nth_error_replace_nth_ne {A} (v : list A) (n m : nat) (x : A) :
  n <> m -> nth_error (replace_nth v n x) m = nth_error v m.
Proof.
  revert n m. induction v as [|y v IH]; intros [|n] [|m] Hnm; simpl;
    try congruence; auto.
Qed.

Lemma vset_Ok {A} (v : list A) (i : Z) (x : A) :
  0 <= i < vsize v -> vset v i x = Ok (replace_nth v (Z.to_nat i) x).
Proof.
  intros Hi. unfold vset, vsize in *.
  destruct (Z.leb_spec 0 i); [|lia].
  destruct (Z.ltb_spec i (Z.of_nat (length v))); [reflexivity|lia].
Qed.

Lemma vset_inv {A} (v v' : list A) (i : Z) (x : A) :
  vset v i x = Ok v' ->
  0 <= i < vsize v /\ v' = replace_nth v (Z.to_nat i) x.
Proof.
  unfold vset, vsize.
  destruct (Z.leb_spec 0 i); simpl; [|discriminate].
  destruct (Z.ltb_spec i (Z.of_nat (length v))); [|discriminate].
  intros [= <-]. split; [lia|reflexivity].
Qed.

Lemma vsize_vset {A} (v v' : list A) (i : Z) (x : A) :
  vset v i x = Ok v' -> vsize v' = vsize v.
Proof.
  intros E. apply vset_inv in E as [_ ->]. unfold vsize.
  now rewrite length_replace_nth.
Qed.

Lemma vget_vset_eq {A} (v v' : list A) (i : Z) (x : A) :
  vset v i x = Ok v' -> vget v' i = Ok x.
Proof.
  intros E. apply vset_inv in E as [Hi ->]. unfold vget, vsize in *.
  destruct (Z.ltb_spec i 0); [lia|].
  rewrite nth_error_replace_nth_eq by lia. reflexivity.
Qed.

Lemma vget_vset_ne {A} (v v' : list A) (i j : Z) (x : A) :
  vset v i x = Ok v' -> j <> i -> vget v' j = vget v j.
Proof.
  intros E Hj. apply vset_inv in E as [Hi ->]. unfold vget.
  destruct (Z.ltb_spec j 0); [reflexivity|].
  rewrite nth_error_replace_nth_ne by lia. reflexivity.
Qed.

Lemma vget_app_l {A} (v w : list A) (i : Z) :
  i < vsize v -> vget (v ++ w) i = vget v i.
Proof.
  intros Hi. unfold vget, vsize in *. destruct (Z.ltb_spec i 0); [reflexivity|].
  rewrite nth_error_app1 by lia. reflexivity.
Qed.

Lemma vget_app_last {A} (v : list A) (x : A) :
  vget (v ++ [x]) (vsize v) = Ok x.
Proof.
  unfold vget, vsize. destruct (Z.ltb_spec (Z.of_nat (length v)) 0); [lia|].
  rewrite Nat2Z.id, nth_error_app2, Nat.sub_diag by lia. reflexivity.
Qed.

Lemma vsize_app {A} (v w : list A) : vsize (v ++ w) = vsize v + vsize w.
Proof. unfold vsize. rewrite length_app. lia. Qed.

Lemma vsize_nonneg {A} (v : list A) : 0 <= vsize v.
Proof. unfold vsize. lia. Qed.

Lemma vget_ext {A} (v w : list A) :
  vsize v = vsize w -> (forall i, 0 <= i < vsize v -> vget v i = vget w i) ->
  v = w.
Proof.
  intros Hlen Hget. apply nth_error_ext. intros n.
  destruct (Nat.lt_ge_cases n (length v)) as [Hn|Hn].
  - specialize (Hget (Z.of_nat n)). unfold vget, vsize in *.
    destruct (Z.ltb_spec (Z.of_nat n) 0); [lia|].
    rewrite Nat2Z.id in Hget.
    destruct (nth_error v n) eqn:Ev; [|apply nth_error_None in Ev; lia].
    destruct (nth_error w n) eqn:Ew; [|apply nth_error_None in Ew; lia].
    specialize (Hget ltac:(lia)). congruence.
  - assert (nth_error v n = None) as -> by (apply nth_error_None; lia).
    symmetry. apply nth_error_None. unfold vsize in Hlen. lia.
Qed.

(** Total correctness of a [while] loop: an invariant, and a measure that
    the body decreases, give a final state where the test fails. *)
Lemma while_loop_total {St} (I : St -> Prop) (mu : St -> nat)
  (cond : St -> outcome bool) (body : St -> outcome St) :
  (forall s, I s ->
     exists b, cond s = Ok b /\
       (b = true -> exists s', body s = Ok s' /\ I s' /\ (mu s' < mu s)%nat)) ->
  forall fuel s, I s -> (mu s < fuel)%nat ->
    exists s', while_loop fuel cond body s = Ok s' /\ I s' /\ cond s' = Ok false.
Proof.
  intros Hstep. induction fuel as [|fuel IH]; intros s Hs Hmu; [lia|].
  cbn [while_loop]. destruct (Hstep s Hs) as ([|] & Ec & Hb); rewrite Ec; cbn [bind].
  - destruct (Hb eq_refl) as (s1 & Eb & Hs1 & Hlt). rewrite Eb. cbn [bind].
    apply IH; [assumption|lia].
  - exists s. auto.
Qed.

(* ----------------------------------------------------------------- *)
(** ** select_parent *)

Lemma select_parent_scan {F} `{Double F} {G M} (g : GenerationType F G M)
  (rng : Rng F) :
  vsize (selection_chance_cumulative g) = vsize (chromosomes g) ->
  exists position,
    select_parent g rng = Ok (position, snd (random01 rng)) /\
    0 <= position <= vsize (chromosomes g) /\
    (forall k, 0 <= k < position ->
       exists c, vget (selection_chance_cumulative g) k = Ok c /\
                 d_ltb c (fst (random01 rng)) = true) /\
    (position < vsize (chromosomes g) ->
       exists c, vget (selection_chance_cumulative g) position = Ok c /\
                 d_ltb c (fst (random01 rng)) = false).
Proof.
  intros Hlen. unfold select_parent.
  destruct (random01 rng) as [r rng'] eqn:Er. cbn [fst snd].
  set (N_max := vsize (chromosomes g)) in *.
  set (table := selection_chance_cumulative g) in *.
  pose (I := fun position : Z =>
               0 <= position <= N_max /\
               forall k, 0 <= k < position ->
                 exists c, vget table k = Ok c /\ d_ltb c r = true).
  destruct (while_loop_total I (fun position => Z.to_nat (N_max - position))
              (fun position =>
                 if position <? N_max then
                   c <- vget table position ;; Ok (d_ltb c r)
                 else Ok false)
              (fun position => Ok (position + 1)))
    with (fuel := S (Z.to_nat N_max)) (s := 0)
    as (position & E & [Hrange Hbelow] & Hexit).
  - intros position [Hrange Hbelow].
    destruct (Z.ltb_spec position N_max) as [Hlt|Hge].
    + destruct (vget_Ok table position) as (c & Ec & _); [lia|].
      rewrite Ec. cbn [bind]. exists (d_ltb c r). split; [reflexivity|].
      intros Hc. exists (position + 1). split; [reflexivity|]. split; [|lia].
      split; [lia|]. intros k Hk.
      destruct (Z.eq_dec k position) as [->|Hne]; [eauto|]. apply Hbelow. lia.
    + exists false. split; [reflexivity|discriminate].
  - split; [pose proof (vsize_nonneg (chromosomes g)); lia|]. intros k Hk. lia.
  - rewrite Z.sub_0_r. lia.
  - rewrite E. cbn [bind]. exists position. repeat split; try tauto; try lia.
    intros Hlt. destruct (Z.ltb_spec position N_max); [|lia].
    destruct (vget table position) as [c| | |]; try discriminate.
    exists c. cbn [bind] in Hexit. split; congruence.
Qed.

(* ----------------------------------------------------------------- *)
(** ** generate_selection_chance *)

Open Scope R_scope.

Lemma chance_term_pos (k : Z) : (0 <= k)%Z -> 0 < chance_term k.
Proof.
  intros Hk. unfold chance_term.
  assert (0 < IZR (k + 1)) by (apply IZR_lt; lia).
  assert (0 < sqrt (IZR (k + 1))) by (apply sqrt_lt_R0; assumption).
  apply Rdiv_lt_0_compat; lra.
Qed.

Lemma firstn_succ_nth_error {A} (l : list A) (n : nat) (x : A) :
  nth_error l n = Some x -> firstn (S n) l = firstn n l ++ [x].
Proof.
  revert n. induction l as [|y l IH]; intros [|n] E; simpl in *;
    try discriminate.
  - now injection E as ->.
  - f_equal. now apply IH.
Qed.

Lemma raw_chance_step (rank : list Z) (i k : Z) :
  (0 <= i)%Z -> nth_error rank (Z.to_nat i) = Some k ->
  raw_chance rank i = raw_chance rank (i - 1) + chance_term k.
Proof.
  intros Hi Ek. unfold raw_chance.
  replace (Z.to_nat (i + 1)) with (S (Z.to_nat i)) by lia.
  replace (Z.to_nat (i - 1 + 1)) with (Z.to_nat i) by lia.
  rewrite (firstn_succ_nth_error _ _ _ Ek), fold_left_app. reflexivity.
Qed.

Lemma raw_chance_start (rank : list Z) : raw_chance rank (-1) = 0.
Proof. reflexivity. Qed.

Lemma raw_chance_lt (rank : list Z) :
  Forall (fun k => (0 <= k)%Z) rank ->
  forall (n : nat) (i : Z),
    (-1 <= i)%Z -> (i + Z.of_nat (S n) < vsize rank)%Z ->
    raw_chance rank i < raw_chance rank (i + Z.of_nat (S n)).
Proof.
  intros Hpos. induction n as [|n IH]; intros i Hi Hlt.
  - destruct (vget_Ok rank (i + 1)) as (k & _ & Ek); [unfold vsize in *; lia|].
    replace (i + Z.of_nat 1)%Z with (i + 1)%Z by lia.
    rewrite (raw_chance_step rank (i + 1) k) by (assumption || lia).
    replace (i + 1 - 1)%Z with i by lia.
    assert (0 < chance_term k).
    { apply chance_term_pos. rewrite Forall_forall in Hpos. apply Hpos.
      eapply nth_error_In; eassumption. }
    lra.
  - specialize (IH i Hi ltac:(lia)).
    destruct (vget_Ok rank (i + Z.of_nat (S (S n)))) as (k & _ & Ek);
      [unfold vsize in *; lia|].
    rewrite (raw_chance_step rank (i + Z.of_nat (S (S n))) k)
      by (assumption || lia).
    replace (i + Z.of_nat (S (S n)) - 1)%Z with (i + Z.of_nat (S n))%Z by lia.
    assert (0 < chance_term k).
    { apply chance_term_pos. rewrite Forall_forall in Hpos. apply Hpos.
      eapply nth_error_In; eassumption. }
    lra.
Qed.

Lemma raw_chance_increasing (rank : list Z) (i j : Z) :
  Forall (fun k => (0 <= k)%Z) rank ->
  (-1 <= i < j)%Z -> (j < vsize rank)%Z ->
  raw_chance rank i < raw_chance rank j.
Proof.
  intros Hpos Hij Hj.
  replace j with (i + Z.of_nat (S (Z.to_nat (j - i - 1))))%Z by lia.
  apply raw_chance_lt; [assumption|lia|lia].
Qed.

Lemma raw_chance_pos (rank : list Z) (i : Z) :
  Forall (fun k => (0 <= k)%Z) rank ->
  (0 <= i < vsize rank)%Z -> 0 < raw_chance rank i.
Proof.
  intros Hpos Hi. rewrite <- (raw_chance_start rank).
  apply raw_chance_increasing; [assumption|lia|lia].
Qed.

(** The table after the in-place normalisation: entries before
    [population - 1] are divided by the running sum at [population - 1],
    that entry becomes 1, and the entries after it are divided by 1. *)
Lemma generate_selection_chance_table {G M} (population : Z)
  (gen : GenerationType R G M) (rank : list Z) :
  (vsize (chromosomes gen) < 2 ^ 32)%Z ->
  vsize rank = vsize (chromosomes gen) ->
  (1 <= population <= vsize (chromosomes gen))%Z ->
  Forall (fun k => (0 <= k)%Z) rank ->
  exists table,
    generate_selection_chance population gen rank
      = Ok (set_selection_chance_cumulative gen table) /\
    vsize table = vsize (chromosomes gen) /\
    forall k, (0 <= k < vsize (chromosomes gen))%Z ->
      vget table k =
        Ok (if (k <? population - 1)%Z
            then raw_chance rank k / raw_chance rank (population - 1)
            else if (k =? population - 1)%Z then 1
                 else raw_chance rank k).
Proof.
  intros Hsmall Hrank HP Hpos. unfold generate_selection_chance.
  set (N := vsize (chromosomes gen)) in *.
  assert (HN : u32 N = N) by (unfold u32; apply Z.mod_small; lia).
  assert (Hp : u32 (population - 1) = (population - 1)%Z)
    by (unfold u32; apply Z.mod_small; lia).
  rewrite HN, Hp.
  (* the accumulation loop *)
  destruct (for_range_invariant
              (fun i (s : R * list R) =>
                 fst s = raw_chance rank (i - 1) /\ vsize (snd s) = i /\
                 forall k, (0 <= k < i)%Z -> vget (snd s) k = Ok (raw_chance rank k))
              (fun i '(chance_cumulative, table) =>
                 rank_i <- vget rank i ;;
                 let chance_cumulative :=
                   d_add chance_cumulative
                     (d_div (d_of_int 1) (d_sqrt (d_of_int (rank_i + 1)))) in
                 Ok (chance_cumulative, table ++ [chance_cumulative]))
              0%Z N (d_of_int 0, []))
    as ([acc T] & E1 & _ & HTsize & HT).
  - lia.
  - cbn [fst snd]. split; [reflexivity|]. split; [reflexivity|]. intros k Hk. lia.
  - intros i [acc T] Hi (Hacc & HTsize & HT). cbn [fst snd] in *.
    destruct (vget_Ok rank i) as (k & Ek & Ek'); [lia|].
    rewrite Ek. cbn [bind]. eexists. split; [reflexivity|]. cbn [fst snd].
    assert (Hnew : d_add acc (d_div (d_of_int 1) (d_sqrt (d_of_int (k + 1))))
                   = raw_chance rank i).
    { rewrite (raw_chance_step rank i k) by (assumption || lia).
      rewrite Hacc. reflexivity. }
    replace (i + 1 - 1)%Z with i by lia.
    split; [assumption|]. split; [rewrite vsize_app; unfold vsize at 2; simpl; lia|].
    intros j Hj. destruct (Z.eq_dec j i) as [->|Hne].
    + rewrite <- HTsize. rewrite vget_app_last. rewrite HTsize. now rewrite Hnew.
    + rewrite vget_app_l by lia. apply HT. lia.
  - cbn [fst snd] in *. rewrite E1. cbn [bind].
    (* the normalising loop *)
    set (final := fun k : Z =>
                    if (k <? population - 1)%Z
                    then raw_chance rank k / raw_chance rank (population - 1)
                    else if (k =? population - 1)%Z then 1
                         else raw_chance rank k).
    assert (HTp : 0 < raw_chance rank (population - 1))
      by (apply raw_chance_pos; [assumption|lia]).
    destruct (for_range_invariant
                (fun i (table : list R) =>
                   vsize table = N /\
                   (forall k, (0 <= k < i)%Z -> vget table k = Ok (final k)) /\
                   (forall k, (i <= k < N)%Z -> vget table k = Ok (raw_chance rank k)))
                (fun i table =>
                   x <- vget table i ;;
                   y <- vget table (population - 1)%Z ;;
                   vset table i (d_div x y))
                0%Z N T)
      as (table & E2 & Hsize & Hfinal & _).
    + lia.
    + split; [assumption|]. split; [intros k Hk; lia|]. intros k Hk. apply HT. lia.
    + intros i table Hi (Hsize & Hdone & Htodo).
      rewrite (Htodo i) by lia. cbn [bind].
      assert (Ey : exists y, vget table (population - 1)%Z = Ok y /\
                             raw_chance rank i / y = final i).
      { destruct (Z_lt_le_dec (population - 1) i) as [Hlt|Hle].
        - rewrite Hdone by lia. exists 1. split.
          + unfold final. rewrite Z.ltb_irrefl, Z.eqb_refl. reflexivity.
          + unfold final. destruct (Z.ltb_spec i (population - 1)); [lia|].
            destruct (Z.eqb_spec i (population - 1)); [lia|]. field.
        - rewrite Htodo by lia. eexists. split; [reflexivity|].
          unfold final. destruct (Z.ltb_spec i (population - 1)); [reflexivity|].
          destruct (Z.eqb_spec i (population - 1)) as [->|]; [|lia].
          field. lra. }
      destruct Ey as (y & Ey & Hy). rewrite Ey. cbn [bind].
      rewrite vset_Ok by lia. eexists. split; [reflexivity|].
      assert (Es : vset table i (d_div (raw_chance rank i) y)
                   = Ok (replace_nth table (Z.to_nat i)
                           (d_div (raw_chance rank i) y)))
        by (apply vset_Ok; lia).
      split; [rewrite (vsize_vset _ _ _ _ Es); assumption|]. split.
      * intros k Hk. destruct (Z.eq_dec k i) as [->|Hne].
        -- rewrite (vget_vset_eq _ _ _ _ Es). f_equal. exact Hy.
        -- rewrite (vget_vset_ne _ _ _ _ _ Es) by assumption. apply Hdone. lia.
      * intros k Hk. rewrite (vget_vset_ne _ _ _ _ _ Es) by lia. apply Htodo. lia.
    + rewrite E2. cbn [bind]. exists table. repeat split; assumption.
Qed.

(** X13.  On a complete generation (as many chromosomes as [population],
    fewer than 2^32, with non-negative ranks), over the reals,
    [generate_selection_chance] returns, and the table it stores is
    strictly increasing and ends at 1. *)
Lemma generate_selection_chance_complete_generation {G M} (population : Z)
  (gen : GenerationType R G M) (rank : list Z) :
  (vsize (chromosomes gen) < 2 ^ 32)%Z ->
  vsize rank = vsize (chromosomes gen) ->
  (1 <= population)%Z -> population = vsize (chromosomes gen) ->
  Forall (fun k => (0 <= k)%Z) rank ->
  exists table,
    generate_selection_chance population gen rank
      = Ok (set_selection_chance_cumulative gen table) /\
    vsize table = population /\
    vget table (population - 1) = Ok 1 /\
    forall i j ci cj, (i < j)%Z -> vget table i = Ok ci -> vget table j = Ok cj ->
                      ci < cj.
Proof.
  intros Hsmall Hrank HP1 HPN Hpos.
  destruct (generate_selection_chance_table population gen rank)
    as (table & E & Hsize & Hfinal); try assumption; [lia|].
  exists table. split; [assumption|]. split; [lia|]. split.
  - rewrite Hfinal by lia. rewrite Z.ltb_irrefl, Z.eqb_refl. reflexivity.
  - intros i j ci cj Hij Hi Hj.
    apply vget_inv in Hi as Hi'. apply vget_inv in Hj as Hj'.
    destruct Hi' as [Hi' _]. destruct Hj' as [Hj' _].
    rewrite Hfinal in Hi by lia. rewrite Hfinal in Hj by lia.
    assert (HTp : 0 < raw_chance rank (population - 1))
      by (apply raw_chance_pos; [assumption|lia]).
    destruct (Z.ltb_spec i (population - 1)); [|lia].
    injection Hi as <-.
    destruct (Z.ltb_spec j (population - 1)).
    + injection Hj as <-.
      apply Rmult_lt_compat_r; [apply Rinv_0_lt_compat; assumption|].
      apply raw_chance_increasing; [assumption|lia|lia].
    + destruct (Z.eqb_spec j (population - 1)); [|lia].
      injection Hj as <-.
      apply (Rmult_lt_reg_r (raw_chance rank (population - 1))); [assumption|].
      unfold Rdiv. rewrite Rmult_assoc, Rinv_l, Rmult_1_r, Rmult_1_l by lra.
      apply raw_chance_increasing; [assumption|lia|lia].
Qed.

(** On a generation with more chromosomes than [population] (the combined
    parents and offspring) the entries after [population - 1] are left
    unnormalised: the final entry is the whole running sum. *)
Lemma generate_selection_chance_combined_generation {G M} (population : Z)
  (gen : GenerationType R G M) (rank : list Z) :
  (vsize (chromosomes gen) < 2 ^ 32)%Z ->
  vsize rank = vsize (chromosomes gen) ->
  (1 <= population < vsize (chromosomes gen))%Z ->
  Forall (fun k => (0 <= k)%Z) rank ->
  exists table,
    generate_selection_chance population gen rank
      = Ok (set_selection_chance_cumulative gen table) /\
    vget table (population - 1) = Ok 1 /\
    vget table (vsize (chromosomes gen) - 1)
      = Ok (raw_chance rank (vsize (chromosomes gen) - 1)) /\
    raw_chance rank (population - 1)
      < raw_chance rank (vsize (chromosomes gen) - 1).
Proof.
  intros Hsmall Hrank HP Hpos.
  destruct (generate_selection_chance_table population gen rank)
    as (table & E & Hsize & Hfinal); try assumption; [lia|].
  exists table. split; [assumption|]. split; [|split].
  - rewrite Hfinal by lia. rewrite Z.ltb_irrefl, Z.eqb_refl. reflexivity.
  - rewrite Hfinal by lia.
    destruct (Z.ltb_spec (vsize (chromosomes gen) - 1) (population - 1)); [lia|].
    destruct (Z.eqb_spec (vsize (chromosomes gen) - 1) (population - 1)); [lia|].
    reflexivity.
  - apply raw_chance_increasing; [assumption|lia|lia].
Qed.

Close Scope R_scope.

(* ----------------------------------------------------------------- *)
(** ** select_parent on a computed table *)

Open Scope R_scope.

(** C2.  Over the reals, on a generation whose table
    [generate_selection_chance] has computed (at least one and fewer than
    2^32 chromosomes, one non-negative rank for each, and
    [1 <= population <= |chromosomes|], as [rank_population] calls it) and
    for every draw [r <= 1], [select_parent] returns the smallest index
    whose cumulative value is at least [r].  Entry [population - 1] of a
    computed table is 1, so such an index exists and is at most
    [population - 1]: the case that no entry reaches the draw does not
    arise. *)
Theorem select_parent_on_computed_table {G M} (population : Z)
  (gen : GenerationType R G M) (rank : list Z) (rng : Rng R) :
  (vsize (chromosomes gen) < 2 ^ 32)%Z ->
  vsize rank = vsize (chromosomes gen) ->
  (1 <= population <= vsize (chromosomes gen))%Z ->
  Forall (fun k => (0 <= k)%Z) rank ->
  fst (random01 rng) <= 1 ->
  exists gen' position rng',
    generate_selection_chance population gen rank = Ok gen' /\
    chromosomes gen' = chromosomes gen /\
    select_parent gen' rng = Ok (position, rng') /\
    (0 <= position <= population - 1)%Z /\
    (exists c, vget (selection_chance_cumulative gen') position = Ok c /\
               c >= fst (random01 rng)) /\
    (forall i c, vget (selection_chance_cumulative gen') i = Ok c ->
                 c >= fst (random01 rng) -> (position <= i)%Z).
Proof.
  intros Hsmall Hrank HP Hpos Hdraw.
  destruct (generate_selection_chance_table population gen rank)
    as (table & E & Hsize & Hfinal); try assumption.
  set (gen' := set_selection_chance_cumulative gen table) in *.
  assert (Hlen : vsize (selection_chance_cumulative gen')
                 = vsize (chromosomes gen')) by exact Hsize.
  destruct (select_parent_scan gen' rng Hlen)
    as (position & Es & Hrange & Hbelow & Hat).
  change (chromosomes gen') with (chromosomes gen) in *.
  change (selection_chance_cumulative gen') with table in *.
  assert (Hone : vget table (population - 1) = Ok 1).
  { rewrite Hfinal by lia. now rewrite Z.ltb_irrefl, Z.eqb_refl. }
  assert (Hle : (position <= population - 1)%Z).
  { destruct (Z_lt_le_dec (population - 1) position) as [Hlt|]; [|lia].
    destruct (Hbelow (population - 1)%Z) as (c & Ec & Hc); [lia|].
    rewrite Hone in Ec. injection Ec as <-. apply R_ltb_true in Hc. lra. }
  exists gen', position, (snd (random01 rng)).
  split; [exact E|]. split; [reflexivity|]. split; [exact Es|].
  split; [lia|]. split.
  - destruct Hat as (c & Ec & Hc); [lia|].
    exists c. split; [exact Ec|]. apply R_ltb_false in Hc. lra.
  - intros i c Ei Hc.
    change (selection_chance_cumulative gen') with table in Ei.
    destruct (Z_lt_le_dec i position) as [Hlt|]; [|assumption].
    pose proof (vget_inv _ _ _ Ei) as [Hi _].
    destruct (Hbelow i) as (c0 & E0 & Hc0); [lia|].
    rewrite E0 in Ei. injection Ei as ->. apply R_ltb_true in Hc0. lra.
Qed.

Lemma select_parent_on_computed_table_witness :
  exists gen' position rng',
    generate_selection_chance 2 two_cost_generation [1; 0]%Z = Ok gen' /\
    chromosomes gen' = chromosomes two_cost_generation /\
    select_parent gen' (mkRng (fun _ => 3 / 4) 0) = Ok (position, rng') /\
    (0 <= position <= 2 - 1)%Z /\
    (exists c, vget (selection_chance_cumulative gen') position = Ok c /\
               c >= fst (random01 (mkRng (fun _ => 3 / 4) 0))) /\
    (forall i c, vget (selection_chance_cumulative gen') i = Ok c ->
                 c >= fst (random01 (mkRng (fun _ => 3 / 4) 0)) ->
                 (position <= i)%Z).
Proof.
  apply (select_parent_on_computed_table 2 two_cost_generation [1; 0]%Z
           (mkRng (fun _ => 3 / 4) 0)).
  - unfold vsize. cbn. lia.
  - reflexivity.
  - unfold vsize. cbn. lia.
  - repeat constructor; lia.
  - cbn. lra.
Defined.

Close Scope R_scope.

(* ----------------------------------------------------------------- *)
(** ** quicksort_indices_SO *)

Section Quicksort.
Context {G M : Type}.
Variable gen : GenerationType R G M.

Local Notation in_range := (fun e : Z => 0 <= e < vsize (chromosomes gen)).
Local Notation cost := (cost_of gen).

Lemma cost_at_in_range (e : Z) :
  0 <= e < vsize (chromosomes gen) -> cost_at gen e = Ok (cost e).
Proof.
  intros He. unfold cost_of, cost_at.
  destruct (vget_Ok (chromosomes gen) e He) as (c & E & _).
  rewrite E. reflexivity.
Qed.

Lemma vget_in_range (arr : list Z) (k e : Z) :
  Forall in_range arr -> vget arr k = Ok e -> 0 <= e < vsize (chromosomes gen).
Proof.
  intros Hall E. apply vget_inv in E as [_ E]. apply nth_error_In in E.
  rewrite Forall_forall in Hall. exact (Hall e E).
Qed.

Lemma scan_l_total (arr : list Z) (x : R) (right : Z) (fuel : nat) (l : Z) :
  Forall in_range arr ->
  0 <= l <= right -> right < vsize arr ->
  (Z.to_nat (right - l) < fuel)%nat ->
  exists l',
    scan_l fuel gen arr x right l = Ok l' /\
    l <= l' <= right /\
    (forall k, l <= k < l' -> holds_at arr k (fun e => (cost e <= x)%R)) /\
    (l' < right -> holds_at arr l' (fun e => (x < cost e)%R)).
Proof.
  intros Hall Hl Hright Hfuel. unfold scan_l.
  destruct (while_loop_total
              (fun l' => l <= l' <= right /\
                         forall k, l <= k < l' ->
                                   holds_at arr k (fun e => (cost e <= x)%R))
              (fun l' => Z.to_nat (right - l'))
              (fun l =>
                 a <- vget arr l ;;
                 c <- cost_at gen a ;;
                 Ok (d_leb c x && (l <? right)))
              (fun l => Ok (l + 1)))
    with (fuel := fuel) (s := l)
    as (l' & E & [Hrange Hbelow] & Hexit).
  - intros l0 [Hrange Hbelow].
    destruct (vget_Ok arr l0) as (a & Ea & _); [lia|].
    rewrite Ea. cbn [bind].
    rewrite (cost_at_in_range a) by (eapply vget_in_range; eassumption).
    cbn [bind]. eexists. split; [reflexivity|]. intros Hb.
    apply andb_prop in Hb as [Hle Hlt].
    apply R_leb_true in Hle. apply Z.ltb_lt in Hlt.
    exists (l0 + 1). split; [reflexivity|]. split; [|lia].
    split; [lia|]. intros k Hk.
    destruct (Z.eq_dec k l0) as [->|]; [exists a; auto|apply Hbelow; lia].
  - split; [lia|]. intros k Hk. lia.
  - assumption.
  - exists l'. repeat split; try assumption; try lia.
    intros Hlt. destruct (vget_Ok arr l') as (a & Ea & _); [lia|].
    rewrite Ea in Hexit. cbn [bind] in Hexit.
    rewrite (cost_at_in_range a) in Hexit by (eapply vget_in_range; eassumption).
    cbn [bind] in Hexit. injection Hexit as Hexit.
    apply andb_false_iff in Hexit as [Hexit|Hexit].
    + apply R_leb_false in Hexit. exists a. auto.
    + apply Z.ltb_ge in Hexit. lia.
Qed.

Lemma scan_r_total (arr : list Z) (x : R) (left : Z) (fuel : nat) (r : Z) :
  Forall in_range arr ->
  0 <= left <= r -> r < vsize arr ->
  holds_at arr left (fun e => (cost e <= x)%R) ->
  (Z.to_nat (r - left) < fuel)%nat ->
  exists r',
    scan_r fuel gen arr x left r = Ok r' /\
    left <= r' <= r /\
    (forall k, r' < k <= r -> holds_at arr k (fun e => (x < cost e)%R)) /\
    holds_at arr r' (fun e => (cost e <= x)%R).
Proof.
  intros Hall Hr Hsize (a0 & Ea0 & Hpivot) Hfuel. unfold scan_r.
  destruct (while_loop_total
              (fun r' => left <= r' <= r /\
                         forall k, r' < k <= r ->
                                   holds_at arr k (fun e => (x < cost e)%R))
              (fun r' => Z.to_nat (r' - left))
              (fun r =>
                 a <- vget arr r ;;
                 c <- cost_at gen a ;;
                 Ok (d_gtb c x && (left <=? r)))
              (fun r => Ok (r - 1)))
    with (fuel := fuel) (s := r)
    as (r' & E & [Hrange Habove] & Hexit).
  - intros r0 [Hrange Habove].
    destruct (vget_Ok arr r0) as (a & Ea & _); [lia|].
    rewrite Ea. cbn [bind].
    rewrite (cost_at_in_range a) by (eapply vget_in_range; eassumption).
    cbn [bind]. eexists. split; [reflexivity|]. intros Hb.
    apply andb_prop in Hb as [Hgt _].
    apply R_ltb_true in Hgt.
    assert (r0 <> left).
    { intros ->. rewrite Ea0 in Ea. injection Ea as ->. lra. }
    exists (r0 - 1). split; [reflexivity|]. split; [|lia].
    split; [lia|]. intros k Hk.
    destruct (Z.eq_dec k r0) as [->|]; [exists a; auto|apply Habove; lia].
  - split; [lia|]. intros k Hk. lia.
  - assumption.
  - exists r'. repeat split; try assumption; try lia.
    destruct (vget_Ok arr r') as (a & Ea & _); [lia|].
    rewrite Ea in Hexit. cbn [bind] in Hexit.
    rewrite (cost_at_in_range a) in Hexit by (eapply vget_in_range; eassumption).
    cbn [bind] in Hexit. injection Hexit as Hexit.
    apply andb_false_iff in Hexit as [Hexit|Hexit].
    + apply R_ltb_false in Hexit. exists a. auto.
    + apply Z.leb_gt in Hexit. lia.
Qed.

Lemma replace_nth_perm_head {A} (x y : A) (t : list A) (n : nat) :
  nth_error t n = Some y -> Permutation (x :: t) (y :: replace_nth t n x).
Proof.
  revert n. induction t as [|z t IH]; intros [|n] E; simpl in *;
    try discriminate.
  - injection E as ->. apply perm_swap.
  - eapply perm_trans; [apply perm_swap|].
    eapply perm_trans; [apply perm_skip, (IH n E)|]. apply perm_swap.
Qed.

Lemma replace_nth_same {A} (v : list A) (n : nat) (x : A) :
  nth_error v n = Some x -> replace_nth v n x = v.
Proof.
  revert n. induction v as [|y v IH]; intros [|n] E; simpl in *;
    try discriminate; [now injection E as ->|]. f_equal. now apply IH.
Qed.

Lemma replace_nth_swap_perm {A} (v : list A) (a b : nat) (x y : A) :
  nth_error v a = Some x -> nth_error v b = Some y ->
  Permutation v (replace_nth (replace_nth v a y) b x).
Proof.
  revert a b. induction v as [|z v IH]; intros [|a] [|b] Ea Eb; simpl in *;
    try discriminate.
  - injection Ea as ->. apply Permutation_refl.
  - injection Ea as ->. now apply replace_nth_perm_head.
  - injection Eb as ->. apply Permutation_sym.
    eapply perm_trans; [apply replace_nth_perm_head with (n := a)|].
    + rewrite nth_error_replace_nth_eq; [reflexivity|].
      apply nth_error_Some. congruence.
    + apply perm_skip. clear IH.
      revert a Ea. induction v as [|w v IHv]; intros [|a] Ea; simpl in *;
        try discriminate.
      * injection Ea as ->. apply Permutation_refl.
      * apply perm_skip. now apply IHv.
  - apply perm_skip. now apply IH.
Qed.

Lemma swap_indices_total (arr : list Z) (a b : Z) :
  0 <= a < vsize arr -> 0 <= b < vsize arr ->
  exists arr',
    swap_indices arr a b = Ok arr' /\
    vget arr' a = vget arr b /\
    vget arr' b = vget arr a /\
    (forall k, k <> a -> k <> b -> vget arr' k = vget arr k) /\
    Permutation arr arr'.
Proof.
  intros Ha Hb. unfold swap_indices.
  destruct (vget_Ok arr a Ha) as (x & Ex & Ex').
  destruct (vget_Ok arr b Hb) as (y & Ey & Ey').
  rewrite Ex, Ey. cbn [bind].
  pose proof (vset_Ok arr a y Ha) as E1. rewrite E1. cbn [bind].
  assert (Hb1 : 0 <= b < vsize (replace_nth arr (Z.to_nat a) y))
    by (unfold vsize in *; rewrite length_replace_nth; lia).
  pose proof (vset_Ok _ b x Hb1) as E2. rewrite E2.
  eexists. split; [reflexivity|]. repeat split.
  - destruct (Z.eq_dec a b) as [->|Hab].
    + rewrite (vget_vset_eq _ _ _ _ E2). congruence.
    + rewrite (vget_vset_ne _ _ _ _ _ E2) by assumption.
      apply (vget_vset_eq _ _ _ _ E1).
  - rewrite (vget_vset_eq _ _ _ _ E2). congruence.
  - intros k Hka Hkb.
    rewrite (vget_vset_ne _ _ _ _ _ E2) by assumption.
    apply (vget_vset_ne _ _ _ _ _ E1). assumption.
  - apply replace_nth_swap_perm; assumption.
Qed.

Lemma partition_step_total (arr0 : list Z) (left right a_left : Z)
  (fuel : nat) (arr : list Z) (l r : Z) :
  Forall in_range arr0 ->
  0 <= left -> right < vsize arr0 ->
  (Z.to_nat (right - left) < fuel)%nat ->
  partition_invariant gen arr0 left right a_left (arr, l, r) ->
  l < r ->
  exists arr' l' r',
    partition_step fuel gen (cost a_left) left right (arr, l, r)
      = Ok (arr', l', r') /\
    partition_invariant gen arr0 left right a_left (arr', l', r') /\
    (Z.to_nat (r' - l') < Z.to_nat (r - l))%nat.
Proof.
  intros Hall Hleft Hright Hfuel Hinv Hlr.
  destruct Hinv as (Hperm & Hout & Hpiv & Hl & Hr & Hlo & Hhi & Hprog & _).
  assert (Hsize : vsize arr = vsize arr0)
    by (unfold vsize; now rewrite (Permutation_length Hperm)).
  assert (Hall' : Forall in_range arr)
    by (eapply Permutation_Forall; eassumption).
  destruct (scan_l_total arr (cost a_left) right fuel l)
    as (l' & El & Hl' & Hlo' & Hstop); [assumption|lia|lia|lia|].
  destruct (scan_r_total arr (cost a_left) left fuel r)
    as (r' & Er & Hr' & Hhi' & Hstopr); [assumption|lia|lia| |lia|].
  { exists a_left. split; [assumption|lra]. }
  assert (Hadv : l < l').
  { destruct (Z.eq_dec l' l) as [->|]; [|lia].
    destruct (Hstop ltac:(lia)) as (e & Ee & He).
    destruct (Hprog Hlr) as (e' & Ee' & He').
    rewrite Ee in Ee'. injection Ee' as <-. lra. }
  unfold partition_step. rewrite El. cbn [bind]. rewrite Er. cbn [bind].
  destruct (Z.ltb_spec l' r') as [Hlt|Hge].
  - destruct (swap_indices_total arr l' r')
      as (arr' & Es & Ha & Hb & Hother & Hperm'); [lia|lia|].
    rewrite Es. cbn [bind]. exists arr', l', r'. split; [reflexivity|].
    split; [|lia]. unfold partition_invariant.
    split; [eapply perm_trans; eassumption|].
    split; [intros k Hk; rewrite Hother by lia; now apply Hout|].
    split; [rewrite Hother by lia; assumption|].
    split; [lia|]. split; [lia|].
    split; [|split; [|split]].
    + intros k Hk. unfold holds_at. rewrite Hother by lia.
      destruct (Z_lt_le_dec k l); [apply Hlo; lia|apply Hlo'; lia].
    + intros k Hk. unfold holds_at. rewrite Hother by lia.
      destruct (Z_lt_le_dec r k); [apply Hhi; lia|apply Hhi'; lia].
    + intros _. unfold holds_at. rewrite Ha. exact Hstopr.
    + intros Hle. lia.
  - cbn [bind]. exists arr, l', r'. split; [reflexivity|].
    split; [|lia]. unfold partition_invariant.
    split; [assumption|]. split; [assumption|]. split; [assumption|].
    split; [lia|]. split; [lia|].
    split; [|split; [|split]].
    + intros k Hk.
      destruct (Z_lt_le_dec k l); [apply Hlo; lia|apply Hlo'; lia].
    + intros k Hk.
      destruct (Z_lt_le_dec r k); [apply Hhi; lia|apply Hhi'; lia].
    + intros Hlt. lia.
    + intros _. exact Hstopr.
Qed.

Lemma partition_loop_total (arr0 : list Z) (left right a_left : Z)
  (fuel : nat) :
  Forall in_range arr0 ->
  0 <= left < right -> right < vsize arr0 ->
  (Z.to_nat (right - left) < fuel)%nat ->
  vget arr0 left = Ok a_left ->
  exists arr l r,
    while_loop fuel (fun '(_, l, r) => Ok (l <? r))
      (partition_step fuel gen (cost a_left) left right)
      (arr0, left, right) = Ok (arr, l, r) /\
    partition_invariant gen arr0 left right a_left (arr, l, r) /\
    r <= l.
Proof.
  intros Hall Hlr Hright Hfuel Hpiv.
  destruct (while_loop_total
              (partition_invariant gen arr0 left right a_left)
              (fun s : list Z * Z * Z => Z.to_nat (snd s - snd (fst s)))
              (fun '(_, l, r) => Ok (l <? r))
              (partition_step fuel gen (cost a_left) left right))
    with (fuel := fuel) (s := (arr0, left, right))
    as ([[arr l] r] & E & Hinv & Hexit).
  - intros [[arr l] r] Hinv. eexists. split; [reflexivity|].
    intros Hb. apply Z.ltb_lt in Hb.
    destruct (partition_step_total arr0 left right a_left fuel arr l r)
      as (arr' & l' & r' & Es & Hinv' & Hmu); try assumption; try lia.
    exists (arr', l', r'). cbn [fst snd]. auto.
  - unfold partition_invariant.
    split; [apply Permutation_refl|]. split; [reflexivity|].
    split; [assumption|]. split; [lia|]. split; [lia|].
    split; [intros k Hk; lia|]. split; [intros k Hk; lia|].
    split; [|intros Hle; lia].
    intros _. exists a_left. split; [assumption|lra].
  - cbn [fst snd]. lia.
  - exists arr, l, r. split; [assumption|]. split; [assumption|].
    injection Hexit as Hexit. apply Z.ltb_ge in Hexit. assumption.
Qed.

(** The partition phase returns, leaves the array a permutation of itself
    that differs only between [left] and [right], and puts the pivot at
    [middle] with no larger cost before it and only larger costs after. *)
Lemma quicksort_partition_total (arr0 : list Z) (left right : Z) (fuel : nat) :
  Forall in_range arr0 ->
  0 <= left < right -> right < vsize arr0 ->
  (Z.to_nat (right - left) < fuel)%nat ->
  exists arr middle p,
    quicksort_partition fuel gen arr0 left right = Ok (arr, middle) /\
    Permutation arr0 arr /\
    (forall k, k < left \/ right < k -> vget arr k = vget arr0 k) /\
    left <= middle <= right /\
    vget arr middle = Ok p /\
    (forall k, left <= k < middle ->
               holds_at arr k (fun e => (cost e <= cost p)%R)) /\
    (forall k, middle < k <= right ->
               holds_at arr k (fun e => (cost p < cost e)%R)).
Proof.
  intros Hall Hlr Hright Hfuel. unfold quicksort_partition.
  destruct (vget_Ok arr0 left) as (a_left & Ea & _); [lia|].
  rewrite Ea. cbn [bind].
  rewrite (cost_at_in_range a_left) by (eapply vget_in_range; eassumption).
  cbn [bind].
  destruct (partition_loop_total arr0 left right a_left fuel)
    as (arr & l & r & E & Hinv & Hexit); try assumption.
  rewrite E. cbn [bind].
  destruct Hinv as (Hperm & Hout & Hpiv & Hl & Hr & Hlo & Hhi & _ & Hmid).
  assert (Hsize : vsize arr = vsize arr0)
    by (unfold vsize; now rewrite (Permutation_length Hperm)).
  destruct (swap_indices_total arr left r)
    as (arr' & Es & Ha & Hb & Hother & Hperm'); [lia|lia|].
  rewrite Es. cbn [bind]. exists arr', r, a_left.
  split; [reflexivity|].
  split; [eapply perm_trans; eassumption|].
  split; [intros k Hk; rewrite Hother by lia; now apply Hout|].
  split; [lia|]. split; [congruence|]. split.
  - intros k Hk. unfold holds_at.
    destruct (Z.eq_dec k left) as [->|Hne].
    + rewrite Ha. apply Hmid. assumption.
    + rewrite Hother by lia. apply Hlo. lia.
  - intros k Hk. unfold holds_at. rewrite Hother by lia. apply Hhi. lia.
Qed.

Lemma vget_app {A} (v w : list A) (k : Z) :
  vget (v ++ w) k = if k <? vsize v then vget v k else vget w (k - vsize v).
Proof.
  unfold vget, vsize. destruct (Z.ltb_spec k (Z.of_nat (length v))) as [Hlt|Hge].
  - destruct (Z.ltb_spec k 0); [reflexivity|].
    rewrite nth_error_app1 by lia. reflexivity.
  - destruct (Z.ltb_spec k 0); [lia|].
    destruct (Z.ltb_spec (k - Z.of_nat (length v)) 0); [lia|].
    rewrite nth_error_app2 by lia.
    replace (Z.to_nat (k - Z.of_nat (length v)))
      with (Z.to_nat k - length v)%nat by lia.
    reflexivity.
Qed.

Lemma Forall_holds_at {A} (P : A -> Prop) (v : list A) :
  (forall j, 0 <= j < vsize v -> holds_at v j P) -> Forall P v.
Proof.
  intros Hall. apply Forall_forall. intros x Hx.
  apply In_nth_error in Hx as (n & En).
  assert (Hn : (n < length v)%nat) by (apply nth_error_Some; congruence).
  destruct (Hall (Z.of_nat n)) as (e & Ee & He); [unfold vsize; lia|].
  apply vget_inv in Ee as [_ Ee]. rewrite Nat2Z.id in Ee. congruence.
Qed.

(** An array that agrees with [pre ++ seg ++ post] outside the segment is
    [pre ++ seg' ++ post] for some [seg'] of the same length. *)
Lemma segment_decompose {A} (pre seg post arr : list A) :
  vsize arr = vsize (pre ++ seg ++ post) ->
  (forall k, k < vsize pre \/ vsize pre + vsize seg - 1 < k ->
             vget arr k = vget (pre ++ seg ++ post) k) ->
  exists seg', arr = pre ++ seg' ++ post /\ vsize seg' = vsize seg.
Proof.
  intros Hsize Hout.
  set (seg' := firstn (length seg) (skipn (length pre) arr)).
  rewrite !vsize_app in Hsize.
  assert (Hlen : vsize seg' = vsize seg).
  { unfold seg', vsize in *. rewrite length_firstn, length_skipn. lia. }
  exists seg'. split; [|assumption].
  apply vget_ext; [rewrite !vsize_app; lia|].
  intros k Hk. rewrite !vget_app.
  destruct (Z.ltb_spec k (vsize pre)) as [Hlt|Hge].
  - rewrite Hout by lia. rewrite vget_app.
    destruct (Z.ltb_spec k (vsize pre)); [reflexivity|lia].
  - destruct (Z.ltb_spec (k - vsize pre) (vsize seg')) as [Hlt'|Hge'].
    + unfold vget. destruct (Z.ltb_spec k 0); [lia|].
      destruct (Z.ltb_spec (k - vsize pre) 0); [lia|].
      unfold seg', vsize in *. rewrite nth_error_firstn.
      destruct (Nat.ltb_spec (Z.to_nat (k - Z.of_nat (length pre))) (length seg));
        [|lia].
      rewrite nth_error_skipn.
      replace (length pre + Z.to_nat (k - Z.of_nat (length pre)))%nat
        with (Z.to_nat k) by lia.
      reflexivity.
    + rewrite Hout by lia. rewrite !vget_app.
      destruct (Z.ltb_spec k (vsize pre)); [lia|].
      destruct (Z.ltb_spec (k - vsize pre) (vsize seg)); [lia|].
      now rewrite Hlen.
Qed.

Lemma vsize_cons {A} (x : A) (v : list A) : vsize (x :: v) = 1 + vsize v.
Proof. unfold vsize. cbn [length]. lia. Qed.

Lemma vget_cons_succ {A} (x : A) (v : list A) (j : Z) :
  0 <= j -> vget (x :: v) (j + 1) = vget v j.
Proof.
  intros Hj. unfold vget.
  destruct (Z.ltb_spec (j + 1) 0); [lia|]. destruct (Z.ltb_spec j 0); [lia|].
  replace (Z.to_nat (j + 1)) with (S (Z.to_nat j)) by lia. reflexivity.
Qed.

Lemma vget_segment_lo {A} (pre lo hi post : list A) (p : A) (j : Z) :
  0 <= j < vsize lo ->
  vget (pre ++ (lo ++ p :: hi) ++ post) (vsize pre + j) = vget lo j.
Proof.
  intros Hj. pose proof (vsize_nonneg hi).
  rewrite vget_app. destruct (Z.ltb_spec (vsize pre + j) (vsize pre)); [lia|].
  replace (vsize pre + j - vsize pre) with j by lia.
  rewrite vget_app, vsize_app, vsize_cons.
  destruct (Z.ltb_spec j (vsize lo + (1 + vsize hi))); [|lia].
  rewrite vget_app. destruct (Z.ltb_spec j (vsize lo)); [reflexivity|lia].
Qed.

Lemma vget_segment_hi {A} (pre lo hi post : list A) (p : A) (j : Z) :
  0 <= j < vsize hi ->
  vget (pre ++ (lo ++ p :: hi) ++ post) (vsize pre + vsize lo + 1 + j)
    = vget hi j.
Proof.
  intros Hj. pose proof (vsize_nonneg lo).
  rewrite vget_app.
  destruct (Z.ltb_spec (vsize pre + vsize lo + 1 + j) (vsize pre)); [lia|].
  replace (vsize pre + vsize lo + 1 + j - vsize pre) with (vsize lo + (j + 1))
    by lia.
  rewrite vget_app, vsize_app, vsize_cons.
  destruct (Z.ltb_spec (vsize lo + (j + 1)) (vsize lo + (1 + vsize hi))); [|lia].
  rewrite vget_app.
  destruct (Z.ltb_spec (vsize lo + (j + 1)) (vsize lo)); [lia|].
  replace (vsize lo + (j + 1) - vsize lo) with (j + 1) by lia.
  apply vget_cons_succ. lia.
Qed.

Lemma quicksort_partition_segments (pre seg post : list Z) (fuel : nat) :
  Forall in_range (pre ++ seg ++ post) ->
  (2 <= length seg <= fuel)%nat ->
  exists lo p hi,
    quicksort_partition fuel gen (pre ++ seg ++ post)
      (vsize pre) (vsize pre + vsize seg - 1)
      = Ok (pre ++ (lo ++ p :: hi) ++ post, vsize pre + vsize lo) /\
    Permutation seg (lo ++ p :: hi) /\
    Forall (fun e => (cost e <= cost p)%R) lo /\
    Forall (fun e => (cost p < cost e)%R) hi.
Proof.
  intros Hall Hlen.
  pose proof (vsize_nonneg pre) as Hpre.
  destruct (quicksort_partition_total (pre ++ seg ++ post)
              (vsize pre) (vsize pre + vsize seg - 1) fuel)
    as (arr & middle & p & E & Hperm & Hout & Hmid & Hp & Hlo & Hhi);
    try assumption.
  { unfold vsize. lia. }
  { rewrite !vsize_app. pose proof (vsize_nonneg post). lia. }
  { unfold vsize. lia. }
  destruct (segment_decompose pre seg post arr) as (seg' & -> & Hseg').
  { unfold vsize. now rewrite (Permutation_length Hperm). }
  { assumption. }
  assert (Hp' : vget seg' (middle - vsize pre) = Ok p).
  { rewrite !vget_app in Hp.
    destruct (Z.ltb_spec middle (vsize pre)); [lia|].
    destruct (Z.ltb_spec (middle - vsize pre) (vsize seg')); [assumption|lia]. }
  apply vget_inv in Hp' as [Hm Hp'].
  apply nth_error_split in Hp' as (lo & hi & -> & Hlolen).
  assert (Hmiddle : middle = vsize pre + vsize lo) by (unfold vsize in *; lia).
  subst middle.
  exists lo, p, hi. split; [assumption|].
  split; [eapply Permutation_app_inv_r, Permutation_app_inv_l; eassumption|].
  rewrite vsize_app, vsize_cons in Hseg'.
  split.
  - apply Forall_holds_at. intros j Hj.
    destruct (Hlo (vsize pre + j)) as (e & Ee & He); [lia|].
    exists e. split; [|assumption].
    now rewrite vget_segment_lo in Ee by assumption.
  - apply Forall_holds_at. intros j Hj.
    destruct (Hhi (vsize pre + vsize lo + 1 + j)) as (e & Ee & He); [lia|].
    exists e. split; [|assumption].
    now rewrite vget_segment_hi in Ee by assumption.
Qed.

Lemma sorted_around_pivot (lo hi : list Z) (p : Z) :
  StronglySorted (fun a b => (cost a <= cost b)%R) lo ->
  StronglySorted (fun a b => (cost a <= cost b)%R) hi ->
  Forall (fun e => (cost e <= cost p)%R) lo ->
  Forall (fun e => (cost p < cost e)%R) hi ->
  StronglySorted (fun a b => (cost a <= cost b)%R) (lo ++ p :: hi).
Proof.
  intros Hlo Hhi Hle Hgt. induction Hlo as [|a lo Hlo IH Ha]; cbn [app].
  - constructor; [assumption|].
    eapply Forall_impl; [|exact Hgt]. intros e He. cbn beta in He. lra.
  - inversion Hle as [|? ? Hap Hle']; subst.
    constructor; [now apply IH|].
    apply Forall_app. split; [assumption|].
    constructor; [assumption|].
    eapply Forall_impl; [|exact Hgt]. intros e He. cbn beta in He. lra.
Qed.

Lemma quicksort_indices_SO_unfold (fuel : nat) (arr : list Z) (left right : Z) :
  quicksort_indices_SO (S fuel) gen arr left right =
  if left <? right then
    '(array_indices, middle) <-
      quicksort_partition (S fuel) gen arr left right ;;
    array_indices <-
      quicksort_indices_SO fuel gen array_indices left (middle - 1) ;;
    quicksort_indices_SO fuel gen array_indices (middle + 1) right
  else Ok arr.
Proof. reflexivity. Qed.

(** The quicksort, called on the segment [seg] of an array, returns and
    replaces the segment by a sorted permutation of itself. *)
Lemma quicksort_segments (fuel : nat) :
  forall pre seg post : list Z,
    Forall in_range (pre ++ seg ++ post) ->
    (length seg <= fuel)%nat ->
    exists seg',
      quicksort_indices_SO fuel gen (pre ++ seg ++ post)
        (vsize pre) (vsize pre + vsize seg - 1)
        = Ok (pre ++ seg' ++ post) /\
      Permutation seg seg' /\
      StronglySorted (fun a b => (cost a <= cost b)%R) seg'.
Proof.
  induction fuel as [|fuel IH]; intros pre seg post Hall Hfuel.
  - destruct seg; [|cbn [length] in Hfuel; lia].
    exists []. cbn [quicksort_indices_SO].
    destruct (Z.ltb_spec (vsize pre) (vsize pre + vsize (@nil Z) - 1));
      [unfold vsize in *; cbn [length] in *; lia|].
    repeat split; constructor.
  - rewrite quicksort_indices_SO_unfold.
    destruct (Z.ltb_spec (vsize pre) (vsize pre + vsize seg - 1)) as [Hlt|Hge].
    + destruct (quicksort_partition_segments pre seg post (S fuel))
        as (lo & p & hi & E & Hperm & Hlo & Hhi); [assumption|unfold vsize in *; lia|].
      rewrite E. cbn [bind].
      pose proof (Permutation_length Hperm) as Hlen.
      rewrite length_app in Hlen. cbn [length] in Hlen.
      assert (Hall1 : Forall in_range (pre ++ (lo ++ p :: hi) ++ post)).
      { eapply Permutation_Forall; [|exact Hall].
        apply Permutation_app_head, Permutation_app_tail. assumption. }
      (* the segment before the pivot *)
      replace (pre ++ (lo ++ p :: hi) ++ post)
        with (pre ++ lo ++ (p :: hi ++ post))
        by (now rewrite <- (app_assoc lo)).
      destruct (IH pre lo (p :: hi ++ post)) as (lo' & E1 & Hperm1 & Hsorted1).
      { now rewrite <- (app_assoc lo) in Hall1. }
      { lia. }
      rewrite E1. cbn [bind].
      pose proof (Permutation_length Hperm1) as Hlen1.
      (* the segment after the pivot *)
      replace (pre ++ lo' ++ p :: hi ++ post)
        with ((pre ++ lo' ++ [p]) ++ hi ++ post)
        by (now rewrite <- !app_assoc).
      replace (vsize pre + vsize lo + 1) with (vsize (pre ++ lo' ++ [p]))
        by (rewrite !vsize_app; unfold vsize; cbn [length]; lia).
      replace (vsize pre + vsize seg - 1)
        with (vsize (pre ++ lo' ++ [p]) + vsize hi - 1)
        by (rewrite !vsize_app; unfold vsize; cbn [length]; lia).
      destruct (IH (pre ++ lo' ++ [p]) hi post) as (hi' & E2 & Hperm2 & Hsorted2).
      { rewrite <- !app_assoc. cbn [app].
        eapply Permutation_Forall; [|exact Hall1].
        apply Permutation_app_head. rewrite <- (app_assoc lo). cbn [app].
        apply Permutation_app_tail with (tl := p :: hi ++ post). assumption. }
      { lia. }
      rewrite E2. exists (lo' ++ p :: hi').
      split; [now rewrite <- !app_assoc|]. split.
      * eapply perm_trans; [exact Hperm|].
        apply Permutation_app; [assumption|]. now apply perm_skip.
      * apply sorted_around_pivot; try assumption.
        -- eapply Permutation_Forall; eassumption.
        -- eapply Permutation_Forall; eassumption.
    + exists seg. split; [reflexivity|]. split; [apply Permutation_refl|].
      destruct seg as [|a [|b seg]].
      * constructor.
      * constructor; constructor.
      * unfold vsize in *. cbn [length] in *. lia.
Qed.

End Quicksort.

(* ----------------------------------------------------------------- *)
(** ** The library sort and rank_population_SO *)

Lemma insert_sorted_perm (comp : Z -> Z -> bool) (a : Z) (l : list Z) :
  Permutation (a :: l) (insert_sorted comp a l).
Proof.
  induction l as [|b l IH]; cbn [insert_sorted]; [apply Permutation_refl|].
  destruct (comp a b); [apply Permutation_refl|].
  eapply perm_trans; [apply perm_swap|]. now apply perm_skip.
Qed.

Lemma insertion_sort_perm (comp : Z -> Z -> bool) (l : list Z) :
  Permutation l (insertion_sort comp l).
Proof.
  induction l as [|a l IH]; cbn; [constructor|].
  eapply perm_trans; [apply perm_skip, IH|]. apply insert_sorted_perm.
Qed.

Lemma insert_sorted_sorted (comp : Z -> Z -> bool) (S : Z -> Prop) :
  (forall a, S a -> comp a a = false) ->
  (forall a b c, S a -> S b -> S c ->
                 comp a b = true -> comp b c = true -> comp a c = true) ->
  forall (a : Z) (l : list Z),
    S a -> Forall S l ->
    StronglySorted (fun x y => comp y x = false) l ->
    StronglySorted (fun x y => comp y x = false) (insert_sorted comp a l).
Proof.
  intros Hirr Htrans a l Ha Hl Hsorted.
  induction Hsorted as [|b l Hsorted IH Hb]; cbn [insert_sorted].
  - constructor; constructor.
  - inversion Hl as [|? ? HSb HSl]; subst.
    destruct (comp a b) eqn:Eab.
    + constructor; [now constructor|]. constructor.
      * destruct (comp b a) eqn:Eba; [|reflexivity].
        rewrite <- (Hirr a Ha). symmetry. now apply (Htrans a b a).
      * rewrite Forall_forall in Hb, HSl |- *. intros y Hy.
        destruct (comp y a) eqn:Eya; [|reflexivity].
        rewrite <- (Hb y Hy). symmetry.
        apply (Htrans y a b); auto.
    + constructor; [now apply IH|].
      eapply Permutation_Forall; [apply insert_sorted_perm|].
      now constructor.
Qed.

Lemma insertion_sort_contract : sort_contract insertion_sort.
Proof.
  intros comp l (Hirr & Htrans & _). split; [apply insertion_sort_perm|].
  assert (Hgen : forall l', Forall (fun x => In x l) l' ->
                   StronglySorted (fun x y => comp y x = false)
                     (insertion_sort comp l')).
  { induction l' as [|a l' IH]; intros Hin; cbn; [constructor|].
    inversion Hin; subst.
    apply insert_sorted_sorted with (S := fun x => In x l); auto.
    eapply Permutation_Forall; [apply insertion_sort_perm|]. assumption. }
  apply Hgen. apply Forall_forall. auto.
Qed.

Lemma iota_succ (n : nat) : iota (S n) = iota n ++ [Z.of_nat n].
Proof. unfold iota. now rewrite seq_S, map_app. Qed.

Lemma vsize_iota (n : nat) : vsize (iota n) = Z.of_nat n.
Proof. unfold vsize, iota. now rewrite length_map, length_seq. Qed.

Lemma iota_in_range (n : nat) :
  Forall (fun e => 0 <= e < Z.of_nat n) (iota n).
Proof.
  apply Forall_forall. intros e He. unfold iota in He.
  apply in_map_iff in He as (k & <- & Hk). apply in_seq in Hk. lia.
Qed.

Lemma iota_loop (N : Z) :
  0 <= N ->
  for_range 0 N (fun i indices => Ok (indices ++ [i])) []
    = Ok (iota (Z.to_nat N)).
Proof.
  intros HN.
  destruct (for_range_invariant
              (fun i indices => indices = iota (Z.to_nat i))
              (fun i indices => Ok (indices ++ [i])) 0 N [])
    as (indices & E & ->); try assumption; [reflexivity|].
  intros k indices Hk ->. eexists. split; [reflexivity|].
  replace (Z.to_nat (k + 1)) with (S (Z.to_nat k)) by lia.
  rewrite iota_succ. now rewrite Z2Nat.id by lia.
Qed.

Lemma Forall_replace_nth {A} (P : A -> Prop) (v : list A) (n : nat) (x : A) :
  Forall P v -> P x -> Forall P (replace_nth v n x).
Proof.
  intros Hv Hx. revert n.
  induction Hv as [|y v Hy Hv IH]; intros [|n]; cbn; auto.
Qed.

Lemma ranks_loop (N : Z) (indices : list Z) :
  vsize indices = N ->
  Forall (fun e => 0 <= e < N) indices ->
  exists ranks,
    for_range 0 N
      (fun i ranks => s <- vget indices i ;; vset ranks s i)
      (repeat 0 (Z.to_nat N)) = Ok ranks /\
    vsize ranks = N /\ Forall (fun k => 0 <= k) ranks.
Proof.
  intros Hsize Hrange.
  assert (HN : 0 <= N) by (rewrite <- Hsize; apply vsize_nonneg).
  destruct (for_range_invariant
              (fun (_ : Z) ranks => vsize ranks = N /\ Forall (fun k => 0 <= k) ranks)
              (fun i ranks => s <- vget indices i ;; vset ranks s i)
              0 N (repeat 0 (Z.to_nat N)))
    as (ranks & E & Hr); try assumption.
  - split; [unfold vsize; rewrite repeat_length; lia|].
    apply Forall_forall. intros k Hk. apply repeat_spec in Hk. lia.
  - intros i ranks Hi [Hlen Hpos].
    destruct (vget_Ok indices i) as (s & Es & Es'); [lia|].
    rewrite Es. cbn [bind].
    assert (Hs : 0 <= s < N).
    { rewrite Forall_forall in Hrange. apply Hrange.
      eapply nth_error_In; eassumption. }
    rewrite vset_Ok by lia. eexists. split; [reflexivity|]. split.
    + unfold vsize in *. now rewrite length_replace_nth.
    + apply Forall_replace_nth; [assumption|lia].
  - exists ranks. tauto.
Qed.

Lemma cost_of_cost_at {G M} (gen : GenerationType R G M) (e : Z) (c : R) :
  cost_at gen e = Ok c -> cost_of gen e = c.
Proof. intros E. unfold cost_of. now rewrite E. Qed.

Lemma cost_less_in_range {G M} (gen : GenerationType R G M) (a b : Z) :
  0 <= a < vsize (chromosomes gen) -> 0 <= b < vsize (chromosomes gen) ->
  cost_less gen a b = R_ltb (cost_of gen a) (cost_of gen b).
Proof.
  intros Ha Hb. unfold cost_less.
  now rewrite (cost_at_in_range gen a Ha), (cost_at_in_range gen b Hb).
Qed.

Lemma cost_less_strict_weak_order {G M} (gen : GenerationType R G M)
  (l : list Z) :
  Forall (fun e => 0 <= e < vsize (chromosomes gen)) l ->
  strict_weak_order_on l (cost_less gen).
Proof.
  intros Hl. rewrite Forall_forall in Hl. repeat split.
  - intros a Ha. rewrite cost_less_in_range by auto.
    apply R_ltb_false. apply Rle_refl.
  - intros a b c Ha Hb Hc. rewrite !cost_less_in_range by auto.
    rewrite !R_ltb_true. intros. eapply Rlt_trans; eassumption.
  - intros a b c Ha Hb Hc. rewrite !cost_less_in_range by auto.
    rewrite !R_ltb_false. intros. eapply Rle_trans; eassumption.
Qed.

Lemma sorted_by_cost_less {G M} (gen : GenerationType R G M) (l : list Z) :
  Forall (fun e => 0 <= e < vsize (chromosomes gen)) l ->
  StronglySorted (fun a b => cost_less gen b a = false) l ->
  StronglySorted (fun a b => (cost_of gen a <= cost_of gen b)%R) l.
Proof.
  intros Hl Hsorted. induction Hsorted as [|a l Hsorted IH Ha]; [constructor|].
  inversion Hl as [|? ? Hra Hrl]; subst.
  constructor; [now apply IH|].
  rewrite Forall_forall in Ha, Hrl |- *. intros b Hb.
  specialize (Ha b Hb). rewrite cost_less_in_range in Ha by auto.
  now apply R_ltb_false in Ha.
Qed.

Lemma sorted_pointwise {A} (Rel : A -> A -> Prop) (l : list A) :
  StronglySorted Rel l ->
  forall i j a b, (i < j)%nat ->
    nth_error l i = Some a -> nth_error l j = Some b -> Rel a b.
Proof.
  intros Hsorted. induction Hsorted as [|x l Hsorted IH Hx];
    intros [|i] [|j] a b Hij Ea Eb; cbn in *; try discriminate; try lia.
  - injection Ea as <-. rewrite Forall_forall in Hx. apply Hx.
    eapply nth_error_In; eassumption.
  - eapply IH; [|eassumption|eassumption]. lia.
Qed.



(** A NaN compares false with everything: with the NaN chromosome as the
    pivot both scans of the partition stop at once and the exchange is
    undone by the next one, so the loop [while (l < r)] never ends, whatever
    the budget. *)
Lemma partition_step_nan_pivot (fuel : nat) :
  partition_step (S fuel) nan_generation (d_div (d_of_int 0) (d_of_int 0))
    0 1 ([0; 1], 0, 1) = Ok ([1; 0], 0, 1) /\
  partition_step (S fuel) nan_generation (d_div (d_of_int 0) (d_of_int 0))
    0 1 ([1; 0], 0, 1) = Ok ([0; 1], 0, 1).
Proof. split; reflexivity. Qed.

Lemma quicksort_indices_SO_nan_pivot (fuel : nat) :
  quicksort_indices_SO fuel nan_generation [0; 1] 0 1 = Timeout.
Proof.
  destruct fuel as [|fuel]; [reflexivity|].
  cbn [quicksort_indices_SO]. change (0 <? 1) with true. cbv iota.
  unfold quicksort_partition.
  change (vget [0; 1] 0) with (Ok 0 : outcome Z). cbn [bind].
  change (cost_at nan_generation 0)
    with (Ok (d_div (d_of_int 0) (d_of_int 0)) : outcome float).
  cbn [bind].
  assert (Hloop : forall n,
             while_loop n (fun '(_, l, r) => Ok (l <? r))
               (partition_step (S fuel) nan_generation
                  (d_div (d_of_int 0) (d_of_int 0)) 0 1) ([0; 1], 0, 1)
             = Timeout /\
             while_loop n (fun '(_, l, r) => Ok (l <? r))
               (partition_step (S fuel) nan_generation
                  (d_div (d_of_int 0) (d_of_int 0)) 0 1) ([1; 0], 0, 1)
             = Timeout).
  { induction n as [|n [IH1 IH2]]; [split; reflexivity|].
    destruct (partition_step_nan_pivot fuel) as [E1 E2].
    split; cbn [while_loop bind]; change (0 <? 1) with true; cbv iota.
    - rewrite E1. cbn [bind]. exact IH2.
    - rewrite E2. cbn [bind]. exact IH1. }
  rewrite (proj1 (Hloop (S fuel))). reflexivity.
Qed.


(* ----------------------------------------------------------------- *)
(** ** select_population_SO *)

(** C3 (the code departs from the claim).  With [population = 3] and one
    elite, on the ranked generation of five chromosomes of costs 3, 4, 1,
    0, 2 and the draws 0.5, 0.5: the elite is chromosome 3; the first draw
    selects chromosome 1 and blocks [sorted_indices[1] = 2] instead of 1; the
    second draw selects chromosome 1 again.  Chromosome 1 fills two slots. *)
Theorem select_population_SO_repeats_a_chromosome :
  exists g s' g2,
    rank_population_SO insertion_sort true 3 combined_generation = Ok g /\
    sorted_indices g = [3; 2; 4; 0; 1] /\
    select_population_SO (settings_SO 3 1 100) 10 g empty_generation
      (state_at 1 (ratio 1 2) []) = (s', Ok g2) /\
    map genes (chromosomes g2) = [3; 1; 1].
Proof.
  eexists. eexists. eexists.
  split; [vm_compute; reflexivity|].
  split; [reflexivity|].
  split; [vm_compute; reflexivity|].
  reflexivity.
Qed.

(* ----------------------------------------------------------------- *)
(** ** stop_critera *)

(** C4 (amended).  At a generation step below 2 with no stop request the
    stop check returns [Undefined] and leaves the counters untouched.  From
    generation step 2 on, and at any step once [user_request_stop] is set:
    in NSGA-III mode it leaves the counters unchanged and returns the first
    applicable reason in the stated order; in the single-objective modes
    it compares the last two summaries of [generations_so_abs], updates
    the stall counters from them and then returns the first applicable
    reason in the stated order, and with fewer than two summaries it reads
    before the beginning of [generations_so_abs]. *)
Theorem stop_critera_from_second_step {F} `{Double F} {G M}
  (cfg : Settings F G M) (s : State F G M) :
  (generation_step s < 2 -> user_request_stop cfg = false ->
   stop_critera cfg s = (s, Ok Undefined)) /\
  (2 <= generation_step s \/ user_request_stop cfg = true ->
   (is_single_objective cfg = false ->
    forall g1 g2,
      stop_critera cfg s = stop_check_as_specified false cfg s g1 g2) /\
   (is_single_objective cfg = true ->
    forall hist g1 g2,
      generations_so_abs s = hist ++ [g1; g2] ->
      stop_critera cfg s = stop_check_as_specified true cfg s g1 g2) /\
   (is_single_objective cfg = true ->
    vsize (generations_so_abs s) < 2 ->
    stop_critera cfg s = (s, Fault))).
Proof.
  split.
  - intros Hstep Hstop. unfold stop_critera, ebind, get_state.
    rewrite Hstop. destruct (Z.ltb_spec (generation_step s) 2); [|lia].
    reflexivity.
  - intros Hstep.
    assert (Hguard : (generation_step s <? 2) && negb (user_request_stop cfg)
                     = false).
    { destruct Hstep as [Hstep| ->].
      - destruct (Z.ltb_spec (generation_step s) 2); [lia|reflexivity].
      - apply andb_false_r. }
    split; [|split].
    + intros Hmode g1 g2. unfold stop_critera, ebind, get_state.
      rewrite Hguard, Hmode. unfold stop_check_as_specified, ret.
      destruct (generation_max cfg <=? generation_step s); [reflexivity|].
      destruct (average_stall_max cfg <=? _); [reflexivity|].
      destruct (best_stall_max cfg <=? _); [reflexivity|].
      destruct (user_request_stop cfg); reflexivity.
    + intros Hmode hist g1 g2 Hhist. unfold stop_critera, ebind, get_state.
      rewrite Hguard, Hmode. unfold stop_check_as_specified.
      assert (E1 : vget (generations_so_abs s)
                     (vsize (generations_so_abs s) - 2) = Ok g1).
      { rewrite Hhist, vget_app, vsize_app.
        change (vsize [g1; g2]) with 2.
        destruct (Z.ltb_spec (vsize hist + 2 - 2) (vsize hist)); [lia|].
        now replace (vsize hist + 2 - 2 - vsize hist) with 0 by lia. }
      assert (E2 : vget (generations_so_abs s)
                     (vsize (generations_so_abs s) - 1) = Ok g2).
      { rewrite Hhist, vget_app, vsize_app.
        change (vsize [g1; g2]) with 2.
        destruct (Z.ltb_spec (vsize hist + 2 - 1) (vsize hist)); [lia|].
        now replace (vsize hist + 2 - 1 - vsize hist) with 1 by lia. }
      unfold lift. rewrite E1, E2. unfold update_state, stall_update.
      cbn [generation_step average_stall_count best_stall_count
           set_stall_counts].
      destruct (generation_max cfg <=? generation_step s); [reflexivity|].
      destruct (average_stall_max cfg <=? _); [reflexivity|].
      destruct (best_stall_max cfg <=? _); [reflexivity|].
      destruct (user_request_stop cfg); reflexivity.
    + intros Hmode Hshort. unfold stop_critera, ebind, get_state.
      rewrite Hguard, Hmode. unfold lift.
      assert (E1 : vget (generations_so_abs s)
                     (vsize (generations_so_abs s) - 2) = Fault).
      { unfold vget.
        destruct (Z.ltb_spec (vsize (generations_so_abs s) - 2) 0); [|lia].
        reflexivity. }
      rewrite E1. reflexivity.
Qed.

Lemma stop_critera_from_second_step_witness :
  (stop_critera (settings_SO 3 1 100)
     (state_at 2 (ratio 1 2) [(ratio 7 1, ratio 9 1); (ratio 5 1, ratio 6 1);
                              (ratio 5 1, ratio 6 1)])
   = stop_check_as_specified true (settings_SO 3 1 100)
       (state_at 2 (ratio 1 2) [(ratio 7 1, ratio 9 1); (ratio 5 1, ratio 6 1);
                                (ratio 5 1, ratio 6 1)])
       (ratio 5 1, ratio 6 1) (ratio 5 1, ratio 6 1)) /\
  (stop_critera (settings_MO 3) (state_at 2 (ratio 1 2) [])
   = stop_check_as_specified false (settings_MO 3)
       (state_at 2 (ratio 1 2) []) (ratio 0 1, ratio 0 1)
       (ratio 0 1, ratio 0 1)) /\
  (stop_critera settings_stop_requested
     (state_at 0 (ratio 1 2) [(ratio 5 1, ratio 6 1)])
   = (state_at 0 (ratio 1 2) [(ratio 5 1, ratio 6 1)], Fault)) /\
  (stop_critera (settings_SO 3 1 1)
     (state_at 1 (ratio 1 2) [(ratio 5 1, ratio 6 1); (ratio 5 1, ratio 6 1)])
   = (state_at 1 (ratio 1 2) [(ratio 5 1, ratio 6 1); (ratio 5 1, ratio 6 1)],
      Ok Undefined)).
Proof.
  split; [|split; [|split]].
  - destruct (proj2 (stop_critera_from_second_step (settings_SO 3 1 100)
                       (state_at 2 (ratio 1 2)
                          [(ratio 7 1, ratio 9 1); (ratio 5 1, ratio 6 1);
                           (ratio 5 1, ratio 6 1)])))
      as (_ & Hso & _); [left; cbn; lia|].
    apply (Hso eq_refl [(ratio 7 1, ratio 9 1)]). reflexivity.
  - destruct (proj2 (stop_critera_from_second_step (settings_MO 3)
                       (state_at 2 (ratio 1 2) [])))
      as (Hmo & _ & _); [left; cbn; lia|].
    apply (Hmo eq_refl).
  - destruct (proj2 (stop_critera_from_second_step settings_stop_requested
                       (state_at 0 (ratio 1 2) [(ratio 5 1, ratio 6 1)])))
      as (_ & _ & Hshort); [right; reflexivity|].
    apply (Hshort eq_refl). unfold vsize. cbn. lia.
  - apply (proj1 (stop_critera_from_second_step (settings_SO 3 1 1)
                    (state_at 1 (ratio 1 2)
                       [(ratio 5 1, ratio 6 1); (ratio 5 1, ratio 6 1)]))).
    + cbn. lia.
    + reflexivity.
Defined.

(** C4, as stated, fails at generation step 1: with [generation_max = 1]
    and two equal summaries in the history the claim asks for both stall
    counters to become 1 and for [MaxGenerations]; the check returns
    [Undefined] at once and leaves the counters at 0. *)
Lemma stop_critera_first_step_counterexample :
  ~ stop_critera_as_specified (settings_SO 3 1 1)
      (state_at 1 (ratio 1 2) [(ratio 5 1, ratio 6 1); (ratio 5 1, ratio 6 1)]).
Proof.
  intros Hclaim.
  specialize (Hclaim [] (ratio 5 1, ratio 6 1) (ratio 5 1, ratio 6 1)
                eq_refl ltac:(cbn; lia)).
  vm_compute in Hclaim. discriminate.
Qed.

(* ----------------------------------------------------------------- *)
(** ** Reference vectors *)

Lemma binomial_gt (n k : nat) : (n < k)%nat -> binomial n k = 0%nat.
Proof.
  revert k. induction n as [|n IH]; intros [|k] Hk; cbn; try lia.
  rewrite !IH by lia. reflexivity.
Qed.

Lemma binomial_diag (n : nat) : binomial n n = 1%nat.
Proof.
  induction n as [|n IH]; [reflexivity|]. cbn.
  rewrite IH, binomial_gt by lia. reflexivity.
Qed.

Lemma binomial_diagonal_sum_closed (m d : nat) :
  binomial_diagonal_sum m (S d) = binomial (m + d + 1) d.
Proof.
  induction d as [|d IH].
  - cbn. rewrite Nat.add_0_r.
    replace (m + 1)%nat with (S m) by lia. destruct m; reflexivity.
  - change (binomial_diagonal_sum m (S (S d)))
      with (binomial_diagonal_sum m (S d) + binomial (m + S d) (S d))%nat.
    rewrite IH.
    replace (m + S d + 1)%nat with (S (m + d + 1)) by lia.
    replace (m + S d)%nat with (m + d + 1)%nat by lia.
    reflexivity.
Qed.

Lemma prepend_loop {A} (x : A) (tail result : list (list A)) :
  for_range 0 (vsize tail)
    (fun j result => v1 <- vget tail j ;; let v2 := x :: v1 in Ok (result ++ [v2]))
    result
  = Ok (result ++ map (cons x) tail).
Proof.
  destruct (for_range_invariant
              (fun j r => r = result ++ map (cons x) (firstn (Z.to_nat j) tail))
              (fun j result =>
                 v1 <- vget tail j ;; let v2 := x :: v1 in Ok (result ++ [v2]))
              0 (vsize tail) result) as (r & E & ->).
  - apply vsize_nonneg.
  - cbn. now rewrite app_nil_r.
  - intros j r Hj ->. destruct (vget_Ok tail j Hj) as (v1 & E1 & E1').
    rewrite E1. cbn [bind]. eexists. split; [reflexivity|].
    replace (Z.to_nat (j + 1)) with (S (Z.to_nat j)) by lia.
    rewrite (firstn_succ_nth_error _ _ _ E1'), map_app, app_assoc. reflexivity.
  - rewrite E. unfold vsize. now rewrite Nat2Z.id, firstn_all.
Qed.

Lemma lattice_point_cons (dept d i : Z) (v : list R) :
  0 <= i -> lattice_point (dept - 1) (d - i) v ->
  lattice_point dept d (IZR i :: v).
Proof.
  intros Hi (Hlen & Hpos & Hsum). repeat split.
  - rewrite vsize_cons. lia.
  - constructor; [apply IZR_le; lia|assumption].
  - unfold Rsum in *. cbn [fold_right]. rewrite Hsum, <- plus_IZR.
    f_equal. lia.
Qed.

(** The recursive generator returns, for [dept >= 1] and [d >= 0], exactly
    [C(dept + d - 1, d)] lattice points. *)
Lemma generate_integerReferenceVectors_rec_lattice (fuel : nat) :
  forall dept d : Z,
    1 <= dept <= Z.of_nat fuel + 1 -> 0 <= d ->
    exists vectors,
      generate_integerReferenceVectors_rec (F := R) fuel dept d = Ok vectors /\
      length vectors = binomial (Z.to_nat (dept + d - 1)) (Z.to_nat d) /\
      Forall (lattice_point dept d) vectors.
Proof.
  induction fuel as [|fuel IH]; intros dept d Hdept Hd.
  - assert (dept = 1) as -> by lia.
    exists [[IZR d]]. split; [reflexivity|]. split.
    + replace (Z.to_nat (1 + d - 1)) with (Z.to_nat d) by lia.
      now rewrite binomial_diag.
    + constructor; [|constructor]. repeat split.
      * constructor; [apply IZR_le; lia|constructor].
      * unfold Rsum. cbn. apply Rplus_0_r.
  - cbn [generate_integerReferenceVectors_rec].
    destruct (Z.ltb_spec dept 1); [lia|].
    destruct (Z.eqb_spec dept 1) as [->|Hne].
    + eexists. split; [reflexivity|]. split.
      * replace (Z.to_nat (1 + d - 1)) with (Z.to_nat d) by lia.
        now rewrite binomial_diag.
      * constructor; [|constructor]. repeat split.
        -- constructor; [apply IZR_le; lia|constructor].
        -- unfold Rsum. cbn. apply Rplus_0_r.
    + set (m := Z.to_nat (dept - 2)).
      destruct (for_range_invariant
                  (fun i (result : list (list R)) =>
                     Forall (lattice_point dept d) result /\
                     (length result
                      + binomial_diagonal_sum m (Z.to_nat (d + 1 - i))
                      = binomial_diagonal_sum m (Z.to_nat (d + 1)))%nat)
                  (fun i result =>
                     tail <- generate_integerReferenceVectors_rec fuel (dept - 1)
                               (d - i) ;;
                     for_range 0 (vsize tail)
                       (fun j result =>
                          v1 <- vget tail j ;;
                          let v2 := d_of_int i :: v1 in
                          Ok (result ++ [v2]))
                       result)
                  0 (d + 1) []) as (vectors & E & Hall & Hcount).
      * lia.
      * split; [constructor|]. now rewrite Z.sub_0_r.
      * intros i result Hi [Hall Hcount].
        destruct (IH (dept - 1) (d - i)) as (tail & Et & Hlen & Htail);
          [lia|lia|].
        rewrite Et. cbn [bind]. rewrite prepend_loop.
        eexists. split; [reflexivity|]. split.
        -- apply Forall_app. split; [assumption|].
           apply Forall_forall. intros v Hv.
           apply in_map_iff in Hv as (v1 & <- & Hv1).
           rewrite Forall_forall in Htail.
           apply lattice_point_cons; [lia|auto].
        -- rewrite length_app, length_map, Hlen.
           replace (Z.to_nat (d + 1 - i)) with (S (Z.to_nat (d + 1 - (i + 1))))
             in Hcount by lia.
           cbn [binomial_diagonal_sum] in Hcount.
           replace (Z.to_nat (dept - 1 + (d - i) - 1))
             with (m + Z.to_nat (d + 1 - (i + 1)))%nat by lia.
           replace (Z.to_nat (d - i)) with (Z.to_nat (d + 1 - (i + 1))) by lia.
           lia.
      * exists vectors. split; [assumption|]. split; [|assumption].
        replace (Z.to_nat (d + 1 - (d + 1))) with 0%nat in Hcount by lia.
        cbn [binomial_diagonal_sum] in Hcount.
        replace (Z.to_nat (d + 1)) with (S (Z.to_nat d)) in Hcount by lia.
        rewrite binomial_diagonal_sum_closed in Hcount.
        replace (Z.to_nat (dept + d - 1)) with (m + Z.to_nat d + 1)%nat by lia.
        lia.
Qed.

Lemma for_loop_ext {St} (body1 body2 : Z -> St -> outcome St) (n : nat) :
  forall (i : Z) (s : St),
    (forall k s0, i <= k < i + Z.of_nat n -> body1 k s0 = body2 k s0) ->
    for_loop n i body1 s = for_loop n i body2 s.
Proof.
  induction n as [|n IH]; intros i s Hext; cbn [for_loop]; [reflexivity|].
  rewrite Hext by lia. destruct (body2 i s); cbn [bind]; try reflexivity.
  apply IH. intros k s0 Hk. apply Hext. lia.
Qed.

Lemma for_range_ext {St} (body1 body2 : Z -> St -> outcome St) (lo hi : Z)
  (s : St) :
  (forall k s0, lo <= k < hi -> body1 k s0 = body2 k s0) ->
  for_range lo hi body1 s = for_range lo hi body2 s.
Proof.
  intros Hext. unfold for_range. apply for_loop_ext.
  intros k s0 Hk. apply Hext. lia.
Qed.

Lemma matrix_index_exact {T} (m : Matrix.t T) (i j : Z) :
  matrix_fits m ->
  0 <= i < Matrix.n_rows m -> 0 <= j < Matrix.n_cols m ->
  Matrix.index m i j = i * Matrix.n_cols m + j /\
  0 <= i * Matrix.n_cols m + j < vsize (Matrix.data m).
Proof.
  intros [(Hr & Hc & Hlen) Hsmall] Hi Hj. unfold Matrix.index, u32.
  assert (0 <= i * Matrix.n_cols m + j) by nia.
  assert (i * Matrix.n_cols m + j < Matrix.n_rows m * Matrix.n_cols m) by nia.
  split; [apply Z.mod_small; lia|lia].
Qed.

Lemma matrix_index_injective {T} (m : Matrix.t T) (i j i' j' : Z) :
  0 <= j < Matrix.n_cols m -> 0 <= j' < Matrix.n_cols m ->
  i * Matrix.n_cols m + j = i' * Matrix.n_cols m + j' -> i = i' /\ j = j'.
Proof.
  intros Hj Hj' E.
  assert (i = i').
  { destruct (Z.lt_trichotomy i i') as [Hlt|[Heq|Hgt]]; [|assumption|].
    - assert ((i + 1) * Matrix.n_cols m <= i' * Matrix.n_cols m)
        by (apply Z.mul_le_mono_nonneg_r; lia).
      lia.
    - assert ((i' + 1) * Matrix.n_cols m <= i * Matrix.n_cols m)
        by (apply Z.mul_le_mono_nonneg_r; lia).
      lia. }
  subst. split; [reflexivity|lia].
Qed.

Lemma matrix_set_at_Ok {T} (m : Matrix.t T) (i j : Z) (x : T) :
  matrix_fits m ->
  0 <= i < Matrix.n_rows m -> 0 <= j < Matrix.n_cols m ->
  exists m',
    Matrix.set_at m i j x = Ok m' /\
    Matrix.n_rows m' = Matrix.n_rows m /\
    Matrix.n_cols m' = Matrix.n_cols m /\
    matrix_fits m' /\
    Matrix.at_ m' i j = Ok x /\
    forall i' j',
      0 <= i' < Matrix.n_rows m -> 0 <= j' < Matrix.n_cols m ->
      (i', j') <> (i, j) -> Matrix.at_ m' i' j' = Matrix.at_ m i' j'.
Proof.
  intros Hfits Hi Hj.
  destruct (matrix_index_exact m i j Hfits Hi Hj) as [Eidx Hin].
  unfold Matrix.set_at. rewrite Eidx.
  pose proof (vset_Ok (Matrix.data m) _ x Hin) as Es. rewrite Es. cbn [bind].
  eexists. split; [reflexivity|]. cbn [Matrix.n_rows Matrix.n_cols].
  split; [reflexivity|]. split; [reflexivity|].
  assert (Hfits' : matrix_fits
                     (Matrix.mk (Matrix.n_rows m) (Matrix.n_cols m)
                        (replace_nth (Matrix.data m)
                           (Z.to_nat (i * Matrix.n_cols m + j)) x))).
  { destruct Hfits as [(Hr & Hc & Hlen) Hsmall].
    split; [|assumption]. repeat split; cbn; try assumption.
    unfold vsize in *. now rewrite length_replace_nth. }
  split; [assumption|]. split.
  - unfold Matrix.at_, Matrix.index. cbn [Matrix.n_cols Matrix.data].
    fold (Matrix.index m i j). rewrite Eidx.
    apply (vget_vset_eq _ _ _ _ Es).
  - intros i' j' Hi' Hj' Hne.
    destruct (matrix_index_exact m i' j' Hfits Hi' Hj') as [Eidx' _].
    unfold Matrix.at_, Matrix.index. cbn [Matrix.n_cols Matrix.data].
    fold (Matrix.index m i' j'). rewrite Eidx'.
    apply (vget_vset_ne _ _ _ _ _ Es).
    intros E. apply matrix_index_injective in E as [-> ->]; [|lia|lia].
    now apply Hne.
Qed.

(** Two nested loops over the cells of a matrix whose body overwrites the
    current cell with a value [v i j] that does not depend on the cells
    already overwritten. *)
Lemma matrix_cell_loops {T} (m0 : Matrix.t T) (v : Z -> Z -> T)
  (rowbody : Z -> Matrix.t T -> outcome (Matrix.t T))
  (cell : Z -> Z -> Matrix.t T -> outcome (Matrix.t T)) :
  matrix_fits m0 ->
  (forall i m, 0 <= i < Matrix.n_rows m0 ->
               Matrix.n_cols m = Matrix.n_cols m0 ->
               rowbody i m = for_range 0 (Matrix.n_cols m0) (cell i) m) ->
  (forall i j m,
     0 <= i < Matrix.n_rows m0 -> 0 <= j < Matrix.n_cols m0 ->
     Matrix.n_rows m = Matrix.n_rows m0 -> Matrix.n_cols m = Matrix.n_cols m0 ->
     matrix_fits m ->
     Matrix.at_ m i j = Matrix.at_ m0 i j ->
     cell i j m = Matrix.set_at m i j (v i j)) ->
  exists m',
    for_range 0 (Matrix.n_rows m0) rowbody m0 = Ok m' /\
    Matrix.n_rows m' = Matrix.n_rows m0 /\
    Matrix.n_cols m' = Matrix.n_cols m0 /\
    matrix_fits m' /\
    forall i j, 0 <= i < Matrix.n_rows m0 -> 0 <= j < Matrix.n_cols m0 ->
                Matrix.at_ m' i j = Ok (v i j).
Proof.
  intros Hfits Hrow Hcell.
  set (R := Matrix.n_rows m0) in *. set (C := Matrix.n_cols m0) in *.
  pose (dims := fun m : Matrix.t T =>
                  Matrix.n_rows m = R /\ Matrix.n_cols m = C /\ matrix_fits m).
  destruct (for_range_invariant
              (fun i m =>
                 dims m /\
                 (forall i' j', 0 <= i' < i -> 0 <= j' < C ->
                                Matrix.at_ m i' j' = Ok (v i' j')) /\
                 (forall i' j', i <= i' < R -> 0 <= j' < C ->
                                Matrix.at_ m i' j' = Matrix.at_ m0 i' j'))
              rowbody 0 R m0) as (m' & E & (HR & HC & Hf) & Hdone & _).
  - destruct Hfits as [(Hr & _) _]. exact Hr.
  - split; [unfold dims; auto|]. split; [intros; lia|reflexivity].
  - intros i m Hi ((HR & HC & Hf) & Hdone & Htodo).
    rewrite Hrow by assumption.
    destruct (for_range_invariant
                (fun j m1 =>
                   dims m1 /\
                   (forall i' j', 0 <= i' < i -> 0 <= j' < C ->
                                  Matrix.at_ m1 i' j' = Ok (v i' j')) /\
                   (forall j', 0 <= j' < j ->
                               Matrix.at_ m1 i j' = Ok (v i j')) /\
                   (forall j', j <= j' < C ->
                               Matrix.at_ m1 i j' = Matrix.at_ m0 i j') /\
                   (forall i' j', i < i' < R -> 0 <= j' < C ->
                                  Matrix.at_ m1 i' j' = Matrix.at_ m0 i' j'))
                (cell i) 0 C m)
      as (m1 & E1 & Hd1 & Hdone1 & Hrow1 & _ & Htodo1).
    + destruct Hfits as [(_ & Hc & _) _]. exact Hc.
    + split; [unfold dims; auto|]. split; [assumption|].
      split; [intros; lia|]. split; intros; apply Htodo; lia.
    + intros j m1 Hj ((HR1 & HC1 & Hf1) & Hdone1 & Hrow1 & Hrest1 & Htodo1).
      rewrite (Hcell i j m1) by (try assumption; apply Hrest1; lia).
      destruct (matrix_set_at_Ok m1 i j (v i j) Hf1)
        as (m2 & E2 & HR2 & HC2 & Hf2 & Hat & Hother); [lia|lia|].
      exists m2. split; [assumption|].
      split; [unfold dims; split; [congruence|split; [congruence|assumption]]|].
      split; [|split; [|split]].
      * intros i' j' Hi' Hj'. rewrite Hother; [now apply Hdone1|lia|lia|].
        intros [= -> ->]. lia.
      * intros j' Hj'. destruct (Z.eq_dec j' j) as [->|Hne]; [assumption|].
        rewrite Hother; [apply Hrow1; lia|lia|lia|]. intros [= ->]. lia.
      * intros j' Hj'. rewrite Hother; [apply Hrest1; lia|lia|lia|].
        intros [= ->]. lia.
      * intros i' j' Hi' Hj'. rewrite Hother; [now apply Htodo1|lia|lia|].
        intros [= -> ->]. lia.
    + exists m1. split; [assumption|]. split; [assumption|]. split.
      * intros i' j' Hi' Hj'. destruct (Z.eq_dec i' i) as [->|Hne].
        -- now apply Hrow1.
        -- apply Hdone1; lia.
      * intros i' j' Hi' Hj'. apply Htodo1; lia.
  - exists m'. split; [assumption|]. split; [assumption|].
    split; [assumption|]. split; [assumption|].
    intros i j Hi Hj. now apply Hdone.
Qed.

Lemma matrix_assign_rectangular {T} (z : T) (A : list (list T)) (C : Z) :
  1 <= vsize A -> 1 <= C ->
  Forall (fun row => vsize row = C) A ->
  vsize A * C < 2 ^ 32 ->
  exists m,
    Matrix.assign z Matrix.default A = Ok m /\
    Matrix.n_rows m = vsize A /\ Matrix.n_cols m = C /\
    matrix_fits m /\
    forall i j, 0 <= i < vsize A -> 0 <= j < C ->
                Matrix.at_ m i j = Ok (entry z A i j).
Proof.
  intros HR HC Hrect Hsmall. unfold Matrix.assign.
  assert (ER : u32 (vsize A) = vsize A) by (unfold u32; apply Z.mod_small; nia).
  rewrite ER.
  assert (EC : match A with
               | [] => 0
               | A0 :: _ => if 0 <? vsize A then u32 (vsize A0) else 0
               end = C).
  { destruct A as [|A0 A']; [unfold vsize in HR; cbn in HR; lia|].
    destruct (Z.ltb_spec 0 (vsize (A0 :: A'))); [|lia].
    inversion Hrect as [|? ? H0 _]; subst.
    unfold u32. apply Z.mod_small. nia. }
  rewrite EC.
  destruct (Z.ltb_spec 0 (vsize A)); [|lia].
  destruct (Z.ltb_spec 0 C); [|lia]. cbn [andb].
  assert (ERC : u32 (vsize A * C) = vsize A * C)
    by (unfold u32; apply Z.mod_small; nia).
  rewrite ERC.
  set (m0 := Matrix.mk (vsize A) C
               (Matrix.resize z (Z.to_nat (vsize A * C))
                  (Matrix.data (@Matrix.default T)))).
  assert (Hfits : matrix_fits m0).
  { split; [|assumption]. repeat split; cbn [m0 Matrix.n_rows Matrix.n_cols];
      try lia.
    cbn [Matrix.data m0 Matrix.default]. unfold Matrix.resize, vsize.
    rewrite firstn_nil. cbn [app length]. rewrite repeat_length. nia. }
  destruct (matrix_cell_loops m0 (entry z A)
              (fun i m1 =>
                 Ai <- vget A i ;;
                 for_range 0 C
                   (fun j m2 => Aij <- vget Ai j ;; Matrix.set_at m2 i j Aij) m1)
              (fun i j m =>
                 Ai <- vget A i ;;
                 Aij <- vget Ai j ;;
                 Matrix.set_at m i j Aij))
    as (m & E & HRm & HCm & Hfm & Hat); try assumption.
  - intros i m Hi _. cbn [m0 Matrix.n_rows Matrix.n_cols] in *.
    destruct (vget_Ok A i Hi) as (Ai & EAi & _). rewrite EAi. cbn [bind].
    reflexivity.
  - intros i j m Hi Hj _ _ _ _. cbn [m0 Matrix.n_rows Matrix.n_cols] in *.
    destruct (vget_Ok A i Hi) as (Ai & EAi & EAi').
    assert (HAi : vsize Ai = C).
    { rewrite Forall_forall in Hrect. apply Hrect.
      eapply nth_error_In; eassumption. }
    destruct (vget_Ok Ai j) as (x & Ex & _); [lia|].
    unfold entry. rewrite EAi. cbn [bind]. rewrite Ex. reflexivity.
  - exists m. repeat split; try assumption; apply Hfm.
Qed.

Lemma matrix_get_row {T} (m : Matrix.t T) (i : Z) (f : Z -> T) :
  0 <= Matrix.n_cols m ->
  (forall j, 0 <= j < Matrix.n_cols m -> Matrix.at_ m i j = Ok (f j)) ->
  Matrix.get_row m i = Ok (map f (iota (Z.to_nat (Matrix.n_cols m)))).
Proof.
  intros HC Hat. unfold Matrix.get_row.
  destruct (for_range_invariant
              (fun j row => row = map f (iota (Z.to_nat j)))
              (fun j row_vector => x <- Matrix.at_ m i j ;; Ok (row_vector ++ [x]))
              0 (Matrix.n_cols m) []) as (row & E & ->); try assumption.
  - reflexivity.
  - intros j row Hj ->. rewrite Hat by assumption. cbn [bind].
    eexists. split; [reflexivity|].
    replace (Z.to_nat (j + 1)) with (S (Z.to_nat j)) by lia.
    rewrite iota_succ, map_app. cbn [map]. now rewrite Z2Nat.id by lia.
Qed.

Lemma map_entry_iota {T} (z : T) (A : list (list T)) (i : Z) (Ai : list T) :
  vget A i = Ok Ai ->
  map (entry z A i) (iota (length Ai)) = Ai.
Proof.
  intros EAi. apply nth_error_ext. intros n. unfold iota.
  rewrite map_map, nth_error_map.
  destruct (Nat.lt_ge_cases n (length Ai)) as [Hn|Hn].
  - rewrite nth_error_seq. destruct (Nat.ltb_spec n (length Ai)); [|lia].
    cbn [option_map Nat.add]. unfold entry. rewrite EAi.
    destruct (vget_Ok Ai (Z.of_nat n)) as (x & Ex & Ex');
      [unfold vsize; lia|].
    rewrite Ex. rewrite Nat2Z.id in Ex'. now rewrite Ex'.
  - rewrite nth_error_seq. destruct (Nat.ltb_spec n (length Ai)); [lia|].
    cbn [option_map]. symmetry. now apply nth_error_None.
Qed.

Lemma Rsum_map_div (v : list R) (d : R) :
  Rsum (map (fun x => (x / d)%R) v) = (Rsum v / d)%R.
Proof.
  unfold Rsum. induction v as [|x v IH]; cbn [map fold_right].
  - unfold Rdiv. now rewrite Rmult_0_l.
  - rewrite IH. unfold Rdiv. now rewrite Rmult_plus_distr_r.
Qed.

(** C9.  For [dept >= 1] and [d >= 1] (and a lattice whose element count
    fits [unsigned int]) the integer generator returns exactly
    [C(dept + d - 1, d)] vectors of [dept] non-negative components that sum
    to [d], and the reference-vector generator returns a matrix with that
    many rows and [dept] columns, each row having non-negative components
    that sum to 1; for [dept < 1] the generator throws. *)
Theorem generate_referenceVectors_lattice (dept d : Z) :
  1 <= dept -> 1 <= d ->
  Z.of_nat (binomial (Z.to_nat (dept + d - 1)) (Z.to_nat d)) * dept < 2 ^ 32 ->
  (exists vectors,
     generate_integerReferenceVectors (F := R) dept d = Ok vectors /\
     length vectors = binomial (Z.to_nat (dept + d - 1)) (Z.to_nat d) /\
     Forall (lattice_point dept d) vectors) /\
  (exists A,
     generate_referenceVectors (F := R) dept d = Ok A /\
     Matrix.get_n_rows A
       = Z.of_nat (binomial (Z.to_nat (dept + d - 1)) (Z.to_nat d)) /\
     Matrix.get_n_cols A = dept /\
     forall i, 0 <= i < Matrix.get_n_rows A ->
       exists row,
         Matrix.get_row A i = Ok row /\
         Forall (fun x => (0 <= x)%R) row /\
         Rsum row = 1%R) /\
  (forall dept' d' : Z,
     dept' < 1 ->
     generate_referenceVectors (F := R) dept' d' = Throw "wrong vector dept!").
Proof.
  intros Hdept Hd Hsmall.
  destruct (generate_integerReferenceVectors_rec_lattice (Z.to_nat dept) dept d)
    as (vectors & Ev & Hlen & Hlattice); [lia|lia|].
  split; [exists vectors; auto|]. split.
  - unfold generate_referenceVectors, generate_integerReferenceVectors.
    rewrite Ev. cbn [bind].
    assert (Hrows : 1 <= vsize vectors).
    { destruct vectors as [|v0 vs]; [|rewrite vsize_cons; pose proof (vsize_nonneg vs); lia].
      exfalso. cbn [length] in Hlen.
      destruct (generate_integerReferenceVectors_rec_lattice
                  (Z.to_nat dept) dept d) as (vectors' & Ev' & Hlen' & _);
        [lia|lia|].
      rewrite Ev in Ev'. injection Ev' as <-. cbn [length] in Hlen'.
      clear -Hlen' Hdept Hd.
      assert (Hpos : forall n k, (k <= n)%nat -> (0 < binomial n k)%nat).
      { induction n as [|n IH]; intros [|k] Hk; cbn; try lia.
        specialize (IH k ltac:(lia)). lia. }
      specialize (Hpos (Z.to_nat (dept + d - 1)) (Z.to_nat d) ltac:(lia)). lia. }
    assert (Hrect : Forall (fun row => vsize row = dept) vectors).
    { eapply Forall_impl; [|exact Hlattice]. intros v Hv. apply Hv. }
    assert (Hsize : vsize vectors * dept < 2 ^ 32)
      by (unfold vsize; now rewrite Hlen).
    destruct (matrix_assign_rectangular (0%R) vectors dept Hrows Hdept Hrect Hsize)
      as (A0 & EA0 & HR0 & HC0 & Hf0 & Hat0).
    change (d_of_int 0) with 0%R. rewrite EA0. cbn [bind].
    unfold Matrix.get_n_rows, Matrix.get_n_cols.
    destruct (matrix_cell_loops A0
                (fun i j => (element 0%R A0 i j / IZR d)%R)
                (fun i A =>
                   for_range 0 (Matrix.n_cols A)
                     (fun j A =>
                        x <- Matrix.at_ A i j ;;
                        Matrix.set_at A i j (d_div x (d_of_int d)))
                     A)
                (fun i j A =>
                   x <- Matrix.at_ A i j ;;
                   Matrix.set_at A i j (d_div x (d_of_int d))))
      as (A & EA & HRA & HCA & HfA & HatA); try assumption.
    + intros i m Hi HCm. now rewrite HCm.
    + intros i j m Hi Hj _ _ _ Hsame. rewrite Hsame. unfold element.
      rewrite Hat0 by lia. reflexivity.
    + rewrite EA. exists A. split; [reflexivity|].
      split; [rewrite HRA, HR0; unfold vsize; now rewrite Hlen|].
      split; [congruence|].
      intros i Hi. rewrite HRA, HR0 in Hi.
      destruct (vget_Ok vectors i Hi) as (Ai & EAi & EAi').
      assert (HAi : lattice_point dept d Ai).
      { rewrite Forall_forall in Hlattice. apply Hlattice.
        eapply nth_error_In; eassumption. }
      destruct HAi as (HAlen & HApos & HAsum).
      rewrite (matrix_get_row A i
                 (fun j => (element 0%R A0 i j / IZR d)%R)).
      * eexists. split; [reflexivity|].
        assert (Erow : map (fun j => (element 0%R A0 i j / IZR d)%R)
                         (iota (Z.to_nat (Matrix.n_cols A)))
                       = map (fun x => (x / IZR d)%R) Ai).
        { transitivity (map (fun x => (x / IZR d)%R)
                          (map (entry 0%R vectors i) (iota (length Ai))));
            [|now rewrite (map_entry_iota 0%R vectors i Ai EAi)].
          rewrite map_map.
          replace (Z.to_nat (Matrix.n_cols A)) with (length Ai)
            by (unfold vsize in HAlen; lia).
          apply map_ext_in. intros j Hj. unfold iota in Hj.
          apply in_map_iff in Hj as (k & <- & Hk). apply in_seq in Hk.
          unfold element. rewrite Hat0; [reflexivity|lia|unfold vsize in HAlen; lia]. }
        rewrite Erow. split.
        -- apply Forall_forall. intros y Hy.
           apply in_map_iff in Hy as (x & <- & Hx).
           rewrite Forall_forall in HApos. specialize (HApos x Hx).
           apply Rle_mult_inv_pos; [assumption|]. apply IZR_lt. lia.
        -- rewrite Rsum_map_div, HAsum. field.
           apply not_0_IZR. lia.
      * lia.
      * intros j Hj. apply HatA; lia.
  - intros dept' d' Hlt. unfold generate_referenceVectors,
      generate_integerReferenceVectors.
    destruct (Z.to_nat dept') as [|fuel]; cbn [generate_integerReferenceVectors_rec];
      destruct (Z.ltb_spec dept' 1); try lia; reflexivity.
Qed.

Lemma generate_referenceVectors_lattice_witness :
  (exists vectors,
     generate_integerReferenceVectors (F := R) 3 4 = Ok vectors /\
     length vectors = binomial (Z.to_nat (3 + 4 - 1)) (Z.to_nat 4) /\
     Forall (lattice_point 3 4) vectors) /\
  (exists A,
     generate_referenceVectors (F := R) 3 4 = Ok A /\
     Matrix.get_n_rows A
       = Z.of_nat (binomial (Z.to_nat (3 + 4 - 1)) (Z.to_nat 4)) /\
     Matrix.get_n_cols A = 3 /\
     forall i, 0 <= i < Matrix.get_n_rows A ->
       exists row,
         Matrix.get_row A i = Ok row /\
         Forall (fun x => (0 <= x)%R) row /\
         Rsum row = 1%R) /\
  (forall dept' d' : Z,
     dept' < 1 ->
     generate_referenceVectors (F := R) dept' d' = Throw "wrong vector dept!").
Proof.
  apply (generate_referenceVectors_lattice 3 4);
    [lia | lia | vm_compute; reflexivity].
Defined.

(* ----------------------------------------------------------------- *)
(** ** The selection chances of a combined generation *)

(** C1 (the code departs from the claim).  Ranking the combined generation
    of five chromosomes with [population = 3] divides by entry
    [population - 1 = 2] of the table, not by its final entry: in binary64
    entry 2 becomes exactly 1, the entries after it are divided by that 1
    and stay unnormalised, and the final entry exceeds 1 + 1e-12. *)
Theorem generate_selection_chance_final_entry_not_one :
  exists g final,
    rank_population_SO insertion_sort true 3 combined_generation = Ok g /\
    vsize (chromosomes g) = 5 /\
    vsize (selection_chance_cumulative g) = 5 /\
    vget (selection_chance_cumulative g) 2 = Ok (ratio 1 1) /\
    vget (selection_chance_cumulative g) 4 = Ok final /\
    d_ltb (d_add (ratio 1 1) (ratio 1 (10 ^ 12))) final = true /\
    d_ltb (ratio 3 1) final = true.
Proof.
  eexists. eexists.
  split; [vm_compute; reflexivity|].
  split; [reflexivity|]. split; [reflexivity|].
  split; [reflexivity|]. split; [reflexivity|].
  split; vm_compute; reflexivity.
Qed.

(* ----------------------------------------------------------------- *)
(** ** The niching loop of select_population_MO *)

Lemma for_loop_post {St} (I : Z -> St -> Prop) (body : Z -> St -> outcome St)
  (n : nat) :
  forall (i : Z) (s s' : St),
    I i s ->
    (forall k s0 s1, i <= k < i + Z.of_nat n -> I k s0 ->
                     body k s0 = Ok s1 -> I (k + 1) s1) ->
    for_loop n i body s = Ok s' -> I (i + Z.of_nat n) s'.
Proof.
  induction n as [|n IH]; intros i s s' Hs Hbody E; cbn [for_loop] in E.
  - injection E as <-. now replace (i + Z.of_nat 0) with i by lia.
  - destruct (body i s) as [s1| | |] eqn:E1; try discriminate. cbn [bind] in E.
    replace (i + Z.of_nat (S n)) with (i + 1 + Z.of_nat n) by lia.
    apply (IH (i + 1) s1 s'); [| |exact E].
    + apply (Hbody i s s1); [lia | exact Hs | exact E1].
    + intros k s0 s2 Hk. apply Hbody. lia.
Qed.

Lemma vget_repeat {A} (x y : A) (n : nat) (j : Z) :
  vget (repeat x n) j = Ok y -> y = x.
Proof.
  intro E. apply vget_inv in E as [_ E]. apply nth_error_In in E.
  exact (repeat_spec _ _ _ E).
Qed.

(** X30.  In the table [associate_to_references] returns, every chromosome
    of the generation, those of the last front included, is counted in the
    niche of its reference vector: a niche count of 0 belongs to a vector
    with no associated chromosome. *)
Lemma associate_to_references_counts_every_chromosome
  {F : Type} `{Double F} {G M : Type}
  (reference : Matrix.t F) (gen : GenerationType F G M)
  (norm_objectives : Matrix.t F) (a : @Association F) :
  vsize (chromosomes gen) < 2 ^ 32 ->
  associate_to_references reference gen norm_objectives = Ok a ->
  forall i, 0 <= i < vsize (chromosomes gen) ->
    exists j count,
      vget (associated_ref_vector a) i = Ok j /\
      vget (niche_count a) j = Ok count /\ 1 <= count.
Proof.
  intros Hsize E.
  pose proof (vsize_nonneg (chromosomes gen)) as Hnonneg.
  assert (HN : u32 (vsize (chromosomes gen)) = vsize (chromosomes gen))
    by (unfold u32; apply Z.mod_small; lia).
  unfold associate_to_references, for_range in E. rewrite HN in E.
  set (I := fun (k : Z) (a : @Association F) =>
              (forall j c, vget (niche_count a) j = Ok c -> 0 <= c <= k) /\
              (forall i, 0 <= i < k ->
                 exists j count,
                   vget (associated_ref_vector a) i = Ok j /\
                   vget (niche_count a) j = Ok count /\ 1 <= count)).
  apply (for_loop_post I) in E.
  - replace (0 + Z.of_nat (Z.to_nat (vsize (chromosomes gen) - 0)))
      with (vsize (chromosomes gen)) in E by lia.
    exact (proj2 E).
  - split; cbn.
    + intros j c Ec. apply vget_repeat in Ec. lia.
    + intros i Hi. lia.
  - intros k a0 a1 Hk [Hcounts Hdone] Ebody.
    match type of Ebody with
    | bind ?inner _ = _ => destruct inner as [[[dist_min j0] dists]| | |]
    end; try discriminate.
    cbn [bind] in Ebody.
    destruct (vset (associated_ref_vector a0) k j0) as [associated| | |] eqn:Ea;
      try discriminate. cbn [bind] in Ebody.
    destruct (vset (distance_ref_vector a0) k dist_min) as [distance| | |];
      try discriminate. cbn [bind] in Ebody.
    destruct (vget (niche_count a0) j0) as [count0| | |] eqn:Ec;
      try discriminate. cbn [bind] in Ebody.
    destruct (vset (niche_count a0) j0 (u32 (count0 + 1))) as [niche| | |] eqn:En;
      try discriminate. cbn [bind] in Ebody.
    injection Ebody as <-. unfold I.
    cbn [niche_count associated_ref_vector].
    pose proof (Hcounts j0 count0 Ec) as Hc0.
    assert (Hu : u32 (count0 + 1) = count0 + 1)
      by (unfold u32; apply Z.mod_small; lia).
    rewrite Hu in En.
    assert (Hniche : forall j c, vget (niche_count a0) j = Ok c ->
                       exists c', vget niche j = Ok c' /\ c <= c' <= c + 1).
    { intros j c Ej. destruct (Z.eq_dec j j0) as [->|Hne].
      - exists (count0 + 1). split; [exact (vget_vset_eq _ _ _ _ En)|].
        rewrite Ec in Ej. injection Ej as <-. lia.
      - exists c. split; [|lia].
        rewrite (vget_vset_ne _ _ _ _ _ En Hne). exact Ej. }
    split.
    + intros j c Ej. destruct (Z.eq_dec j j0) as [->|Hne].
      * rewrite (vget_vset_eq _ _ _ _ En) in Ej. injection Ej as <-. lia.
      * rewrite (vget_vset_ne _ _ _ _ _ En Hne) in Ej.
        specialize (Hcounts j c Ej). lia.
    + intros i Hi. destruct (Z.eq_dec i k) as [->|Hne].
      * exists j0, (count0 + 1).
        split; [exact (vget_vset_eq _ _ _ _ Ea)|].
        split; [exact (vget_vset_eq _ _ _ _ En) | lia].
      * destruct (Hdone i) as (j & c & Ei & Ej & Hc); [lia|].
        destruct (Hniche j c Ej) as (c' & Ej' & Hc').
        exists j, c'.
        split; [rewrite (vget_vset_ne _ _ _ _ _ Ea Hne); exact Ei|].
        split; [exact Ej' | lia].
Qed.

(** The branch for a niche count of 0, run on a loop state given directly,
    one that the loop of [select_population_MO] does not reach: the single
    reference vector 0 at niche count 0 and the remaining last front
    [1; 2; 3], all associated with it, at distances 0.5, 0.25 and 0.375.
    The scan finds the minimum at chromosome 2 and stores the chromosome
    number 2 in [next_member_index], which is then used as a position in
    [min_vec_neighbors = [1; 2; 3]]; the chromosome added is 3. *)
Theorem niching_step_misses_the_closest :
  niching_step (settings_MO 3) niching_generation [0; 0; 0; 0]
    niching_distances ([1; 2; 3], [], [0]) (state_at 1 (ratio 1 2) [])
  = (state_at 1 (ratio 1 2) [], Ok ([1; 2], [3], [1])) /\
  Matrix.at_ niching_distances 2 0 = Ok (ratio 1 4) /\
  Matrix.at_ niching_distances 3 0 = Ok (ratio 3 8) /\
  d_ltb (ratio 1 4 : float) (ratio 3 8) = true.
Proof.
  split; [vm_compute; reflexivity|].
  split; [reflexivity|]. split; [reflexivity|].
  vm_compute. reflexivity.
Qed.

(* ----------------------------------------------------------------- *)
(** ** Where the errors of the configuration are raised *)

Section Progress.
Context {F : Type} `{Double F} {Inf : Infinite F} {G M : Type}.
Variable std_sort : (Z -> Z -> bool) -> list Z -> list Z.
Variable default_genes : G.
Variable default_middle_costs : M.

Local Notation Method := (Eng F G M).

Lemma same_progress_refl (s : State F G M) : same_progress s s.
Proof. split; reflexivity. Qed.

Lemma same_progress_trans (s1 s2 s3 : State F G M) :
  same_progress s1 s2 -> same_progress s2 s3 -> same_progress s1 s3.
Proof. intros [A1 B1] [A2 B2]. split; congruence. Qed.

Lemma keeps_progress_ret {A} (a : A) : keeps_progress (ret a : Method A).
Proof. intro s. apply same_progress_refl. Qed.

Lemma keeps_progress_raise {A} (w : string) :
  keeps_progress (raise w : Method A).
Proof. intro s. apply same_progress_refl. Qed.

Lemma keeps_progress_lift {A} (o : outcome A) :
  keeps_progress (lift o : Method A).
Proof. intro s. apply same_progress_refl. Qed.

Lemma keeps_progress_get_state : keeps_progress (get_state : Method _).
Proof. intro s. apply same_progress_refl. Qed.

Lemma keeps_progress_with_rng {A} (f : Rng F -> outcome (A * Rng F)) :
  keeps_progress (with_rng f : Method A).
Proof.
  intro s. unfold with_rng.
  destruct (f (rng s)) as [[a r]| | |]; split; reflexivity.
Qed.

Lemma keeps_progress_update_state (f : State F G M -> State F G M) :
  (forall s, same_progress s (f s)) -> keeps_progress (update_state f).
Proof. intros Hf s. apply Hf. Qed.

Lemma keeps_progress_ebind {A B} (m : Method A) (k : A -> Method B) :
  keeps_progress m -> (forall a, keeps_progress (k a)) ->
  keeps_progress (ebind m k).
Proof.
  intros Hm Hk s. unfold ebind. specialize (Hm s).
  destruct (m s) as [s1 [a| | |]]; cbn [fst] in *; try exact Hm.
  exact (same_progress_trans _ _ _ Hm (Hk a s1)).
Qed.

Lemma keeps_progress_efor_loop {St} (body : Z -> St -> Method St) :
  (forall i x, keeps_progress (body i x)) ->
  forall n i x, keeps_progress (efor_loop n i body x).
Proof.
  intros Hbody n. induction n as [|n IH]; intros i x; cbn [efor_loop].
  - apply keeps_progress_ret.
  - apply keeps_progress_ebind; [apply Hbody | intro x'; apply IH].
Qed.

Lemma keeps_progress_efor_range {St} (body : Z -> St -> Method St) :
  (forall i x, keeps_progress (body i x)) ->
  forall lo hi x, keeps_progress (efor_range lo hi body x).
Proof.
  intros Hbody lo hi x. unfold efor_range.
  apply keeps_progress_efor_loop, Hbody.
Qed.

(** The composition rules, applied as far as they go. *)
Ltac progress_step :=
  first
    [ apply keeps_progress_ret
    | apply keeps_progress_raise
    | apply keeps_progress_lift
    | apply keeps_progress_get_state
    | apply keeps_progress_with_rng
    | apply keeps_progress_update_state; intro; split; reflexivity
    | apply keeps_progress_efor_range; intros
    | apply keeps_progress_ebind; [| intros]
    | match goal with
      | |- keeps_progress (let '(_, _) := ?p in _) => destruct p
      | |- keeps_progress (if ?b then _ else _) => destruct b
      | |- keeps_progress (match ?o with Some _ => _ | None => _ end) =>
          destruct o
      end ].

Ltac progress_steps := repeat progress_step.

Lemma keeps_progress_init_until_accepted fuel cfg :
  forall generation0 index,
    keeps_progress
      (init_until_accepted default_genes default_middle_costs fuel cfg
         generation0 index).
Proof.
  induction fuel as [|fuel IH]; intros generation0 index;
    cbn [init_until_accepted]; progress_steps.
  apply IH.
Qed.

Lemma keeps_progress_run_action cfg action :
  (forall g from to, keeps_progress (action g from to)) ->
  forall generation N_add,
    keeps_progress
      (run_action default_genes default_middle_costs cfg action generation
         N_add).
Proof.
  intros Haction generation N_add.
  unfold run_action, sequential_action, dynamic_thread_action,
    static_thread_action.
  progress_steps; apply Haction.
Qed.

Lemma keeps_progress_init_population fuel cfg generation0 :
  keeps_progress
    (init_population default_genes default_middle_costs fuel cfg generation0).
Proof.
  unfold init_population. progress_steps.
  apply keeps_progress_run_action. intros g from to.
  unfold init_population_range. progress_steps.
  apply keeps_progress_init_until_accepted.
Qed.

Lemma keeps_progress_calculate_N_robj (cfg : Settings F G M) g :
  keeps_progress (calculate_N_robj cfg g).
Proof. unfold calculate_N_robj. progress_steps. Qed.

Lemma keeps_progress_update_ideal_objectives (cfg : Settings F G M) g reset :
  keeps_progress (update_ideal_objectives cfg g reset).
Proof. unfold update_ideal_objectives. progress_steps. Qed.

Lemma keeps_progress_report_generation (cfg : Settings F G M) g :
  keeps_progress (report_generation cfg g).
Proof. unfold report_generation. progress_steps. Qed.

Lemma ebind_Ok {A B} (m : Method A) (k : A -> Method B) s s' b :
  ebind m k s = (s', Ok b) ->
  exists s1 a, m s = (s1, Ok a) /\ k a s1 = (s', Ok b).
Proof.
  unfold ebind. destruct (m s) as [s1 [a| | |]]; try discriminate.
  intro E. exists s1, a. split; [reflexivity | exact E].
Qed.

Lemma keeps_progress_run {A} (m : Method A) s s' o :
  keeps_progress m -> m s = (s', o) -> same_progress s s'.
Proof. intros Hm E. specialize (Hm s). rewrite E in Hm. exact Hm. Qed.

(** The errors of [check_settings] leave [solve_init] at once, the state
    untouched. *)
Lemma solve_init_check_settings fuel (cfg : Settings F G M) s w :
  check_settings cfg = Throw w ->
  solve_init std_sort default_genes default_middle_costs fuel cfg s
  = (s, Throw w).
Proof.
  intro E. unfold solve_init. unfold ebind at 1. unfold lift at 1.
  rewrite E. reflexivity.
Qed.

(** A call of [solve_init] that returns has passed [check_settings], stands
    at step 0, and has pushed exactly the summary of generation 0. *)
Lemma solve_init_pushes_generation_0 fuel (cfg : Settings F G M) s s' :
  solve_init std_sort default_genes default_middle_costs fuel cfg s
  = (s', Ok tt) ->
  user_request_stop cfg = false ->
  check_settings cfg = Ok tt /\
  generation_step s' = 0 /\
  exists summary,
    generations_so_abs s' = generations_so_abs s ++ [summary].
Proof.
  intros E Hstop. unfold solve_init in E.
  apply ebind_Ok in E. destruct E as [s1 [[] [E1 E]]].
  unfold lift in E1. injection E1 as <- E1.
  split; [exact E1|].
  apply ebind_Ok in E. destruct E as [s2 [[] [E2 E]]].
  unfold update_state in E2. injection E2 as <-.
  apply ebind_Ok in E. destruct E as [s3 [g0 [E3 E]]].
  apply (keeps_progress_run _ _ _ _ (keeps_progress_init_population _ _ _))
    in E3.
  apply ebind_Ok in E. destruct E as [s4 [[] [E4 E]]].
  unfold update_state in E4. injection E4 as <-.
  apply ebind_Ok in E. destruct E as [s5 [g1 [E5 E]]].
  unfold lift in E5. injection E5 as <- _.
  apply ebind_Ok in E. destruct E as [s6 [[] [E6 E]]].
  assert (P6 : same_progress (set_generation_step s3 0) s6).
  { refine (keeps_progress_run _ _ _ _ _ E6).
    progress_steps. apply keeps_progress_calculate_N_robj. }
  apply ebind_Ok in E. destruct E as [s7 [g2 [E7 E]]].
  unfold lift in E7. injection E7 as <- _.
  apply ebind_Ok in E. destruct E as [s8 [g3 [E8 E]]].
  unfold lift in E8. injection E8 as <- _.
  apply ebind_Ok in E. destruct E as [s9 [[] [E9 E]]].
  assert (P9 : same_progress s6 s9).
  { refine (keeps_progress_run _ _ _ _ _ E9).
    progress_steps. apply keeps_progress_update_ideal_objectives. }
  apply ebind_Ok in E. destruct E as [s10 [[] [E10 E]]].
  unfold update_state in E. injection E as <-.
  rewrite Hstop in E10. cbn [negb] in E10.
  apply ebind_Ok in E10. destruct E10 as [s11 [[] [E11 E10]]].
  unfold update_state in E11. injection E11 as <-.
  apply (keeps_progress_run _ _ _ _ (keeps_progress_report_generation _ _))
    in E10.
  destruct E3 as [H3 _], P6 as [H6 S6], P9 as [H9 S9], E10 as [H10 S10].
  cbn in *. split; [congruence|].
  exists (best_total_cost g3, average_cost g3).
  rewrite H10, H9, H6, H3. reflexivity.
Qed.

(** A loop over [outcome] whose body returns or faults does one of the
    two. *)
Lemma for_loop_returns_or_faults {St} (body : Z -> St -> outcome St) :
  (forall i x, (exists a, body i x = Ok a) \/ body i x = Fault) ->
  forall n i x,
    (exists a, for_loop n i body x = Ok a) \/ for_loop n i body x = Fault.
Proof.
  intros Hbody n. induction n as [|n IH]; intros i x; cbn [for_loop].
  - left. exists x. reflexivity.
  - destruct (Hbody i x) as [[a E]|E]; rewrite E; cbn [bind].
    + apply IH.
    + right. reflexivity.
Qed.

Lemma vget_returns_or_faults {A} (v : list A) i :
  (exists a, vget v i = Ok a) \/ vget v i = Fault.
Proof.
  unfold vget. destruct (i <? 0); [right; reflexivity|].
  destruct (nth_error v (Z.to_nat i)) as [a|];
    [left; exists a|right]; reflexivity.
Qed.

(** [transfer] reads the state only; outside the interactive mode it
    returns, and in it a missing elite is an access out of range. *)
Lemma transfer_run (cfg : Settings F G M) g s :
  user_request_stop cfg = false ->
  exists o,
    transfer cfg g s = (s, o) /\
    ((exists g', o = Ok g') \/ (is_interactive cfg = true /\ o = Fault)).
Proof.
  intro Hstop. unfold transfer. rewrite Hstop.
  unfold ebind, get_state.
  destruct (is_interactive cfg) eqn:Ei; cbn [negb].
  - unfold lift. eexists. split; [reflexivity|].
    unfold for_range.
    match goal with
    | |- (exists g', for_loop ?n ?lo ?body ?g0 = Ok g') \/ _ =>
        assert (Hbody : forall i x,
                   (exists a, body i x = Ok a) \/ body i x = Fault);
        [| destruct (for_loop_returns_or_faults body Hbody n lo g0)
             as [[g' E]|E] ]
    end.
    + intros i x.
      destruct (vget_returns_or_faults (sorted_indices (last_generation s)) i)
        as [[e E]|E]; rewrite E; cbn [bind]; [|right; reflexivity].
      destruct (vget_returns_or_faults (chromosomes (last_generation s)) e)
        as [[c E']|E']; rewrite E'; cbn [bind]; [|right; reflexivity].
      left. eexists. reflexivity.
    + left. exists g'. exact E.
    + right. split; [reflexivity | exact E].
  - unfold ret. eexists. split; [reflexivity|]. left. eexists. reflexivity.
Qed.

(** With one of the three errors in the configuration, the call of
    [crossover_and_mutation] at a step beyond 0 raises it, the state
    untouched. *)
Lemma crossover_and_mutation_raises fuel (cfg : Settings F G M) g s w :
  user_request_stop cfg = false ->
  0 < generation_step s ->
  variation_error cfg = Some w ->
  crossover_and_mutation default_genes default_middle_costs fuel cfg g s
  = (s, Throw w).
Proof.
  intros Hstop Hstep Herr. unfold crossover_and_mutation. rewrite Hstop.
  unfold variation_error, crossover_fraction_out_of_range,
    mutation_rate_out_of_range, interactive_fractions_mismatch in Herr.
  destruct (d_leb (crossover_fraction cfg) (d_of_int 0)
            || d_gtb (crossover_fraction cfg) (d_of_int 1)).
  { injection Herr as <-. reflexivity. }
  destruct (d_ltb (mutation_rate cfg) (d_of_int 0)
            || d_gtb (mutation_rate cfg) (d_of_int 1)).
  { injection Herr as <-. reflexivity. }
  unfold ebind, get_state.
  destruct (generation_step s <=? 0) eqn:E0; [apply Z.leb_le in E0; lia|].
  match type of Herr with
  | (if ?b then _ else _) = _ => destruct b
  end; [|discriminate].
  injection Herr as <-. reflexivity.
Qed.


End Progress.



(* ================================================================= *)
(** * Further properties of Matrix.hpp *)

Lemma vget_repeat_Ok {A} (x : A) (n : nat) (i : Z) :
  0 <= i < Z.of_nat n -> vget (repeat x n) i = Ok x.
Proof.
  intros Hi.
  destruct (vget_Ok (repeat x n) i) as (y & E & _);
    [unfold vsize; rewrite repeat_length; lia|].
  rewrite E. f_equal. exact (vget_repeat _ _ _ _ E).
Qed.

Lemma vget_map_const {A B} (z : B) (v : list A) (i : Z) :
  0 <= i < vsize v -> vget (map (fun _ => z) v) i = Ok z.
Proof.
  intros Hi.
  destruct (vget_Ok (map (fun _ => z) v) i) as (y & E & E');
    [unfold vsize in *; rewrite length_map; lia|].
  rewrite E. f_equal. apply nth_error_In, in_map_iff in E'.
  destruct E' as (_ & <- & _). reflexivity.
Qed.

(** X1.  The sized constructor, [zeros(rows, cols)] and [zeros()] leave a
    matrix that satisfies the class invariant and reads [T{}] in every
    cell: the first two with the dimensions asked for (as long as
    [rows * cols] fits [unsigned int]) and [empty()] exactly when it has no
    cell, the third with the dimensions it had. *)
Theorem matrix_zero_filled {T} (z : T) (rows cols : Z) (m : Matrix.t T) :
  0 <= rows -> 0 <= cols -> rows * cols < 2 ^ 32 -> matrix_fits m ->
  Matrix.sized z rows cols = Matrix.zeros_sized z rows cols /\
  matrix_fits (Matrix.zeros_sized z rows cols) /\
  Matrix.get_n_rows (Matrix.zeros_sized z rows cols) = rows /\
  Matrix.get_n_cols (Matrix.zeros_sized z rows cols) = cols /\
  Matrix.empty (Matrix.zeros_sized z rows cols) = (rows * cols =? 0) /\
  (forall i j, 0 <= i < rows -> 0 <= j < cols ->
     Matrix.at_ (Matrix.zeros_sized z rows cols) i j = Ok z) /\
  matrix_fits (Matrix.zeros z m) /\
  Matrix.get_n_rows (Matrix.zeros z m) = Matrix.get_n_rows m /\
  Matrix.get_n_cols (Matrix.zeros z m) = Matrix.get_n_cols m /\
  (forall i j, 0 <= i < Matrix.n_rows m -> 0 <= j < Matrix.n_cols m ->
     Matrix.at_ (Matrix.zeros z m) i j = Ok z).
Proof.
  intros Hr Hc Hsmall Hfits.
  assert (Eu : u32 (rows * cols) = rows * cols)
    by (unfold u32; apply Z.mod_small; nia).
  assert (Hfz : matrix_fits (Matrix.zeros_sized z rows cols)).
  { split; [|exact Hsmall]. unfold Matrix.well_formed, Matrix.zeros_sized, vsize.
    cbn [Matrix.n_rows Matrix.n_cols Matrix.data].
    rewrite repeat_length, Eu. repeat split; nia. }
  assert (Hfm : matrix_fits (Matrix.zeros z m)).
  { destruct Hfits as [(Hmr & Hmc & Hlen) Hms]. split; [|exact Hms].
    unfold Matrix.well_formed, Matrix.zeros, vsize in *.
    cbn [Matrix.n_rows Matrix.n_cols Matrix.data]. rewrite length_map.
    repeat split; assumption. }
  split; [reflexivity|]. split; [exact Hfz|].
  split; [reflexivity|]. split; [reflexivity|]. split.
  { unfold Matrix.empty, Matrix.zeros_sized. cbn [Matrix.data]. rewrite Eu.
    destruct (Z.eqb_spec (rows * cols) 0) as [E|E].
    - rewrite E. reflexivity.
    - destruct (Z.to_nat (rows * cols)) eqn:En; [nia|reflexivity]. }
  split.
  { intros i j Hi Hj.
    destruct (matrix_index_exact (Matrix.zeros_sized z rows cols) i j Hfz Hi Hj)
      as [Eidx Hin].
    unfold Matrix.at_. rewrite Eidx. cbn [Matrix.zeros_sized Matrix.data Matrix.n_cols].
    apply vget_repeat_Ok. rewrite Eu.
    cbn [Matrix.zeros_sized Matrix.data Matrix.n_cols] in Hin.
    unfold vsize in Hin. rewrite repeat_length, Eu in Hin. lia. }
  split; [exact Hfm|]. split; [reflexivity|]. split; [reflexivity|].
  intros i j Hi Hj.
  destruct (matrix_index_exact m i j Hfits Hi Hj) as [Eidx Hin].
  unfold Matrix.at_, Matrix.index. cbn [Matrix.zeros Matrix.data Matrix.n_cols].
  fold (Matrix.index m i j). rewrite Eidx. apply vget_map_const. exact Hin.
Qed.

Lemma matrix_zero_filled_witness :
  Matrix.sized 0 5 6 = Matrix.zeros_sized 0 5 6 /\
  matrix_fits (Matrix.zeros_sized 0 5 6) /\
  Matrix.get_n_rows (Matrix.zeros_sized 0 5 6) = 5 /\
  Matrix.get_n_cols (Matrix.zeros_sized 0 5 6) = 6 /\
  Matrix.empty (Matrix.zeros_sized 0 5 6) = (5 * 6 =? 0) /\
  (forall i j, 0 <= i < 5 -> 0 <= j < 6 ->
     Matrix.at_ (Matrix.zeros_sized 0 5 6) i j = Ok 0) /\
  matrix_fits (Matrix.zeros 0 (Matrix.mk 2 2 [1; 2; 3; 4])) /\
  Matrix.get_n_rows (Matrix.zeros 0 (Matrix.mk 2 2 [1; 2; 3; 4])) = 2 /\
  Matrix.get_n_cols (Matrix.zeros 0 (Matrix.mk 2 2 [1; 2; 3; 4])) = 2 /\
  (forall i j, 0 <= i < 2 -> 0 <= j < 2 ->
     Matrix.at_ (Matrix.zeros 0 (Matrix.mk 2 2 [1; 2; 3; 4])) i j = Ok 0).
Proof.
  apply (matrix_zero_filled 0 5 6 (Matrix.mk 2 2 [1; 2; 3; 4]));
    [lia | lia | lia |].
  unfold matrix_fits, Matrix.well_formed, vsize. simpl. lia.
Defined.

(** X2.  [m(i, j) = x] on a cell inside the matrix stores [x] there and
    nowhere else: the cell then reads [x], every other cell reads what it
    read before, the dimensions and the class invariant are kept, and a
    second write to the same cell replaces the first. *)
Theorem matrix_write_then_read {T} (m : Matrix.t T) (i j : Z) (x y : T) :
  matrix_fits m ->
  0 <= i < Matrix.n_rows m -> 0 <= j < Matrix.n_cols m ->
  exists m',
    Matrix.set_at m i j x = Ok m' /\
    matrix_fits m' /\
    Matrix.get_n_rows m' = Matrix.get_n_rows m /\
    Matrix.get_n_cols m' = Matrix.get_n_cols m /\
    Matrix.at_ m' i j = Ok x /\
    (forall i' j',
       0 <= i' < Matrix.n_rows m -> 0 <= j' < Matrix.n_cols m ->
       (i', j') <> (i, j) -> Matrix.at_ m' i' j' = Matrix.at_ m i' j') /\
    Matrix.set_at m' i j y = Matrix.set_at m i j y.
Proof.
  intros Hfits Hi Hj.
  destruct (matrix_set_at_Ok m i j x Hfits Hi Hj)
    as (m' & E & HR & HC & Hf & Hat & Hother).
  exists m'. split; [exact E|]. split; [exact Hf|].
  split; [exact HR|]. split; [exact HC|]. split; [exact Hat|].
  split; [exact Hother|].
  unfold Matrix.set_at in *.
  destruct (vset (Matrix.data m) (Matrix.index m i j) x) as [d| | |] eqn:Ed;
    try discriminate.
  cbn [bind] in E. injection E as <-.
  unfold Matrix.index. cbn [Matrix.n_cols Matrix.n_rows Matrix.data].
  fold (Matrix.index m i j).
  apply vset_inv in Ed as [Hin ->].
  rewrite (vset_Ok (Matrix.data m) _ y Hin).
  rewrite vset_Ok by (unfold vsize in *; now rewrite length_replace_nth).
  cbn [bind]. do 2 f_equal.
  apply nth_error_ext. intros n.
  destruct (Nat.eq_dec n (Z.to_nat (Matrix.index m i j))) as [->|Hne].
  - rewrite !nth_error_replace_nth_eq;
      [reflexivity | |rewrite length_replace_nth]; unfold vsize in Hin; lia.
  - rewrite !nth_error_replace_nth_ne by congruence. reflexivity.
Qed.

Lemma matrix_write_then_read_witness :
  exists m',
    Matrix.set_at (Matrix.mk 2 3 [0; 0; 0; 0; 0; 0]) 1 2 5 = Ok m' /\
    matrix_fits m' /\
    Matrix.get_n_rows m' = 2 /\
    Matrix.get_n_cols m' = 3 /\
    Matrix.at_ m' 1 2 = Ok 5 /\
    (forall i' j',
       0 <= i' < 2 -> 0 <= j' < 3 ->
       (i', j') <> (1, 2) ->
       Matrix.at_ m' i' j' = Matrix.at_ (Matrix.mk 2 3 [0; 0; 0; 0; 0; 0]) i' j') /\
    Matrix.set_at m' 1 2 7 = Matrix.set_at (Matrix.mk 2 3 [0; 0; 0; 0; 0; 0]) 1 2 7.
Proof.
  apply (matrix_write_then_read (Matrix.mk 2 3 [0; 0; 0; 0; 0; 0]) 1 2 5 7).
  - unfold matrix_fits, Matrix.well_formed, vsize. simpl. lia.
  - simpl. lia.
  - simpl. lia.
Defined.

(** X3.  [operator()] checks neither coordinate: it never throws, a column
    index [n_cols] or more beyond a row reads the cell of a later row, and
    on a matrix that satisfies the class invariant the first row past the
    end is an access outside the element storage. *)
Theorem matrix_at_unchecked {T} (m : Matrix.t T) (row col : Z) :
  Matrix.at_ m row (col + Matrix.n_cols m) = Matrix.at_ m (row + 1) col /\
  (forall w, Matrix.at_ m row col <> Throw w) /\
  (matrix_fits m -> 0 <= col ->
   Matrix.n_rows m * Matrix.n_cols m + col < 2 ^ 32 ->
   Matrix.at_ m (Matrix.n_rows m) col = Fault).
Proof.
  split; [|split].
  - unfold Matrix.at_, Matrix.index. do 2 f_equal. ring.
  - intros w. unfold Matrix.at_, vget.
    destruct (_ <? 0); [discriminate|].
    destruct (nth_error _ _); discriminate.
  - intros [(Hr & Hc & Hlen) _] Hcol Hsmall.
    unfold Matrix.at_, Matrix.index, vget.
    assert (Eu : u32 (Matrix.n_rows m * Matrix.n_cols m + col)
                 = Matrix.n_rows m * Matrix.n_cols m + col)
      by (unfold u32; apply Z.mod_small; nia).
    rewrite Eu. destruct (Z.ltb_spec (Matrix.n_rows m * Matrix.n_cols m + col) 0);
      [reflexivity|].
    assert (E : nth_error (Matrix.data m)
                  (Z.to_nat (Matrix.n_rows m * Matrix.n_cols m + col)) = None)
      by (apply nth_error_None; unfold vsize in Hlen; lia).
    rewrite E. reflexivity.
Qed.

Lemma matrix_at_unchecked_witness :
  Matrix.at_ (Matrix.mk 2 3 [1; 2; 3; 4; 5; 6]) 0 (0 + 3)
  = Matrix.at_ (Matrix.mk 2 3 [1; 2; 3; 4; 5; 6]) (0 + 1) 0 /\
  (forall w, Matrix.at_ (Matrix.mk 2 3 [1; 2; 3; 4; 5; 6]) 0 0 <> Throw w) /\
  Matrix.at_ (Matrix.mk 2 3 [1; 2; 3; 4; 5; 6]) 2 0 = Fault.
Proof.
  destruct (matrix_at_unchecked (Matrix.mk 2 3 [1; 2; 3; 4; 5; 6]) 0 0)
    as (Halias & Hthrow & Hpast).
  split; [exact Halias|]. split; [exact Hthrow|].
  apply Hpast.
  - unfold matrix_fits, Matrix.well_formed, vsize. simpl. lia.
  - lia.
  - simpl. lia.
Defined.

Lemma map_vget_iota {A} (f : Z -> A) (v : list A) :
  (forall j, 0 <= j < vsize v -> vget v j = Ok (f j)) ->
  map f (iota (length v)) = v.
Proof.
  intros Hf. apply nth_error_ext. intros n. unfold iota.
  rewrite map_map, nth_error_map, nth_error_seq.
  destruct (Nat.ltb_spec n (length v)) as [Hn|Hn]; cbn [option_map].
  - specialize (Hf (Z.of_nat n)). apply vget_inv in Hf as [_ Hf].
    + rewrite Nat2Z.id in Hf. now rewrite Hf.
    + unfold vsize. lia.
  - symmetry. now apply nth_error_None.
Qed.

(** A loop that writes the cells [(pos k)] for [k < n] of one line of a
    matrix, one after the other, from a vector. *)
Lemma matrix_line_loop {T} (m : Matrix.t T) (v : list T) (n : Z)
  (cell : Z -> Z * Z) :
  matrix_fits m -> 0 <= n -> vsize v = n ->
  (forall k, 0 <= k < n ->
     0 <= fst (cell k) < Matrix.n_rows m /\ 0 <= snd (cell k) < Matrix.n_cols m) ->
  (forall k k', 0 <= k < n -> 0 <= k' < n -> cell k = cell k' -> k = k') ->
  exists m',
    for_range 0 n
      (fun k m' => x <- vget v k ;;
                   Matrix.set_at m' (fst (cell k)) (snd (cell k)) x) m
    = Ok m' /\
    matrix_fits m' /\
    Matrix.n_rows m' = Matrix.n_rows m /\
    Matrix.n_cols m' = Matrix.n_cols m /\
    (forall k, 0 <= k < n ->
       Matrix.at_ m' (fst (cell k)) (snd (cell k)) = vget v k) /\
    (forall i j, 0 <= i < Matrix.n_rows m -> 0 <= j < Matrix.n_cols m ->
       (forall k, 0 <= k < n -> cell k <> (i, j)) ->
       Matrix.at_ m' i j = Matrix.at_ m i j).
Proof.
  intros Hfits Hn Hv Hcell Hinj.
  destruct (for_range_invariant
              (fun k m' =>
                 matrix_fits m' /\
                 Matrix.n_rows m' = Matrix.n_rows m /\
                 Matrix.n_cols m' = Matrix.n_cols m /\
                 (forall k', 0 <= k' < k ->
                    Matrix.at_ m' (fst (cell k')) (snd (cell k')) = vget v k') /\
                 (forall i j, 0 <= i < Matrix.n_rows m ->
                    0 <= j < Matrix.n_cols m ->
                    (forall k', 0 <= k' < k -> cell k' <> (i, j)) ->
                    Matrix.at_ m' i j = Matrix.at_ m i j))
              (fun k m' => x <- vget v k ;;
                           Matrix.set_at m' (fst (cell k)) (snd (cell k)) x)
              0 n m) as (m' & E & Hf & HR & HC & Hdone & Hrest).
  - exact Hn.
  - split; [exact Hfits|]. split; [reflexivity|]. split; [reflexivity|].
    split; [intros; lia|reflexivity].
  - intros k m1 Hk (Hf1 & HR1 & HC1 & Hdone1 & Hrest1).
    destruct (vget_Ok v k) as (x & Ex & _); [lia|]. rewrite Ex. cbn [bind].
    destruct (Hcell k Hk) as [Hi Hj].
    destruct (matrix_set_at_Ok m1 (fst (cell k)) (snd (cell k)) x Hf1)
      as (m2 & E2 & HR2 & HC2 & Hf2 & Hat & Hother); [lia|lia|].
    exists m2. split; [exact E2|]. split; [exact Hf2|].
    split; [congruence|]. split; [congruence|]. split.
    + intros k' Hk'. destruct (Z.eq_dec k' k) as [->|Hne].
      * rewrite Hat. now symmetry.
      * destruct (Hcell k') as [Hi' Hj']; [lia|].
        rewrite Hother; [apply Hdone1; lia|lia|lia|].
        intros Ec. apply Hne. apply Hinj; [lia|lia|].
        injection Ec as E1 E3. apply injective_projections; assumption.
    + intros i j Hi' Hj' Hfree.
      rewrite Hother; [apply Hrest1; try assumption; intros; apply Hfree; lia
                      |lia|lia|].
      intros Ec. apply (Hfree k); [lia|].
      injection Ec as E1 E3.
      apply injective_projections; cbn [fst snd]; congruence.
  - exists m'. split; [exact E|]. split; [exact Hf|]. split; [exact HR|].
    split; [exact HC|]. split; [exact Hdone|exact Hrest].
Qed.

Lemma matrix_get_col {T} (m : Matrix.t T) (j : Z) (f : Z -> T) :
  0 <= Matrix.n_rows m ->
  (forall i, 0 <= i < Matrix.n_rows m -> Matrix.at_ m i j = Ok (f i)) ->
  Matrix.get_col m j = Ok (map f (iota (Z.to_nat (Matrix.n_rows m)))).
Proof.
  intros HR Hat. unfold Matrix.get_col.
  destruct (for_range_invariant
              (fun i col => col = map f (iota (Z.to_nat i)))
              (fun i col_vector => x <- Matrix.at_ m i j ;; Ok (col_vector ++ [x]))
              0 (Matrix.n_rows m) []) as (col & E & ->); try assumption.
  - reflexivity.
  - intros i col Hi ->. rewrite Hat by assumption. cbn [bind].
    eexists. split; [reflexivity|].
    replace (Z.to_nat (i + 1)) with (S (Z.to_nat i)) by lia.
    rewrite iota_succ, map_app. cbn [map]. now rewrite Z2Nat.id by lia.
Qed.

(** X4.  [set_row] followed by [get_row] gives the vector back: on a matrix
    that satisfies the class invariant, for a row inside it and a vector of
    [n_cols] elements, [set_row] returns, keeps the dimensions, makes
    [get_row] of that row return the vector, and leaves what [get_row]
    returns for every other row unchanged. *)
Theorem matrix_set_row_get_row {T} (m : Matrix.t T) (row_idx : Z)
  (row_vector : list T) :
  matrix_fits m ->
  0 <= row_idx < Matrix.n_rows m ->
  vsize row_vector = Matrix.n_cols m ->
  exists m',
    Matrix.set_row m row_idx row_vector = Ok m' /\
    matrix_fits m' /\
    Matrix.get_n_rows m' = Matrix.get_n_rows m /\
    Matrix.get_n_cols m' = Matrix.get_n_cols m /\
    Matrix.get_row m' row_idx = Ok row_vector /\
    forall other, 0 <= other < Matrix.n_rows m -> other <> row_idx ->
                  Matrix.get_row m' other = Matrix.get_row m other.
Proof.
  intros Hfits Hrow Hlen.
  assert (HC : 0 <= Matrix.n_cols m) by apply Hfits.
  destruct (matrix_line_loop m row_vector (Matrix.n_cols m)
              (fun k => (row_idx, k)) Hfits HC Hlen)
    as (m' & E & Hf & HR' & HC' & Hdone & Hrest).
  - intros k Hk. cbn [fst snd]. lia.
  - intros k k' _ _ Ek. congruence.
  - exists m'. cbn [fst snd] in *. split; [exact E|]. split; [exact Hf|].
    split; [exact HR'|]. split; [exact HC'|]. split.
    + destruct row_vector as [|x0 rest] eqn:Ev.
      * unfold Matrix.get_row. unfold Matrix.get_n_cols in *.
        rewrite HC', <- Hlen. reflexivity.
      * rewrite <- Ev in *.
        rewrite (matrix_get_row m' row_idx
                   (fun j => match vget row_vector j with
                             | Ok x => x
                             | _ => x0
                             end)).
        -- f_equal. rewrite HC', <- Hlen. unfold vsize. rewrite Nat2Z.id.
           apply map_vget_iota. intros j Hj.
           destruct (vget_Ok row_vector j Hj) as (x & Ex & _). now rewrite Ex.
        -- rewrite HC'. exact HC.
        -- intros j Hj. rewrite HC' in Hj. rewrite Hdone by assumption.
           destruct (vget_Ok row_vector j) as (x & Ex & _); [lia|].
           now rewrite Ex.
    + intros other Hother Hne. unfold Matrix.get_row. rewrite HC'.
      apply for_range_ext. intros j v Hj.
      rewrite Hrest; [reflexivity|lia|lia|]. intros k _ [= Ek _]. congruence.
Qed.

Lemma matrix_set_row_get_row_witness :
  exists m',
    Matrix.set_row (Matrix.mk 2 3 [0; 0; 0; 0; 0; 0]) 1 [1; 2; 3] = Ok m' /\
    matrix_fits m' /\
    Matrix.get_n_rows m' = 2 /\
    Matrix.get_n_cols m' = 3 /\
    Matrix.get_row m' 1 = Ok [1; 2; 3] /\
    forall other, 0 <= other < 2 -> other <> 1 ->
      Matrix.get_row m' other
      = Matrix.get_row (Matrix.mk 2 3 [0; 0; 0; 0; 0; 0]) other.
Proof.
  apply (matrix_set_row_get_row (Matrix.mk 2 3 [0; 0; 0; 0; 0; 0]) 1 [1; 2; 3]).
  - unfold matrix_fits, Matrix.well_formed, vsize. simpl. lia.
  - simpl. lia.
  - reflexivity.
Defined.

(** X5.  [set_col] followed by [get_col] gives the vector back, under the
    same conditions, for a column inside the matrix and a vector of
    [n_rows] elements; the other columns are unchanged. *)
Theorem matrix_set_col_get_col {T} (m : Matrix.t T) (col_idx : Z)
  (col_vector : list T) :
  matrix_fits m ->
  0 <= col_idx < Matrix.n_cols m ->
  vsize col_vector = Matrix.n_rows m ->
  exists m',
    Matrix.set_col m col_idx col_vector = Ok m' /\
    matrix_fits m' /\
    Matrix.get_n_rows m' = Matrix.get_n_rows m /\
    Matrix.get_n_cols m' = Matrix.get_n_cols m /\
    Matrix.get_col m' col_idx = Ok col_vector /\
    forall other, 0 <= other < Matrix.n_cols m -> other <> col_idx ->
                  Matrix.get_col m' other = Matrix.get_col m other.
Proof.
  intros Hfits Hcol Hlen.
  assert (HR : 0 <= Matrix.n_rows m) by apply Hfits.
  destruct (matrix_line_loop m col_vector (Matrix.n_rows m)
              (fun k => (k, col_idx)) Hfits HR Hlen)
    as (m' & E & Hf & HR' & HC' & Hdone & Hrest).
  - intros k Hk. cbn [fst snd]. lia.
  - intros k k' _ _ Ek. congruence.
  - exists m'. cbn [fst snd] in *. split; [exact E|]. split; [exact Hf|].
    split; [exact HR'|]. split; [exact HC'|]. split.
    + destruct col_vector as [|x0 rest] eqn:Ev.
      * unfold Matrix.get_col. unfold Matrix.get_n_rows in *.
        rewrite HR', <- Hlen. reflexivity.
      * rewrite <- Ev in *.
        rewrite (matrix_get_col m' col_idx
                   (fun i => match vget col_vector i with
                             | Ok x => x
                             | _ => x0
                             end)).
        -- f_equal. rewrite HR', <- Hlen. unfold vsize. rewrite Nat2Z.id.
           apply map_vget_iota. intros i Hi.
           destruct (vget_Ok col_vector i Hi) as (x & Ex & _). now rewrite Ex.
        -- rewrite HR'. exact HR.
        -- intros i Hi. rewrite HR' in Hi. rewrite Hdone by assumption.
           destruct (vget_Ok col_vector i) as (x & Ex & _); [lia|].
           now rewrite Ex.
    + intros other Hother Hne. unfold Matrix.get_col. rewrite HR'.
      apply for_range_ext. intros i v Hi.
      rewrite Hrest; [reflexivity|lia|lia|]. intros k _ [= _ Ek]. congruence.
Qed.

Lemma matrix_set_col_get_col_witness :
  exists m',
    Matrix.set_col (Matrix.mk 2 3 [0; 0; 0; 0; 0; 0]) 2 [1; 2] = Ok m' /\
    matrix_fits m' /\
    Matrix.get_n_rows m' = 2 /\
    Matrix.get_n_cols m' = 3 /\
    Matrix.get_col m' 2 = Ok [1; 2] /\
    forall other, 0 <= other < 3 -> other <> 2 ->
      Matrix.get_col m' other
      = Matrix.get_col (Matrix.mk 2 3 [0; 0; 0; 0; 0; 0]) other.
Proof.
  apply (matrix_set_col_get_col (Matrix.mk 2 3 [0; 0; 0; 0; 0; 0]) 2 [1; 2]).
  - unfold matrix_fits, Matrix.well_formed, vsize. simpl. lia.
  - simpl. lia.
  - reflexivity.
Defined.

Lemma length_resize {T} (z : T) (n : nat) (d : list T) :
  length (Matrix.resize z n d) = n.
Proof.
  unfold Matrix.resize. rewrite length_app, length_firstn, repeat_length. lia.
Qed.

(** X6.  Assigning a rectangular vector of vectors ([operator=]) replaces
    whatever the matrix held: for at least one row, at least one column,
    rows of one length and an element count that fits [unsigned int], the
    matrix gets the dimensions of the argument, cell [(i, j)] reads
    [A[i][j]] and [get_row(i)] returns [A[i]]. *)
Theorem matrix_assign_then_read {T} (z : T) (m : Matrix.t T)
  (A : list (list T)) (C : Z) :
  1 <= vsize A -> 1 <= C ->
  Forall (fun row => vsize row = C) A ->
  vsize A * C < 2 ^ 32 ->
  exists m',
    Matrix.assign z m A = Ok m' /\
    matrix_fits m' /\
    Matrix.get_n_rows m' = vsize A /\ Matrix.get_n_cols m' = C /\
    (forall i j, 0 <= i < vsize A -> 0 <= j < C ->
                 Matrix.at_ m' i j = Ok (entry z A i j)) /\
    (forall i, 0 <= i < vsize A -> Matrix.get_row m' i = vget A i).
Proof.
  intros HR HC Hrect Hsmall. unfold Matrix.assign.
  assert (ER : u32 (vsize A) = vsize A) by (unfold u32; apply Z.mod_small; nia).
  rewrite ER.
  assert (EC : match A with
               | [] => 0
               | A0 :: _ => if 0 <? vsize A then u32 (vsize A0) else 0
               end = C).
  { destruct A as [|A0 A']; [unfold vsize in HR; cbn in HR; lia|].
    destruct (Z.ltb_spec 0 (vsize (A0 :: A'))); [|lia].
    inversion Hrect as [|? ? H0 _]; subst.
    unfold u32. apply Z.mod_small. nia. }
  rewrite EC.
  destruct (Z.ltb_spec 0 (vsize A)); [|lia].
  destruct (Z.ltb_spec 0 C); [|lia]. cbn [andb].
  assert (ERC : u32 (vsize A * C) = vsize A * C)
    by (unfold u32; apply Z.mod_small; nia).
  rewrite ERC.
  set (m0 := Matrix.mk (vsize A) C
               (Matrix.resize z (Z.to_nat (vsize A * C)) (Matrix.data m))).
  assert (Hfits : matrix_fits m0).
  { split; [|assumption]. repeat split; cbn [m0 Matrix.n_rows Matrix.n_cols];
      try lia.
    cbn [Matrix.data m0]. unfold vsize. rewrite length_resize. nia. }
  destruct (matrix_cell_loops m0 (entry z A)
              (fun i m1 =>
                 Ai <- vget A i ;;
                 for_range 0 C
                   (fun j m2 => Aij <- vget Ai j ;; Matrix.set_at m2 i j Aij) m1)
              (fun i j m =>
                 Ai <- vget A i ;;
                 Aij <- vget Ai j ;;
                 Matrix.set_at m i j Aij))
    as (m' & E & HRm & HCm & Hfm & Hat); try assumption.
  - intros i m1 Hi _. cbn [m0 Matrix.n_rows Matrix.n_cols] in *.
    destruct (vget_Ok A i Hi) as (Ai & EAi & _). rewrite EAi. cbn [bind].
    reflexivity.
  - intros i j m1 Hi Hj _ _ _ _. cbn [m0 Matrix.n_rows Matrix.n_cols] in *.
    destruct (vget_Ok A i Hi) as (Ai & EAi & EAi').
    assert (HAi : vsize Ai = C).
    { rewrite Forall_forall in Hrect. apply Hrect.
      eapply nth_error_In; eassumption. }
    destruct (vget_Ok Ai j) as (x & Ex & _); [lia|].
    unfold entry. rewrite EAi. cbn [bind]. rewrite Ex. reflexivity.
  - cbn [m0 Matrix.n_rows Matrix.n_cols] in *.
    exists m'. split; [exact E|]. split; [exact Hfm|].
    split; [exact HRm|]. split; [exact HCm|]. split; [exact Hat|].
    intros i Hi.
    destruct (vget_Ok A i Hi) as (Ai & EAi & EAi').
    assert (HAi : vsize Ai = C).
    { rewrite Forall_forall in Hrect. apply Hrect.
      eapply nth_error_In; eassumption. }
    rewrite (matrix_get_row m' i (entry z A i)).
    + rewrite EAi. f_equal. rewrite HCm, <- HAi. unfold vsize.
      rewrite Nat2Z.id. now apply map_entry_iota.
    + lia.
    + intros j Hj. apply Hat; [assumption|lia].
Qed.

Lemma matrix_assign_then_read_witness :
  exists m',
    Matrix.assign 0 (Matrix.mk 1 1 [9]) [[1; 2; 3; 4]; [1; 2; 3; 4]; [1; 2; 3; 4]]
    = Ok m' /\
    matrix_fits m' /\
    Matrix.get_n_rows m' = vsize [[1; 2; 3; 4]; [1; 2; 3; 4]; [1; 2; 3; 4]] /\
    Matrix.get_n_cols m' = 4 /\
    (forall i j,
       0 <= i < vsize [[1; 2; 3; 4]; [1; 2; 3; 4]; [1; 2; 3; 4]] -> 0 <= j < 4 ->
       Matrix.at_ m' i j
       = Ok (entry 0 [[1; 2; 3; 4]; [1; 2; 3; 4]; [1; 2; 3; 4]] i j)) /\
    (forall i, 0 <= i < vsize [[1; 2; 3; 4]; [1; 2; 3; 4]; [1; 2; 3; 4]] ->
       Matrix.get_row m' i
       = vget [[1; 2; 3; 4]; [1; 2; 3; 4]; [1; 2; 3; 4]] i).
Proof.
  apply (matrix_assign_then_read 0 (Matrix.mk 1 1 [9])
           [[1; 2; 3; 4]; [1; 2; 3; 4]; [1; 2; 3; 4]] 4).
  - unfold vsize. simpl. lia.
  - lia.
  - repeat constructor.
  - unfold vsize. simpl. lia.
Defined.

(** X8.  [print] writes the rows in order, each element after a tab and an
    end of line after each row; as it leaves the dimensions and clears the
    elements, printing a matrix that has cells a second time reads outside
    the element storage. *)
Theorem matrix_print_output {T} (z : T) (m : Matrix.t T) :
  Matrix.well_formed m ->
  exists m',
    Matrix.print m = Ok (printed z m, m') /\
    (0 < Matrix.n_rows m -> 0 < Matrix.n_cols m -> Matrix.print m' = Fault).
Proof.
  intros Hwf. unfold Matrix.print.
  destruct (for_range_invariant
              (fun i out => out = flat_map (row_tokens z m) (iota (Z.to_nat i)))
              (fun i out =>
                 out' <- for_range 0 (Matrix.n_cols m)
                           (fun j out => x <- Matrix.at_ m i j ;;
                                         Ok (out ++ [Matrix.Tab; Matrix.Val x]))
                           out ;;
                 Ok (out' ++ [Matrix.Endl]))
              0 (Matrix.n_rows m) []) as (out & E & ->).
  - apply Hwf.
  - reflexivity.
  - intros i out0 Hi ->.
    destruct (for_range_invariant
                (fun j out =>
                   out = flat_map (row_tokens z m) (iota (Z.to_nat i))
                         ++ flat_map
                              (fun j => [Matrix.Tab; Matrix.Val (element z m i j)])
                              (iota (Z.to_nat j)))
                (fun j out => x <- Matrix.at_ m i j ;;
                              Ok (out ++ [Matrix.Tab; Matrix.Val x]))
                0 (Matrix.n_cols m)
                (flat_map (row_tokens z m) (iota (Z.to_nat i))))
      as (out1 & E1 & ->).
    + apply Hwf.
    + cbn. now rewrite app_nil_r.
    + intros j out2 Hj ->.
      destruct (matrix_at_Ok m i j Hwf Hi Hj) as (x & Ex).
      rewrite Ex. cbn [bind]. eexists. split; [reflexivity|].
      replace (Z.to_nat (j + 1)) with (S (Z.to_nat j)) by lia.
      rewrite iota_succ, flat_map_app, app_assoc. cbn [flat_map].
      rewrite app_nil_r, Z2Nat.id by lia.
      unfold element. rewrite Ex. reflexivity.
    + rewrite E1. cbn [bind]. eexists. split; [reflexivity|].
      replace (Z.to_nat (i + 1)) with (S (Z.to_nat i)) by lia.
      rewrite iota_succ, flat_map_app. cbn [flat_map].
      rewrite app_nil_r, Z2Nat.id by lia.
      unfold row_tokens at 3. now rewrite app_assoc.
  - rewrite E. cbn [bind]. eexists. split; [reflexivity|].
    intros HR HC. cbn [Matrix.n_rows Matrix.n_cols].
    unfold for_range.
    replace (Z.to_nat (Matrix.n_rows m - 0))
      with (S (Z.to_nat (Matrix.n_rows m - 1))) by lia.
    cbn [for_loop].
    replace (Z.to_nat (Matrix.n_cols m - 0))
      with (S (Z.to_nat (Matrix.n_cols m - 1))) by lia.
    cbn [for_loop]. reflexivity.
Qed.

Lemma matrix_print_output_witness :
  exists m',
    Matrix.print (Matrix.mk 2 2 [1; 2; 3; 4])
    = Ok (printed 0 (Matrix.mk 2 2 [1; 2; 3; 4]), m') /\
    (0 < 2 -> 0 < 2 -> Matrix.print m' = Fault).
Proof.
  apply (matrix_print_output 0 (Matrix.mk 2 2 [1; 2; 3; 4])).
  unfold Matrix.well_formed, vsize. simpl. lia.
Defined.

(* ================================================================= *)
(** * Further properties of the engine *)

(* ----------------------------------------------------------------- *)
(** ** fast_combination_count *)

(** [(k + 1) C(n, k + 1) = (n - k) C(n, k)]. *)
Lemma binomial_step (n k : nat) :
  (Z.of_nat k + 1) * Z.of_nat (binomial n (S k))
  = (Z.of_nat n - Z.of_nat k) * Z.of_nat (binomial n k).
Proof.
  revert k. induction n as [|m IH]; intros k.
  - destruct k; cbn; lia.
  - cbn [binomial]. rewrite Nat2Z.inj_add.
    destruct k as [|k'].
    + specialize (IH O). cbn [binomial] in *.
      destruct m; cbn [binomial] in *; lia.
    + pose proof (IH (S k')) as IH1. pose proof (IH k') as IH2.
      cbn [binomial]. rewrite Nat2Z.inj_add. nia.
Qed.

Lemma binomial_symmetric (n k : nat) :
  (k <= n)%nat -> binomial n k = binomial n (n - k).
Proof.
  revert k. induction n as [|m IH]; intros k Hk.
  - replace k with O by lia. reflexivity.
  - destruct k as [|k'].
    + rewrite Nat.sub_0_r, binomial_diag. reflexivity.
    + destruct (Nat.eq_dec k' m) as [->|Hne].
      * rewrite Nat.sub_diag, binomial_diag. reflexivity.
      * replace (S m - S k')%nat with (S (m - S k')) by lia.
        cbn [binomial]. rewrite (IH k') by lia. rewrite (IH (S k')) by lia.
        replace (m - k')%nat with (S (m - S k')) by lia. lia.
Qed.

(** The loop of [fast_combination_count]: after the step for [i] the
    accumulator is [C(N, i)], and the product formed on the way is
    [i * C(N, i)]. *)
Lemma fast_combination_count_product (N : nat) (i : Z) :
  2 <= i ->
  Z.of_nat (binomial N (Z.to_nat (i - 1))) * (Z.of_nat N - i + 1)
  = Z.of_nat (binomial N (Z.to_nat i)) * i.
Proof.
  intros Hi. pose proof (binomial_step N (Z.to_nat (i - 1))) as E.
  replace (S (Z.to_nat (i - 1))) with (Z.to_nat i) in E by lia.
  rewrite Z2Nat.id in E by lia. lia.
Qed.

Lemma binomial_one (N : nat) : binomial N 1 = N.
Proof.
  induction N as [|m IH]; [reflexivity|]. cbn [binomial].
  rewrite IH. destruct m; reflexivity.
Qed.

Lemma fast_combination_count_step (N : nat) (i : Z) :
  2 <= i <= Z.of_nat N -> Z.of_nat N < 2 ^ 31 ->
  (d <- int_checked (Z.of_nat N - i + 1) ;;
   p <- int_checked (Z.of_nat (binomial N (Z.to_nat (i - 1))) * d) ;;
   Ok (Z.quot p i))
  = if Z.of_nat (binomial N (Z.to_nat i)) * i <? 2 ^ 31
    then Ok (Z.of_nat (binomial N (Z.to_nat i)))
    else Fault.
Proof.
  intros Hi HN. unfold int_checked at 1.
  destruct (Z.leb_spec (- 2 ^ 31) (Z.of_nat N - i + 1)); [|lia].
  destruct (Z.ltb_spec (Z.of_nat N - i + 1) (2 ^ 31)); [|lia].
  cbn [andb bind]. rewrite (fast_combination_count_product N i) by lia.
  unfold int_checked.
  destruct (Z.leb_spec (- 2 ^ 31) (Z.of_nat (binomial N (Z.to_nat i)) * i));
    [|lia].
  cbn [andb].
  destruct (Z.ltb_spec (Z.of_nat (binomial N (Z.to_nat i)) * i) (2 ^ 31));
    cbn [bind]; [|reflexivity].
  f_equal. apply Z.quot_mul. lia.
Qed.

Lemma fast_combination_count_loop (N : nat) (r : Z) :
  1 <= r <= Z.of_nat N ->
  (forall i, 2 <= i <= r ->
     Z.of_nat (binomial N (Z.to_nat i)) * i < 2 ^ 31) ->
  Z.of_nat N < 2 ^ 31 ->
  for_range 2 (r + 1)
    (fun i nCr =>
       d <- int_checked (Z.of_nat N - i + 1) ;;
       p <- int_checked (nCr * d) ;;
       Ok (Z.quot p i))
    (Z.of_nat N)
  = Ok (Z.of_nat (binomial N (Z.to_nat r))).
Proof.
  intros Hr Hfit HN.
  destruct (for_range_invariant
              (fun i nCr => nCr = Z.of_nat (binomial N (Z.to_nat (i - 1))))
              (fun i nCr =>
                 d <- int_checked (Z.of_nat N - i + 1) ;;
                 p <- int_checked (nCr * d) ;;
                 Ok (Z.quot p i))
              2 (r + 1) (Z.of_nat N)) as (x & E & ->).
  - lia.
  - change (Z.to_nat (2 - 1)) with 1%nat. now rewrite binomial_one.
  - intros i nCr Hi ->. rewrite fast_combination_count_step by lia.
    pose proof (Hfit i ltac:(lia)) as Hp.
    destruct (Z.ltb_spec (Z.of_nat (binomial N (Z.to_nat i)) * i) (2 ^ 31));
      [|lia].
    eexists. split; [reflexivity|]. do 3 f_equal. lia.
  - rewrite E. do 3 f_equal. lia.
Qed.

(** A loop whose body fails at step [k], the steps before it keeping the
    invariant, fails. *)
Lemma for_loop_fault_at {St} (I : Z -> St -> Prop)
  (body : Z -> St -> outcome St) (k : Z) (n : nat) :
  forall i s,
    i <= k < i + Z.of_nat n -> I i s ->
    (forall j t, i <= j < k -> I j t ->
                 exists t', body j t = Ok t' /\ I (j + 1) t') ->
    (forall t, I k t -> body k t = Fault) ->
    for_loop n i body s = Fault.
Proof.
  induction n as [|n IH]; intros i s Hk Hs Hbefore Hat; [lia|].
  cbn [for_loop]. destruct (Z.eq_dec i k) as [->|Hne].
  - now rewrite (Hat s Hs).
  - destruct (Hbefore i s) as (t' & E & Ht'); [lia | exact Hs |].
    rewrite E. cbn [bind]. apply IH; [lia | exact Ht' | | exact Hat].
    intros j t Hj. apply Hbefore. lia.
Qed.

(** X9.  [fast_combination_count(N, r)] in [int] arithmetic, for
    [0 <= r <= N < 2^31] and [r < 2^30] (so that [r * 2] fits [int]): when
    the products [i * C(N, i)] formed on the way
    ([2 <= i <= min(r, N - r)]) fit [int] it returns the binomial
    coefficient [C(N, r)], every division by [i] being exact; and at the
    first [i] whose product does not fit, the multiplication overflows.
    For [0 <= N < r < 2^30] the guard is commented out and it returns
    [N]. *)
Theorem fast_combination_count_binomial (N r : Z) :
  (0 <= r <= N -> N < 2 ^ 31 -> r < 2 ^ 30 ->
   (forall i, 2 <= i <= Z.min r (N - r) ->
      Z.of_nat (binomial (Z.to_nat N) (Z.to_nat i)) * i < 2 ^ 31) ->
   fast_combination_count N r
   = Ok (Z.of_nat (binomial (Z.to_nat N) (Z.to_nat r)))) /\
  (0 <= r <= N -> N < 2 ^ 31 -> r < 2 ^ 30 ->
   forall k, 2 <= k <= Z.min r (N - r) ->
     (forall i, 2 <= i < k ->
        Z.of_nat (binomial (Z.to_nat N) (Z.to_nat i)) * i < 2 ^ 31) ->
     2 ^ 31 <= Z.of_nat (binomial (Z.to_nat N) (Z.to_nat k)) * k ->
     fast_combination_count N r = Fault) /\
  (0 <= N < r -> r < 2 ^ 30 -> fast_combination_count N r = Ok N).
Proof.
  assert (Hhead : 0 <= r <= N -> N < 2 ^ 31 -> r < 2 ^ 30 ->
            fast_combination_count N r
            = (if Z.min r (N - r) =? 0 then Ok 1
               else for_range 2 (Z.min r (N - r) + 1)
                      (fun i nCr =>
                         d <- int_checked (N - i + 1) ;;
                         p <- int_checked (nCr * d) ;;
                         Ok (Z.quot p i))
                      N)).
  { intros Hr HN Hr2. unfold fast_combination_count.
    unfold int_checked at 1.
    destruct (Z.leb_spec (- 2 ^ 31) (r * 2)); [|lia].
    destruct (Z.ltb_spec (r * 2) (2 ^ 31)); [|lia]. cbn [andb bind].
    destruct (Z.ltb_spec N (r * 2)).
    - unfold int_checked at 1.
      destruct (Z.leb_spec (- 2 ^ 31) (N - r)); [|lia].
      destruct (Z.ltb_spec (N - r) (2 ^ 31)); [|lia]. cbn [andb bind].
      replace (Z.min r (N - r)) with (N - r) by lia. reflexivity.
    - cbn [bind]. replace (Z.min r (N - r)) with r by lia. reflexivity. }
  split; [|split].
  - intros Hr HN Hr2 Hfit. rewrite Hhead by assumption.
    set (r' := Z.min r (N - r)) in *.
    assert (Hsym : binomial (Z.to_nat N) (Z.to_nat r')
                   = binomial (Z.to_nat N) (Z.to_nat r)).
    { unfold r'. destruct (Z.min_spec r (N - r)) as [[_ ->]|[_ ->]];
        [reflexivity|].
      rewrite (binomial_symmetric (Z.to_nat N) (Z.to_nat r)) by lia.
      f_equal. lia. }
    destruct (Z.eqb_spec r' 0) as [E0|E0].
    + rewrite <- Hsym, E0. change (Z.to_nat 0) with O.
      now destruct (Z.to_nat N).
    + pose proof (fast_combination_count_loop (Z.to_nat N) r') as E.
      rewrite Z2Nat.id in E by lia.
      rewrite E; [now rewrite Hsym | unfold r' in *; lia | exact Hfit | lia].
  - intros Hr HN Hr2 k Hk Hbefore Hover. rewrite Hhead by assumption.
    destruct (Z.eqb_spec (Z.min r (N - r)) 0) as [E0|E0]; [lia|].
    unfold for_range.
    apply (for_loop_fault_at
             (fun i nCr =>
                nCr = Z.of_nat (binomial (Z.to_nat N) (Z.to_nat (i - 1)))) _ k).
    + lia.
    + change (Z.to_nat (2 - 1)) with 1%nat. rewrite binomial_one. lia.
    + intros j t Hj ->.
      pose proof (fast_combination_count_step (Z.to_nat N) j) as E.
      rewrite Z2Nat.id in E by lia. rewrite E by lia.
      pose proof (Hbefore j ltac:(lia)) as Hp.
      destruct (Z.ltb_spec
                  (Z.of_nat (binomial (Z.to_nat N) (Z.to_nat j)) * j) (2 ^ 31));
        [|lia].
      eexists. split; [reflexivity|]. do 3 f_equal. lia.
    + intros t ->.
      pose proof (fast_combination_count_step (Z.to_nat N) k) as E.
      rewrite Z2Nat.id in E by lia. rewrite E by lia.
      destruct (Z.ltb_spec
                  (Z.of_nat (binomial (Z.to_nat N) (Z.to_nat k)) * k) (2 ^ 31));
        [lia|reflexivity].
  - intros Hr Hsmall. unfold fast_combination_count.
    unfold int_checked at 1.
    destruct (Z.leb_spec (- 2 ^ 31) (r * 2)); [|lia].
    destruct (Z.ltb_spec (r * 2) (2 ^ 31)); [|lia]. cbn [andb bind].
    destruct (Z.ltb_spec N (r * 2)); [|lia].
    unfold int_checked.
    destruct (Z.leb_spec (- 2 ^ 31) (N - r)); [|lia].
    destruct (Z.ltb_spec (N - r) (2 ^ 31)); [|lia]. cbn [andb bind].
    destruct (Z.eqb_spec (N - r) 0); [lia|].
    unfold for_range.
    replace (Z.to_nat (N - r + 1 - 2)) with O by lia.
    reflexivity.
Qed.

Lemma fast_combination_count_binomial_witness :
  fast_combination_count 6 4
  = Ok (Z.of_nat (binomial (Z.to_nat 6) (Z.to_nat 4))) /\
  fast_combination_count 46342 2 = Fault /\
  fast_combination_count 3 5 = Ok 3.
Proof.
  split; [|split].
  - apply (proj1 (fast_combination_count_binomial 6 4)); [lia | lia | lia |].
    intros i Hi. assert (i = 2) as -> by lia. vm_compute. reflexivity.
  - apply (proj1 (proj2 (fast_combination_count_binomial 46342 2))
             ltac:(lia) ltac:(lia) ltac:(lia) 2); [lia | intros i Hi; lia |].
    rewrite <- (fast_combination_count_product (Z.to_nat 46342) 2) by lia.
    change (Z.to_nat (2 - 1)) with 1%nat.
    rewrite binomial_one, Z2Nat.id by lia. lia.
  - apply (proj2 (proj2 (fast_combination_count_binomial 3 5))); lia.
Defined.

(* ----------------------------------------------------------------- *)
(** ** dominates as an order *)

Lemma nth_error_same_length {A B} (xs : list A) (ys : list B) (i : nat) (x : A) :
  length xs = length ys -> nth_error xs i = Some x ->
  exists y, nth_error ys i = Some y.
Proof.
  intros Hlen Hx.
  destruct (nth_error ys i) as [y|] eqn:Ey; [eauto|].
  apply nth_error_None in Ey.
  assert (i < length xs)%nat by (apply nth_error_Some; congruence). lia.
Qed.

Lemma dominates_true_inv {G M} (a b : ChromosomeType R G M) :
  dominates a b = Ok true ->
  length (objectives a) = length (objectives b) /\
  no_component_exceeds (objectives a) (objectives b) /\
  some_component_below (objectives a) (objectives b).
Proof.
  unfold dominates.
  destruct (Nat.eqb_spec (length (objectives a)) (length (objectives b)))
    as [Hlen|Hlen]; cbn [negb]; [|discriminate].
  destruct (any_exceeds (objectives a) (objectives b)) eqn:Eex; [discriminate|].
  destruct (any_below (objectives a) (objectives b)) eqn:Ebe; [|discriminate].
  intros _. split; [exact Hlen|]. split.
  - now apply any_exceeds_false.
  - now apply any_below_true.
Qed.

(** X10.  On objective vectors of one length [dominates] is a strict
    partial order: if [a] dominates [b] then [b] does not dominate [a], and
    if moreover [b] dominates [c] then [a] dominates [c].  On vectors of
    different lengths it throws. *)
Theorem dominates_strict_order {G M} (a b c : ChromosomeType R G M) :
  (length (objectives a) <> length (objectives b) ->
   dominates a b = Throw "vector size mismatch A73592753!") /\
  (dominates a b = Ok true -> dominates b a = Ok false) /\
  (dominates a b = Ok true -> dominates b c = Ok true ->
   dominates a c = Ok true).
Proof.
  split; [|split].
  - intros Hne. unfold dominates.
    destruct (Nat.eqb_spec (length (objectives a)) (length (objectives b)));
      [contradiction|reflexivity].
  - intros Hab. apply dominates_true_inv in Hab as (Hlen & Hno & Hsome).
    unfold dominates. rewrite <- Hlen, Nat.eqb_refl. cbn [negb].
    destruct (any_exceeds (objectives b) (objectives a)) eqn:Eex;
      [reflexivity|].
    apply any_exceeds_false in Eex.
    destruct Hsome as (i & x & y & Hx & Hy & Hlt).
    exfalso. apply (Eex i y x Hy Hx). lra.
  - intros Hab Hbc.
    apply dominates_true_inv in Hab as (Hlen & Hno & Hsome).
    apply dominates_true_inv in Hbc as (Hlen' & Hno' & Hsome').
    unfold dominates. rewrite Hlen, Hlen', Nat.eqb_refl. cbn [negb].
    assert (Eex : any_exceeds (objectives a) (objectives c) = false).
    { apply any_exceeds_false. intros i x z Hx Hz.
      destruct (nth_error_same_length _ (objectives b) i x Hlen Hx) as (y & Hy).
      specialize (Hno i x y Hx Hy). specialize (Hno' i y z Hy Hz). lra. }
    rewrite Eex.
    assert (Ebe : any_below (objectives a) (objectives c) = true).
    { apply any_below_true.
      destruct Hsome as (i & x & y & Hx & Hy & Hlt).
      destruct (nth_error_same_length _ (objectives c) i y Hlen' Hy) as (z & Hz).
      exists i, x, z. split; [exact Hx|]. split; [exact Hz|].
      specialize (Hno' i y z Hy Hz). lra. }
    rewrite Ebe. reflexivity.
Qed.

Lemma dominates_strict_order_witness :
  dominates (mkChromosome tt tt 0%R [1%R; 2%R])
            (mkChromosome tt tt 0%R [1%R]) = Throw "vector size mismatch A73592753!" /\
  dominates (mkChromosome tt tt 0%R [1%R; 3%R])
            (mkChromosome tt tt 0%R [1%R; 2%R]) = Ok false /\
  dominates (mkChromosome tt tt 0%R [1%R; 2%R])
            (mkChromosome tt tt 0%R [2%R; 3%R]) = Ok true.
Proof.
  assert (Hab : dominates (mkChromosome tt tt 0%R [1%R; 2%R])
                  (mkChromosome tt tt 0%R [1%R; 3%R]) = Ok true).
  { unfold dominates. cbn. unfold d_gtb. cbn. unfold R_ltb.
    repeat (destruct (Rlt_dec _ _); try lra). reflexivity. }
  assert (Hbc : dominates (mkChromosome tt tt 0%R [1%R; 3%R])
                  (mkChromosome tt tt 0%R [2%R; 3%R]) = Ok true).
  { unfold dominates. cbn. unfold d_gtb. cbn. unfold R_ltb.
    repeat (destruct (Rlt_dec _ _); try lra). reflexivity. }
  split; [|split].
  - apply (dominates_strict_order (mkChromosome tt tt 0%R [1%R; 2%R])
             (mkChromosome tt tt 0%R [1%R])
             (mkChromosome tt tt 0%R [1%R])).
    cbn. lia.
  - apply (dominates_strict_order (mkChromosome tt tt 0%R [1%R; 2%R])
             (mkChromosome tt tt 0%R [1%R; 3%R])
             (mkChromosome tt tt 0%R [2%R; 3%R])).
    exact Hab.
  - apply (dominates_strict_order (mkChromosome tt tt 0%R [1%R; 2%R])
             (mkChromosome tt tt 0%R [1%R; 3%R])
             (mkChromosome tt tt 0%R [2%R; 3%R])); [exact Hab | exact Hbc].
Defined.

(* ----------------------------------------------------------------- *)
(** ** default_shrink_scale *)

(** X11.  Over the reals, whatever the draws, [default_shrink_scale]
    returns a scale in (0, 1], equal to 1 up to generation 5, and consumes
    one or two draws of the generator. *)
Theorem default_shrink_scale_range (n_generation : Z) (r : Rng R) :
  (0 < fst (default_shrink_scale n_generation r) <= 1)%R /\
  (n_generation <= 5 -> fst (default_shrink_scale n_generation r) = 1%R) /\
  (rng_next (snd (default_shrink_scale n_generation r)) = S (rng_next r) \/
   rng_next (snd (default_shrink_scale n_generation r)) = S (S (rng_next r))).
Proof.
  unfold default_shrink_scale. cbn [d_of_int d_div d_sqrt d_mul d_ltb Double_R].
  set (scale := if n_generation <=? 5 then 1%R
                else (1 / sqrt (IZR (n_generation - 5 + 1)))%R).
  assert (Hscale : (0 < scale <= 1)%R /\ (n_generation <= 5 -> scale = 1%R)).
  { unfold scale. destruct (Z.leb_spec n_generation 5) as [Hle|Hgt].
    - split; [lra|reflexivity].
    - split; [|lia].
      assert (H1 : (1 <= IZR (n_generation - 5 + 1))%R) by (apply IZR_le; lia).
      assert (H2 : (1 <= sqrt (IZR (n_generation - 5 + 1)))%R).
      { rewrite <- sqrt_1 at 1. apply sqrt_le_1_alt. exact H1. }
      split.
      + apply Rdiv_lt_0_compat; lra.
      + apply Rmult_le_reg_r with (sqrt (IZR (n_generation - 5 + 1))); [lra|].
        unfold Rdiv. rewrite Rmult_assoc, Rinv_l by lra. lra. }
  destruct Hscale as [[Hpos Hle] Hone].
  unfold random01. cbn [rng_draws rng_next].
  destruct (R_ltb (rng_draws r (rng_next r)) (ratio 4 10)); cbn [fst snd rng_next].
  - split; [|split; [|left; reflexivity]].
    + split; [apply Rmult_lt_0_compat; lra|].
      replace 1%R with (1 * 1)%R by lra.
      apply Rmult_le_compat; lra.
    + intros H5. rewrite (Hone H5). lra.
  - destruct (R_ltb (rng_draws r (S (rng_next r))) (ratio 1 10));
      cbn [fst snd rng_next].
    + split; [lra|]. split; [reflexivity|right; reflexivity].
    + split; [lra|]. split; [exact Hone|right; reflexivity].
Qed.

(* ----------------------------------------------------------------- *)
(** ** index_of_min *)

(** The scan of [std::min_element] over [rest], the elements before it
    being [pre] and their first smallest, [smallest], being at
    [position]. *)
Lemma min_element_from_first (pre rest : list Z) (smallest position : Z) :
  vget pre position = Ok smallest ->
  (forall y, In y pre -> smallest <= y) ->
  (forall i y, 0 <= i < position -> vget pre i = Ok y -> smallest < y) ->
  let p := min_element_from Z.ltb smallest position (vsize pre) rest in
  exists x,
    0 <= p < vsize (pre ++ rest) /\
    vget (pre ++ rest) p = Ok x /\
    (forall y, In y (pre ++ rest) -> x <= y) /\
    (forall i y, 0 <= i < p -> vget (pre ++ rest) i = Ok y -> x < y).
Proof.
  revert pre smallest position.
  induction rest as [|z rest IH]; intros pre smallest position Hat Hmin Hfirst;
    cbn [min_element_from].
  - rewrite app_nil_r. exists smallest.
    split; [exact (proj1 (vget_inv _ _ _ Hat))|].
    split; [exact Hat|]. split; assumption.
  - pose proof (proj1 (vget_inv _ _ _ Hat)) as Hpos.
    replace (pre ++ z :: rest) with ((pre ++ [z]) ++ rest)
      by (rewrite <- app_assoc; reflexivity).
    replace (vsize pre + 1) with (vsize (pre ++ [z]))
      by (rewrite vsize_app; reflexivity).
    destruct (Z.ltb_spec z smallest) as [Hlt|Hge].
    + apply IH.
      * apply vget_app_last.
      * intros y Hy. apply in_app_iff in Hy as [Hy|[<-|[]]]; [|lia].
        specialize (Hmin y Hy). lia.
      * intros i y Hi Hy. rewrite vget_app_l in Hy by lia.
        apply vget_inv in Hy as [_ Hy]. apply nth_error_In in Hy.
        specialize (Hmin y Hy). lia.
    + apply IH.
      * rewrite vget_app_l by lia. exact Hat.
      * intros y Hy. apply in_app_iff in Hy as [Hy|[<-|[]]]; [|lia].
        now apply Hmin.
      * intros i y Hi Hy. rewrite vget_app_l in Hy by lia.
        now apply (Hfirst i).
Qed.

(** X12.  On a non-empty vector of fewer than 2^32 counts [index_of_min]
    returns the position of the first smallest element: the element there
    is at most every element and strictly below every earlier one.  On an
    empty vector it returns 0, a position the vector does not have. *)
Theorem index_of_min_first_smallest (v : list Z) :
  v <> [] -> vsize v < 2 ^ 32 ->
  exists x,
    0 <= index_of_min Z.ltb v < vsize v /\
    vget v (index_of_min Z.ltb v) = Ok x /\
    (forall y, In y v -> x <= y) /\
    (forall i y, 0 <= i < index_of_min Z.ltb v -> vget v i = Ok y -> x < y) /\
    index_of_min Z.ltb (@nil Z) = 0 /\
    vget (@nil Z) (index_of_min Z.ltb (@nil Z)) = Fault.
Proof.
  intros Hne Hsmall. destruct v as [|x0 rest]; [congruence|].
  unfold index_of_min.
  destruct (min_element_from_first [x0] rest x0 0) as (x & Hp & Hat & Hmin & Hfirst).
  - reflexivity.
  - intros y [<-|[]]. lia.
  - intros i y Hi. lia.
  - change (vsize [x0]) with 1 in *. change ([x0] ++ rest) with (x0 :: rest) in *.
    assert (Eu : u32 (min_element_from Z.ltb x0 0 1 rest)
                 = min_element_from Z.ltb x0 0 1 rest)
      by (unfold u32; apply Z.mod_small; lia).
    rewrite Eu. exists x. split; [exact Hp|]. split; [exact Hat|].
    split; [exact Hmin|]. split; [exact Hfirst|]. split; reflexivity.
Qed.

Lemma index_of_min_first_smallest_witness :
  exists x,
    0 <= index_of_min Z.ltb [3; 1; 2; 1] < vsize [3; 1; 2; 1] /\
    vget [3; 1; 2; 1] (index_of_min Z.ltb [3; 1; 2; 1]) = Ok x /\
    (forall y, In y [3; 1; 2; 1] -> x <= y) /\
    (forall i y, 0 <= i < index_of_min Z.ltb [3; 1; 2; 1] ->
                 vget [3; 1; 2; 1] i = Ok y -> x < y) /\
    index_of_min Z.ltb (@nil Z) = 0 /\
    vget (@nil Z) (index_of_min Z.ltb (@nil Z)) = Fault.
Proof.
  apply (index_of_min_first_smallest [3; 1; 2; 1]).
  - discriminate.
  - unfold vsize. simpl. lia.
Defined.

(* ----------------------------------------------------------------- *)
(** ** The messages of the stop reasons *)

(** The five stop reasons have five different messages, none of them
    "Unknown reason"; [show_stop_reason] writes nothing unless [verbose] is
    set, and then never the message of [Undefined]. *)
Theorem stop_reason_messages_distinct :
  (forall a b, stop_reason_to_string a = stop_reason_to_string b -> a = b) /\
  (forall a, stop_reason_to_string a <> "Unknown reason"%string) /\
  (forall stop, show_stop_reason false stop = []) /\
  (forall stop, ~ In (stop_reason_to_string Undefined) (show_stop_reason true stop)).
Proof.
  split; [|split; [|split]].
  - intros [] []; cbn; intros E; try reflexivity; discriminate E.
  - intros []; cbn; discriminate.
  - reflexivity.
  - intros [] Hin; cbn in Hin;
      repeat (destruct Hin as [Hin|Hin]; [discriminate Hin|]); exact Hin.
Qed.

(* ----------------------------------------------------------------- *)
(** ** check_settings *)

(** X14.  [check_settings] returns or throws, nothing else, and it returns
    exactly for the configurations in which the callbacks the mode needs
    are set, the callbacks of the other modes are unset,
    [N_threads >= 1] and [population >= 1]; it looks at no other field:
    [elite_count], [crossover_fraction] and [mutation_rate] are not
    checked. *)
Theorem check_settings_accepts {F G M} (cfg : Settings F G M) :
  (check_settings cfg = Ok tt <-> settings_accepted cfg) /\
  (check_settings cfg = Ok tt \/ exists w, check_settings cfg = Throw w).
Proof.
  unfold check_settings, settings_accepted, is_interactive,
    is_single_objective, is_set, is_unset, throw_if.
  destruct (problem_mode cfg);
    destruct (is_null (calculate_IGA_total_fitness cfg));
    destruct (is_null (calculate_SO_total_fitness cfg));
    destruct (is_null (calculate_MO_objectives cfg));
    destruct (is_null (distribution_objective_reductions cfg));
    destruct (is_null (MO_report_generation cfg));
    destruct (is_null (eval_solution_IGA cfg));
    destruct (is_null (eval_solution cfg));
    cbn [bind negb];
    try (split; [split; [discriminate
                        | intros Hacc; decompose [and] Hacc; congruence]
                | right; eexists; reflexivity]);
    destruct (is_null (init_genes cfg));
    destruct (is_null (mutate cfg));
    destruct (is_null (crossover cfg));
    destruct (is_null (SO_report_generation cfg));
    cbn [bind negb];
    try (split; [split; [discriminate
                        | intros Hacc; decompose [and] Hacc; congruence]
                | right; eexists; reflexivity]);
    destruct (Z.ltb_spec (N_threads cfg) 1); cbn [bind];
    try (split; [split; [discriminate
                        | intros Hacc; decompose [and] Hacc;
                          first [congruence | lia]]
                | right; eexists; reflexivity]);
    destruct (Z.ltb_spec (population cfg) 1); cbn [bind];
    try (split; [split; [discriminate
                        | intros Hacc; decompose [and] Hacc;
                          first [congruence | lia]]
                | right; eexists; reflexivity]);
    (split; [split; [intros _; repeat split; lia | reflexivity]
            | left; reflexivity]).
Qed.

(* ----------------------------------------------------------------- *)
(** ** finalize_generation *)

Lemma Rsum_app (v w : list R) : Rsum (v ++ w) = (Rsum v + Rsum w)%R.
Proof.
  unfold Rsum. induction v as [|x v IH]; cbn [app fold_right]; [lra|].
  rewrite IH. lra.
Qed.

(** X15.  In the single-objective modes, with no stop requested, over the
    reals: on a generation of at least one and fewer than 2^32 chromosomes
    [finalize_generation] sets [best_total_cost] to the smallest total
    cost, [best_chromosome_index] to the last index that has it and
    [average_cost] to the mean, and changes nothing else; on an empty
    generation it reads [chromosomes[0]], which is not there. *)
Theorem finalize_generation_best {G M} (cfg : Settings R G M)
  (g : GenerationType R G M) :
  is_single_objective cfg = true -> user_request_stop cfg = false ->
  (chromosomes g = [] -> finalize_generation cfg g = Fault) /\
  (chromosomes g <> [] -> vsize (chromosomes g) < 2 ^ 32 ->
   exists best index,
     finalize_generation cfg g
     = Ok (set_best g best
             (Rsum (map total_cost (chromosomes g))
              / IZR (vsize (chromosomes g)))%R index) /\
     (forall c, In c (chromosomes g) -> (best <= total_cost c)%R) /\
     (exists c, vget (chromosomes g) index = Ok c /\ total_cost c = best) /\
     (forall j c, index < j -> vget (chromosomes g) j = Ok c ->
                  (best < total_cost c)%R)).
Proof.
  intros Hso Hstop. unfold finalize_generation. rewrite Hstop, Hso.
  split.
  - intros ->. reflexivity.
  - intros Hne Hsmall.
    pose proof (vsize_nonneg (chromosomes g)) as Hnn.
    assert (Eu : u32 (vsize (chromosomes g)) = vsize (chromosomes g))
      by (unfold u32; apply Z.mod_small; lia).
    rewrite Eu.
    assert (Hpos : 0 < vsize (chromosomes g)).
    { destruct (chromosomes g); [congruence|]. unfold vsize. cbn. lia. }
    destruct (vget_Ok (chromosomes g) 0) as (c0 & E0 & E0'); [lia|].
    rewrite E0. cbn [bind].
    match goal with
    | |- context [for_range 0 ?hi ?body ?init] =>
        destruct (for_range_invariant
                (fun i '(best, sum, index) =>
                   sum = Rsum (map total_cost
                                 (firstn (Z.to_nat i) (chromosomes g))) /\
                   0 <= index < vsize (chromosomes g) /\
                   (exists c, vget (chromosomes g) index = Ok c /\
                              total_cost c = best) /\
                   (forall j c, 0 <= j < i -> vget (chromosomes g) j = Ok c ->
                                (best <= total_cost c)%R) /\
                   (forall j c, index < j < i ->
                                vget (chromosomes g) j = Ok c ->
                                (best < total_cost c)%R))
                body 0 hi init)
          as ([[best sum] index] & E & Hsum & Hidx & Hat & Hmin & Hlast)
    end.
    + lia.
    + split; [reflexivity|]. split; [lia|]. split; [eauto|].
      split; intros; lia.
    + intros i [[best sum] index] Hi (Hsum & Hidx & (cb & Ecb & Hcb) & Hmin & Hlast).
      destruct (vget_Ok (chromosomes g) i Hi) as (c & Ec & Ec').
      rewrite Ec. cbn [bind]. cbn [d_leb d_add Double_R].
      assert (Hsum' : (sum + total_cost c)%R
                      = Rsum (map total_cost
                                (firstn (Z.to_nat (i + 1)) (chromosomes g)))).
      { replace (Z.to_nat (i + 1)) with (S (Z.to_nat i)) by lia.
        rewrite (firstn_succ_nth_error _ _ _ Ec'), map_app, Rsum_app, <- Hsum.
        cbn. lra. }
      destruct (R_leb (total_cost c) best) eqn:Ele.
      * apply R_leb_true in Ele.
        eexists. split; [reflexivity|]. unfold d_min. cbn [d_ltb Double_R].
        assert (Em : (if R_ltb (total_cost c) (total_cost c)
                      then total_cost c else total_cost c) = total_cost c)
          by (destruct (R_ltb _ _); reflexivity).
        rewrite Em. split; [exact Hsum'|]. split; [lia|].
        split; [exists c; split; [exact Ec|reflexivity]|]. split.
        -- intros j c' Hj Ej. destruct (Z.eq_dec j i) as [->|Hne'].
           ++ rewrite Ec in Ej. injection Ej as <-. lra.
           ++ specialize (Hmin j c' ltac:(lia) Ej). lra.
        -- intros j c' Hj. lia.
      * apply R_leb_false in Ele.
        eexists. split; [reflexivity|]. unfold d_min. cbn [d_ltb Double_R].
        assert (Em : R_ltb (total_cost c) best = false)
          by (apply R_ltb_false; lra).
        rewrite Em. split; [exact Hsum'|]. split; [lia|].
        split; [exists cb; split; [exact Ecb|exact Hcb]|]. split.
        -- intros j c' Hj Ej. destruct (Z.eq_dec j i) as [->|Hne'].
           ++ rewrite Ec in Ej. injection Ej as <-. lra.
           ++ apply (Hmin j c'); [lia|exact Ej].
        -- intros j c' Hj Ej. destruct (Z.eq_dec j i) as [->|Hne'].
           ++ rewrite Ec in Ej. injection Ej as <-. lra.
           ++ apply (Hlast j c'); [lia|exact Ej].
    + rewrite E. cbn [bind]. exists best, index.
      unfold vsize in Hsum. rewrite Nat2Z.id, firstn_all in Hsum.
      rewrite Hsum. split; [reflexivity|]. split; [|split].
      * intros c Hc. apply In_nth_error in Hc as (n & Hn).
        apply (Hmin (Z.of_nat n) c).
        -- assert (n < length (chromosomes g))%nat
             by (apply nth_error_Some; congruence).
           unfold vsize. lia.
        -- unfold vget. destruct (Z.ltb_spec (Z.of_nat n) 0); [lia|].
           now rewrite Nat2Z.id, Hn.
      * exact Hat.
      * intros j c Hj Ej. apply (Hlast j c); [|exact Ej].
        apply vget_inv in Ej as [Hr _]. lia.
Qed.

Lemma finalize_generation_best_witness :
  finalize_generation settings_SO_real (mkGeneration [] 0%R 0%R (-1) [] [] [])
  = Fault /\
  exists best index,
    finalize_generation settings_SO_real two_cost_generation
    = Ok (set_best two_cost_generation best
            (Rsum (map total_cost (chromosomes two_cost_generation))
             / IZR (vsize (chromosomes two_cost_generation)))%R index) /\
    (forall c, In c (chromosomes two_cost_generation) ->
               (best <= total_cost c)%R) /\
    (exists c, vget (chromosomes two_cost_generation) index = Ok c /\
               total_cost c = best) /\
    (forall j c, index < j ->
       vget (chromosomes two_cost_generation) j = Ok c ->
       (best < total_cost c)%R).
Proof.
  split.
  - apply (finalize_generation_best settings_SO_real
             (mkGeneration [] 0%R 0%R (-1) [] [] [])); reflexivity.
  - apply (finalize_generation_best settings_SO_real two_cost_generation).
    + reflexivity.
    + reflexivity.
    + discriminate.
    + unfold vsize. simpl. lia.
Defined.

(* ----------------------------------------------------------------- *)
(** ** finalize_objectives *)

Lemma replace_nth_map_prefix {A} (h : A -> A) (cs : list A) (n : nat) (c : A) :
  nth_error cs n = Some c ->
  replace_nth (map h (firstn n cs) ++ skipn n cs) n (h c)
  = map h (firstn (S n) cs) ++ skipn (S n) cs.
Proof.
  revert n. induction cs as [|x cs IH]; intros [|n] E; cbn in *;
    try discriminate.
  - injection E as ->. reflexivity.
  - f_equal. now apply IH.
Qed.

(** A loop that rewrites the chromosomes in place, one by one, each from
    itself. *)
Lemma rewrite_chromosomes_loop {F G M} (h : ChromosomeType F G M ->
                                             ChromosomeType F G M)
  (body : Z -> GenerationType F G M -> outcome (GenerationType F G M))
  (g : GenerationType F G M) :
  (forall i g', 0 <= i < vsize (chromosomes g) ->
     body i g' = (c <- vget (chromosomes g') i ;;
                  cs <- vset (chromosomes g') i (h c) ;;
                  Ok (set_chromosomes g' cs))) ->
  for_range 0 (vsize (chromosomes g)) body g
  = Ok (set_chromosomes g (map h (chromosomes g))).
Proof.
  intros Hbody.
  destruct (for_range_invariant
              (fun i g' =>
                 g' = set_chromosomes g
                        (map h (firstn (Z.to_nat i) (chromosomes g))
                         ++ skipn (Z.to_nat i) (chromosomes g)))
              body 0 (vsize (chromosomes g)) g) as (g' & E & ->).
  - apply vsize_nonneg.
  - destruct g. reflexivity.
  - intros i g1 Hi ->. rewrite Hbody by assumption.
    cbn [chromosomes set_chromosomes].
    destruct (vget_Ok (chromosomes g) i Hi) as (c & Ec & Ec').
    assert (Eat : vget (map h (firstn (Z.to_nat i) (chromosomes g))
                        ++ skipn (Z.to_nat i) (chromosomes g)) i = Ok c).
    { unfold vget. destruct (Z.ltb_spec i 0); [lia|].
      rewrite nth_error_app2; rewrite length_map, length_firstn;
        [|unfold vsize in Hi; lia].
      replace (Z.to_nat i - Nat.min (Z.to_nat i) (length (chromosomes g)))%nat
        with O by (unfold vsize in Hi; lia).
      rewrite nth_error_skipn, Nat.add_0_r, Ec'. reflexivity. }
    rewrite Eat. cbn [bind].
    rewrite vset_Ok.
    + cbn [bind]. eexists. split; [reflexivity|].
      replace (Z.to_nat (i + 1)) with (S (Z.to_nat i)) by lia.
      now rewrite (replace_nth_map_prefix h _ _ c Ec').
    + apply vget_inv in Eat as [Hr _]. exact Hr.
  - rewrite E. unfold vsize. rewrite Nat2Z.id, firstn_all, skipn_all, app_nil_r.
    reflexivity.
Qed.

(** X16.  With no stop requested, [finalize_objectives] recomputes every
    chromosome from itself and keeps their number and order: in SOGA mode
    each [total_cost] becomes the fitness of its chromosome, in NSGA-III
    mode each [objectives] becomes the objective vector of its chromosome,
    and in IGA mode the generation is handed to the callback as a whole;
    with a stop requested nothing is computed. *)
Theorem finalize_objectives_recomputes {F G M} (cfg : Settings F G M)
  (g : GenerationType F G M) :
  (user_request_stop cfg = true -> finalize_objectives cfg g = Ok g) /\
  (user_request_stop cfg = false -> problem_mode cfg = SOGA ->
   forall fitness, calculate_SO_total_fitness cfg = Some fitness ->
     finalize_objectives cfg g
     = Ok (set_chromosomes g
             (map (fun c => set_total_cost c (fitness c)) (chromosomes g)))) /\
  (user_request_stop cfg = false -> problem_mode cfg = NSGA_III ->
   forall objs, calculate_MO_objectives cfg = Some objs ->
     finalize_objectives cfg g
     = Ok (set_chromosomes g
             (map (fun c => set_objectives c (objs c)) (chromosomes g)))) /\
  (user_request_stop cfg = false -> problem_mode cfg = IGA ->
   forall fitness, calculate_IGA_total_fitness cfg = Some fitness ->
     finalize_objectives cfg g = Ok (fitness g)).
Proof.
  unfold finalize_objectives. split; [|split; [|split]].
  - intros ->. reflexivity.
  - intros -> -> fitness Ef.
    apply (rewrite_chromosomes_loop (fun c => set_total_cost c (fitness c))).
    intros i g' _. rewrite Ef. cbn [call bind]. reflexivity.
  - intros -> -> objs Eo.
    apply (rewrite_chromosomes_loop (fun c => set_objectives c (objs c))).
    intros i g' _. rewrite Eo. cbn [call bind]. reflexivity.
  - intros -> -> fitness Ef. rewrite Ef. reflexivity.
Qed.

Lemma finalize_objectives_recomputes_witness :
  finalize_objectives (settings_sphere 2 (ratio 7 10))
    (mkGeneration
       [mkChromosome (ratio 1 1) (ratio 1 1) (ratio 0 1) [];
        mkChromosome (ratio 2 1) (ratio 4 1) (ratio 0 1) []]
       (ratio 0 1) (ratio 0 1) (-1) [] [] [])
  = Ok (set_chromosomes
          (mkGeneration
             [mkChromosome (ratio 1 1) (ratio 1 1) (ratio 0 1) [];
              mkChromosome (ratio 2 1) (ratio 4 1) (ratio 0 1) []]
             (ratio 0 1) (ratio 0 1) (-1) [] [] [])
          (map (fun c => set_total_cost c (middle_costs c))
             [mkChromosome (ratio 1 1) (ratio 1 1) (ratio 0 1) [];
              mkChromosome (ratio 2 1) (ratio 4 1) (ratio 0 1) []])).
Proof.
  apply (finalize_objectives_recomputes (settings_sphere 2 (ratio 7 10))
           (mkGeneration
              [mkChromosome (ratio 1 1) (ratio 1 1) (ratio 0 1) [];
               mkChromosome (ratio 2 1) (ratio 4 1) (ratio 0 1) []]
              (ratio 0 1) (ratio 0 1) (-1) [] [] []));
    reflexivity.
Defined.

(* ----------------------------------------------------------------- *)
(** ** update_ideal_objectives *)

(** One chromosome folded into the ideal point: each component becomes the
    smaller of the two. *)
Lemma ideal_fold_one (o v : list R) (n : Z) :
  vsize v = n -> vsize o = n ->
  exists v',
    for_range 0 n
      (fun i ideal =>
         x <- vget o i ;;
         best <- vget ideal i ;;
         if d_ltb x best then vset ideal i x else Ok ideal) v
    = Ok v' /\
    vsize v' = n /\
    forall k, 0 <= k < n ->
      exists a b, vget v k = Ok a /\ vget o k = Ok b /\
                  vget v' k = Ok (Rmin a b).
Proof.
  intros Hv Ho.
  destruct (for_range_invariant
              (fun i v' =>
                 vsize v' = n /\
                 (forall k, 0 <= k < i ->
                    exists a b, vget v k = Ok a /\ vget o k = Ok b /\
                                vget v' k = Ok (Rmin a b)) /\
                 (forall k, i <= k < n -> vget v' k = vget v k))
              (fun i ideal =>
                 x <- vget o i ;;
                 best <- vget ideal i ;;
                 if d_ltb x best then vset ideal i x else Ok ideal)
              0 n v) as (v' & E & Hlen & Hdone & _).
  - rewrite <- Hv. apply vsize_nonneg.
  - split; [exact Hv|]. split; [intros; lia|reflexivity].
  - intros i v1 Hi (Hlen1 & Hdone1 & Hrest1).
    destruct (vget_Ok o i) as (b & Eb & _); [lia|].
    destruct (vget_Ok v i) as (a & Ea & _); [lia|].
    rewrite Eb. cbn [bind]. rewrite (Hrest1 i) by lia. rewrite Ea. cbn [bind].
    cbn [d_ltb Double_R].
    destruct (R_ltb b a) eqn:Elt.
    + apply R_ltb_true in Elt.
      rewrite vset_Ok by lia. eexists. split; [reflexivity|].
      split; [unfold vsize in *; now rewrite length_replace_nth|]. split.
      * intros k Hk. destruct (Z.eq_dec k i) as [->|Hne].
        -- exists a, b. split; [exact Ea|]. split; [exact Eb|].
           rewrite (vget_vset_eq v1 _ i b (vset_Ok v1 i b ltac:(lia))).
           f_equal. symmetry. apply Rmin_right. lra.
        -- rewrite (vget_vset_ne v1 _ i k b (vset_Ok v1 i b ltac:(lia)) Hne).
           apply Hdone1. lia.
      * intros k Hk.
        rewrite (vget_vset_ne v1 _ i k b (vset_Ok v1 i b ltac:(lia)))
          by lia.
        apply Hrest1. lia.
    + apply R_ltb_false in Elt.
      eexists. split; [reflexivity|]. split; [exact Hlen1|]. split.
      * intros k Hk. destruct (Z.eq_dec k i) as [->|Hne].
        -- exists a, b. split; [exact Ea|]. split; [exact Eb|].
           rewrite (Hrest1 i) by lia. rewrite Ea. f_equal. symmetry.
           apply Rmin_left. lra.
        -- apply Hdone1. lia.
      * intros k Hk. apply Hrest1. lia.
  - exists v'. split; [exact E|]. split; [exact Hlen|]. exact Hdone.
Qed.

(** All the chromosomes folded into the ideal point. *)
Lemma ideal_fold_all {G M} (reduce : list R -> list R)
  (cs : list (ChromosomeType R G M)) (n : Z) :
  Forall (fun c => vsize (reduce (objectives c)) = n) cs ->
  forall v, vsize v = n ->
  exists v',
    for_each cs
      (fun x ideal =>
         let obj_reduced := reduce (objectives x) in
         for_range 0 n
           (fun i ideal =>
              o <- vget obj_reduced i ;;
              best <- vget ideal i ;;
              if d_ltb o best then vset ideal i o else Ok ideal)
           ideal) v
    = Ok v' /\
    vsize v' = n /\
    forall k, 0 <= k < n ->
      exists x a,
        vget v' k = Ok x /\ vget v k = Ok a /\ (x <= a)%R /\
        (forall c o, In c cs -> vget (reduce (objectives c)) k = Ok o ->
                     (x <= o)%R) /\
        (x = a \/
         exists c, In c cs /\ vget (reduce (objectives c)) k = Ok x).
Proof.
  induction cs as [|c cs IH]; intros Hall v Hv; cbn [for_each].
  - exists v. split; [reflexivity|]. split; [exact Hv|].
    intros k Hk. destruct (vget_Ok v k) as (a & Ea & _); [lia|].
    exists a, a. split; [exact Ea|]. split; [exact Ea|]. split; [lra|].
    split; [intros c o []|left; reflexivity].
  - inversion Hall as [|? ? Hc Hcs]; subst.
    destruct (ideal_fold_one (reduce (objectives c)) v
                (vsize (reduce (objectives c)))) as (v1 & E1 & Hlen1 & Hone);
      [congruence|reflexivity|].
    cbn zeta. rewrite Hc in *. rewrite E1. cbn [bind].
    destruct (IH Hcs v1 Hlen1) as (v' & E & Hlen & Hrest).
    exists v'. split; [exact E|]. split; [exact Hlen|].
    intros k Hk.
    destruct (Hone k Hk) as (a & b & Ea & Eb & E1k).
    destruct (Hrest k Hk) as (x & a1 & Ex & Ea1 & Hle & Hbelow & Hattained).
    rewrite E1k in Ea1. injection Ea1 as <-.
    exists x, a. split; [exact Ex|]. split; [exact Ea|].
    pose proof (Rmin_l a b). pose proof (Rmin_r a b).
    split; [lra|]. split.
    + intros c' o [<-|Hin] Eo.
      * rewrite Eb in Eo. injection Eo as <-. lra.
      * now apply (Hbelow c').
    + destruct Hattained as [->|(c' & Hin & Ec')].
      * unfold Rmin. destruct (Rle_dec a b); [left; reflexivity|].
        right. exists c. split; [left; reflexivity|].
        exact Eb.
      * right. exists c'. split; [right; exact Hin|exact Ec'].
Qed.

(** X17.  In NSGA-III mode with no stop requested, over the reals, when
    the reduced objective vectors of all chromosomes have the length of the
    starting vector (the first chromosome's on a reset, the ideal point so
    far otherwise), [update_ideal_objectives] returns and changes only
    [ideal_objectives]: each component becomes the minimum of its starting
    value and of that component over the chromosomes.  In the
    single-objective modes it throws, and on a reset with an empty
    generation it reads [chromosomes[0]], which is not there. *)
Theorem update_ideal_objectives_minimum {G M} (cfg : Settings R G M)
  (g : GenerationType R G M) (reset : bool) (s : State R G M) :
  user_request_stop cfg = false ->
  (is_single_objective cfg = true ->
   update_ideal_objectives cfg g reset s = (s, Throw "Wrong code A0812473247.")) /\
  (is_single_objective cfg = false -> reset = true -> chromosomes g = [] ->
   update_ideal_objectives cfg g reset s = (s, Fault)) /\
  (is_single_objective cfg = false ->
   (reset = true -> chromosomes g <> []) ->
   vsize (ideal_start cfg g reset s) < 2 ^ 32 ->
   Forall (fun c => vsize (reduce_objectives cfg (objectives c))
                    = vsize (ideal_start cfg g reset s)) (chromosomes g) ->
   exists ideal,
     update_ideal_objectives cfg g reset s
     = (set_ideal_objectives s ideal, Ok tt) /\
     vsize ideal = vsize (ideal_start cfg g reset s) /\
     forall k, 0 <= k < vsize ideal ->
       exists x a,
         vget ideal k = Ok x /\ vget (ideal_start cfg g reset s) k = Ok a /\
         (x <= a)%R /\
         (forall c o, In c (chromosomes g) ->
                      vget (reduce_objectives cfg (objectives c)) k = Ok o ->
                      (x <= o)%R) /\
         (x = a \/
          exists c, In c (chromosomes g) /\
                    vget (reduce_objectives cfg (objectives c)) k = Ok x)).
Proof.
  intros Hstop. unfold update_ideal_objectives. rewrite Hstop.
  split; [|split].
  - intros ->. reflexivity.
  - intros -> -> ->. reflexivity.
  - intros -> Hne Hsmall Hall.
    remember (ideal_start cfg g reset s) as start eqn:Estart.
    pose proof (vsize_nonneg start) as Hnn.
    assert (Eu : u32 (vsize start) = vsize start)
      by (unfold u32; apply Z.mod_small; lia).
    destruct (ideal_fold_all (reduce_objectives cfg) (chromosomes g)
                (vsize start) Hall start eq_refl) as (ideal & E & Hlen & Hmin).
    exists ideal. split; [|split; [exact Hlen|rewrite Hlen; exact Hmin]].
    unfold ideal_start in Estart. destruct reset.
    + destruct (chromosomes g) as [|c0 cs] eqn:Ecs; [now specialize (Hne eq_refl)|].
      unfold ebind, lift, update_state, get_state. cbn [vget Z.ltb Z.compare].
      cbn [Z.to_nat nth_error bind].
      cbn [ideal_objectives set_ideal_objectives].
      cbn zeta in E. rewrite <- Estart, Eu, E. reflexivity.
    + unfold ebind, lift, update_state, get_state, ret.
      cbn zeta in E. cbn beta zeta. rewrite <- Estart, Eu, E. reflexivity.
Qed.

Lemma update_ideal_objectives_minimum_witness :
  exists ideal,
    update_ideal_objectives settings_MO_real two_objective_generation true
      state_real
    = (set_ideal_objectives state_real ideal, Ok tt) /\
    vsize ideal
    = vsize (ideal_start settings_MO_real two_objective_generation true
               state_real) /\
    forall k, 0 <= k < vsize ideal ->
      exists x a,
        vget ideal k = Ok x /\
        vget (ideal_start settings_MO_real two_objective_generation true
                state_real) k = Ok a /\
        (x <= a)%R /\
        (forall c o, In c (chromosomes two_objective_generation) ->
                     vget (reduce_objectives settings_MO_real (objectives c)) k
                     = Ok o ->
                     (x <= o)%R) /\
        (x = a \/
         exists c, In c (chromosomes two_objective_generation) /\
                   vget (reduce_objectives settings_MO_real (objectives c)) k
                   = Ok x).
Proof.
  apply (update_ideal_objectives_minimum settings_MO_real
           two_objective_generation true state_real).
  - reflexivity.
  - reflexivity.
  - discriminate.
  - unfold vsize. simpl. lia.
  - repeat constructor.
Defined.


(* ----------------------------------------------------------------- *)
(** ** How many chromosomes the drivers add *)

Section PopulationSize.
Context {F : Type} `{Double F} {Inf : Infinite F} {G M : Type}.
Variable default_genes : G.
Variable default_middle_costs : M.

Local Notation Method := (Eng F G M).
Local Notation Generation := (GenerationType F G M).
Local Notation size g := (vsize (chromosomes g)).

Lemma efor_loop_post {St} (I : Z -> St -> Prop) (body : Z -> St -> Method St)
  (n : nat) :
  forall (i : Z) (x x' : St) (s s' : State F G M),
    I i x ->
    (forall k y y' t t', i <= k < i + Z.of_nat n -> I k y ->
                         body k y t = (t', Ok y') -> I (k + 1) y') ->
    efor_loop n i body x s = (s', Ok x') -> I (i + Z.of_nat n) x'.
Proof.
  induction n as [|n IH]; intros i x x' s s' Hx Hbody E; cbn [efor_loop] in E.
  - unfold ret in E. injection E as _ <-.
    now replace (i + Z.of_nat 0) with i by lia.
  - apply ebind_Ok in E as (s1 & x1 & E1 & E).
    replace (i + Z.of_nat (S n)) with (i + 1 + Z.of_nat n) by lia.
    apply (IH (i + 1) x1 x' s1 s'); [| |exact E].
    + apply (Hbody i x x1 s s1); [lia | exact Hx | exact E1].
    + intros k y y' t t' Hk. apply Hbody. lia.
Qed.

Lemma efor_range_post {St} (I : Z -> St -> Prop) (body : Z -> St -> Method St)
  (lo hi : Z) (x x' : St) (s s' : State F G M) :
  lo <= hi -> I lo x ->
  (forall k y y' t t', lo <= k < hi -> I k y ->
                       body k y t = (t', Ok y') -> I (k + 1) y') ->
  efor_range lo hi body x s = (s', Ok x') -> I hi x'.
Proof.
  intros Hle Hx Hbody E. unfold efor_range in E.
  apply (efor_loop_post I) in E.
  - now replace (lo + Z.of_nat (Z.to_nat (hi - lo))) with hi in E by lia.
  - exact Hx.
  - intros k y y' t t' Hk. apply Hbody. lia.
Qed.

(** An accepted chromosome is appended, or stored in its slot. *)
Lemma evaluate_and_place_size (cfg : Settings F G M) (g g' : Generation)
  (X : ChromosomeType F G M) (index : Z) (accepted : bool) :
  evaluate_and_place cfg g X index = Ok (accepted, g') ->
  size g' = size g
            + (if accepted && (is_interactive cfg || (index <? 0))
               then 1 else 0).
Proof.
  unfold evaluate_and_place.
  destruct (is_interactive cfg).
  - destruct (call (eval_solution_IGA cfg)) as [eval| | |]; cbn [bind];
      try discriminate.
    destruct (eval (genes X) (middle_costs X) g) as [middle|];
      intros [= <- <-]; cbn [andb orb].
    + unfold push_back_chromosome. cbn [chromosomes set_chromosomes].
      rewrite vsize_app. reflexivity.
    + lia.
  - destruct (call (eval_solution cfg)) as [eval| | |]; cbn [bind];
      try discriminate.
    destruct (eval (genes X) (middle_costs X)) as [middle|].
    + destruct (Z.leb_spec 0 index) as [Hi|Hi].
      * destruct (vset (chromosomes g) index _) as [cs| | |] eqn:Es;
          cbn [bind]; try discriminate.
        intros [= <- <-]. cbn [chromosomes set_chromosomes andb orb].
        destruct (Z.ltb_spec index 0); [lia|].
        rewrite (vsize_vset _ _ _ _ Es). lia.
      * intros [= <- <-]. cbn [andb orb].
        destruct (Z.ltb_spec index 0); [|lia].
        unfold push_back_chromosome. cbn [chromosomes set_chromosomes].
        rewrite vsize_app. reflexivity.
    + intros [= <- <-]. cbn [andb]. lia.
Qed.

Lemma init_until_accepted_size (fuel : nat) (cfg : Settings F G M) :
  forall (g g' : Generation) (index : Z) (s s' : State F G M),
    init_until_accepted default_genes default_middle_costs fuel cfg g index s
    = (s', Ok g') ->
    size g' = size g + (if is_interactive cfg || (index <? 0) then 1 else 0).
Proof.
  induction fuel as [|fuel IH]; intros g g' index s s' E;
    cbn [init_until_accepted] in E; [discriminate|].
  apply ebind_Ok in E as (s1 & init & _ & E).
  apply ebind_Ok in E as (s2 & X_genes & _ & E).
  apply ebind_Ok in E as (s3 & [accepted g1] & E1 & E).
  unfold lift in E1. injection E1 as _ E1.
  unfold init_population_try in E1.
  apply evaluate_and_place_size in E1.
  destruct accepted.
  - unfold ret in E. injection E as _ <-. exact E1.
  - apply IH in E. cbn [andb] in E1. lia.
Qed.

Lemma vary_until_successful_size (fuel : nat) (cfg : Settings F G M) :
  forall (g g' : Generation) (index : Z) (s s' : State F G M),
    vary_until_successful default_middle_costs fuel cfg g index s
    = (s', Ok g') ->
    size g' = size g + (if is_interactive cfg || (index <? 0) then 1 else 0).
Proof.
  induction fuel as [|fuel IH]; intros g g' index s s' E;
    cbn [vary_until_successful] in E; [discriminate|].
  apply ebind_Ok in E as (s1 & s0 & _ & E).
  apply ebind_Ok in E as (s2 & pidx_c1 & _ & E).
  apply ebind_Ok in E as (s3 & pidx_c2 & _ & E).
  destruct (pidx_c1 =? pidx_c2); [now apply IH in E|].
  apply ebind_Ok in E as (s4 & p1 & _ & E).
  apply ebind_Ok in E as (s5 & p2 & _ & E).
  apply ebind_Ok in E as (s6 & cross & _ & E).
  apply ebind_Ok in E as (s7 & X_genes & _ & E).
  apply ebind_Ok in E as (s8 & r & _ & E).
  apply ebind_Ok in E as (s9 & X_genes' & _ & E).
  apply ebind_Ok in E as (s10 & [successful g1] & E1 & E).
  unfold lift in E1. injection E1 as _ E1.
  apply evaluate_and_place_size in E1.
  destruct successful.
  - unfold ret in E. injection E as _ <-. exact E1.
  - apply IH in E. cbn [andb] in E1. lia.
Qed.

Lemma action_range_size (cfg : Settings F G M)
  (step : Generation -> Z -> Method Generation) :
  (forall g g' index s s',
     step g index s = (s', Ok g') ->
     size g' = size g + (if is_interactive cfg || (index <? 0) then 1 else 0)) ->
  (forall g g' s s',
     efor_range (-1) (-1 + 1) (fun index g => step g index) g s = (s', Ok g') ->
     size g' = size g + 1) /\
  (forall g g' from to s s',
     is_interactive cfg = false -> 0 <= from ->
     efor_range from (to + 1) (fun index g => step g index) g s = (s', Ok g') ->
     size g' = size g).
Proof.
  intros Hstep. split.
  - intros g g' s s' E. unfold efor_range in E. cbn [Z.to_nat Z.sub Z.add] in E.
    change (Z.to_nat (-1 + 1 - -1)) with 1%nat in E. cbn [efor_loop] in E.
    apply ebind_Ok in E as (s1 & g1 & E1 & E).
    unfold ret in E. injection E as _ <-.
    apply Hstep in E1. rewrite orb_true_r in E1. exact E1.
  - intros g g' from to s s' Hi Hfrom E.
    destruct (Z_le_gt_dec from (to + 1)) as [Hle|Hgt].
    + apply (efor_range_post (fun _ g1 => size g1 = size g)) in E;
        [exact E | exact Hle | reflexivity |].
      intros k y y' t t' Hk Hy Ek. apply Hstep in Ek. rewrite Hi in Ek.
      destruct (Z.ltb_spec k 0); [lia|]. cbn [orb] in Ek. lia.
    + unfold efor_range in E. replace (Z.to_nat (to + 1 - from)) with O in E by lia.
      cbn [efor_loop] in E. unfold ret in E. injection E as _ <-. reflexivity.
Qed.

Lemma prefill_size (g : Generation) (N_add : Z) :
  0 <= N_add ->
  size (prefill default_genes default_middle_costs g N_add) = size g + N_add.
Proof.
  intros HN. unfold prefill. cbn [chromosomes set_chromosomes].
  rewrite vsize_app. unfold vsize at 2. rewrite repeat_length. lia.
Qed.

(** Whichever driver runs it, an action that appends for the index [-1]
    and fills its slot otherwise adds [N_add] chromosomes. *)
Lemma run_action_size (cfg : Settings F G M)
  (action : Generation -> Z -> Z -> Method Generation)
  (g g' : Generation) (N_add : Z) (s s' : State F G M) :
  (forall g g' s s', action g (-1) (-1) s = (s', Ok g') ->
                     size g' = size g + 1) ->
  (forall g g' from to s s',
     is_interactive cfg = false -> 0 <= from ->
     action g from to s = (s', Ok g') -> size g' = size g) ->
  user_request_stop cfg = false -> 0 <= N_add ->
  run_action default_genes default_middle_costs cfg action g N_add s
  = (s', Ok g') ->
  size g' = size g + N_add.
Proof.
  intros Hone Hslot Hstop HN. unfold run_action.
  destruct (negb (multi_threading cfg) || (N_threads cfg =? 1)
            || is_interactive cfg) eqn:Eseq.
  - unfold sequential_action. rewrite Hstop. intros E.
    apply (efor_range_post (fun k g1 => size g1 = size g + k)) in E;
      [exact E | exact HN | lia |].
    intros k y y' t t' Hk Hy Ek. apply Hone in Ek. lia.
  - apply orb_false_iff in Eseq as [_ Hi].
    pose proof (vsize_nonneg (chromosomes g)) as Hnn.
    assert (Hoff : 0 <= u32 (size g))
      by (unfold u32; apply Z.mod_pos_bound; lia).
    destruct (dynamic_threading cfg).
    + unfold dynamic_thread_action. rewrite Hstop. intros E.
      apply (efor_range_post
               (fun _ g1 => size g1 = size g + N_add)) in E;
        [exact E | exact HN | now apply prefill_size |].
      intros k y y' t t' Hk Hy Ek.
      apply Hslot in Ek; [lia | exact Hi | lia].
    + unfold static_thread_action. intros E.
      apply ebind_Ok in E as (s1 & [g1 x_end] & E1 & E).
      unfold ret in E. injection E as _ <-.
      destruct (Z_le_gt_dec 0 (N_threads cfg)) as [Hle|Hgt].
      * apply (efor_range_post
                 (fun _ '(g1, x_index_start) =>
                    size g1 = size g + N_add /\ 0 <= x_index_start)) in E1.
        -- exact (proj1 E1).
        -- exact Hle.
        -- split; [now apply prefill_size | exact Hoff].
        -- intros k [y x_start] [y' x_start'] t t' Hk [Hy Hx] Ek.
           apply ebind_Ok in Ek as (t1 & y1 & Ey & Ek).
           unfold ret in Ek. injection Ek as _ <- <-.
           assert (Hy1 : size y1 = size y).
           { destruct (x_start <=? _) in Ey.
             - apply Hslot in Ey; [exact Ey | exact Hi | exact Hx].
             - unfold ret in Ey. injection Ey as _ <-. reflexivity. }
           split; [lia|].
           pose proof (vsize_nonneg (chromosomes y)).
           destruct (k + 1 =? N_threads cfg); lia.
      * unfold efor_range in E1.
        replace (Z.to_nat (N_threads cfg - 0)) with O in E1 by lia.
        cbn [efor_loop] in E1. unfold ret in E1. injection E1 as _ <- _.
        now apply prefill_size.
Qed.

(** X18.  With no stop requested and [0 <= population < 2^31],
    whichever driver is configured, [init_population] returns a generation
    of [population] chromosomes more than the user's initial solutions that
    were accepted: the count of solutions still to add is taken before the
    user's solutions are evaluated, so these come on top. *)
Theorem init_population_size (fuel : nat) (cfg : Settings F G M)
  (generation0 g' : Generation) (s s' : State F G M) :
  user_request_stop cfg = false ->
  0 <= population cfg < 2 ^ 31 ->
  init_population default_genes default_middle_costs fuel cfg generation0 s
  = (s', Ok g') ->
  exists g0,
    add_user_solutions default_middle_costs cfg (user_initial_solutions cfg)
      (set_chromosomes generation0 []) = Ok g0 /\
    size g' = size g0 + population cfg /\
    (user_initial_solutions cfg = [] -> size g' = population cfg).
Proof.
  intros Hstop HP E. unfold init_population in E.
  apply ebind_Ok in E as (s1 & g0 & E0 & E).
  unfold lift in E0. injection E0 as _ E0.
  cbn [chromosomes set_chromosomes] in E.
  change (vsize (@nil (ChromosomeType F G M))) with 0 in E.
  change (u32 0) with 0 in E.
  assert (EN : u32 (Z.max 0 (population cfg - 0)) = population cfg)
    by (unfold u32; rewrite Z.sub_0_r, Z.max_r by lia; apply Z.mod_small; lia).
  rewrite EN in E.
  destruct (action_range_size cfg
              (fun g index =>
                 init_until_accepted default_genes default_middle_costs fuel
                   cfg g index)) as [Hone Hslot].
  { intros g1 g2 index t t'. apply init_until_accepted_size. }
  apply (run_action_size cfg _ g0 g' (population cfg) s1 s') in E.
  - exists g0. split; [exact E0|]. split; [exact E|].
    intros Hnone. rewrite Hnone in E0. cbn [add_user_solutions] in E0.
    injection E0 as <-. cbn [chromosomes set_chromosomes] in E.
    change (vsize (@nil (ChromosomeType F G M))) with 0 in E. lia.
  - intros g1 g2 t t'. unfold init_population_range. apply Hone.
  - intros g1 g2 from to t t'. unfold init_population_range. apply Hslot.
  - exact Hstop.
  - lia.
Qed.

(** X19.  With no stop requested, the three checks passed and the step
    counter beyond 0, whichever driver is configured,
    [crossover_and_mutation] adds exactly [round(population *
    crossover_fraction)] chromosomes to the generation it is given; at a
    step that is not beyond 0 it returns the generation unchanged. *)
Theorem crossover_and_mutation_size (fuel : nat) (cfg : Settings F G M)
  (g g' : Generation) (s s' : State F G M) :
  user_request_stop cfg = false ->
  variation_error cfg = None ->
  crossover_and_mutation default_genes default_middle_costs fuel cfg g s
  = (s', Ok g') ->
  (generation_step s <= 0 -> g' = g /\ s' = s) /\
  (0 < generation_step s ->
   size g' = size g
             + u32 (d_round (d_mul (d_of_int (population cfg))
                               (crossover_fraction cfg)))).
Proof.
  intros Hstop Herr E. unfold crossover_and_mutation in E. rewrite Hstop in E.
  unfold variation_error, crossover_fraction_out_of_range,
    mutation_rate_out_of_range, interactive_fractions_mismatch in Herr.
  destruct (d_leb (crossover_fraction cfg) (d_of_int 0)
            || d_gtb (crossover_fraction cfg) (d_of_int 1)); [discriminate|].
  destruct (d_ltb (mutation_rate cfg) (d_of_int 0)
            || d_gtb (mutation_rate cfg) (d_of_int 1)); [discriminate|].
  unfold ebind, get_state in E.
  destruct (Z.leb_spec (generation_step s) 0) as [Hle|Hgt].
  - unfold ret in E. injection E as <- <-.
    split; [intros _; split; reflexivity | intros; lia].
  - split; [intros; lia|]. intros _.
    match type of Herr with
    | (if ?b then _ else _) = _ => destruct b; [discriminate|]
    end.
    destruct (action_range_size cfg
                (fun g index =>
                   vary_until_successful default_middle_costs fuel cfg g
                     index)) as [Hone Hslot].
    { intros g1 g2 index t t'. apply vary_until_successful_size. }
    apply (run_action_size cfg _ g g' _ s s') in E.
    + exact E.
    + intros g1 g2 t t'. unfold crossover_and_mutation_range. apply Hone.
    + intros g1 g2 from to t t'. unfold crossover_and_mutation_range.
      apply Hslot.
    + exact Hstop.
    + unfold u32. apply Z.mod_pos_bound. lia.
Qed.

End PopulationSize.


(* ----------------------------------------------------------------- *)
(** ** The generation loop *)

Section Generations.
Context {F : Type} `{Double F} {Inf : Infinite F} {G M : Type}.
Variable std_sort : (Z -> Z -> bool) -> list Z -> list Z.
Variable default_genes : G.
Variable default_middle_costs : M.

Local Notation Method := (Eng F G M).
Local Notation Generation := (GenerationType F G M).

(** The composition rules of [keeps_progress], applied as far as they
    go. *)
Ltac frame_step :=
  first
    [ apply keeps_progress_ret
    | apply keeps_progress_raise
    | apply keeps_progress_lift
    | apply keeps_progress_get_state
    | apply keeps_progress_with_rng
    | apply keeps_progress_update_state; intro; split; reflexivity
    | apply keeps_progress_efor_range; intros
    | apply keeps_progress_ebind; [| intros]
    | match goal with
      | |- keeps_progress (let '(_, _) := ?p in _) => destruct p
      | |- keeps_progress (if ?b then _ else _) => destruct b
      | |- keeps_progress (match ?o with Some _ => _ | None => _ end) =>
          destruct o
      end ].

Ltac frame_steps := repeat frame_step.

Lemma keeps_progress_vary_until_successful fuel (cfg : Settings F G M) :
  forall g index,
    keeps_progress
      (vary_until_successful default_middle_costs fuel cfg g index).
Proof.
  induction fuel as [|fuel IH]; intros g index;
    cbn [vary_until_successful]; frame_steps; apply IH.
Qed.

Lemma keeps_progress_crossover_and_mutation fuel (cfg : Settings F G M) g :
  keeps_progress
    (crossover_and_mutation default_genes default_middle_costs fuel cfg g).
Proof.
  unfold crossover_and_mutation. frame_steps.
  apply keeps_progress_run_action. intros g1 from to.
  unfold crossover_and_mutation_range. frame_steps.
  apply keeps_progress_vary_until_successful.
Qed.

Lemma keeps_progress_select_unblocked fuel (g : Generation) :
  forall blocked, keeps_progress (select_unblocked fuel g blocked).
Proof.
  induction fuel as [|fuel IH]; intros blocked; cbn [select_unblocked];
    frame_steps. apply IH.
Qed.

Lemma keeps_progress_select_population_SO (cfg : Settings F G M) fuel g g2 :
  keeps_progress (select_population_SO cfg fuel g g2).
Proof.
  unfold select_population_SO. frame_steps.
  apply keeps_progress_select_unblocked.
Qed.

Lemma keeps_progress_scalarize_objectives (zb : Matrix.t F) :
  keeps_progress (scalarize_objectives zb : Method unit).
Proof. unfold scalarize_objectives. frame_steps. Qed.

Lemma keeps_progress_niching_step (cfg : Settings F G M) g associated dists st :
  keeps_progress (niching_step cfg g associated dists st).
Proof.
  unfold niching_step. destruct st as [[last_front to_add] niche].
  unfold draw. frame_steps.
Qed.

Lemma keeps_progress_niching_loop fuel (cfg : Settings F G M) g selected
  associated dists :
  forall st,
    keeps_progress (niching_loop fuel cfg g selected associated dists st).
Proof.
  induction fuel as [|fuel IH]; intros [[last_front to_add] niche];
    cbn [niching_loop]; frame_steps;
    first [apply keeps_progress_niching_step | apply IH].
Qed.

Lemma keeps_progress_select_population_MO (cfg : Settings F G M) fuel g g2 :
  keeps_progress (select_population_MO cfg fuel g g2).
Proof.
  unfold select_population_MO. frame_steps;
    first [ apply keeps_progress_update_ideal_objectives
          | apply keeps_progress_scalarize_objectives
          | apply keeps_progress_niching_loop ].
Qed.

Lemma keeps_progress_select_population (cfg : Settings F G M) fuel g g2 :
  keeps_progress (select_population cfg fuel g g2).
Proof.
  unfold select_population.
  destruct (user_request_stop cfg); [apply keeps_progress_ret|].
  destruct (is_single_objective cfg);
    [apply keeps_progress_select_population_SO
    |apply keeps_progress_select_population_MO].
Qed.

Lemma keeps_progress_transfer (cfg : Settings F G M) g :
  keeps_progress (transfer cfg g).
Proof. unfold transfer. frame_steps. Qed.

(** [stop_critera] writes the stall counters only, and without a stop
    request it gives a reason only from step 2 on. *)
Lemma stop_critera_frame (cfg : Settings F G M) s s' r :
  stop_critera cfg s = (s', Ok r) ->
  same_progress s s' /\
  last_generation s' = last_generation s /\
  (r <> Undefined -> user_request_stop cfg = false -> 2 <= generation_step s) /\
  (user_request_stop cfg = true -> r <> Undefined).
Proof.
  unfold stop_critera, ebind, get_state, lift, update_state, ret.
  destruct (Z.ltb_spec (generation_step s) 2) as [Hlt|Hge];
    destruct (user_request_stop cfg) eqn:Hstop; cbn [negb andb].
  2: { intros E. injection E as <- <-. repeat split; congruence. }
  all: destruct (is_single_objective cfg);
    repeat match goal with
           | |- context [vget ?v ?i] => destruct (vget v i); try discriminate
           end;
    cbn [generation_step set_stall_counts average_stall_count best_stall_count];
    repeat match goal with
           | |- context [if ?b then _ else _] => destruct b
           end;
    intros E; injection E as <- <-;
    (split; [split; reflexivity|]); (split; [reflexivity|]);
    (split; [intros; first [congruence | lia] | intros; discriminate]).
Qed.


(** One generation, with no stop requested. *)
Lemma solve_next_generation_progress fuel (cfg : Settings F G M) s s' r :
  user_request_stop cfg = false ->
  solve_next_generation std_sort default_genes default_middle_costs fuel cfg s
  = (s', Ok r) ->
  generation_step s' = generation_step s + 1 /\
  generations_so_abs s'
  = generations_so_abs s
    ++ [(best_total_cost (last_generation s'),
         average_cost (last_generation s'))] /\
  (r <> Undefined -> 2 <= generation_step s').
Proof.
  intros Hstop E. unfold solve_next_generation in E.
  apply ebind_Ok in E as (s1 & [] & E1 & E).
  unfold update_state in E1. injection E1 as <-.
  apply ebind_Ok in E as (s2 & g1 & E2 & E).
  apply (keeps_progress_run _ _ _ _ (keeps_progress_transfer _ _)) in E2.
  apply ebind_Ok in E as (s3 & g2 & E3 & E).
  apply (keeps_progress_run _ _ _ _
           (keeps_progress_crossover_and_mutation _ _ _)) in E3.
  apply ebind_Ok in E as (s4 & g3 & E4 & E).
  unfold lift in E4. injection E4 as <- _.
  apply ebind_Ok in E as (s5 & g4 & E5 & E).
  unfold lift in E5. injection E5 as <- _.
  apply ebind_Ok in E as (s6 & g5 & E6 & E).
  apply (keeps_progress_run _ _ _ _
           (keeps_progress_select_population _ _ _ _)) in E6.
  apply ebind_Ok in E as (s7 & g6 & E7 & E).
  unfold lift in E7. injection E7 as <- _.
  apply ebind_Ok in E as (s8 & g7 & E8 & E).
  unfold lift in E8. injection E8 as <- _.
  apply ebind_Ok in E as (s9 & [] & E9 & E).
  rewrite Hstop in E9. cbn [negb] in E9.
  apply ebind_Ok in E9 as (s10 & [] & E10 & E9).
  unfold update_state in E10. injection E10 as <-.
  apply (keeps_progress_run _ _ _ _ (keeps_progress_report_generation _ _))
    in E9.
  apply ebind_Ok in E as (s11 & [] & E11 & E).
  unfold update_state in E11. injection E11 as <-.
  apply stop_critera_frame in E as ([Hh Hs] & Hlast & Hreason & _).
  destruct E2 as [H2 S2], E3 as [H3 S3], E6 as [H6 S6], E9 as [H9 S9].
  cbn in *.
  split; [congruence|]. split.
  - rewrite Hh, Hlast, H9, H6, H3, H2. reflexivity.
  - intros Hr. specialize (Hreason Hr Hstop). congruence.
Qed.

(** X20.  With no stop requested, a call of [solve_next_generation] that
    returns has advanced [generation_step] by one and pushed one summary to
    [generations_so_abs], that of the generation it leaves in
    [last_generation]; it gives a reason to stop only from step 2 on. *)
Theorem solve_next_generation_pushes_summary fuel (cfg : Settings F G M)
  s s' r :
  user_request_stop cfg = false ->
  solve_next_generation std_sort default_genes default_middle_costs fuel cfg s
  = (s', Ok r) ->
  generation_step s' = generation_step s + 1 /\
  generations_so_abs s'
  = generations_so_abs s
    ++ [(best_total_cost (last_generation s'),
         average_cost (last_generation s'))] /\
  (r <> Undefined -> 2 <= generation_step s').
Proof. apply solve_next_generation_progress. Qed.

Lemma solve_loop_progress (cfg : Settings F G M) :
  user_request_stop cfg = false ->
  forall fuel s s' r,
    solve_loop std_sort default_genes default_middle_costs fuel cfg s
    = (s', Ok r) ->
    r <> Undefined /\ 2 <= generation_step s' /\
    generation_step s < generation_step s' /\
    vsize (generations_so_abs s') - generation_step s'
    = vsize (generations_so_abs s) - generation_step s.
Proof.
  intros Hstop fuel. induction fuel as [|fuel IH]; intros s s' r E;
    [discriminate|].
  cbn [solve_loop] in E.
  apply ebind_Ok in E as (s1 & stop & E1 & E).
  destruct (solve_next_generation_progress _ _ _ _ _ Hstop E1) as (Hs & Hh & Hr).
  assert (Hlen : vsize (generations_so_abs s1)
                 = vsize (generations_so_abs s) + 1)
    by (rewrite Hh, vsize_app; reflexivity).
  assert (Hdone : stop <> Undefined -> (s1, Ok stop) = (s', Ok r) ->
                  r <> Undefined /\ 2 <= generation_step s' /\
                  generation_step s < generation_step s' /\
                  vsize (generations_so_abs s') - generation_step s'
                  = vsize (generations_so_abs s) - generation_step s).
  { intros Hne [= <- <-]. specialize (Hr Hne).
    split; [exact Hne|]. lia. }
  destruct stop; try (apply Hdone; [discriminate|exact E]).
  destruct (IH s1 s' r E) as (Hr' & H2 & Hlt & Hd).
  split; [exact Hr'|]. lia.
Qed.

(** X21.  With no stop requested, a call of [solve()] that returns has
    run at least two generations after the initial one, whatever
    [generation_max] is, returns a reason other than [Undefined], and has
    pushed one summary for generation 0 and one for each generation:
    [generations_so_abs] has grown by [generation_step + 1] entries. *)
Theorem solve_runs_two_generations fuel (cfg : Settings F G M) s s' r :
  user_request_stop cfg = false ->
  solve std_sort default_genes default_middle_costs fuel cfg s = (s', Ok r) ->
  r <> Undefined /\ 2 <= generation_step s' /\
  vsize (generations_so_abs s')
  = vsize (generations_so_abs s) + generation_step s' + 1.
Proof.
  intros Hstop E. unfold solve in E.
  apply ebind_Ok in E as (s1 & [] & E1 & E).
  destruct (solve_init_pushes_generation_0 _ _ _ _ _ _ _ E1 Hstop)
    as (_ & Hstep & summary & Hpush).
  destruct (solve_loop_progress cfg Hstop _ _ _ _ E) as (Hr & H2 & _ & Hd).
  split; [exact Hr|]. split; [exact H2|].
  rewrite Hpush, vsize_app in Hd. change (vsize [summary]) with 1 in Hd. lia.
Qed.

(** X22.  With a stop requested before the call, [solve_next_generation]
    computes nothing and, when it returns, has replaced [last_generation]
    by a default-constructed, empty generation: the population of the run
    is gone.  It pushes no summary and its reason is never [Undefined]. *)
Theorem solve_next_generation_user_stop fuel (cfg : Settings F G M) s s' r :
  user_request_stop cfg = true ->
  solve_next_generation std_sort default_genes default_middle_costs fuel cfg s
  = (s', Ok r) ->
  last_generation s' = default_generation /\
  chromosomes (last_generation s') = [] /\
  generations_so_abs s' = generations_so_abs s /\
  generation_step s' = generation_step s + 1 /\
  r <> Undefined.
Proof.
  intros Hstop E. unfold solve_next_generation in E.
  unfold transfer, crossover_and_mutation, finalize_objectives,
    rank_population, select_population, finalize_generation in E.
  rewrite Hstop in E. cbn [negb] in E.
  unfold ebind at 1 2 3 4 5 6 7 8 9 10 in E.
  unfold update_state at 1, ret at 1 2 3 4, lift at 1 2 3 4, update_state at 1
    in E.
  apply stop_critera_frame in E as ([Hh Hs] & Hlast & _ & Hr).
  cbn in Hh, Hs, Hlast.
  split; [exact Hlast|]. split; [rewrite Hlast; reflexivity|].
  split; [exact Hh|]. split; [exact Hs|]. exact (Hr Hstop).
Qed.

(** X23.  In the single-objective modes, with a stop requested while
    [generations_so_abs] holds fewer than two summaries,
    [solve_next_generation] ends in [stop_critera] reading an element
    before the beginning of [generations_so_abs]. *)
Theorem stop_request_short_history fuel (cfg : Settings F G M) s :
  user_request_stop cfg = true ->
  is_single_objective cfg = true ->
  vsize (generations_so_abs s) < 2 ->
  stop_critera cfg s = (s, Fault) /\
  exists s',
    solve_next_generation std_sort default_genes default_middle_costs fuel cfg s
    = (s', Fault).
Proof.
  intros Hstop Hso Hshort.
  assert (Hstopc : forall t, vsize (generations_so_abs t) < 2 ->
                             stop_critera cfg t = (t, Fault)).
  { intros t Ht. unfold stop_critera, ebind, get_state.
    rewrite Hstop, Hso, andb_false_r. unfold lift.
    assert (Ev : vget (generations_so_abs t) (vsize (generations_so_abs t) - 2)
                 = Fault).
    { unfold vget. destruct (Z.ltb_spec (vsize (generations_so_abs t) - 2) 0);
        [reflexivity|lia]. }
    rewrite Ev. reflexivity. }
  split; [now apply Hstopc|].
  unfold solve_next_generation.
  unfold transfer, crossover_and_mutation, finalize_objectives,
    rank_population, select_population, finalize_generation.
  rewrite Hstop. cbn [negb].
  unfold ebind at 1 2 3 4 5 6 7 8 9 10.
  unfold update_state at 1, ret at 1 2 3 4, lift at 1 2 3 4, update_state at 1.
  eexists. apply Hstopc. exact Hshort.
Qed.

(** X24.  A configuration that [check_settings] refuses makes [solve()]
    throw that error at once, the engine untouched: no callback has been
    called, no draw of the generator consumed, nothing recorded. *)
Theorem solve_rejects_bad_settings fuel (cfg : Settings F G M) s w :
  check_settings cfg = Throw w ->
  solve std_sort default_genes default_middle_costs fuel cfg s = (s, Throw w).
Proof.
  intros E. unfold solve, ebind.
  rewrite (solve_init_check_settings std_sort default_genes
             default_middle_costs fuel cfg s w E).
  reflexivity.
Qed.

End Generations.


(** A run that is known to return [a] is the pair of its final state and
    [Ok a]. *)
Lemma run_result {St A} (run : St * outcome A) (a : A) :
  snd run = Ok a -> run = (fst run, Ok a).
Proof. destruct run as [s o]. cbn. now intros ->. Qed.

Lemma returned_result {F G M} `{Double F}
  (run : State F G M * outcome (GenerationType F G M)) :
  (exists g, snd run = Ok g) -> run = (fst run, Ok (returned run)).
Proof.
  destruct run as [s o]. unfold returned. cbn. intros [g ->]. reflexivity.
Qed.

Lemma init_population_size_witness :
  exists g0,
    add_user_solutions (d_of_int 0) sphere_settings
      (user_initial_solutions sphere_settings)
      (set_chromosomes (mkGeneration [] (d_of_int 0) (d_of_int 0) (-1) [] [] [])
         []) = Ok g0 /\
    vsize (chromosomes (returned sphere_population0))
    = vsize (chromosomes g0) + population sphere_settings /\
    (user_initial_solutions sphere_settings = [] ->
     vsize (chromosomes (returned sphere_population0))
     = population sphere_settings).
Proof.
  apply (init_population_size (d_of_int 0) (d_of_int 0) 50 sphere_settings
           (mkGeneration [] (d_of_int 0) (d_of_int 0) (-1) [] [] [])
           (returned sphere_population0) sphere_start (fst sphere_population0)).
  - reflexivity.
  - vm_compute. split; [discriminate|reflexivity].
  - apply (returned_result sphere_population0).
    eexists. vm_compute. reflexivity.
Defined.

Lemma crossover_and_mutation_size_witness :
  (generation_step (set_generation_step sphere_after_init 1) <= 0 ->
   returned sphere_offspring = last_generation sphere_after_init /\
   fst sphere_offspring = set_generation_step sphere_after_init 1) /\
  (0 < generation_step (set_generation_step sphere_after_init 1) ->
   vsize (chromosomes (returned sphere_offspring))
   = vsize (chromosomes (last_generation sphere_after_init))
     + u32 (d_round (d_mul (d_of_int (population sphere_settings))
                       (crossover_fraction sphere_settings)))).
Proof.
  apply (crossover_and_mutation_size (d_of_int 0) (d_of_int 0) 50
           sphere_settings (last_generation sphere_after_init)
           (returned sphere_offspring)
           (set_generation_step sphere_after_init 1) (fst sphere_offspring)).
  - reflexivity.
  - vm_compute. reflexivity.
  - apply (returned_result sphere_offspring).
    eexists. vm_compute. reflexivity.
Defined.

Lemma solve_next_generation_pushes_summary_witness :
  generation_step (fst sphere_first_generation)
  = generation_step sphere_after_init + 1 /\
  generations_so_abs (fst sphere_first_generation)
  = generations_so_abs sphere_after_init
    ++ [(best_total_cost (last_generation (fst sphere_first_generation)),
         average_cost (last_generation (fst sphere_first_generation)))] /\
  (Undefined <> Undefined -> 2 <= generation_step (fst sphere_first_generation)).
Proof.
  apply (solve_next_generation_pushes_summary insertion_sort (d_of_int 0)
           (d_of_int 0) 50 sphere_settings sphere_after_init
           (fst sphere_first_generation) Undefined).
  - reflexivity.
  - apply (run_result sphere_first_generation).
    vm_compute. reflexivity.
Defined.

Lemma solve_runs_two_generations_witness :
  StallBest <> Undefined /\
  2 <= generation_step (fst sphere_whole_run) /\
  vsize (generations_so_abs (fst sphere_whole_run))
  = vsize (generations_so_abs sphere_start)
    + generation_step (fst sphere_whole_run) + 1.
Proof.
  apply (solve_runs_two_generations insertion_sort (d_of_int 0) (d_of_int 0)
           50 sphere_settings sphere_start (fst sphere_whole_run) StallBest).
  - reflexivity.
  - apply (run_result sphere_whole_run).
    vm_compute. reflexivity.
Defined.

Lemma solve_next_generation_user_stop_witness :
  last_generation
    (fst (solve_next_generation insertion_sort 0 tt 50 settings_stop_requested
            (state_at 3 (ratio 1 2)
               [(ratio 1 1, ratio 1 1); (ratio 1 1, ratio 1 1)])))
  = default_generation /\
  chromosomes
    (last_generation
       (fst (solve_next_generation insertion_sort 0 tt 50
               settings_stop_requested
               (state_at 3 (ratio 1 2)
                  [(ratio 1 1, ratio 1 1); (ratio 1 1, ratio 1 1)]))))
  = [] /\
  generations_so_abs
    (fst (solve_next_generation insertion_sort 0 tt 50 settings_stop_requested
            (state_at 3 (ratio 1 2)
               [(ratio 1 1, ratio 1 1); (ratio 1 1, ratio 1 1)])))
  = generations_so_abs
      (state_at 3 (ratio 1 2) [(ratio 1 1, ratio 1 1); (ratio 1 1, ratio 1 1)]) /\
  generation_step
    (fst (solve_next_generation insertion_sort 0 tt 50 settings_stop_requested
            (state_at 3 (ratio 1 2)
               [(ratio 1 1, ratio 1 1); (ratio 1 1, ratio 1 1)])))
  = generation_step
      (state_at 3 (ratio 1 2) [(ratio 1 1, ratio 1 1); (ratio 1 1, ratio 1 1)])
    + 1 /\
  UserRequest <> Undefined.
Proof.
  apply (solve_next_generation_user_stop insertion_sort 0 tt 50
           settings_stop_requested
           (state_at 3 (ratio 1 2)
              [(ratio 1 1, ratio 1 1); (ratio 1 1, ratio 1 1)])).
  - reflexivity.
  - apply (run_result
             (solve_next_generation insertion_sort 0 tt 50
                settings_stop_requested
                (state_at 3 (ratio 1 2)
                   [(ratio 1 1, ratio 1 1); (ratio 1 1, ratio 1 1)]))).
    vm_compute. reflexivity.
Defined.

Lemma stop_request_short_history_witness :
  stop_critera settings_stop_requested (state_at 1 (ratio 1 2) [])
  = (state_at 1 (ratio 1 2) [], Fault) /\
  exists s',
    solve_next_generation insertion_sort 0 tt 50 settings_stop_requested
      (state_at 1 (ratio 1 2) [])
    = (s', Fault).
Proof.
  apply (stop_request_short_history insertion_sort 0 tt 50
           settings_stop_requested (state_at 1 (ratio 1 2) [])).
  - reflexivity.
  - reflexivity.
  - vm_compute. reflexivity.
Defined.

Lemma solve_rejects_bad_settings_witness :
  solve insertion_sort (d_of_int 0) (d_of_int 0) 50
    (settings_sphere 0 (ratio 7 10)) sphere_start
  = (sphere_start, Throw "population is below 1.").
Proof.
  apply (solve_rejects_bad_settings insertion_sort (d_of_int 0) (d_of_int 0)
           50 (settings_sphere 0 (ratio 7 10)) sphere_start
           "population is below 1.").
  vm_compute. reflexivity.
Defined.

(* ----------------------------------------------------------------- *)
(** ** What the single-objective selection keeps *)

Section Selection.
Context {F : Type} `{Double F} {Inf : Infinite F} {G M : Type}.

Local Notation Method := (Eng F G M).
Local Notation Generation := (GenerationType F G M).

Lemma vget_In {A} (v : list A) (i : Z) (x : A) : vget v i = Ok x -> In x v.
Proof. intro E. apply vget_inv in E as [_ E]. exact (nth_error_In _ _ E). Qed.

Lemma select_unblocked_in_range fuel (g : Generation) :
  forall blocked j s s',
    select_unblocked fuel g blocked s = (s', Ok j) ->
    existsb (fun b => b =? j) blocked = false.
Proof.
  induction fuel as [|fuel IH]; intros blocked j s s' E;
    cbn [select_unblocked] in E; [discriminate|].
  apply ebind_Ok in E as (s1 & j1 & _ & E).
  destruct (existsb (fun b => b =? j1) blocked) eqn:Eb.
  - exact (IH _ _ _ _ E).
  - unfold ret in E. injection E as _ <-. exact Eb.
Qed.

(** X25.  [select_population_SO] at a generation step above 0, with
    [0 <= elite_count <= population]: when it returns, it has appended
    exactly [population] chromosomes to [g2], all of them chromosomes of
    [g]; the first [elite_count] are the best ranked of [g], in rank order
    ([g.chromosomes[g.sorted_indices[i]]]).  At a step of 0 or below it
    returns [g] itself. *)
Theorem select_population_SO_takes_population (cfg : Settings F G M) fuel
  (g g2 g' : Generation) (s s' : State F G M) :
  0 <= elite_count cfg <= population cfg ->
  select_population_SO cfg fuel g g2 s = (s', Ok g') ->
  (generation_step s <= 0 -> g' = g) /\
  (0 < generation_step s ->
   exists elite rest,
     chromosomes g' = chromosomes g2 ++ elite ++ rest /\
     vsize elite = elite_count cfg /\
     vsize rest = population cfg - elite_count cfg /\
     (forall i, 0 <= i < elite_count cfg ->
        exists e c, vget (sorted_indices g) i = Ok e /\
                    vget (chromosomes g) e = Ok c /\
                    vget elite i = Ok c) /\
     Forall (fun c => In c (chromosomes g)) (elite ++ rest)).
Proof.
  intros Helite E. unfold select_population_SO in E.
  apply ebind_Ok in E as (s1 & s0 & E0 & E).
  unfold get_state in E0. injection E0 as <- <-.
  destruct (Z.leb_spec (generation_step s) 0) as [Hstep|Hstep].
  - unfold ret in E. injection E as _ <-. split; [reflexivity|lia].
  - split; [lia|]. intros _.
    apply ebind_Ok in E as (s1 & [g2a blocked] & E1 & E).
    unfold lift in E1. injection E1 as <- E1.
    apply ebind_Ok in E as (s2 & [g2b blocked'] & E2 & E).
    unfold ret in E. injection E as _ <-.
    unfold for_range in E1.
    apply (for_loop_post
             (fun k (st : Generation * list Z) =>
                exists elite,
                  chromosomes (fst st) = chromosomes g2 ++ elite /\
                  vsize elite = k /\
                  (forall i, 0 <= i < k ->
                     exists e c, vget (sorted_indices g) i = Ok e /\
                                 vget (chromosomes g) e = Ok c /\
                                 vget elite i = Ok c) /\
                  Forall (fun c => In c (chromosomes g)) elite)) in E1.
    + destruct E1 as (elite & Ee & Hsize & Hrank & Hin). cbn [fst] in Ee.
      replace (0 + Z.of_nat (Z.to_nat (elite_count cfg - 0)))
        with (elite_count cfg) in * by lia.
      apply (efor_range_post
               (fun k (st : Generation * list Z) =>
                  exists rest,
                    chromosomes (fst st) = chromosomes g2 ++ elite ++ rest /\
                    vsize rest = k /\
                    Forall (fun c => In c (chromosomes g)) rest)) in E2.
      * destruct E2 as (rest & Er & Hrest & Hin'). cbn [fst] in Er.
        exists elite, rest. repeat split; try assumption.
        apply Forall_app. split; assumption.
      * lia.
      * exists []. cbn [fst]. rewrite app_nil_r. repeat split; auto.
      * intros k [y yb] [y' yb'] t t' Hk (rest & Er & Hrest & Hin') Eb.
        cbn [fst] in Er.
        apply ebind_Ok in Eb as (t1 & j & _ & Eb).
        apply ebind_Ok in Eb as (t2 & c & Ec & Eb).
        apply ebind_Ok in Eb as (t3 & e & _ & Eb).
        unfold ret in Eb. injection Eb as _ <- _.
        unfold lift in Ec. injection Ec as _ Ec.
        exists (rest ++ [c]). cbn [fst chromosomes set_chromosomes].
        rewrite Er, <- !app_assoc. split; [reflexivity|].
        split; [rewrite vsize_app; unfold vsize at 2; cbn; lia|].
        apply Forall_app. split; [assumption|].
        constructor; [exact (vget_In _ _ _ Ec)|constructor].
    + exists []. cbn [fst]. rewrite app_nil_r. repeat split; auto.
      intros i Hi. lia.
    + intros k [y yb] [y' yb'] Hk (elite & Ee & Hsize & Hrank & Hin) Eb.
      cbn [fst] in Ee.
      destruct (vget (sorted_indices g) k) as [e| | |] eqn:Ek;
        cbn [bind] in Eb; try discriminate.
      destruct (vget (chromosomes g) e) as [c| | |] eqn:Ec;
        cbn [bind] in Eb; try discriminate.
      injection Eb as <- _.
      exists (elite ++ [c]). cbn [fst chromosomes set_chromosomes].
      rewrite Ee, <- app_assoc. split; [reflexivity|].
      split; [rewrite vsize_app; unfold vsize at 2; cbn; lia|].
      split.
      * intros i Hi. destruct (Z.eq_dec i k) as [->|Hne].
        -- exists e, c. split; [assumption|]. split; [assumption|].
           rewrite <- Hsize. apply vget_app_last.
        -- destruct (Hrank i) as (e' & c' & H1 & H2 & H3); [lia|].
           exists e', c'. split; [assumption|]. split; [assumption|].
           rewrite vget_app_l by lia. assumption.
      * apply Forall_app. split; [assumption|].
        constructor; [exact (vget_In _ _ _ Ec)|constructor].
Qed.

End Selection.

(* ----------------------------------------------------------------- *)
(** ** The first front of rank_population_MO *)

Section ParetoFront.
Context {F : Type} `{Double F} {G M : Type}.
Variable gen : GenerationType F G M.

(** Chromosome [a] dominates chromosome [k]. *)
Local Notation D a k :=
  (exists ca ck, vget (chromosomes gen) a = Ok ca /\
                 vget (chromosomes gen) k = Ok ck /\
                 dominates ca ck = Ok true).

(** [dominated_count[k]] is never negative, and it is 0 exactly when no
    chromosome compared with [k] so far (the pairs in [S]) dominates it. *)
Local Notation counted S dc :=
  (forall k c, vget dc k = Ok c ->
     0 <= c /\ (c = 0 <-> forall a, S a k -> ~ D a k)).

Lemma counted_weaken (S S' : Z -> Z -> Prop) (dc : list Z) :
  (forall a k, D a k -> (S a k <-> S' a k)) ->
  counted S dc -> counted S' dc.
Proof.
  intros HS Hc k c Ek. destruct (Hc k c Ek) as [H0 Hiff].
  split; [assumption|]. rewrite Hiff. split; intros Hall a Ha Hd.
  - apply (Hall a); [apply (HS a k Hd); exact Ha | exact Hd].
  - apply (Hall a); [apply (HS a k Hd); exact Ha | exact Hd].
Qed.

Lemma counted_step (S : Z -> Z -> Prop) (dc dc' : list Z) (u t : Z) (b : bool)
  (cu ct : ChromosomeType F G M) :
  vget (chromosomes gen) u = Ok cu -> vget (chromosomes gen) t = Ok ct ->
  dominates cu ct = Ok b ->
  counted S dc ->
  (if b then exists c, vget dc t = Ok c /\ vset dc t (c + 1) = Ok dc'
   else dc' = dc) ->
  counted (fun a k => S a k \/ (a = u /\ k = t)) dc'.
Proof.
  intros Eu Et Eb Hc Hstep k c' Ek.
  assert (HD : D u t <-> b = true).
  { split.
    - intros (ca & ck & Ea & Ek' & Ed). rewrite Eu in Ea. rewrite Et in Ek'.
      injection Ea as <-. injection Ek' as <-. rewrite Eb in Ed.
      now injection Ed.
    - intros ->. now exists cu, ct. }
  destruct b.
  - destruct Hstep as (c & Ec & Es).
    destruct (Z.eq_dec k t) as [->|Hne].
    + rewrite (vget_vset_eq _ _ _ _ Es) in Ek. injection Ek as <-.
      destruct (Hc t c Ec) as [H0 _]. split; [lia|]. split; [lia|].
      intros Hall. exfalso. apply (Hall u); [right; now split|].
      now apply HD.
    + rewrite (vget_vset_ne _ _ _ _ _ Es Hne) in Ek.
      destruct (Hc k c' Ek) as [H0 Hiff]. split; [assumption|].
      rewrite Hiff. split; intros Hall a Ha.
      * destruct Ha as [Ha|[_ Ha]]; [now apply Hall | contradiction].
      * apply Hall. now left.
  - subst dc'. destruct (Hc k c' Ek) as [H0 Hiff]. split; [assumption|].
    rewrite Hiff. split; intros Hall a Ha.
    + destruct Ha as [Ha|[-> ->]]; [now apply Hall|].
      intros Hd. apply HD in Hd. discriminate.
    + apply Hall. now left.
Qed.

Lemma next_fronts_keeps_first (fuel : nat) (domination_set : list (list Z)) :
  forall dominated_count all_fronts result,
    next_fronts fuel domination_set dominated_count all_fronts = Ok result ->
    exists more, result = all_fronts ++ more.
Proof.
  induction fuel as [|fuel IH]; intros dc all_fronts result E;
    cbn [next_fronts] in E; [discriminate|].
  destruct (vget all_fronts (vsize all_fronts - 1)) as [last_front| | |];
    cbn [bind] in E; try discriminate.
  match type of E with
  | bind ?loop _ = _ => destruct loop as [[dc' next_front]| | |]
  end; cbn [bind] in E; try discriminate.
  destruct next_front as [|j next_front].
  - injection E as <-. exists []. now rewrite app_nil_r.
  - apply IH in E as (more & ->). exists ((j :: next_front) :: more).
    now rewrite <- app_assoc.
Qed.

Lemma generate_selection_chance_sets_table (population : Z)
  (g g' : GenerationType F G M) (rank : list Z) :
  generate_selection_chance population g rank = Ok g' ->
  exists table, g' = set_selection_chance_cumulative g table.
Proof.
  unfold generate_selection_chance. intros E.
  match type of E with
  | bind ?loop _ = _ => destruct loop as [[acc table]| | |]
  end; cbn [bind] in E; try discriminate.
  match type of E with
  | bind ?loop _ = _ => destruct loop as [table'| | |]
  end; cbn [bind] in E; try discriminate.
  injection E as <-. now exists table'.
Qed.

(** X26.  When [rank_population_MO] returns, the chromosomes are unchanged
    and the first front, [fronts[0]], lists in increasing order exactly the
    chromosomes that no other chromosome of the generation dominates. *)
Theorem rank_population_MO_first_front (cfg : Settings F G M)
  (gen' : GenerationType F G M) :
  rank_population_MO cfg gen = Ok gen' ->
  chromosomes gen' = chromosomes gen /\
  exists pareto_front later,
    fronts gen' = pareto_front :: later /\
    StronglySorted Z.lt pareto_front /\
    forall i, In i pareto_front <->
      0 <= i < vsize (chromosomes gen) /\
      forall j cj ci, j <> i ->
        vget (chromosomes gen) j = Ok cj -> vget (chromosomes gen) i = Ok ci ->
        dominates cj ci <> Ok true.
Proof.
  intros E. unfold rank_population_MO in E. cbn zeta in E.
  match type of E with
  | bind (for_range 0 ?N ?body ?init) _ = _ =>
      destruct (for_range 0 N body init) as [[[ds dc] pf]| | |] eqn:Eloop
  end; cbn [bind] in E; try discriminate.
  destruct (next_fronts _ ds dc [pf]) as [all_fronts| | |] eqn:Enext;
    cbn [bind] in E; try discriminate.
  match type of E with
  | bind ?loop _ = _ => destruct loop as [ranks| | |]
  end; cbn [bind] in E; try discriminate.
  apply generate_selection_chance_sets_table in E as (table & ->).
  apply next_fronts_keeps_first in Enext as (more & ->).
  cbn [chromosomes fronts set_selection_chance_cumulative set_fronts].
  split; [reflexivity|]. exists pf, more. split; [reflexivity|].
  clear more ranks table.
  pose proof (vsize_nonneg (chromosomes gen)) as HN.
  unfold for_range in Eloop.
  apply (for_loop_post
           (fun i (st : list (list Z) * list Z * list Z) =>
              counted (fun a k => a <> k /\ Z.min a k < i) (snd (fst st)) /\
              StronglySorted Z.lt (snd st) /\
              forall k, In k (snd st) <->
                0 <= k < i /\ forall a, a <> k -> ~ D a k)) in Eloop.
  - cbn [fst snd] in Eloop. destruct Eloop as (_ & Hsorted & Hin).
    replace (0 + Z.of_nat (Z.to_nat (vsize (chromosomes gen) - 0)))
      with (vsize (chromosomes gen)) in Hin by lia.
    split; [assumption|]. intros i. rewrite Hin. split.
    + intros [Hi Hnone]. split; [assumption|].
      intros j cj ci Hne Ej Ei Ed. apply (Hnone j Hne). now exists cj, ci.
    + intros [Hi Hnone]. split; [assumption|].
      intros a Hne (ca & ck & Ea & Ek & Ed). exact (Hnone a ca ck Hne Ea Ek Ed).
  - cbn [fst snd]. split; [|split].
    + intros k c Ek. apply vget_repeat in Ek. subst c. split; [lia|].
      split; [|reflexivity]. intros _ a [_ Ha] (ca & ck & Ea & Ek & _).
      apply vget_inv in Ea as [Ha' _]. apply vget_inv in Ek as [Hk' _].
      lia.
    + constructor.
    + intros k. cbn [In]. split; [contradiction|lia].
  - intros i [[ds0 dc0] pf0] [[ds1 dc1] pf1] Hi (Hc & Hsorted & Hin) Ebody.
    cbn [fst snd] in *.
    replace (0 + Z.of_nat (Z.to_nat (vsize (chromosomes gen) - 0)))
      with (vsize (chromosomes gen)) in Hi by lia.
    match type of Ebody with
    | bind (for_loop ?n ?lo ?body ?init) _ = _ =>
        destruct (for_loop n lo body init) as [[[ds2 dc2] pf2]| | |] eqn:Einner
    end; cbn [bind] in Ebody; try discriminate.
    destruct (vget dc2 i) as [count_i| | |] eqn:Ecount; cbn [bind] in Ebody;
      try discriminate.
    injection Ebody as <- <- <-.
    apply (for_loop_post
             (fun j (st : list (list Z) * list Z * list Z) =>
                snd st = pf0 /\
                counted (fun a k =>
                           a <> k /\
                           (Z.min a k < i \/ (Z.min a k = i /\ Z.max a k < j)))
                        (snd (fst st)))) in Einner.
    + cbn [fst snd] in Einner. destruct Einner as [-> Hc2].
      replace (i + 1 + Z.of_nat (Z.to_nat (vsize (chromosomes gen) - (i + 1))))
        with (vsize (chromosomes gen)) in Hc2 by lia.
      split; [|split].
      * revert Hc2. apply counted_weaken.
        intros a k (ca & ck & Ea & Ek & _).
        apply vget_inv in Ea as [Ha _]. apply vget_inv in Ek as [Hk _]. lia.
      * destruct (count_i =? 0); [|assumption].
        clear - Hsorted Hin. 
        assert (Hlt : Forall (fun k => k < i) pf0).
        { apply Forall_forall. intros k Hk. apply Hin in Hk. lia. }
        clear Hin. induction Hsorted as [|x l Hs IH Hx]; cbn [app].
        -- constructor; constructor.
        -- inversion Hlt as [|? ? Hxi Hl]; subst. constructor.
           ++ now apply IH.
           ++ apply Forall_app. split; [assumption|]. constructor; [lia|constructor].
      * intros k.
        assert (Hi_none : count_i = 0 <-> forall a, a <> i -> ~ D a i).
        { destruct (Hc2 i count_i Ecount) as [_ Hiff]. rewrite Hiff.
          split; intros Hall a.
          - intros Hne Hd. apply (Hall a); [|exact Hd].
            destruct Hd as (ca & ck & Ea & Ek & _).
            apply vget_inv in Ea as [Ha _]. lia.
          - intros [Hne _]. now apply Hall. }
        destruct (Z.eqb_spec count_i 0) as [E0|E0].
        -- rewrite in_app_iff, Hin. cbn [In]. split.
           ++ intros [[Hk Hnone]|[<-|[]]].
              ** split; [lia|assumption].
              ** split; [lia|]. now apply Hi_none.
           ++ intros [Hk Hnone]. destruct (Z.eq_dec k i) as [->|Hne].
              ** right. now left.
              ** left. split; [lia|assumption].
        -- rewrite Hin. split.
           ++ intros [Hk Hnone]. split; [lia|assumption].
           ++ intros [Hk Hnone]. destruct (Z.eq_dec k i) as [->|Hne].
              ** exfalso. apply E0. now apply Hi_none.
              ** split; [lia|assumption].
    + cbn [fst snd]. split; [reflexivity|]. revert Hc. apply counted_weaken.
      intros a k _. lia.
    + intros j [[ds3 dc3] pf3] [[ds4 dc4] pf4] Hj [Hpf Hc3] Estep.
      cbn [fst snd] in *. subst pf3.
      destruct (vget (chromosomes gen) i) as [ci| | |] eqn:Eci;
        cbn [bind] in Estep; try discriminate.
      destruct (vget (chromosomes gen) j) as [cj| | |] eqn:Ecj;
        cbn [bind] in Estep; try discriminate.
      destruct (dominates ci cj) as [bi| | |] eqn:Ebi; cbn [bind] in Estep;
        try discriminate.
      match type of Estep with
      | bind ?upd _ = _ => destruct upd as [[ds5 dc5]| | |] eqn:Eupd1
      end; cbn [bind] in Estep; try discriminate.
      destruct (dominates cj ci) as [bj| | |] eqn:Ebj; cbn [bind] in Estep;
        try discriminate.
      match type of Estep with
      | bind ?upd _ = _ => destruct upd as [[ds6 dc6]| | |] eqn:Eupd2
      end; cbn [bind] in Estep; try discriminate.
      injection Estep as <- <- <-. split; [reflexivity|].
      assert (H1 : if bi then exists c, vget dc3 j = Ok c /\
                                        vset dc3 j (c + 1) = Ok dc5
                   else dc5 = dc3).
      { destruct bi.
        - destruct (vget ds3 i) as [set_i| | |]; cbn [bind] in Eupd1;
            try discriminate.
          destruct (vset ds3 i _) as [ds'| | |]; cbn [bind] in Eupd1;
            try discriminate.
          destruct (vget dc3 j) as [c| | |] eqn:Ec; cbn [bind] in Eupd1;
            try discriminate.
          destruct (vset dc3 j (c + 1)) as [dc'| | |] eqn:Es;
            cbn [bind] in Eupd1; try discriminate.
          injection Eupd1 as _ <-. now exists c.
        - injection Eupd1 as _ E5. symmetry. exact E5. }
      assert (H2 : if bj then exists c, vget dc5 i = Ok c /\
                                        vset dc5 i (c + 1) = Ok dc6
                   else dc6 = dc5).
      { destruct bj.
        - destruct (vget ds5 j) as [set_j| | |]; cbn [bind] in Eupd2;
            try discriminate.
          destruct (vset ds5 j _) as [ds'| | |]; cbn [bind] in Eupd2;
            try discriminate.
          destruct (vget dc5 i) as [c| | |] eqn:Ec; cbn [bind] in Eupd2;
            try discriminate.
          destruct (vset dc5 i (c + 1)) as [dc'| | |] eqn:Es;
            cbn [bind] in Eupd2; try discriminate.
          injection Eupd2 as _ <-. now exists c.
        - injection Eupd2 as _ E6. symmetry. exact E6. }
      pose proof (counted_step _ dc3 dc5 i j bi ci cj Eci Ecj Ebi Hc3 H1) as Hc5.
      pose proof (counted_step _ dc5 dc6 j i bj cj ci Ecj Eci Ebj Hc5 H2) as Hc6.
      revert Hc6. apply counted_weaken. intros a k _. lia.
Qed.

End ParetoFront.

(* ----------------------------------------------------------------- *)
(** ** Only accepted chromosomes enter a generation *)

Section Accepted.
Context {F : Type} `{Double F} {Inf : Infinite F} {G M : Type}.
Variable default_genes : G.
Variable default_middle_costs : M.
Variable cfg : Settings F G M.
Hypothesis Hmode : is_interactive cfg = false.

Local Notation Method := (Eng F G M).
Local Notation Generation := (GenerationType F G M).
Local Notation size g := (vsize (chromosomes g)).

(** [eval_solution] accepted the genes of [c] and returned its middle
    costs. *)
Local Notation accepted :=
  (fun c : ChromosomeType F G M =>
     exists eval, eval_solution cfg = Some eval /\
                  eval (genes c) default_middle_costs = Some (middle_costs c)).

(** What one accepted attempt does to the generation: it appends the
    chromosome for a negative index and stores it in its slot otherwise. *)
Local Notation placed g g' index :=
  (exists c, accepted c /\
             if index <? 0 then chromosomes g' = chromosomes g ++ [c]
             else vset (chromosomes g) index c = Ok (chromosomes g')).

Lemma evaluate_and_place_accepted (g g' : Generation)
  (X : ChromosomeType F G M) (index : Z) (success : bool) :
  middle_costs X = default_middle_costs ->
  evaluate_and_place cfg g X index = Ok (success, g') ->
  if success then placed g g' index else g' = g.
Proof.
  intros HX. unfold evaluate_and_place. rewrite Hmode.
  destruct (eval_solution cfg) as [eval|] eqn:Eeval; cbn [call bind];
    [|discriminate].
  rewrite HX.
  destruct (eval (genes X) default_middle_costs) as [middle|] eqn:Emiddle.
  - destruct (Z.leb_spec 0 index) as [Hi|Hi].
    + destruct (vset (chromosomes g) index _) as [cs| | |] eqn:Es;
        cbn [bind]; try discriminate.
      intros [= <- <-].
      exists (mkChromosome (genes X) middle (total_cost X) (objectives X)).
      split.
      * exists eval. split; [reflexivity|]. cbn [genes middle_costs].
        exact Emiddle.
      * destruct (Z.ltb_spec index 0); [lia|].
        cbn [chromosomes set_chromosomes]. exact Es.
    + intros [= <- <-].
      exists (mkChromosome (genes X) middle (total_cost X) (objectives X)).
      split.
      * exists eval. split; [reflexivity|]. cbn [genes middle_costs].
        exact Emiddle.
      * destruct (Z.ltb_spec index 0); [|lia]. reflexivity.
  - intros [= <- <-]. reflexivity.
Qed.

Lemma init_until_accepted_placed (fuel : nat) :
  forall (g g' : Generation) (index : Z) (s s' : State F G M),
    init_until_accepted default_genes default_middle_costs fuel cfg g index s
    = (s', Ok g') ->
    placed g g' index.
Proof.
  induction fuel as [|fuel IH]; intros g g' index s s' E;
    cbn [init_until_accepted] in E; [discriminate|].
  apply ebind_Ok in E as (s1 & init & _ & E).
  apply ebind_Ok in E as (s2 & X_genes & _ & E).
  apply ebind_Ok in E as (s3 & [success g1] & E1 & E).
  unfold lift in E1. injection E1 as _ E1.
  unfold init_population_try in E1.
  apply evaluate_and_place_accepted in E1; [|reflexivity].
  destruct success.
  - unfold ret in E. injection E as _ <-. exact E1.
  - subst g1. exact (IH _ _ _ _ _ E).
Qed.

Lemma vary_until_successful_placed (fuel : nat) :
  forall (g g' : Generation) (index : Z) (s s' : State F G M),
    vary_until_successful default_middle_costs fuel cfg g index s
    = (s', Ok g') ->
    placed g g' index.
Proof.
  induction fuel as [|fuel IH]; intros g g' index s s' E;
    cbn [vary_until_successful] in E; [discriminate|].
  apply ebind_Ok in E as (s1 & s0 & _ & E).
  apply ebind_Ok in E as (s2 & pidx_c1 & _ & E).
  apply ebind_Ok in E as (s3 & pidx_c2 & _ & E).
  destruct (pidx_c1 =? pidx_c2); [exact (IH _ _ _ _ _ E)|].
  apply ebind_Ok in E as (s4 & p1 & _ & E).
  apply ebind_Ok in E as (s5 & p2 & _ & E).
  apply ebind_Ok in E as (s6 & cross & _ & E).
  apply ebind_Ok in E as (s7 & X_genes & _ & E).
  apply ebind_Ok in E as (s8 & r & _ & E).
  apply ebind_Ok in E as (s9 & X_genes' & _ & E).
  apply ebind_Ok in E as (s10 & [successful g1] & E1 & E).
  unfold lift in E1. injection E1 as _ E1.
  apply evaluate_and_place_accepted in E1; [|reflexivity].
  destruct successful.
  - unfold ret in E. injection E as _ <-. exact E1.
  - subst g1. exact (IH _ _ _ _ _ E).
Qed.

(** The slots [from .. to] of the generation after a range action: these
    hold accepted chromosomes and the others are untouched. *)
Local Notation filled g g' from to :=
  (size g' = size g /\
   forall k c, vget (chromosomes g') k = Ok c ->
     (from <= k <= to /\ accepted c) \/
     ((k < from \/ to < k) /\ vget (chromosomes g) k = Ok c)).

Section Drivers.
Variable step : Generation -> Z -> Method Generation.
Hypothesis Hstep :
  forall g g' index s s', step g index s = (s', Ok g') -> placed g g' index.

Local Notation action :=
  (fun g from to => efor_range from (to + 1) (fun index g => step g index) g).

Lemma action_appends (g g' : Generation) (s s' : State F G M) :
  action g (-1) (-1) s = (s', Ok g') ->
  exists c, accepted c /\ chromosomes g' = chromosomes g ++ [c].
Proof.
  intros E. unfold efor_range in E.
  change (Z.to_nat (-1 + 1 - -1)) with 1%nat in E. cbn [efor_loop] in E.
  apply ebind_Ok in E as (s1 & g1 & E1 & E).
  unfold ret in E. injection E as _ <-.
  apply Hstep in E1 as (c & Hc & E1). exists c. split; assumption.
Qed.

Lemma action_fills (g g' : Generation) (from to : Z) (s s' : State F G M) :
  0 <= from ->
  action g from to s = (s', Ok g') ->
  filled g g' from to.
Proof.
  intros Hfrom E.
  destruct (Z_le_gt_dec from (to + 1)) as [Hle|Hgt].
  - apply (efor_range_post
             (fun j (g1 : Generation) =>
                size g1 = size g /\
                forall k c, vget (chromosomes g1) k = Ok c ->
                  (from <= k < j /\ accepted c) \/
                  ((k < from \/ j <= k) /\ vget (chromosomes g) k = Ok c)))
      in E.
    + destruct E as [Hsize Hget]. split; [exact Hsize|].
      intros k c Ek. destruct (Hget k c Ek) as [[Hk Hc]|[Hk Ec]].
      * left. split; [lia|exact Hc].
      * right. split; [lia|exact Ec].
    + exact Hle.
    + split; [reflexivity|]. intros k c Ek. right. split; [lia|exact Ek].
    + intros j y y' t t' Hj [Hsize Hget] Ej.
      apply Hstep in Ej as (c & Hc & Ej).
      destruct (Z.ltb_spec j 0); [lia|].
      split; [rewrite (vsize_vset _ _ _ _ Ej); exact Hsize|].
      intros k c' Ek. destruct (Z.eq_dec k j) as [->|Hne].
      * rewrite (vget_vset_eq _ _ _ _ Ej) in Ek. injection Ek as <-.
        left. split; [lia|exact Hc].
      * rewrite (vget_vset_ne _ _ _ _ _ Ej Hne) in Ek.
        destruct (Hget k c' Ek) as [[Hk Hc']|[Hk Ec]].
        -- left. split; [lia|exact Hc'].
        -- right. split; [lia|exact Ec].
  - unfold efor_range in E. replace (Z.to_nat (to + 1 - from)) with O in E by lia.
    cbn [efor_loop] in E. unfold ret in E. injection E as _ <-.
    split; [reflexivity|]. intros k c Ek. right. split; [lia|exact Ek].
Qed.

(** A list that agrees with [l] on the slots of [l] and satisfies [P] on
    the others is [l] followed by elements that satisfy [P]. *)
Lemma nth_error_vget {A} (v : list A) (m : nat) (x : A) :
  nth_error v m = Some x -> vget v (Z.of_nat m) = Ok x.
Proof.
  intros E. destruct (vget_Ok v (Z.of_nat m)) as (x' & Ex & Ex').
  - assert (m < length v)%nat by (apply nth_error_Some; congruence).
    unfold vsize. lia.
  - rewrite Nat2Z.id in Ex'. congruence.
Qed.

Lemma appended_by_slots {A} (P : A -> Prop) (l l' : list A) (n : Z) :
  0 <= n -> vsize l' = vsize l + n ->
  (forall k c, vget l' k = Ok c ->
     (k < vsize l /\ vget l k = Ok c) \/ (vsize l <= k /\ P c)) ->
  exists added, l' = l ++ added /\ vsize added = n /\ Forall P added.
Proof.
  intros Hn Hsize Hget. exists (skipn (length l) l').
  assert (Hfirst : firstn (length l) l' = l).
  { apply nth_error_ext. intros m. rewrite nth_error_firstn.
    destruct (Nat.ltb_spec m (length l)) as [Hm|Hm].
    - destruct (nth_error l' m) as [x|] eqn:Em.
      + apply nth_error_vget in Em.
        destruct (Hget _ _ Em) as [[_ El]|[Hk _]]; [|unfold vsize in Hk; lia].
        apply vget_inv in El as [_ El]. rewrite Nat2Z.id in El. now rewrite El.
      + apply nth_error_None in Em. unfold vsize in Hsize. lia.
    - symmetry. now apply nth_error_None. }
  split; [|split].
  - transitivity (firstn (length l) l' ++ skipn (length l) l');
      [symmetry; apply firstn_skipn | now rewrite Hfirst].
  - unfold vsize in *. rewrite length_skipn. lia.
  - apply Forall_forall. intros x Hx.
    apply In_nth_error in Hx as [m Hm]. rewrite nth_error_skipn in Hm.
    apply nth_error_vget in Hm.
    destruct (Hget _ _ Hm) as [[Hk _]|[_ HP]]; [unfold vsize in Hk; lia|].
    exact HP.
Qed.

Lemma run_action_accepted (g g' : Generation) (N_add : Z)
  (s s' : State F G M) :
  user_request_stop cfg = false -> 0 <= N_add -> 1 <= N_threads cfg ->
  size g < 2 ^ 32 ->
  run_action default_genes default_middle_costs cfg action g N_add s
  = (s', Ok g') ->
  exists added,
    chromosomes g' = chromosomes g ++ added /\ vsize added = N_add /\
    Forall accepted added.
Proof.
  intros Hstop HN Hthreads Hsmall. unfold run_action.
  pose proof (vsize_nonneg (chromosomes g)) as Hnn.
  assert (Hoff : u32 (size g) = size g)
    by (unfold u32; apply Z.mod_small; lia).
  destruct (negb (multi_threading cfg) || (N_threads cfg =? 1)
            || is_interactive cfg) eqn:Eseq.
  - unfold sequential_action. rewrite Hstop. intros E.
    apply (efor_range_post
             (fun k (g1 : Generation) =>
                exists added,
                  chromosomes g1 = chromosomes g ++ added /\
                  vsize added = k /\ Forall accepted added)) in E.
    + exact E.
    + exact HN.
    + exists []. rewrite app_nil_r. repeat split. constructor.
    + intros k y y' t t' Hk (added & Ey & Hsize & Hall) Ek.
      apply action_appends in Ek as (c & Hc & Ek).
      exists (added ++ [c]). rewrite Ek, Ey, <- app_assoc.
      split; [reflexivity|].
      split; [rewrite vsize_app; unfold vsize at 2; cbn; lia|].
      apply Forall_app. split; [exact Hall|]. constructor; [exact Hc|constructor].
  - assert (Hpre : size (prefill default_genes default_middle_costs g N_add)
                   = size g + N_add).
    { unfold prefill. cbn [chromosomes set_chromosomes].
      rewrite vsize_app. unfold vsize at 2. rewrite repeat_length. lia. }
    assert (Hold : forall k c,
               vget (chromosomes
                       (prefill default_genes default_middle_costs g N_add)) k
               = Ok c ->
               k < size g -> vget (chromosomes g) k = Ok c).
    { intros k c Ek Hk. unfold prefill in Ek.
      cbn [chromosomes set_chromosomes] in Ek.
      apply vget_inv in Ek as Hr. destruct Hr as [Hr _].
      rewrite vget_app_l in Ek by lia. exact Ek. }
    intros E.
    apply (appended_by_slots accepted); [exact HN| |].
    + destruct (dynamic_threading cfg).
      * unfold dynamic_thread_action in E. rewrite Hstop, Hoff in E.
        apply (efor_range_post
                 (fun _ (g1 : Generation) => size g1 = size g + N_add)) in E;
          [exact E | exact HN | exact Hpre |].
        intros k y y' t t' Hk Hy Ek.
        apply action_fills in Ek as [Ek _]; lia.
      * unfold static_thread_action in E. rewrite Hoff in E.
        apply ebind_Ok in E as (s1 & [g1 x_end] & E1 & E).
        unfold ret in E. injection E as _ <-.
        apply (efor_range_post
                 (fun _ '(g1, x_index_start) =>
                    size g1 = size g + N_add /\ 0 <= x_index_start)) in E1.
        -- exact (proj1 E1).
        -- lia.
        -- split; [exact Hpre | lia].
        -- intros k [y x_start] [y' x_start'] t t' Hk [Hy Hx] Ek.
           apply ebind_Ok in Ek as (t1 & y1 & Ey & Ek).
           unfold ret in Ek. injection Ek as _ <- <-.
           assert (Hy1 : size y1 = size y).
           { destruct (x_start <=? _) in Ey.
             - apply action_fills in Ey as [Ey _]; [exact Ey | exact Hx].
             - unfold ret in Ey. injection Ey as _ <-. reflexivity. }
           split; [lia|].
           destruct (k + 1 =? N_threads cfg); lia.
    + destruct (dynamic_threading cfg).
      * unfold dynamic_thread_action in E. rewrite Hstop, Hoff in E.
        apply (efor_range_post
                 (fun x (g1 : Generation) =>
                    size g1 = size g + N_add /\
                    forall k c, vget (chromosomes g1) k = Ok c ->
                      (k < size g /\ vget (chromosomes g) k = Ok c) \/
                      (size g <= k < size g + x /\ accepted c) \/
                      size g + x <= k)) in E.
        -- destruct E as [Hsize Hget]. intros k c Ek.
           destruct (Hget k c Ek) as [Hl|[[Hk Hc]|Hk]].
           ++ left. exact Hl.
           ++ right. split; [lia|exact Hc].
           ++ apply vget_inv in Ek as [Hr _]. lia.
        -- exact HN.
        -- split; [exact Hpre|]. intros k c Ek.
           destruct (Z_lt_le_dec k (size g)) as [Hk|Hk].
           ++ left. split; [exact Hk|]. now apply Hold.
           ++ right. right. lia.
        -- intros x y y' t t' Hx [Hsize Hget] Ex.
           apply action_fills in Ex as [Hsize' Hget']; [|lia].
           split; [lia|]. intros k c Ek.
           destruct (Hget' k c Ek) as [[Hk Hc]|[Hk Ec]].
           ++ right. left. split; [lia|exact Hc].
           ++ destruct (Hget k c Ec) as [Hl|[[Hk' Hc]|Hk']].
              ** left. exact Hl.
              ** right. left. split; [lia|exact Hc].
              ** right. right. lia.
      * unfold static_thread_action in E. rewrite Hoff in E.
        apply ebind_Ok in E as (s1 & [g1 x_end] & E1 & E).
        unfold ret in E. injection E as _ <-.
        apply (efor_range_post
                 (fun i '(g1, x_index_start) =>
                    size g1 = size g + N_add /\
                    size g <= x_index_start <= size g + N_add /\
                    (i = N_threads cfg -> x_index_start = size g + N_add) /\
                    forall k c, vget (chromosomes g1) k = Ok c ->
                      (k < size g /\ vget (chromosomes g) k = Ok c) \/
                      (size g <= k < x_index_start /\ accepted c) \/
                      x_index_start <= k)) in E1.
        -- destruct E1 as (Hsize & Hx & Hlast & Hget). intros k c Ek.
           destruct (Hget k c Ek) as [Hl|[[Hk Hc]|Hk]].
           ++ left. exact Hl.
           ++ right. split; [lia|exact Hc].
           ++ apply vget_inv in Ek as [Hr _]. specialize (Hlast eq_refl). lia.
        -- lia.
        -- split; [exact Hpre|]. split; [lia|]. split; [lia|].
           intros k c Ek.
           destruct (Z_lt_le_dec k (size g)) as [Hk|Hk].
           ++ left. split; [exact Hk|]. now apply Hold.
           ++ right. right. lia.
        -- intros i [y x_start] [y' x_start'] t t' Hi
             (Hsize & Hx & _ & Hget) Ei.
           apply ebind_Ok in Ei as (t1 & y1 & Ey & Ei).
           unfold ret in Ei. injection Ei as _ <- <-.
           set (pop_chunk := Z.max (Z.quot N_add (N_threads cfg)) 1) in *.
           assert (Hchunk : 1 <= pop_chunk) by (unfold pop_chunk; lia).
           clearbody pop_chunk.
           set (x_index_end :=
                  if i + 1 =? N_threads cfg then size y - 1
                  else Z.min (x_start + pop_chunk - 1) (size y - 1)) in *.
           assert (Hend : x_index_end <= size y - 1 /\
                          (x_start <= x_index_end \/
                           (x_start = size y /\ x_index_end = size y - 1)) /\
                          (i + 1 = N_threads cfg -> x_index_end = size y - 1)).
           { unfold x_index_end.
             destruct (Z.eqb_spec (i + 1) (N_threads cfg)); lia. }
           clearbody x_index_end.
           destruct (Z.leb_spec x_start x_index_end) as [Hrun|Hskip].
           ++ apply action_fills in Ey as [Hsize' Hget']; [|lia].
              split; [lia|]. split; [lia|]. split; [lia|].
              intros k c Ek.
              destruct (Hget' k c Ek) as [[Hk Hc]|[Hk Ec]].
              ** right. left. split; [lia|exact Hc].
              ** destruct (Hget k c Ec) as [Hl|[[Hk' Hc]|Hk']].
                 --- left. exact Hl.
                 --- right. left. split; [lia|exact Hc].
                 --- right. right. lia.
           ++ unfold ret in Ey. injection Ey as _ <-.
              split; [lia|]. split; [lia|]. split; [lia|].
              intros k c Ek.
              destruct (Hget k c Ek) as [Hl|[[Hk' Hc]|Hk']].
              ** left. exact Hl.
              ** right. left. split; [lia|exact Hc].
              ** right. right. lia.
Qed.

End Drivers.
Lemma add_user_solutions_accepted (solutions : list G) :
  forall g0 g1 : Generation,
    add_user_solutions default_middle_costs cfg solutions g0 = Ok g1 ->
    Forall accepted (chromosomes g0) ->
    Forall accepted (chromosomes g1) /\
    size g1 <= Z.max (size g0 + 1) (population cfg).
Proof.
  induction solutions as [|solution rest IH]; intros g0 g1 E Hall;
    cbn [add_user_solutions] in E.
  - injection E as <-. split; [exact Hall|lia].
  - destruct (init_population_try cfg g0 _ (-1)) as [[success g0']| | |] eqn:Etry;
      cbn [bind] in E; try discriminate.
    unfold init_population_try in Etry.
    apply evaluate_and_place_accepted in Etry; [|reflexivity].
    assert (Hg0' : Forall accepted (chromosomes g0') /\ size g0' <= size g0 + 1).
    { destruct success.
      - destruct Etry as (c & Hc & Ec). cbn in Ec. rewrite Ec. split.
        + apply Forall_app. split; [exact Hall|].
          constructor; [exact Hc|constructor].
        + rewrite vsize_app. unfold vsize at 2. cbn. lia.
      - subst g0'. split; [exact Hall|lia]. }
    destruct Hg0' as [Hall' Hsize'].
    destruct (Z.leb_spec (population cfg) (size g0')) as [Hfull|Hroom].
    + injection E as <-. split; [exact Hall'|lia].
    + destruct (IH _ _ E Hall') as [Hall1 Hsize1]. split; [exact Hall1|lia].
Qed.

(** X27.  In a non-interactive mode with no stop requested, at least one
    thread and [0 <= population < 2^31], whichever driver is configured,
    every chromosome of the generation [init_population] returns was
    accepted by [eval_solution], which returned its middle costs: no slot
    that the thread drivers pre-fill with a default chromosome is left
    unfilled, and a user solution that is rejected is not kept. *)
Theorem init_population_accepted (fuel : nat) (generation0 g' : Generation)
  (s s' : State F G M) :
  user_request_stop cfg = false ->
  1 <= N_threads cfg ->
  0 <= population cfg < 2 ^ 31 ->
  init_population default_genes default_middle_costs fuel cfg generation0 s
  = (s', Ok g') ->
  Forall accepted (chromosomes g').
Proof.
  intros Hstop Hthreads HP E. unfold init_population in E.
  apply ebind_Ok in E as (s1 & g0 & E0 & E).
  unfold lift in E0. injection E0 as _ E0.
  cbn [chromosomes set_chromosomes] in E.
  change (vsize (@nil (ChromosomeType F G M))) with 0 in E.
  change (u32 0) with 0 in E.
  assert (EN : u32 (Z.max 0 (population cfg - 0)) = population cfg)
    by (unfold u32; rewrite Z.sub_0_r, Z.max_r by lia; apply Z.mod_small; lia).
  rewrite EN in E.
  apply add_user_solutions_accepted in E0 as [Hall0 Hsize0]; [|constructor].
  cbn [chromosomes set_chromosomes] in Hsize0.
  change (vsize (@nil (ChromosomeType F G M))) with 0 in Hsize0.
  unfold init_population_range in E.
  apply (run_action_accepted
           (fun g index =>
              init_until_accepted default_genes default_middle_costs fuel cfg
                g index)) in E.
  - destruct E as (added & -> & _ & Hadded). apply Forall_app. now split.
  - intros g1 g2 index t t'. apply init_until_accepted_placed.
  - exact Hstop.
  - lia.
  - exact Hthreads.
  - lia.
Qed.

(** X28.  In a non-interactive mode with no stop requested, the three
    checks passed, at least one thread and the step counter beyond 0,
    whichever driver is configured, on a generation of fewer than 2^32
    chromosomes [crossover_and_mutation] leaves the chromosomes it is
    given in place and appends the offspring after them,
    [round(population * crossover_fraction)] chromosomes that
    [eval_solution] accepted. *)
Theorem crossover_and_mutation_offspring (fuel : nat) (g g' : Generation)
  (s s' : State F G M) :
  user_request_stop cfg = false ->
  variation_error cfg = None ->
  1 <= N_threads cfg ->
  0 < generation_step s ->
  size g < 2 ^ 32 ->
  crossover_and_mutation default_genes default_middle_costs fuel cfg g s
  = (s', Ok g') ->
  exists offspring,
    chromosomes g' = chromosomes g ++ offspring /\
    vsize offspring
    = u32 (d_round (d_mul (d_of_int (population cfg))
                      (crossover_fraction cfg))) /\
    Forall accepted offspring.
Proof.
  intros Hstop Herr Hthreads Hstep Hsmall E.
  unfold crossover_and_mutation in E. rewrite Hstop in E.
  unfold variation_error, crossover_fraction_out_of_range,
    mutation_rate_out_of_range, interactive_fractions_mismatch in Herr.
  destruct (d_leb (crossover_fraction cfg) (d_of_int 0)
            || d_gtb (crossover_fraction cfg) (d_of_int 1)); [discriminate|].
  destruct (d_ltb (mutation_rate cfg) (d_of_int 0)
            || d_gtb (mutation_rate cfg) (d_of_int 1)); [discriminate|].
  unfold ebind, get_state in E.
  destruct (Z.leb_spec (generation_step s) 0) as [Hle|_]; [lia|].
  match type of Herr with
  | (if ?b then _ else _) = _ => destruct b; [discriminate|]
  end.
  unfold crossover_and_mutation_range in E.
  apply (run_action_accepted
           (fun g index =>
              vary_until_successful default_middle_costs fuel cfg g index))
    in E.
  - exact E.
  - intros g1 g2 index t t'. apply vary_until_successful_placed.
  - exact Hstop.
  - unfold u32. apply Z.mod_pos_bound. lia.
  - exact Hthreads.
  - exact Hsmall.
Qed.

End Accepted.

(* ----------------------------------------------------------------- *)
(** ** What the multi-objective selection keeps *)

Section SelectionMO.
Context {F : Type} `{Double F} {Inf : Infinite F} {G M : Type}.

Local Notation Method := (Eng F G M).
Local Notation Generation := (GenerationType F G M).
Local Notation size g := (vsize (chromosomes g)).

(** Copying the chromosomes of [g] listed in [indices] to the end of
    [g2]. *)
Lemma push_back_listed (g : Generation) (indices : list Z) :
  forall g2 g2' : Generation,
    for_each indices
      (fun i g2 => c <- vget (chromosomes g) i ;; Ok (push_back_chromosome g2 c))
      g2 = Ok g2' ->
    exists cs, chromosomes g2' = chromosomes g2 ++ cs /\
               vsize cs = vsize indices /\
               Forall (fun c => In c (chromosomes g)) cs.
Proof.
  induction indices as [|i indices IH]; intros g2 g2' E; cbn [for_each] in E.
  - injection E as <-. exists []. rewrite app_nil_r. repeat split. constructor.
  - destruct (vget (chromosomes g) i) as [c| | |] eqn:Ec; cbn [bind] in E;
      try discriminate.
    apply IH in E as (cs & E & Hsize & Hall).
    unfold push_back_chromosome in E. cbn [chromosomes set_chromosomes] in E.
    exists (c :: cs). rewrite E, <- app_assoc. split; [reflexivity|].
    split; [rewrite !vsize_cons; lia|].
    constructor; [exact (vget_In _ _ _ Ec)|exact Hall].
Qed.

Lemma take_fronts_fits (cfg : Settings F G M) (g : Generation) (fuel : nat) :
  forall (g2 g2' : Generation) (index index' : Z),
    take_fronts fuel cfg g g2 index = Ok (g2', index') ->
    size g2 <= population cfg ->
    Forall (fun c => In c (chromosomes g)) (chromosomes g2) ->
    size g2' <= population cfg /\
    Forall (fun c => In c (chromosomes g)) (chromosomes g2').
Proof.
  induction fuel as [|fuel IH]; intros g2 g2' index index' E Hfit Hall;
    cbn [take_fronts] in E;
    destruct (vget (fronts g) index) as [front| | |]; cbn [bind] in E;
    try discriminate;
    destruct (Z.leb_spec (size g2 + vsize front) (population cfg)) as [Hle|Hgt];
    try discriminate.
  - injection E as <- _. now split.
  - match type of E with
    | bind ?loop _ = _ => destruct loop as [g3| | |] eqn:Epush
    end; cbn [bind] in E; try discriminate.
    apply push_back_listed in Epush as (cs & E3 & Hsize & Hcs).
    apply IH in E; [exact E | |].
    + rewrite E3, vsize_app. lia.
    + rewrite E3. apply Forall_app. now split.
  - injection E as <- _. now split.
Qed.

(** One step of the niching loop selects at most one chromosome more. *)
Lemma niching_step_adds_one (cfg : Settings F G M) (g : Generation)
  (associated : list Z) (dists : Matrix.t F)
  (last_front to_add niche last_front' to_add' niche' : list Z)
  (s s' : State F G M) :
  niching_step cfg g associated dists (last_front, to_add, niche) s
  = (s', Ok (last_front', to_add', niche')) ->
  vsize to_add <= vsize to_add' <= vsize to_add + 1.
Proof.
  unfold niching_step. intros E.
  destruct (negb (enable_reference_vectors cfg)).
  - apply ebind_Ok in E as (s1 & r & _ & E).
    apply ebind_Ok in E as (s2 & e & _ & E).
    unfold ret in E. injection E as _ _ <- _.
    rewrite vsize_app. unfold vsize at 3 5. cbn. lia.
  - apply ebind_Ok in E as (s1 & neighbors & _ & E).
    destruct (vsize neighbors =? 0).
    + apply ebind_Ok in E as (s2 & niche1 & _ & E).
      unfold ret in E. injection E as _ _ <- _. lia.
    + apply ebind_Ok in E as (s2 & count & _ & E).
      apply ebind_Ok in E as (s3 & next_member_index & _ & E).
      apply ebind_Ok in E as (s4 & to_add_index & _ & E).
      apply ebind_Ok in E as (s5 & to_del_front & _ & E).
      apply ebind_Ok in E as (s6 & count' & _ & E).
      apply ebind_Ok in E as (s7 & niche1 & _ & E).
      unfold ret in E. injection E as _ _ <- _.
      rewrite vsize_app. unfold vsize at 3 5. cbn. lia.
Qed.

(** The niching loop stops when the selection is complete, not beyond. *)
Lemma niching_loop_completes (cfg : Settings F G M) (g : Generation)
  (selected : Z) (associated : list Z) (dists : Matrix.t F) (fuel : nat) :
  forall (last_front to_add niche last_front' to_add' niche' : list Z)
         (s s' : State F G M),
    niching_loop fuel cfg g selected associated dists
      (last_front, to_add, niche) s
    = (s', Ok (last_front', to_add', niche')) ->
    selected + vsize to_add <= population cfg ->
    selected + vsize to_add' = population cfg.
Proof.
  induction fuel as [|fuel IH];
    intros last_front to_add niche last_front' to_add' niche' s s' E Hfit;
    cbn [niching_loop] in E;
    destruct (Z.ltb_spec (selected + vsize to_add) (population cfg))
      as [Hlt|Hge]; try discriminate.
  - unfold ret in E. injection E as _ _ <- _. lia.
  - apply ebind_Ok in E as (s1 & [[lf1 ta1] nc1] & E1 & E).
    apply niching_step_adds_one in E1.
    apply IH in E; [exact E | lia].
  - unfold ret in E. injection E as _ _ <- _. lia.
Qed.

(** X29.  [select_population_MO] at a step above 0, with
    [population >= 0]: when it returns, the generation it returns has
    exactly [population] chromosomes, each of them a chromosome of [g].
    At a step of 0 or below it returns [g] itself. *)
Theorem select_population_MO_takes_population (cfg : Settings F G M) fuel
  (g g2 g' : Generation) (s s' : State F G M) :
  0 <= population cfg ->
  select_population_MO cfg fuel g g2 s = (s', Ok g') ->
  (generation_step s <= 0 -> g' = g) /\
  (0 < generation_step s ->
   size g' = population cfg /\
   Forall (fun c => In c (chromosomes g)) (chromosomes g')).
Proof.
  intros HP E. unfold select_population_MO in E.
  apply ebind_Ok in E as (s1 & [] & E1 & E).
  apply (keeps_progress_run _ s s1) in E1;
    [|apply keeps_progress_update_ideal_objectives].
  destruct E1 as [_ Estep]. rewrite <- Estep.
  apply ebind_Ok in E as (s2 & s1' & E2 & E).
  unfold get_state in E2. injection E2 as <- <-.
  destruct (Z.leb_spec (generation_step s1) 0) as [Hle|Hgt].
  - unfold ret in E. injection E as _ <-. split; [reflexivity|lia].
  - split; [lia|]. intros _.
    destruct (N_robj s1 =? 0); [discriminate|].
    apply ebind_Ok in E as (s3 & zb & _ & E).
    apply ebind_Ok in E as (s4 & [] & _ & E).
    apply ebind_Ok in E as (s5 & s4' & _ & E).
    apply ebind_Ok in E as (s6 & intercepts & _ & E).
    apply ebind_Ok in E as (s7 & norm & _ & E).
    destruct (Z.eqb_spec (size g) (population cfg)) as [Hall|Hmore].
    + unfold ret in E. injection E as _ <-. split; [exact Hall|].
      apply Forall_forall. auto.
    + apply ebind_Ok in E as (s8 & [] & _ & E).
      apply ebind_Ok in E as (s9 & s8' & _ & E).
      apply ebind_Ok in E as (s10 & a & _ & E).
      apply ebind_Ok in E as (s11 & [g3 last_front_index] & E3 & E).
      apply ebind_Ok in E as (s12 & last_front & _ & E).
      apply ebind_Ok in E as (s13 & [[lf to_add] nc] & Eloop & E).
      unfold lift in E3, E. injection E3 as _ E3. injection E as _ E.
      apply take_fronts_fits in E3 as [Hfit Hin].
      * apply niching_loop_completes in Eloop;
          [|unfold vsize at 2; cbn; lia].
        apply push_back_listed in E as (cs & E & Hsize & Hcs).
        rewrite E. split.
        -- rewrite vsize_app. lia.
        -- apply Forall_app. now split.
      * cbn [chromosomes set_chromosomes]. unfold vsize. cbn. lia.
      * cbn [chromosomes set_chromosomes]. constructor.
Qed.

End SelectionMO.

Lemma select_population_SO_takes_population_witness :
  (generation_step (set_generation_step sphere_after_init 1) <= 0 ->
   returned sphere_selection = last_generation sphere_after_init) /\
  (0 < generation_step (set_generation_step sphere_after_init 1) ->
   exists elite rest,
     chromosomes (returned sphere_selection)
     = chromosomes (mkGeneration [] (d_of_int 0) (d_of_int 0) (-1) [] [] [])
       ++ elite ++ rest /\
     vsize elite = elite_count sphere_settings /\
     vsize rest = population sphere_settings - elite_count sphere_settings /\
     (forall i, 0 <= i < elite_count sphere_settings ->
        exists e c,
          vget (sorted_indices (last_generation sphere_after_init)) i = Ok e /\
          vget (chromosomes (last_generation sphere_after_init)) e = Ok c /\
          vget elite i = Ok c) /\
     Forall (fun c => In c (chromosomes (last_generation sphere_after_init)))
       (elite ++ rest)).
Proof.
  apply (select_population_SO_takes_population sphere_settings 50
           (last_generation sphere_after_init)
           (mkGeneration [] (d_of_int 0) (d_of_int 0) (-1) [] [] [])
           (returned sphere_selection)
           (set_generation_step sphere_after_init 1) (fst sphere_selection)).
  - vm_compute. split; discriminate.
  - apply (returned_result sphere_selection).
    eexists. vm_compute. reflexivity.
Defined.

Lemma rank_population_MO_first_front_witness :
  exists gen',
    rank_population_MO (settings_MO 4) pareto_generation = Ok gen' /\
    fronts gen' = [[0; 1; 3]; [2]] /\
    chromosomes gen' = chromosomes pareto_generation /\
    exists pareto_front later,
      fronts gen' = pareto_front :: later /\
      StronglySorted Z.lt pareto_front /\
      forall i, In i pareto_front <->
        0 <= i < vsize (chromosomes pareto_generation) /\
        forall j cj ci, j <> i ->
          vget (chromosomes pareto_generation) j = Ok cj ->
          vget (chromosomes pareto_generation) i = Ok ci ->
          dominates cj ci <> Ok true.
Proof.
  eexists. split; [vm_compute; reflexivity|]. split; [reflexivity|].
  apply (rank_population_MO_first_front pareto_generation (settings_MO 4)).
  vm_compute. reflexivity.
Defined.

Lemma init_population_accepted_witness :
  Forall
    (fun c : ChromosomeType float float float =>
       exists eval,
         eval_solution sphere_settings = Some eval /\
         eval (genes c) (d_of_int 0) = Some (middle_costs c))
    (chromosomes (returned sphere_population0)).
Proof.
  apply (init_population_accepted (d_of_int 0) (d_of_int 0) sphere_settings
           eq_refl 50
           (mkGeneration [] (d_of_int 0) (d_of_int 0) (-1) [] [] [])
           (returned sphere_population0) sphere_start (fst sphere_population0)).
  - reflexivity.
  - vm_compute. discriminate.
  - vm_compute. split; [discriminate|reflexivity].
  - apply (returned_result sphere_population0).
    eexists. vm_compute. reflexivity.
Defined.

Lemma crossover_and_mutation_offspring_witness :
  exists offspring,
    chromosomes (returned sphere_offspring)
    = chromosomes (last_generation sphere_after_init) ++ offspring /\
    vsize offspring
    = u32 (d_round (d_mul (d_of_int (population sphere_settings))
                      (crossover_fraction sphere_settings))) /\
    Forall
      (fun c : ChromosomeType float float float =>
         exists eval,
           eval_solution sphere_settings = Some eval /\
           eval (genes c) (d_of_int 0) = Some (middle_costs c))
      offspring.
Proof.
  apply (crossover_and_mutation_offspring (d_of_int 0) (d_of_int 0)
           sphere_settings eq_refl 50 (last_generation sphere_after_init)
           (returned sphere_offspring)
           (set_generation_step sphere_after_init 1) (fst sphere_offspring)).
  - reflexivity.
  - vm_compute. reflexivity.
  - vm_compute. discriminate.
  - reflexivity.
  - vm_compute. reflexivity.
  - apply (returned_result sphere_offspring).
    eexists. vm_compute. reflexivity.
Defined.

Lemma select_population_MO_takes_population_witness :
  (generation_step pareto_state <= 0 ->
   returned pareto_selection = pareto_ranked) /\
  (0 < generation_step pareto_state ->
   vsize (chromosomes (returned pareto_selection)) = population (settings_MO 2) /\
   Forall (fun c => In c (chromosomes pareto_ranked))
     (chromosomes (returned pareto_selection))).
Proof.
  apply (select_population_MO_takes_population (settings_MO 2) 50
           pareto_ranked empty_generation (returned pareto_selection)
           pareto_state (fst pareto_selection)).
  - vm_compute. discriminate.
  - apply (returned_result pareto_selection).
    eexists. vm_compute. reflexivity.
Defined.

Lemma associate_to_references_counts_every_chromosome_witness :
  exists a,
    associate_to_references pareto_reference pareto_generation
      pareto_normalized = Ok a /\
    niche_count a = [1; 2; 1] /\
    forall i, 0 <= i < vsize (chromosomes pareto_generation) ->
      exists j count,
        vget (associated_ref_vector a) i = Ok j /\
        vget (niche_count a) j = Ok count /\ 1 <= count.
Proof.
  eexists. split; [vm_compute; reflexivity|]. split; [reflexivity|].
  apply (associate_to_references_counts_every_chromosome pareto_reference
           pareto_generation pareto_normalized).
  - vm_compute. reflexivity.
  - vm_compute. reflexivity.
Defined.

Lemma generate_selection_chance_complete_generation_witness :
  exists table,
    generate_selection_chance 2 two_cost_generation [1; 0]
    = Ok (set_selection_chance_cumulative two_cost_generation table) /\
    vsize table = 2 /\
    vget table (2 - 1) = Ok 1%R /\
    forall i j ci cj, i < j -> vget table i = Ok ci -> vget table j = Ok cj ->
                      (ci < cj)%R.
Proof.
  apply (generate_selection_chance_complete_generation 2 two_cost_generation
           [1; 0]).
  - unfold vsize. cbn. lia.
  - reflexivity.
  - lia.
  - reflexivity.
  - repeat constructor; lia.
Defined.

(* ----------------------------------------------------------------- *)
(** ** The niching loop and the niche counts *)

Section Niching.
Context {F : Type} `{Double F} {G M : Type}.

Lemma lift_Ok {A} (o : outcome A) (s s' : State F G M) (x : A) :
  lift o s = (s', Ok x) -> o = Ok x.
Proof. unfold lift. intros E. exact (f_equal snd E). Qed.

Lemma In_firstn_inv {A} (n : nat) (l : list A) (x : A) :
  In x (firstn n l) -> In x l.
Proof.
  revert l. induction n as [|n IH]; intros [|y l]; cbn; try tauto.
  intros [->|Hx]; [now left | right; now apply IH].
Qed.

Lemma In_skipn_inv {A} (n : nat) (l : list A) (x : A) :
  In x (skipn n l) -> In x l.
Proof.
  revert l. induction n as [|n IH]; intros [|y l]; cbn; try tauto.
  intros Hx. right. now apply IH.
Qed.

Lemma In_erase {A} (l : list A) (k : Z) (x : A) : In x (erase l k) -> In x l.
Proof.
  unfold erase. intros Hx. apply in_app_or in Hx as [Hx|Hx].
  - exact (In_firstn_inv _ _ _ Hx).
  - exact (In_skipn_inv _ _ _ Hx).
Qed.

(** The table of [associate_to_references]: one reference vector for each
    chromosome, and in [niche_count] the number of chromosomes of the whole
    generation associated with each vector. *)
Lemma associate_to_references_table (reference : Matrix.t F)
  (gen : GenerationType F G M) (norm_objectives : Matrix.t F)
  (a : @Association F) :
  vsize (chromosomes gen) < 2 ^ 32 ->
  associate_to_references reference gen norm_objectives = Ok a ->
  vsize (associated_ref_vector a) = vsize (chromosomes gen) /\
  (forall j c, vget (niche_count a) j = Ok c ->
               0 <= c <= vsize (chromosomes gen)) /\
  (forall i j, vget (associated_ref_vector a) i = Ok j ->
               exists c, vget (niche_count a) j = Ok c /\ 1 <= c).
Proof.
  intros Hsize E.
  pose proof (vsize_nonneg (chromosomes gen)) as Hnonneg.
  assert (HN : u32 (vsize (chromosomes gen)) = vsize (chromosomes gen))
    by (unfold u32; apply Z.mod_small; lia).
  unfold associate_to_references, for_range in E. rewrite HN in E.
  apply (for_loop_post
           (fun (k : Z) (a : @Association F) =>
              vsize (associated_ref_vector a) = vsize (chromosomes gen) /\
              (forall j c, vget (niche_count a) j = Ok c -> 0 <= c <= k) /\
              (forall i, 0 <= i < k ->
                 exists j count,
                   vget (associated_ref_vector a) i = Ok j /\
                   vget (niche_count a) j = Ok count /\ 1 <= count))) in E.
  - replace (0 + Z.of_nat (Z.to_nat (vsize (chromosomes gen) - 0)))
      with (vsize (chromosomes gen)) in E by lia.
    destruct E as (Hlen & Hcounts & Hdone).
    split; [exact Hlen|]. split; [exact Hcounts|].
    intros i j Ei. pose proof (vget_inv _ _ _ Ei) as [Hi _].
    destruct (Hdone i) as (j' & c & Ei' & Ec & Hc); [lia|].
    rewrite Ei in Ei'. injection Ei' as <-. now exists c.
  - cbn. split; [|split].
    + unfold vsize. now rewrite repeat_length.
    + intros j c Ec. apply vget_repeat in Ec. lia.
    + intros i Hi. lia.
  - intros k a0 a1 Hk (Hlen & Hcounts & Hdone) Ebody.
    match type of Ebody with
    | bind ?inner _ = _ => destruct inner as [[[dist_min j0] dists]| | |]
    end; try discriminate.
    cbn [bind] in Ebody.
    destruct (vset (associated_ref_vector a0) k j0) as [associated| | |] eqn:Ea;
      try discriminate. cbn [bind] in Ebody.
    destruct (vset (distance_ref_vector a0) k dist_min) as [distance| | |];
      try discriminate. cbn [bind] in Ebody.
    destruct (vget (niche_count a0) j0) as [count0| | |] eqn:Ec;
      try discriminate. cbn [bind] in Ebody.
    destruct (vset (niche_count a0) j0 (u32 (count0 + 1))) as [niche| | |] eqn:En;
      try discriminate. cbn [bind] in Ebody.
    injection Ebody as <-.
    cbn [niche_count associated_ref_vector].
    pose proof (Hcounts j0 count0 Ec) as Hc0.
    assert (Hu : u32 (count0 + 1) = count0 + 1)
      by (unfold u32; apply Z.mod_small; lia).
    rewrite Hu in En.
    assert (Hniche : forall j c, vget (niche_count a0) j = Ok c ->
                       exists c', vget niche j = Ok c' /\ c <= c' <= c + 1).
    { intros j c Ej. destruct (Z.eq_dec j j0) as [->|Hne].
      - exists (count0 + 1). split; [exact (vget_vset_eq _ _ _ _ En)|].
        rewrite Ec in Ej. injection Ej as <-. lia.
      - exists c. split; [|lia].
        rewrite (vget_vset_ne _ _ _ _ _ En Hne). exact Ej. }
    split; [|split].
    + rewrite (vsize_vset _ _ _ _ Ea). exact Hlen.
    + intros j c Ej. destruct (Z.eq_dec j j0) as [->|Hne].
      * rewrite (vget_vset_eq _ _ _ _ En) in Ej. injection Ej as <-. lia.
      * rewrite (vget_vset_ne _ _ _ _ _ En Hne) in Ej.
        specialize (Hcounts j c Ej). lia.
    + intros i Hi. destruct (Z.eq_dec i k) as [->|Hne].
      * exists j0, (count0 + 1).
        split; [exact (vget_vset_eq _ _ _ _ Ea)|].
        split; [exact (vget_vset_eq _ _ _ _ En) | lia].
      * destruct (Hdone i) as (j & c & Ei & Ej & Hc); [lia|].
        destruct (Hniche j c Ej) as (c' & Ej' & Hc').
        exists j, c'.
        split; [rewrite (vget_vset_ne _ _ _ _ _ Ea Hne); exact Ei|].
        split; [exact Ej' | lia].
Qed.

(** [min_vec_neighbors]: the members of the remaining front associated
    with the chosen vector, and no other. *)
Lemma min_vec_neighbors_members (associated : list Z) (j : Z)
  (front : list Z) :
  forall acc neighbors,
    for_each front
      (fun i neighbors =>
         a <- vget associated i ;;
         Ok (if a =? j then neighbors ++ [i] else neighbors))
      acc = Ok neighbors ->
    forall i, In i neighbors <->
              In i acc \/ (In i front /\ vget associated i = Ok j).
Proof.
  induction front as [|x front IH]; intros acc neighbors E i;
    cbn [for_each] in E.
  - injection E as <-. cbn [In]. tauto.
  - destruct (vget associated x) as [a| | |] eqn:Ea; cbn [bind] in E;
      try discriminate.
    rewrite (IH _ _ E i). cbn [In].
    destruct (Z.eqb_spec a j) as [->|Hne].
    + rewrite in_app_iff. cbn [In]. split.
      * intros [[Hacc|[<-|[]]]|[Hin Hi]]; auto.
      * intros [Hacc|[[<-|Hin] Hi]]; auto.
    + split.
      * intros [Hacc|[Hin Hi]]; auto.
      * intros [Hacc|[[<-|Hin] Hi]]; auto.
        rewrite Ea in Hi. injection Hi as ->. contradiction.
Qed.

Variable cfg : Settings F G M.
Variable g : GenerationType F G M.
Variable selected : Z.
Variable associated : list Z.
Variable dists : Matrix.t F.
Hypothesis Hselected : 0 <= selected.
Hypothesis Hbound : 10 * vsize (chromosomes g) + population cfg < 2 ^ 32.

(** What the loop keeps: every remaining member of the last front is
    counted in the niche of its vector, and no count has wrapped. *)
Local Notation counted st :=
  ((forall i j, In i (fst (fst st)) -> vget associated i = Ok j ->
                exists c, vget (snd st) j = Ok c /\ 1 <= c) /\
   (forall j c, vget (snd st) j = Ok c ->
                0 <= c <= 10 * vsize (chromosomes g) + vsize (snd (fst st)))).

Lemma niching_step_counted (st st' : list Z * list Z * list Z)
  (s s' : State F G M) :
  selected + vsize (snd (fst st)) < population cfg ->
  counted st ->
  niching_step cfg g associated dists st s = (s', Ok st') ->
  counted st'.
Proof.
  destruct st as [[front to_add] niche]. cbn [fst snd].
  intros Hguard [Hmembers Hcounts] E.
  pose proof (vsize_nonneg (chromosomes g)) as HN.
  pose proof (vsize_nonneg to_add) as Hadd.
  unfold niching_step in E.
  destruct (negb (enable_reference_vectors cfg)).
  - apply ebind_Ok in E as (s1 & r & _ & E).
    apply ebind_Ok in E as (s2 & e & _ & E).
    unfold ret in E. injection E as _ <-. cbn [fst snd]. split.
    + intros i j Hi. apply Hmembers. exact (In_erase _ _ _ Hi).
    + intros j c Ec. specialize (Hcounts j c Ec). rewrite vsize_app.
      change (vsize [e]) with 1. lia.
  - apply ebind_Ok in E as (s1 & neighbors & En & E).
    apply lift_Ok in En.
    pose proof (min_vec_neighbors_members _ _ _ _ _ En) as Hneighbors.
    destruct (Z.eqb_spec (vsize neighbors) 0) as [Hempty|Hsome].
    + apply ebind_Ok in E as (s2 & niche1 & Ev & E).
      apply lift_Ok in Ev.
      unfold ret in E. injection E as _ <-. cbn [fst snd].
      assert (Hnil : neighbors = []).
      { destruct neighbors; [reflexivity|].
        unfold vsize in Hempty. cbn in Hempty. lia. }
      assert (Hu : u32 (10 * vsize (chromosomes g))
                   = 10 * vsize (chromosomes g))
        by (unfold u32; apply Z.mod_small; lia).
      rewrite Hu in Ev. split.
      * intros i j Hi Ej.
        destruct (Z.eq_dec j (index_of_min Z.ltb niche)) as [->|Hne].
        -- exfalso. assert (Hin : In i neighbors)
             by (apply Hneighbors; right; now split).
           rewrite Hnil in Hin. exact Hin.
        -- rewrite (vget_vset_ne _ _ _ _ _ Ev Hne). now apply (Hmembers i).
      * intros j c Ec.
        destruct (Z.eq_dec j (index_of_min Z.ltb niche)) as [->|Hne].
        -- rewrite (vget_vset_eq _ _ _ _ Ev) in Ec.
           assert (Hc : c = 10 * vsize (chromosomes g)) by congruence. lia.
        -- rewrite (vget_vset_ne _ _ _ _ _ Ev Hne) in Ec.
           exact (Hcounts j c Ec).
    + apply ebind_Ok in E as (s2 & count & _ & E).
      apply ebind_Ok in E as (s3 & next_member_index & _ & E).
      apply ebind_Ok in E as (s4 & to_add_index & _ & E).
      apply ebind_Ok in E as (s5 & to_del_front & _ & E).
      apply ebind_Ok in E as (s6 & count' & Ec' & E).
      apply ebind_Ok in E as (s7 & niche1 & Ev & E).
      apply lift_Ok in Ec'. apply lift_Ok in Ev.
      unfold ret in E. injection E as _ <-. cbn [fst snd].
      pose proof (Hcounts _ _ Ec') as Hc'.
      assert (Hu : u32 (count' + 1) = count' + 1)
        by (unfold u32; apply Z.mod_small; lia).
      rewrite Hu in Ev.
      assert (Hsub : forall i,
                 In i (if 0 <=? to_del_front then erase front to_del_front
                       else front) -> In i front).
      { intros i Hi. destruct (0 <=? to_del_front); [|exact Hi].
        exact (In_erase _ _ _ Hi). }
      split.
      * intros i j Hi Ej. apply Hsub in Hi.
        destruct (Z.eq_dec j (index_of_min Z.ltb niche)) as [->|Hne].
        -- exists (count' + 1).
           split; [exact (vget_vset_eq _ _ _ _ Ev) | lia].
        -- rewrite (vget_vset_ne _ _ _ _ _ Ev Hne). now apply (Hmembers i).
      * intros j c Ec. rewrite vsize_app.
        change (vsize [to_add_index]) with 1.
        destruct (Z.eq_dec j (index_of_min Z.ltb niche)) as [->|Hne].
        -- rewrite (vget_vset_eq _ _ _ _ Ev) in Ec.
           assert (Hc : c = count' + 1) by congruence. lia.
        -- rewrite (vget_vset_ne _ _ _ _ _ Ev Hne) in Ec.
           specialize (Hcounts j c Ec). lia.
Qed.

Lemma niching_visits_counted (x y : list Z * list Z * list Z * State F G M) :
  niching_visits cfg g selected associated dists x y ->
  counted (fst x) -> counted (fst y).
Proof.
  induction 1 as [x|front to_add niche s st' s' y Hguard Estep _ IH];
    [tauto|].
  intros Hx. apply IH.
  exact (niching_step_counted (front, to_add, niche) st' s s' Hguard Hx Estep).
Qed.

(** The state in which [niching_loop] leaves the loop is one of those it
    goes through. *)
Lemma niching_loop_visits (fuel : nat) :
  forall (st st' : list Z * list Z * list Z) (s s' : State F G M),
    niching_loop fuel cfg g selected associated dists st s = (s', Ok st') ->
    niching_visits cfg g selected associated dists (st, s) (st', s').
Proof.
  induction fuel as [|fuel IH]; intros [[front to_add] niche] st' s s' E;
    cbn [niching_loop] in E;
    destruct (Z.ltb_spec (selected + vsize to_add) (population cfg))
      as [Hlt|Hge]; try discriminate.
  - unfold ret in E. injection E as <- <-. apply niching_visits_entry.
  - apply ebind_Ok in E as (s1 & st1 & E1 & E).
    exact (niching_visits_step _ _ _ _ _ _ _ _ _ _ _ _ Hlt E1 (IH _ _ _ _ E)).
  - unfold ret in E. injection E as <- <-. apply niching_visits_entry.
Qed.

End Niching.


